(* ===== verification/_CoqProject ===== *)
-Q . S2P
Prelude.v
PyFloat.v
PyValue.v
Episode.v
Event.v
Outcome.v
CircuitBreaker.v
LoopGuard.v
Redis.v
Queue.v
QueueInv.v
QueueSafe.v
QueueApi.v
Json.v
Canonical.v
Attestation.v
HeadAnchor.v
LedgerDb.v
Ledger.v
LedgerVerify.v
Witness.v
LedgerForms.v
LedgerSound.v
LedgerWrites.v
LedgerHistory.v
LedgerTamper.v
LedgerRefs.v
LedgerDecision.v
TwinReceiver.v
TwinSafe.v
Base64.v
Custody.v
TwinShip.v
TwinDetector.v
TwinAudit.v
TwinPipeline.v
Supersession.v
SupersessionRuns.v
Regulatory.v
CohortChecks.v
CohortFacts.v
CohortSweep.v
CohortSweepFacts.v
Lens.v
Deck.v
DeckFacts.v
DeckRuns.v
Contract.v
ContractEgress.v
EgressFacts.v
ContractRetention.v
RetentionFacts.v
ContractAttestation.v
AttestationFacts.v
