(* ===== verification/Prelude.v ===== *)
(** * sentinel_os: a verification development

    sentinel_os decides, records and later re-examines automated decisions.  The
    parts modelled here are its custody core: what an episode and an event are,
    the outcome obligations a decision leaves open, the hash-chained ledger with
    its signatures, anchor and two verifiers, the customer's replica service that
    keeps a copy of it, the shipper that seals rows to it and the detector that
    compares the two, the sweeps that abandon replaced obligations and compare
    resolved ones across a cohort, the regulatory checks and the deck of lenses
    that runs them on live decisions, the data-use contracts with the chokepoint
    and the reports over them, the Redis-backed job queue, the circuit
    breaker and the loop guard.  All sources are under src/sentinel_os/.

    ** Layout

    - Prelude: results (a raised exception is [Err]), string and list lemmas.
    - PyFloat, PyValue: binary64 as Python uses it (round to nearest even, over
      the Standard Library's [spec_float]); dynamic values and dictionaries in
      insertion order.  Python integers are [Z].
    - Episode (episode.py), Event (event_v1.py), Outcome (outcome_v1.py): the
      data the program reasons about and its validators, reducers and state
      changes.
    - CircuitBreaker (circuit_breaker.py): the two critical sections of a call,
      a step relation over any interleaving of callers, and the sequential call.
    - LoopGuard (governance_loop_guard.py): bounded windows of output digests.
    - Redis, Queue, QueueInv, QueueSafe, QueueApi (queue_schema.py and lua/): the
      commands the scripts issue as an interface with an executable instance;
      the scripts as programs over it; the invariant of one job's view and of
      the store; what the scripts promise; and the client side.
    - Json, Canonical (canonical_fields.py and the json.dumps calls): the text
      that is hashed and signed.
    - Attestation (governance/authorized_by_attestation.py), HeadAnchor
      (twin_custody.py): keys, signatures, seeds, and the signed checkpoint.
    - LedgerDb, Ledger, LedgerVerify (governance/ledger_postgres.py): the table
      and its transactions, every writer, verify_chain.
    - Witness (twin_custody.py): the verifier that runs on shipped rows.
    - LedgerForms, LedgerSound, LedgerWrites, LedgerHistory, LedgerTamper,
      LedgerRefs, LedgerDecision: theorems about the ledger.
    - TwinReceiver (twin_receiver.py): the replica's tables and request
      handlers; TwinSafe: theorems about histories of requests.
    - Base64, Custody (twin_custody.py): sealed envelopes and signed
      registrations.
    - TwinShip (twin_shipper.py, twin_sync_worker.py): from a ledger row to a
      job, and from a job to the receiver.
    - TwinDetector (twin_detector.py): the comparison of replica, primary feed
      and submission record; TwinAudit: what its verdicts mean, up to the ledger;
      TwinPipeline: theorems across ledger, envelope, queue and receiver.
    - Supersession (obligation_supersession.py): which old obligation each
      declared replacement supersedes, and the abandonments posted to the twin;
      SupersessionRuns: what one run and a second run do.
    - Regulatory (regulatory_cassette_interface.py, regulatory_checks.py): the
      finding, the material of a decision, the four per-decision checks, tiers,
      profiles and the rollup; CohortChecks (regulatory_checks.py): the
      four-fifths and correlation screens over a cohort; CohortFacts: theorems
      about both.
    - CohortSweep (obligation_sweep.py, sealed_demographic_channel.py, the ZIP
      and county part of bisg_estimator.py): buckets, cohorts with their skips,
      reviews, recording and reading back; CohortSweepFacts: their theorems.
    - Lens (regulatory_cassette_interface.py, regulatory_cassettes/cfpb_reg_b.py):
      the contract of a lens, its validation and registry, the CFPB lens.
    - Deck (regulatory_deck.py, get_decisions of governance/ledger_postgres.py):
      insertion, removal, observer review, judgment and explanation; DeckFacts,
      DeckRuns: theorems about a deck, its ledger and the twin.
    - Contract (contract_cassette.py, contract_cassettes/reference_dpa.py): the
      terms of a data-use contract, its lens and the registry by counterparty;
      ContractEgress (contract_egress.py, get_contract_rows): the chokepoint and
      the standing check; ContractRetention (contract_retention.py): records
      against the contract's clock; ContractAttestation
      (contract_attestation.py): the partition chain, receipts and the report;
      EgressFacts, RetentionFacts, AttestationFacts: their theorems.

    ** How the parts meet

    A writer of the ledger is a plan: it reads the rows and gives the INSERT
    statements or an exception; LedgerDb.transact runs it under the advisory
    lock, so plans are steps that do not interleave.  LedgerHistory.history is
    the set of ledgers such steps make.  The verifiers read rows only.  A
    decision carries the obligations of Outcome and the events of Event.

    A handler of the replica service runs in one transaction, so a served
    request is a step of the database (TwinSafe.served); only the obligation
    transition reads outside its lock, and is split into its read and its
    append to show what two at once do.  It opens and closes obligations of
    Outcome.

    Both sweeps read through the handlers of TwinReceiver (list_obligations,
    list_cohort_reviews) and write through them (transition_obligation,
    store_cohort_review), and read the rows of the ledger.  A deck is its
    active lenses and a ledger; it writes with the writers of Ledger
    (bind_cassette_version, record_regulatory_cassette_event,
    record_regulatory_disclosure), judges with Episode.judge_episode and reads
    the review a sweep recorded.  A contract is a lens of Lens; its chokepoint
    decides on rows read from the ledger and records with a writer of Ledger,
    others may write between the two (request_egress_between), and the
    assessments and the report read the same rows; a receipt is signed with
    Custody.sign.

    Queue scripts are atomic in Redis, so a history of the queue is any sequence
    of scripts and clock ticks (QueueSafe.reachable).  The circuit breaker's two
    sections are separate steps, with calls outstanding between them.

    ** What the theorems show

    - Ledger: every ledger the writers make of values its table gives back
      verifies, at both verifiers and across key rotation, and one value it
      does not give back breaks it; a verified head fixes the hashed content
      of every row, up to a collision between two texts that were hashed; a
      decision is recorded whole, its row and then one row per event in order,
      or not at all, and only when its guards hold; the references the writers
      check resolve, and one they do not check may not; signatures pin their
      claim; the marker enforces them; anchors report a cut tail.
    - Replica: append-only tables under the replica's own token, the life cycle
      of an obligation on its chain, derivation that settles, redelivery, rows
      of the columns' types.
    - Twin: what a CLEAN report means, that an honest copy gets one and a
      rewritten history does not, that reading the replica ends; that the
      shipping cursor never passes a row that is not enqueued, that a stored
      envelope opens to the row that was sealed, and what shipping twice does.
    - Queue: one home per job (a done-set entry counts while its retention
      lasts; the entry is pruned lazily after it), no lost job, one holder per job, bounded
      attempts, recovery of expired leases, equivalent client dialects.
    - Supersession: a run abandons exactly the open obligations it reports, a
      supersession recorded on the ledger is carried to the replica, and a second
      run has nothing left to do.
    - Checks: the stricter tier wins in any order, a specificity score is what
      the policy says of the signals in a reason,
      the group with the best rate is never flagged, the geographic screen does
      not depend on the order of the cohort; a small cohort is indeterminate.
    - Sweep: the buckets partition the obligations, every obligation is in a
      cohort or among the skips, every resolved obligation of the replica is in
      one review, no live geocoding under quarantine, the review that is read
      back is the last one recorded.
    - Deck: what judge returns or blocks on is on the ledger before it does,
      explain reports what judge would, an active lens has its insertion on the
      record and its content bound, a changed lens is refused; every call of a
      deck is a script carried out: it decides, makes exactly the listed
      writes, and only then changes what is active and answers.
    - Contracts: a decision of the chokepoint is on the ledger before it is
      returned and an authorization rests on a contract, its purposes and a live
      approval; an approval whose last row revokes it is not live; the standing
      check passes what the chokepoint authorized; under a contract with a
      backup term, every record on file has one status per scope and what each
      rests on; a receipt pins the rows it was issued over; the report is a
      function of the counterparty's own rows.
    - Breaker: the gate invariant under interleaving, refinement of an abstract
      four-phase machine by sequential calls that end in any way a callable
      can, recovery.
    - Episode, Event, Outcome: what the validators admit exactly, order
      independence of the reducer, the states of an obligation, derivation.

    ** Interfaces and bounds

    Code outside src/ is an interface with its documented laws and a concrete
    instance used by the witnesses: the Redis commands (Redis.Redis), PostgreSQL
    columns (LedgerDb.Postgres: values of a documented shape are read back up to
    the order of JSON keys), SHA-256 and HMAC (Attestation.Hashes: hexadecimal
    digests only; no collision resistance is assumed: where two records could
    only agree by a collision, the theorems name the two texts the code hashed),
    the cryptography package (Custody.Crypto: X25519 agreement, authenticated
    encryption and signatures that invert; nothing is assumed of an attacker), float text (Json.FloatRepr), the CNS package (Ledger.Cns), regular
    expressions of a profile (Regulatory.Regex), and as arguments
    statistics.correlation and the Census geocoder; datetime.fromisoformat and
    isoformat (Contract.Iso), of which nothing is assumed.  A lens is a record of what
    its methods return or raise (Lens.RegulatoryCassette).  A deck meets the
    environment, clock and anchor storage of each of its writes by its number
    (the conditions of Deck.on_ledger).
    Recursion is structural; the only counters are those of the source (the
    claim script's scan bound, and the pages the detector reads, for which as
    many as there are entries and one more are shown to be enough).  Histories take values PostgreSQL keeps as they
    are (LedgerDb.storable): a float whose text has an exponent comes back from
    JSONB as another number and is outside them.

    ** Not modelled

    Most reads and the schema setup of the ledger, connection pools and retries;
    key generation and the anchor file; command-line entry points; the twin's
    migration, probe and custodian tools; the domain
    cassettes and the loading of cassettes by module path; the BISG estimator
    (Census and surname tables behind a network service); rate limiting and
    backpressure; the conservation kernel and sage_k; HTTP handlers, worker
    loops and repository tools.  Warnings, log lines and the explanatory
    sentences of an evidence dict ("detail", "score_meaning") have no effect and
    are left out. *)


From stdpp Require Export base list strings gmap sorting.
From Stdlib Require Export ZArith Lia Ascii.
From Stdlib Require Import DecimalString DecimalN.

Set Default Goal Selector "!".

(* ------------------------------------------------------------------ *)
(** ** Fallible computations *)

(** Python code either returns or raises; [Err e] is a raised exception. *)
Inductive result (E A : Type) : Type :=
| Ok (a : A)
| Err (e : E).
Arguments Ok {E A} a.
Arguments Err {E A} e.

#[export] Instance result_ret {E} : MRet (result E) := fun A a => Ok a.
#[export] Instance result_bind {E} : MBind (result E) := fun A B f m =>
  match m with Ok a => f a | Err e => Err e end.
#[export] Instance result_fmap {E} : FMap (result E) := fun A B f m =>
  match m with Ok a => Ok (f a) | Err e => Err e end.

Definition is_ok {E A} (r : result E A) : bool :=
  match r with Ok _ => true | Err _ => false end.

(** [raise ... from ...]: the same computation under another exception type. *)
Definition map_err {E F A} (f : E -> F) (r : result E A) : result F A :=
  match r with Ok a => Ok a | Err e => Err (f e) end.

(** The exceptions of the language itself, without their message text. *)
Inductive pyexn :=
| ValueError
| TypeError
| KeyError
| OverflowError
| AttributeError
| RuntimeError.

#[export] Instance pyexn_eq_dec : EqDecision pyexn.
Proof. solve_decision. Defined.

(** A [for] loop that may raise: stops at the first exception. *)
Fixpoint foldM {E S A} (f : S -> A -> result E S) (s : S) (l : list A) : result E S :=
  match l with
  | [] => Ok s
  | a :: l' => match f s a with Ok s' => foldM f s' l' | Err e => Err e end
  end.

Fixpoint mapM_r {E A B} (f : A -> result E B) (l : list A) : result E (list B) :=
  match l with
  | [] => Ok []
  | a :: l' =>
      match f a with
      | Ok b => match mapM_r f l' with Ok bs => Ok (b :: bs) | Err e => Err e end
      | Err e => Err e
      end
  end.

(* ------------------------------------------------------------------ *)
(** ** Strings *)

Declare Scope sentinel_scope.
Delimit Scope sentinel_scope with S.

(** [str.isspace] on code points below 256 (Latin-1). *)
Definition is_space (c : ascii) : bool :=
  let n := N_of_ascii c in
  ((9 <=? n) && (n <=? 13) || (28 <=? n) && (n <=? 32) || (n =? 133) || (n =? 160))%N.

Fixpoint lstrip (s : string) : string :=
  match s with
  | EmptyString => EmptyString
  | String c s' => if is_space c then lstrip s' else s
  end.

Fixpoint rstrip (s : string) : string :=
  match s with
  | EmptyString => EmptyString
  | String c s' =>
      match rstrip s' with
      | EmptyString => if is_space c then EmptyString else String c EmptyString
      | r => String c r
      end
  end.

(** [str.strip()] with no argument. *)
Definition strip (s : string) : string := rstrip (lstrip s).

(** [bool(s)] for a string. *)
Definition str_true (s : string) : bool :=
  match s with EmptyString => false | _ => true end.

(** [not s.strip()]. *)
Definition blank (s : string) : bool := negb (str_true (strip s)).

(** [x or ""] for an optional string. *)
Definition or_empty (o : option string) : string :=
  match o with Some s => s | None => EmptyString end.

(** [bool(x)] for an optional string. *)
Definition opt_true (o : option string) : bool := str_true (or_empty o).

Fixpoint str_forallb (f : ascii -> bool) (s : string) : bool :=
  match s with EmptyString => true | String c s' => f c && str_forallb f s' end.

(** [sub in s] *)
Fixpoint contains (sub s : string) : bool :=
  String.prefix sub s || match s with EmptyString => false | String _ s' => contains sub s' end.

Definition str_mem (x : string) (l : list string) : bool :=
  existsb (String.eqb x) l.

(** [x in l] for an optional string against a tuple of strings. *)
Definition opt_mem (x : option string) (l : list string) : bool :=
  match x with Some s => str_mem s l | None => false end.

(** Splitting at the first occurrence of a character (as [str.partition],
    [None] when it does not occur). *)
Fixpoint split_at (c : ascii) (s : string) : option (string * string) :=
  match s with
  | EmptyString => None
  | String d s' =>
      if Ascii.eqb d c then Some (EmptyString, s')
      else match split_at c s' with
           | Some (a, b) => Some (String d a, b)
           | None => None
           end
  end.

(** The longest prefix of characters satisfying [f], and the rest. *)
Fixpoint str_span (f : ascii -> bool) (s : string) : string * string :=
  match s with
  | EmptyString => (EmptyString, EmptyString)
  | String c s' =>
      if f c then let '(a, b) := str_span f s' in (String c a, b)
      else (EmptyString, s)
  end.

Definition ch_in (lo hi : N) (c : ascii) : bool :=
  ((lo <=? N_of_ascii c) && (N_of_ascii c <=? hi))%N.
Definition is_digit : ascii -> bool := ch_in 48 57.
Definition is_alpha (c : ascii) : bool := ch_in 65 90 c || ch_in 97 122 c.

(** [str.lower] on Latin-1. *)
Definition lower_char (c : ascii) : ascii :=
  let n := N_of_ascii c in
  if ((65 <=? n) && (n <=? 90) || (192 <=? n) && (n <=? 222) && negb (n =? 215))%N
  then ascii_of_N (n + 32) else c.

Fixpoint lower (s : string) : string :=
  match s with EmptyString => EmptyString | String c s' => String (lower_char c) (lower s') end.

(** The pieces between the characters satisfying [f]; [s.split(c)] for
    [f = (== c)]. *)
Fixpoint split_by (f : ascii -> bool) (s : string) : list string :=
  match s with
  | EmptyString => [EmptyString]
  | String c s' =>
      if f c then EmptyString :: split_by f s'
      else match split_by f s' with
           | p :: ps => String c p :: ps
           | [] => [String c EmptyString]
           end
  end.

(** [s.encode("utf-8")] of a Latin-1 string, as the string of its bytes. *)
Definition utf8_char (c : ascii) : string :=
  let n := N_of_ascii c in
  if (n <? 128)%N then String c EmptyString
  else String (ascii_of_N (192 + n / 64)) (String (ascii_of_N (128 + n mod 64)) EmptyString).

Fixpoint utf8 (s : string) : string :=
  match s with EmptyString => EmptyString | String c s' => utf8_char c +:+ utf8 s' end.

(** [s[:n]] *)
Definition str_take (n : nat) (s : string) : string := String.substring 0 n s.

Definition is_ascii (s : string) : bool := str_forallb (fun c => (N_of_ascii c <? 128)%N) s.

(** Decimal text of a natural number, and back ([str(int)] and [int(str)]
    on plain digit strings). *)
Definition string_of_N (n : N) : string := NilEmpty.string_of_uint (N.to_uint n).
Definition N_of_digits (s : string) : option N :=
  match NilEmpty.uint_of_string s with
  | Some u => Some (N.of_uint u)
  | None => None
  end.

(** Stable insertion sort: the list [sorted(l, key=...)] returns, for a total
    preorder [leb] on the keys. *)
Section Sorted.
Context {A : Type} (leb : A -> A -> bool).

Fixpoint insert_sorted (x : A) (l : list A) : list A :=
  match l with
  | [] => [x]
  | y :: l' => if leb x y then x :: l else y :: insert_sorted x l'
  end.

Definition sort (l : list A) : list A := foldr insert_sorted [] l.

Lemma insert_sorted_perm x l : insert_sorted x l ≡ₚ x :: l.
Proof.
  induction l as [|y l IH]; simpl; [done|].
  destruct (leb x y); [done|]. rewrite IH. constructor.
Qed.

Lemma sort_perm l : sort l ≡ₚ l.
Proof. induction l as [|x l IH]; simpl; [done|]. by rewrite insert_sorted_perm, IH. Qed.

(** [leb] only has to be total on the elements that occur. *)
Variable P : A -> Prop.
Hypothesis leb_total : forall x y, P x -> P y -> leb x y = false -> leb y x = true.

Lemma insert_sorted_Sorted x l :
  P x -> Forall P l -> Sorted (fun a b => leb a b = true) l ->
  Sorted (fun a b => leb a b = true) (insert_sorted x l).
Proof.
  intros Hx Hl Hs. induction Hs as [|y l Hs IH Hr]; simpl; [by repeat constructor|].
  apply Forall_cons in Hl as [Hy Hl].
  destruct (leb x y) eqn:E; [by repeat constructor|].
  constructor; [by apply IH|].
  destruct Hr; simpl; [by constructor; apply leb_total|].
  destruct (leb x b); constructor; auto.
Qed.

Lemma sort_Sorted l : Forall P l -> Sorted (fun a b => leb a b = true) (sort l).
Proof.
  induction 1 as [|x l Hx Hl IH]; simpl; [constructor|].
  apply insert_sorted_Sorted; [done| |done]. by rewrite sort_perm.
Qed.

Lemma length_sort l : length (sort l) = length l.
Proof. by rewrite sort_perm. Qed.

Lemma elem_of_sort x l : x ∈ sort l <-> x ∈ l.
Proof. by rewrite sort_perm. Qed.
End Sorted.

(** Case analysis on the tests of a Python condition. *)
Ltac case_bool :=
  match goal with
  | |- context [if ?b then _ else _] => destruct b eqn:?
  | H : context [if ?b then _ else _] |- _ => destruct b eqn:?
  end.

Ltac bool_hyps :=
  repeat match goal with
  | H : (_ && _)%bool = true |- _ => apply andb_true_iff in H as [? ?]
  | H : (_ || _)%bool = false |- _ => apply orb_false_iff in H as [? ?]
  | H : negb _ = true |- _ => apply negb_true_iff in H
  | H : negb _ = false |- _ => apply negb_false_iff in H
  end.

Lemma string_of_N_digits n : N_of_digits (string_of_N n) = Some n.
Proof. unfold N_of_digits, string_of_N. by rewrite NilEmpty.usu, DecimalN.Unsigned.of_to. Qed.

Lemma str_true_false s : str_true s = false <-> s = EmptyString.
Proof. by destruct s. Qed.

Lemma str_mem_spec x l : str_mem x l = true <-> x ∈ l.
Proof.
  unfold str_mem. rewrite existsb_exists. split.
  - intros (y & Hin & ->%String.eqb_eq). by apply list_elem_of_In.
  - intros Hin. exists x. split; [by apply list_elem_of_In | by apply String.eqb_refl].
Qed.

(** Sorting depends only on the multiset, when [leb] is a total order on the
    elements that occur. *)
Lemma sort_unique {A} (leb : A -> A -> bool) (P : A -> Prop) l l' :
  (forall x y, P x -> P y -> leb x y = false -> leb y x = true) ->
  (forall x y z, P x -> P y -> P z -> leb x y = true -> leb y z = true -> leb x z = true) ->
  (forall x y, x ∈ l -> y ∈ l -> leb x y = true -> leb y x = true -> x = y) ->
  Forall P l -> l ≡ₚ l' -> sort leb l = sort leb l'.
Proof.
  intros Htot Htr Hanti Hl Hp.
  set (R x y := P x /\ P y /\ leb x y = true).
  assert (Transitive R) by (intros x y z (?&?&?) (?&?&?); split_and!; eauto).
  assert (HR : forall k, Forall P k -> StronglySorted R (sort leb k)).
  { intros k Hk. apply Sorted_StronglySorted; [done|].
    assert (Hk' : Forall P (sort leb k)) by (by rewrite sort_perm).
    pose proof (sort_Sorted leb P Htot k Hk) as Hs.
    induction Hs as [|x r Hs IH Hd]; [constructor|].
    apply Forall_cons in Hk' as [Hx Hr]. constructor; [by apply IH|].
    destruct Hd; constructor. apply Forall_cons in Hr as [? _]. by split_and!. }
  apply (StronglySorted_unique_strong R).
  - intros x y Hx Hy (_ & _ & ?) (_ & _ & ?).
    rewrite elem_of_sort in Hx, Hy. rewrite <- Hp in Hy. by apply Hanti.
  - by apply HR.
  - apply HR. by rewrite <- Hp.
  - by rewrite !sort_perm.
Qed.

(** Rule induction for a loop: an invariant of the processed prefix. *)
Lemma foldM_ind {E S A} (f : S -> A -> result E S) (P : list A -> S -> Prop) l0 l s0 s1 :
  (forall l s a s', P l s -> f s a = Ok s' -> P (l ++ [a]) s') ->
  P l0 s0 -> foldM f s0 l = Ok s1 -> P (l0 ++ l) s1.
Proof.
  intros Hstep. revert l0 s0. induction l as [|a l IH]; simpl; intros l0 s0 H0 Hf.
  - rewrite app_nil_r. by simplify_eq.
  - destruct (f s0 a) as [s'|] eqn:Hs; [|done].
    change (a :: l) with ([a] ++ l). rewrite app_assoc. eapply IH; eauto.
Qed.

(** A bind that succeeded: what its first part gave. *)
Ltac bind_ok H x E :=
  match type of H with
  | (?m ≫= _) = Ok _ => destruct m as [x|] eqn:E; [|discriminate H]; cbn [mbind result_bind] in H
  end.

Lemma mapM_r_all {E A B} (f : A -> result E B) l bs a :
  mapM_r f l = Ok bs -> a ∈ l -> exists b, f a = Ok b.
Proof.
  revert bs. induction l as [|x l IH]; simpl; intros bs H Ha; [set_solver|].
  destruct (f x) as [b|] eqn:Ex; [|done]. destruct (mapM_r f l) eqn:El; [|done].
  apply elem_of_cons in Ha as [->|Ha]; eauto.
Qed.

Lemma mapM_r_fails {E A B} (f : A -> result E B) l a :
  a ∈ l -> is_ok (f a) = false -> is_ok (mapM_r f l) = false.
Proof.
  intros Ha Hf. destruct (mapM_r f l) as [bs|] eqn:El; [|done].
  destruct (mapM_r_all f l bs a El Ha) as [b Hb]. by rewrite Hb in Hf.
Qed.

Lemma mapM_r_Forall2 {E A B} (f : A -> result E B) (P : A -> B -> Prop) l :
  (forall a, a ∈ l -> exists b, f a = Ok b /\ P a b) -> exists bs, mapM_r f l = Ok bs /\ Forall2 P l bs.
Proof.
  induction l as [|a l IH]; intros Hl; [by exists []|].
  destruct (Hl a ltac:(set_solver)) as (b & Hb & Hp). destruct IH as (bs & Hbs & Hps); [intros; apply Hl; set_solver|].
  exists (b :: bs). simpl. rewrite Hb, Hbs. split; [done|by constructor].
Qed.

Lemma mapM_r_Ok {E A B} (f : A -> result E B) l bs : mapM_r f l = Ok bs -> Forall2 (fun a b => f a = Ok b) l bs.
Proof.
  revert bs. induction l as [|a l IH]; intros bs; simpl; [by intros [= <-]|].
  destruct (f a) eqn:Ea; [|done]. destruct (mapM_r f l); [|done]. intros [= <-]. constructor; eauto.
Qed.

Lemma Forall2_elem_l {A B} (P : A -> B -> Prop) l l' x : Forall2 P l l' -> x ∈ l -> exists y, y ∈ l' /\ P x y.
Proof. intros Hf Hx. apply list_elem_of_lookup in Hx as [i Hi]. destruct (Forall2_lookup_l _ _ _ _ _ Hf Hi) as (y & Hy & Hp).
  exists y. split; [by eapply list_elem_of_lookup_2|done]. Qed.

Lemma Forall2_elem_r {A B} (P : A -> B -> Prop) l l' y : Forall2 P l l' -> y ∈ l' -> exists x, x ∈ l /\ P x y.
Proof. intros Hf Hy. apply list_elem_of_lookup in Hy as [i Hi]. destruct (Forall2_lookup_r _ _ _ _ _ Hf Hi) as (x & Hx & Hp).
  exists x. split; [by eapply list_elem_of_lookup_2|done]. Qed.

Lemma map_err_Ok {E F A} (f : E -> F) (r : result E A) a : map_err f r = Ok a -> r = Ok a.
Proof. destruct r; simpl; congruence. Qed.

(* ------------------------------------------------------------------ *)
(** ** String lemmas *)

Lemma str_forallb_app f s t : str_forallb f (s +:+ t) = str_forallb f s && str_forallb f t.
Proof. induction s as [|c s IH]; simpl; [done|]. by rewrite IH, andb_assoc. Qed.

Lemma str_forallb_impl (f g : ascii -> bool) s :
  (forall c, f c = true -> g c = true) -> str_forallb f s = true -> str_forallb g s = true.
Proof. intros H. induction s as [|c s IH]; simpl; [done|]. intros. bool_hyps. rewrite H; auto. Qed.

Lemma rstrip_nospace s : str_forallb (fun c => negb (is_space c)) s = true -> rstrip s = s.
Proof.
  induction s as [|c s IH]; simpl; [done|]. intros. bool_hyps. rewrite IH by done.
  destruct s; [|done]. by destruct (is_space c).
Qed.

(** Text without whitespace is its own [strip]. *)
Lemma strip_nospace s : str_forallb (fun c => negb (is_space c)) s = true -> strip s = s.
Proof.
  intros H. unfold strip. rewrite <- (rstrip_nospace s H) at 2. f_equal.
  destruct s as [|c s]; [done|]. simpl in *. by destruct (is_space c).
Qed.

Lemma split_at_app c s t :
  str_forallb (fun d => negb (Ascii.eqb d c)) s = true -> split_at c (s +:+ String c t) = Some (s, t).
Proof.
  induction s as [|d s IH]; simpl; [by rewrite Ascii.eqb_refl|].
  intros. bool_hyps. destruct (Ascii.eqb d c); [done|]. by rewrite IH.
Qed.

Lemma str_span_app f s c t :
  str_forallb f s = true -> f c = false -> str_span f (s +:+ String c t) = (s, String c t).
Proof.
  intros Hs Hc. induction s as [|d s IH]; simpl in *; [by rewrite Hc|].
  bool_hyps. by rewrite H, IH.
Qed.

Lemma str_span_nil f s : str_forallb f s = true -> str_span f s = (s, EmptyString).
Proof. induction s as [|d s IH]; simpl; [done|]. intros. bool_hyps. by rewrite H, IH. Qed.

Lemma string_app_cons c s t : (String c s +:+ t)%string = String c (s +:+ t).
Proof. done. Qed.

Lemma string_app_assoc (s t u : string) : (s +:+ t) +:+ u = s +:+ (t +:+ u).
Proof. induction s as [|c s IH]; [done|]. rewrite !string_app_cons. by rewrite IH. Qed.

Lemma digits_of_uint d : str_forallb is_digit (NilEmpty.string_of_uint d) = true.
Proof. induction d; simpl; by rewrite ?IHd. Qed.

Lemma string_of_N_all_digits n : str_forallb is_digit (string_of_N n) = true.
Proof. apply digits_of_uint. Qed.

Lemma string_of_N_nonempty n : str_true (string_of_N n) = true.
Proof.
  pose proof (string_of_N_digits n) as H. destruct (string_of_N n) eqn:E; [|done].
  unfold N_of_digits in H. simpl in H. destruct n; [|done].
  unfold string_of_N in E. simpl in E. done.
Qed.

(** Decimal text is no longer than binary text. *)
Lemma nb_digits_little_double d :
  (Decimal.nb_digits (Decimal.Little.double d) <= S (Decimal.nb_digits d))%nat /\
  (Decimal.nb_digits (Decimal.Little.succ_double d) <= S (Decimal.nb_digits d))%nat.
Proof. induction d; simpl; lia. Qed.

Lemma nb_digits_rev d acc :
  Decimal.nb_digits (Decimal.revapp d acc) = (Decimal.nb_digits d + Decimal.nb_digits acc)%nat.
Proof. revert acc. induction d; intros acc; simpl; rewrite ?IHd; simpl; lia. Qed.

Lemma nb_digits_little p : (Decimal.nb_digits (Pos.to_little_uint p) <= Pos.size_nat p)%nat.
Proof.
  induction p; simpl; [| |lia];
    pose proof (nb_digits_little_double (Pos.to_little_uint p)); lia.
Qed.

Lemma length_string_of_uint d :
  String.length (NilEmpty.string_of_uint d) = Decimal.nb_digits d.
Proof. induction d; simpl; by rewrite ?IHd. Qed.

Lemma length_string_of_N n : (String.length (string_of_N n) <= S (N.size_nat n))%nat.
Proof.
  unfold string_of_N. rewrite length_string_of_uint. destruct n as [|p]; simpl; [lia|].
  unfold Pos.to_uint, Decimal.rev. rewrite nb_digits_rev. simpl.
  pose proof (nb_digits_little p). lia.
Qed.

(** ** The size of decimal text *)

Lemma of_uint_acc_bound d acc :
  (Npos (Pos.of_uint_acc d acc) < (Npos acc + 1) * 10 ^ N.of_nat (Decimal.nb_digits d))%N.
Proof.
  revert acc. induction d as [|d IH|d IH|d IH|d IH|d IH|d IH|d IH|d IH|d IH|d IH]; intros acc;
    [cbn [Pos.of_uint_acc Decimal.nb_digits]; change (10 ^ N.of_nat 0)%N with 1%N; lia|..];
    cbn [Pos.of_uint_acc Decimal.nb_digits]; rewrite Nat2N.inj_succ, N.pow_succ_r';
    match goal with |- (Npos (Pos.of_uint_acc d ?a) < _)%N => specialize (IH a) end; nia.
Qed.

Lemma of_uint_bound d : (N.of_uint d < 10 ^ N.of_nat (Decimal.nb_digits d))%N.
Proof.
  unfold N.of_uint. induction d as [|d IH|d IH|d IH|d IH|d IH|d IH|d IH|d IH|d IH|d IH]; [done|..];
    cbn [Pos.of_uint Decimal.nb_digits]; rewrite Nat2N.inj_succ, N.pow_succ_r'; [lia|..];
    match goal with |- (Npos (Pos.of_uint_acc d ?a) < _)%N => pose proof (of_uint_acc_bound d a) end; nia.
Qed.

Lemma uint_of_string_length s u : NilEmpty.uint_of_string s = Some u -> Decimal.nb_digits u = String.length s.
Proof.
  revert u. induction s as [|c s IH]; intros u; simpl; [by intros [= <-]|].
  unfold uint_of_char. destruct (NilEmpty.uint_of_string s) as [d|]; [|destruct c as [[] [] [] [] [] [] [] []]; done].
  specialize (IH d eq_refl). destruct c as [[] [] [] [] [] [] [] []]; intros [= <-]; simpl; congruence.
Qed.

Lemma N_of_digits_bound s n : N_of_digits s = Some n -> (n < 10 ^ N.of_nat (String.length s))%N.
Proof.
  unfold N_of_digits. destruct (NilEmpty.uint_of_string s) as [u|] eqn:E; [|done]. intros [= <-].
  rewrite <- (uint_of_string_length _ _ E). apply of_uint_bound.
Qed.

(** ** Order on strings *)

Lemma string_ltb_irrefl s : String.ltb s s = false.
Proof.
  unfold String.ltb. pose proof (String.compare_antisym s s) as Hc.
  by destruct (String.compare s s).
Qed.

Lemma string_ltb_leb s t : String.ltb s t = negb (String.leb t s).
Proof.
  unfold String.ltb, String.leb. rewrite (String.compare_antisym t s). by destruct (String.compare s t).
Qed.

Lemma string_leb_trans s t u :
  String.leb s t = true -> String.leb t u = true -> String.leb s u = true.
Proof.
  intros H1 H2. apply Is_true_true. apply (transitivity (R := String.le) (y := t)); by apply Is_true_true.
Qed.

(** ** Splitting *)

Lemma split_by_none f s : str_forallb (fun c => negb (f c)) s = true -> split_by f s = [s].
Proof.
  induction s as [|c s IH]; simpl; [done|]. intros. bool_hyps. rewrite H, IH by done. done.
Qed.

Lemma split_by_app f s c t :
  str_forallb (fun c => negb (f c)) s = true -> f c = true ->
  split_by f (s +:+ String c t) = s :: split_by f t.
Proof.
  intros Hs Hc. induction s as [|d s IH].
  - change (split_by f (String c t) = [EmptyString] ++ split_by f t). simpl. by rewrite Hc.
  - rewrite string_app_cons. simpl in *. bool_hyps. by rewrite H, IH.
Qed.

Lemma str_take_forallb f n s : str_forallb f s = true -> str_forallb f (str_take n s) = true.
Proof.
  unfold str_take. revert s. induction n as [|n IH]; intros [|c s]; simpl; try done.
  intros. bool_hyps. rewrite H. by apply IH.
Qed.
