(* ===== verification/PyFloat.v ===== *)
(** * PyFloat: Python floats as IEEE 754 binary64 data

    A Python [float] is a [spec_float] of precision 53 and maximal exponent
    1024, with the Standard Library's executable specification of the
    operations; nothing here is an axiom.  The second half proves that on
    integers below 2^53 addition, multiplication, remainder, floor division
    and comparison are exact, which is what makes the horizon arithmetic of
    the outcome component checkable by hand. *)

From S2P Require Import Prelude.
From Stdlib Require Export SpecFloat.
From Stdlib Require Import Zpow_facts.
Local Open Scope Z_scope.

Abbreviation float64 := spec_float.

#[export] Instance spec_float_eq_dec : EqDecision spec_float.
Proof. solve_decision. Defined.

Definition fnorm (m e : Z) : float64 := binary_normalize 53 1024 m e false.
(** [float(z)] for an integer (the rounding; see [int_to_float]). *)
Definition f_of_Z (z : Z) : float64 := fnorm z 0.
Definition fadd : float64 -> float64 -> float64 := SFadd 53 1024.
Definition fsub : float64 -> float64 -> float64 := SFsub 53 1024.
Definition fmul : float64 -> float64 -> float64 := SFmul 53 1024.
Definition fdiv : float64 -> float64 -> float64 := SFdiv 53 1024.
Definition fleb : float64 -> float64 -> bool := SFleb.
Definition fltb : float64 -> float64 -> bool := SFltb.
Definition feqb : float64 -> float64 -> bool := SFeqb.

Definition fzero : float64 := S754_zero false.
Definition fnan : float64 := S754_nan.
Definition finf : float64 := S754_infinity false.

Definition f_is_nan (f : float64) : bool := match f with S754_nan => true | _ => false end.
Definition f_is_inf (f : float64) : bool := match f with S754_infinity _ => true | _ => false end.

(** [float(z)]: an integer whose rounding is infinite raises OverflowError. *)
Definition int_to_float (z : Z) : result pyexn float64 :=
  if f_is_inf (f_of_Z z) then Err OverflowError else Ok (f_of_Z z).

(** [int(f)]: truncation towards zero; NaN is a ValueError, an infinity an
    OverflowError. *)
Definition float_to_int (f : float64) : result pyexn Z :=
  match f with
  | S754_zero _ => Ok 0
  | S754_finite s m e =>
      let a := Z.shiftl (Zpos m) e in Ok (if s then - a else a)
  | S754_nan => Err ValueError
  | S754_infinity _ => Err OverflowError
  end.

(** The exact value of a finite float as an integer multiple of [2^e0],
    for an [e0] not above its exponent. *)
Definition mant_at (e0 : Z) (f : float64) : Z :=
  match f with
  | S754_finite s m e => cond_Zopp s (Z.shiftl (Zpos m) (e - e0))
  | _ => 0
  end.

Definition fexp_of (f : float64) : Z :=
  match f with S754_finite _ _ e => e | _ => 0 end.

Definition f_sign (f : float64) : bool :=
  match f with
  | S754_zero s | S754_infinity s | S754_finite s _ _ => s
  | S754_nan => false
  end.

(** [bool(f)]: a NaN is true. *)
Definition f_nonzero (f : float64) : bool :=
  match f with S754_zero _ => false | _ => true end.

(** C [fmod], whose result is exact and carries the sign of [x]. *)
Definition cfmod (x y : float64) : float64 :=
  match x, y with
  | S754_nan, _ | _, S754_nan | S754_infinity _, _ => S754_nan
  | _, S754_infinity _ => x
  | _, S754_zero _ => S754_nan
  | _, S754_finite _ _ ey =>
      let e0 := Z.min (fexp_of x) ey in
      let r := Z.rem (mant_at e0 x) (mant_at e0 y) in
      if r =? 0 then S754_zero (f_sign x) else fnorm r e0
  end.

(** [x % y] on floats (CPython float_rem); a zero divisor raises before. *)
Definition fmod (x y : float64) : float64 :=
  let md := cfmod x y in
  if f_nonzero md
  then if Bool.eqb (f_sign y) (f_sign md) then md else fadd md y
  else S754_zero (f_sign y).

(** [floor] of a float, as a float. *)
Definition ffloor (f : float64) : float64 :=
  match f with
  | S754_finite s m e => if 0 <=? e then f else fnorm (mant_at e f / 2 ^ (- e)) 0
  | _ => f
  end.

(** [x // y] on floats (CPython float_floor_div). *)
Definition ffloordiv (x y : float64) : float64 :=
  let md := cfmod x y in
  let div := fdiv (fsub x md) y in
  let div := if f_nonzero md && negb (Bool.eqb (f_sign y) (f_sign md))
             then fsub div (f_of_Z 1) else div in
  if f_nonzero div
  then let fl := ffloor div in
       if fltb (fnorm 1 (-1)) (fsub div fl) then fadd fl (f_of_Z 1) else fl
  else S754_zero (f_sign (fdiv x y)).

(* ------------------------------------------------------------------ *)
(** ** Order *)

Lemma SFcompare_antisym x y :
  SFcompare y x = match SFcompare x y with
                  | Some c => Some (CompOpp c) | None => None end.
Proof.
  destruct x as [[]|[]| |[] m e], y as [[]|[]| |[] m' e']; simpl; try done;
    rewrite (Z.compare_antisym e e');
    destruct (Z.compare e e'); simpl; try done;
    change (Pos.compare_cont Eq m' m) with (Pos.compare m' m);
    change (Pos.compare_cont Eq m m') with (Pos.compare m m');
    rewrite (Pos.compare_antisym m m'); by rewrite ?CompOpp_involutive.
Qed.

Lemma fleb_total x y : f_is_nan x = false -> f_is_nan y = false ->
  fleb x y = false -> fleb y x = true.
Proof.
  unfold fleb, SFleb. rewrite (SFcompare_antisym x y).
  destruct x as [[]|[]| |[] m e], y as [[]|[]| |[] m' e']; simpl; try done;
    intros _ _; destruct (Z.compare e e'); simpl; try done;
    destruct (Pos.compare_cont Eq m m'); done.
Qed.

Lemma fltb_nan_r x : fltb x fnan = false.
Proof. by destruct x as [[]|[]| |[] m e]. Qed.

Lemma fleb_nan_l x : fleb fnan x = false.
Proof. by destruct x as [[]|[]| |[] m e]. Qed.

Lemma fleb_fltb x y : f_is_nan x = false -> f_is_nan y = false ->
  fleb x y = negb (fltb y x).
Proof.
  unfold fleb, SFleb, fltb, SFltb. rewrite (SFcompare_antisym x y).
  destruct x as [[]|[]| |[] m e], y as [[]|[]| |[] m' e']; simpl; try done;
    intros _ _; destruct (Z.compare e e'); simpl; try done;
    destruct (Pos.compare_cont Eq m m'); done.
Qed.

(** Floats without a NaN are ordered as the triples [fkey], lexicographically:
    sign class first, then exponent, then mantissa. *)
Definition fkey (f : float64) : Z * Z * Z :=
  match f with
  | S754_infinity true => (-2, 0, 0)
  | S754_finite true m e => (-1, - e, Zneg m)
  | S754_zero _ | S754_nan => (0, 0, 0)
  | S754_finite false m e => (1, e, Zpos m)
  | S754_infinity false => (2, 0, 0)
  end.

Definition klt (a b : Z * Z * Z) : Prop :=
  a.1.1 < b.1.1 \/ a.1.1 = b.1.1 /\ (a.1.2 < b.1.2 \/ a.1.2 = b.1.2 /\ a.2 < b.2).

Lemma SFcompare_fkey x y : f_is_nan x = false -> f_is_nan y = false ->
  match SFcompare x y with
  | Some Lt => klt (fkey x) (fkey y)
  | Some Eq => fkey x = fkey y
  | Some Gt => klt (fkey y) (fkey x)
  | None => False
  end.
Proof.
  unfold klt.
  destruct x as [[]|[]| |[] m e], y as [[]|[]| |[] m' e']; simpl; try done; intros _ _; try lia;
    destruct (Z.compare_spec e e'); simpl; subst; try lia;
    change (Pos.compare_cont Eq m m') with (Pos.compare m m');
    destruct (Pos.compare_spec m m'); simpl; subst; try done; lia.
Qed.

(* ------------------------------------------------------------------ *)
(** ** Exactness on integers below 2^53 *)

Lemma digits_bounds m :
  2 ^ (Zpos (digits2_pos m) - 1) <= Zpos m < 2 ^ Zpos (digits2_pos m).
Proof.
  induction m as [m IH|m IH|]; simpl digits2_pos; [| |by simpl];
    rewrite Pos2Z.inj_succ;
    replace (Z.succ (Zpos (digits2_pos m)) - 1) with (Zpos (digits2_pos m)) by lia;
    rewrite Z.pow_succ_r by lia;
    replace (Zpos (digits2_pos m)) with (Z.succ (Zpos (digits2_pos m) - 1)) at 1 by lia;
    rewrite Z.pow_succ_r by lia; lia.
Qed.

Lemma digits_unique m d :
  0 < d -> 2 ^ (d - 1) <= Zpos m < 2 ^ d -> Zpos (digits2_pos m) = d.
Proof.
  intros Hd [Hl Hu]. pose proof (digits_bounds m) as [Bl Bu].
  assert (d - 1 < Zpos (digits2_pos m)) by (apply (Z.pow_lt_mono_r_iff 2); lia).
  assert (Zpos (digits2_pos m) - 1 < d) by (apply (Z.pow_lt_mono_r_iff 2); lia).
  lia.
Qed.

Lemma pow2_pos n : 0 <= n -> 0 < 2 ^ n.
Proof. intros. apply Z.pow_pos_nonneg; lia. Qed.

Lemma digits_shift m p k : 0 <= k -> Zpos p = Zpos m * 2 ^ k ->
  Zpos (digits2_pos p) = Zpos (digits2_pos m) + k.
Proof.
  intros Hk Hp. pose proof (digits_bounds m) as [Bl Bu]. pose proof (pow2_pos k Hk).
  apply digits_unique; [lia|]. rewrite Hp.
  replace (Zpos (digits2_pos m) + k - 1) with ((Zpos (digits2_pos m) - 1) + k) by lia.
  rewrite !Z.pow_add_r by lia. nia.
Qed.

Lemma iter_pos_nat {A} (f : A -> A) n x :
  SpecFloat.iter_pos f n x = Nat.iter (Pos.to_nat n) f x.
Proof.
  revert x. induction n as [n IH|n IH|]; intros x;
    cbn [SpecFloat.iter_pos]; [| |done].
  - rewrite !IH, <- Nat.iter_add, <- Nat.iter_succ_r. f_equal. lia.
  - rewrite !IH, <- Nat.iter_add. f_equal. lia.
Qed.

Lemma shr_1_exact q : 0 < q ->
  shr_1 (Build_shr_record (q * 2) false false) = Build_shr_record q false false.
Proof. destruct q; intros; try lia. by rewrite Z.mul_comm. Qed.

Lemma shr_iter_exact n q : 0 < q ->
  Nat.iter n shr_1 (Build_shr_record (q * 2 ^ Z.of_nat n) false false)
  = Build_shr_record q false false.
Proof.
  intros Hq. revert q Hq. induction n as [|n IH]; intros q Hq.
  - by rewrite Z.mul_1_r.
  - rewrite Nat2Z.inj_succ, Z.pow_succ_r by lia.
    replace (q * (2 * 2 ^ Z.of_nat n)) with (q * 2 * 2 ^ Z.of_nat n) by lia.
    rewrite Nat.iter_succ, IH by lia. by apply shr_1_exact.
Qed.

Lemma shr_exact q e n : 0 < q -> 0 <= n ->
  shr (Build_shr_record (q * 2 ^ n) false false) e n
  = (Build_shr_record q false false, e + n).
Proof.
  intros Hq Hn. destruct n as [|p|p]; [|unfold shr|lia].
  - simpl. by rewrite Z.mul_1_r, Z.add_0_r.
  - unfold shr. rewrite iter_pos_nat. f_equal.
    pose proof (shr_iter_exact (Pos.to_nat p) q Hq) as E.
    by rewrite positive_nat_Z in E.
Qed.

(** The float of a positive integer of at most 53 binary digits. *)
Definition canon (p : positive) (e : Z) : float64 :=
  let d := Zpos (digits2_pos p) in
  S754_finite false (Z.to_pos (Zpos p * 2 ^ (53 - d))) (d - 53 + e).

Lemma canon_digits p : Zpos (digits2_pos p) <= 53 ->
  Zpos (Z.to_pos (Zpos p * 2 ^ (53 - Zpos (digits2_pos p)))) =
    Zpos p * 2 ^ (53 - Zpos (digits2_pos p)) /\
  Zpos (digits2_pos (Z.to_pos (Zpos p * 2 ^ (53 - Zpos (digits2_pos p))))) = 53.
Proof.
  intros Hd. pose proof (pow2_pos (53 - Zpos (digits2_pos p)) ltac:(lia)).
  assert (Zpos (Z.to_pos (Zpos p * 2 ^ (53 - Zpos (digits2_pos p))))
          = Zpos p * 2 ^ (53 - Zpos (digits2_pos p))) as E by (apply Z2Pos.id, Z.mul_pos_pos; lia).
  split; [done|]. rewrite (digits_shift p _ (53 - Zpos (digits2_pos p))); lia.
Qed.

Lemma fexp_53 d : -1000 <= d <= 1000 -> fexp 53 1024 d = d - 53.
Proof. unfold fexp, emin. lia. Qed.

(** Rounding a multiple of a short integer is exact. *)
Lemma round_aux_exact p m k e :
  Zpos (digits2_pos p) <= 53 -> 0 <= k <= 500 -> -400 <= e <= 400 ->
  53 <= Zpos (digits2_pos p) + k -> Zpos m = Zpos p * 2 ^ k ->
  binary_round_aux 53 1024 false (Zpos m) (e - k) loc_Exact = canon p e.
Proof.
  intros Hd Hk He Hdk Hm.
  assert (Hdm : Zpos (digits2_pos m) = Zpos (digits2_pos p) + k) by (apply digits_shift; lia).
  destruct (canon_digits p Hd) as [Hq Hqd].
  set (q := Z.to_pos (Zpos p * 2 ^ (53 - Zpos (digits2_pos p)))) in *.
  assert (Hmq : Zpos m = Zpos q * 2 ^ (Zpos (digits2_pos p) + k - 53)).
  { rewrite Hm, Hq, <- Z.mul_assoc, <- Z.pow_add_r by lia. do 2 f_equal. lia. }
  unfold binary_round_aux, shr_fexp. simpl Zdigits2.
  rewrite Hdm, fexp_53 by lia. simpl shr_record_of_loc.
  replace (Zpos (digits2_pos p) + k + (e - k) - 53 - (e - k))
    with (Zpos (digits2_pos p) + k - 53) by lia.
  rewrite Hmq, shr_exact by lia. simpl.
  rewrite Hqd, fexp_53 by lia.
  replace (53 + (e - k + (Zpos (digits2_pos p) + k - 53)) - 53 -
           (e - k + (Zpos (digits2_pos p) + k - 53))) with 0 by lia.
  simpl.
  rewrite (proj2 (Z.leb_le _ _)) by lia.
  unfold canon. fold q. f_equal. lia.
Qed.

Lemma pos_iter_xO p d : Zpos (Pos.iter xO p d) = Zpos p * 2 ^ Zpos d.
Proof.
  induction d as [|d IH] using Pos.peano_ind; [simpl; lia|].
  rewrite Pos.iter_succ, Pos2Z.inj_succ, Z.pow_succ_r by lia.
  change (Zpos (Pos.iter xO p d)~0) with (2 * Zpos (Pos.iter xO p d)). lia.
Qed.

(** Normalising any scaling of a short integer gives its canonical float. *)
Lemma fnorm_exact p m k e :
  Zpos (digits2_pos p) <= 53 -> 0 <= k <= 400 -> -400 <= e <= 400 ->
  Zpos m = Zpos p * 2 ^ k -> fnorm (Zpos m) (e - k) = canon p e.
Proof.
  intros Hd Hk He Hm.
  assert (Hdm : Zpos (digits2_pos m) = Zpos (digits2_pos p) + k) by (by apply digits_shift; lia).
  unfold fnorm, binary_normalize, binary_round, shl_align.
  rewrite Hdm, fexp_53 by lia.
  replace (Zpos (digits2_pos p) + k + (e - k) - 53 - (e - k))
    with (Zpos (digits2_pos p) + k - 53) by lia.
  destruct (Zpos (digits2_pos p) + k - 53) as [|r|r] eqn:Er.
  - apply round_aux_exact; lia.
  - apply round_aux_exact; lia.
  - replace (Zpos (digits2_pos p) + k + (e - k) - 53) with (e - (k + Zpos r)) by lia.
    apply round_aux_exact; [lia..|].
    rewrite pos_iter_xO, Hm, <- Z.mul_assoc, <- Z.pow_add_r by lia. done.
Qed.

Lemma short_digits p : Zpos p < 2 ^ 53 -> Zpos (digits2_pos p) <= 53.
Proof.
  intros H. pose proof (digits_bounds p) as [Bl _].
  assert (Zpos (digits2_pos p) - 1 < 53) by (apply (Z.pow_lt_mono_r_iff 2); lia). lia.
Qed.

Lemma f_of_pos p : Zpos p < 2 ^ 53 -> f_of_Z (Zpos p) = canon p 0.
Proof.
  intros H. unfold f_of_Z. change 0 with (0 - 0) at 1.
  apply fnorm_exact; [by apply short_digits|lia..].
Qed.

Lemma shl_align_exact m ex ez : ez <= ex ->
  Zpos (fst (shl_align m ex ez)) = Zpos m * 2 ^ (ex - ez).
Proof.
  intros H. unfold shl_align. destruct (ez - ex) as [|r|r] eqn:E; simpl fst; [| lia |].
  - replace (ex - ez) with 0 by lia. lia.
  - rewrite pos_iter_xO. do 2 f_equal. lia.
Qed.

(** [Zpos m] is [p] scaled by [2^(-e)]: the shape of every short integer. *)
Lemma canon_shape p : Zpos p < 2 ^ 53 ->
  exists m e, f_of_Z (Zpos p) = S754_finite false m e /\
    e = Zpos (digits2_pos p) - 53 /\ -52 <= e <= 0 /\
    Zpos m = Zpos p * 2 ^ (- e) /\ Zpos (digits2_pos m) = 53.
Proof.
  intros H. pose proof (short_digits p H). destruct (canon_digits p) as [Hq Hqd]; [done|].
  rewrite f_of_pos by done. unfold canon. eexists _, _. split; [done|].
  split_and!; [lia|lia|lia| |done].
  rewrite Hq. do 2 f_equal. lia.
Qed.

Ltac canon_shapes :=
  repeat match goal with
  | |- context [f_of_Z (Zpos ?p)] =>
      let m := fresh "m" in let e := fresh "e" in let E := fresh "E" in
      destruct (canon_shape p) as (m & e & E & ? & ? & ? & ?); [lia|]; rewrite E
  end.

Lemma fadd_exact a b : 0 <= a -> 0 <= b -> a + b < 2 ^ 53 ->
  fadd (f_of_Z a) (f_of_Z b) = f_of_Z (a + b).
Proof.
  intros Ha Hb Hab. destruct a as [|a|]; [|destruct b as [|b|]|lia]; [| |  |lia].
  - rewrite Z.add_0_l. change (f_of_Z 0) with fzero. destruct b as [|b|]; [done| |lia].
    canon_shapes. done.
  - rewrite Z.add_0_r. change (f_of_Z 0) with fzero. canon_shapes. done.
  - destruct (canon_shape a) as (ma & ea & Ea & ? & ? & Hma & ?); [lia|].
    destruct (canon_shape b) as (mb & eb & Eb & ? & ? & Hmb & ?); [lia|].
    rewrite Ea, Eb. unfold fadd, SFadd.
    set (ez := Z.min ea eb). cbn [cond_Zopp].
    assert (Hs : Zpos (fst (shl_align ma ea ez)) + Zpos (fst (shl_align mb eb ez))
                 = Zpos (a + b) * 2 ^ (- ez)).
    { rewrite !shl_align_exact by lia. rewrite Hma, Hmb, <- !Z.mul_assoc, <- !Z.pow_add_r by lia.
      replace (- ea + (ea - ez)) with (- ez) by lia.
      replace (- eb + (eb - ez)) with (- ez) by lia. lia. }
    change (Zpos a + Zpos b) with (Zpos (a + b)) in *. rewrite f_of_pos by lia.
    rewrite <- (fnorm_exact (a + b) (fst (shl_align ma ea ez) + fst (shl_align mb eb ez)) (- ez) 0);
      [|apply short_digits; lia|lia..].
    unfold fnorm. f_equal; lia.
Qed.

Lemma fmul_exact a b : 0 < a -> 0 < b -> a * b < 2 ^ 53 ->
  fmul (f_of_Z a) (f_of_Z b) = f_of_Z (a * b).
Proof.
  intros Ha Hb Hab. destruct a as [|a|]; [lia| |lia]. destruct b as [|b|]; [lia| |lia].
  destruct (canon_shape a) as (ma & ea & Ea & ? & ? & Hma & ?); [nia|].
  destruct (canon_shape b) as (mb & eb & Eb & ? & ? & Hmb & ?); [nia|].
  rewrite Ea, Eb. unfold fmul, SFmul. simpl xorb.
  replace (ea + eb) with (0 - (- (ea + eb))) by lia.
  change (Zpos a * Zpos b) with (Zpos (a * b)) in *.
  rewrite f_of_pos by done.
  pose proof (digits_bounds a) as [La _]. pose proof (digits_bounds b) as [Lb _].
  pose proof (digits_bounds (a * b)) as [_ Uab].
  assert (Zpos (digits2_pos a) - 1 + (Zpos (digits2_pos b) - 1) < Zpos (digits2_pos (a * b))).
  { apply (Z.pow_lt_mono_r_iff 2); [lia..|]. rewrite Z.pow_add_r by lia.
    pose proof (pow2_pos (Zpos (digits2_pos a) - 1) ltac:(lia)).
    pose proof (pow2_pos (Zpos (digits2_pos b) - 1) ltac:(lia)). nia. }
  apply round_aux_exact; [by apply short_digits|lia..|].
  rewrite Pos2Z.inj_mul, Hma, Hmb, Pos2Z.inj_mul.
  replace (- (ea + eb)) with (- ea + - eb) by lia. rewrite Z.pow_add_r by lia. lia.
Qed.

Lemma fcompare_exact a b : 0 <= a < 2 ^ 53 -> 0 <= b < 2 ^ 53 ->
  SFcompare (f_of_Z a) (f_of_Z b) = Some (Z.compare a b).
Proof.
  intros Ha Hb. destruct a as [|a|], b as [|b|]; try lia; [done|..];
    change (f_of_Z 0) with fzero.
  - canon_shapes. done.
  - canon_shapes. done.
  - destruct (canon_shape a) as (ma & ea & Ea & ? & ? & Hma & ?); [lia|].
    destruct (canon_shape b) as (mb & eb & Eb & ? & ? & Hmb & ?); [lia|].
    rewrite Ea, Eb. cbn [SFcompare].
    pose proof (digits_bounds a) as [La Ua]. pose proof (digits_bounds b) as [Lb Ub].
    destruct (Z.compare_spec ea eb) as [Hee|Hee|Hee].
    + change (Pos.compare_cont Eq ma mb) with (Z.compare (Zpos ma) (Zpos mb)).
      rewrite Hma, Hmb, Hee. pose proof (pow2_pos (- eb) ltac:(lia)).
      by rewrite <- Zmult_compare_compat_r by lia.
    + assert (2 ^ Zpos (digits2_pos a) <= 2 ^ (Zpos (digits2_pos b) - 1))
        by (apply Z.pow_le_mono_r; lia).
      symmetry. f_equal. apply Z.compare_lt_iff. lia.
    + assert (2 ^ Zpos (digits2_pos b) <= 2 ^ (Zpos (digits2_pos a) - 1))
        by (apply Z.pow_le_mono_r; lia).
      symmetry. f_equal. apply Z.compare_gt_iff. lia.
Qed.

Lemma fltb_exact a b : 0 <= a < 2 ^ 53 -> 0 <= b < 2 ^ 53 ->
  fltb (f_of_Z a) (f_of_Z b) = (a <? b).
Proof. intros. unfold fltb, SFltb. rewrite fcompare_exact by done. unfold Z.ltb. by destruct (a ?= b). Qed.

Lemma fleb_exact a b : 0 <= a < 2 ^ 53 -> 0 <= b < 2 ^ 53 ->
  fleb (f_of_Z a) (f_of_Z b) = (a <=? b).
Proof. intros. unfold fleb, SFleb. rewrite fcompare_exact by done. unfold Z.leb. by destruct (a ?= b). Qed.

Lemma f_of_pos_nonzero a : 0 < a < 2 ^ 53 ->
  f_nonzero (f_of_Z a) = true /\ f_sign (f_of_Z a) = false /\ f_is_nan (f_of_Z a) = false.
Proof. intros H. destruct a as [|a|]; [lia| |lia]. by canon_shapes. Qed.

Lemma fexp_canon a : 0 < a < 2 ^ 53 ->
  exists m e, f_of_Z a = S754_finite false m e /\ -52 <= e <= 0 /\ Zpos m = a * 2 ^ (- e).
Proof.
  intros H. destruct a as [|a|]; [lia| |lia].
  destruct (canon_shape a) as (m & e & E & ? & ? & ? & ?); [lia|]. eauto.
Qed.

Lemma fnorm_of_Z r k : 0 < r < 2 ^ 53 -> 0 <= k <= 400 ->
  fnorm (r * 2 ^ k) (- k) = f_of_Z r.
Proof.
  intros Hr Hk. destruct r as [|r|]; [lia| |lia]. pose proof (pow2_pos k ltac:(lia)).
  rewrite f_of_pos by lia.
  replace (Zpos r * 2 ^ k) with (Zpos (Z.to_pos (Zpos r * 2 ^ k))) by (rewrite Z2Pos.id; lia).
  rewrite <- (Z.sub_0_l k). apply fnorm_exact; [apply short_digits; lia|lia..|].
  rewrite Z2Pos.id; lia.
Qed.

Lemma cfmod_exact a b : 0 < a < 2 ^ 53 -> 0 < b < 2 ^ 53 ->
  cfmod (f_of_Z a) (f_of_Z b)
  = if a mod b =? 0 then S754_zero false else f_of_Z (a mod b).
Proof.
  intros Ha Hb.
  destruct (fexp_canon a Ha) as (ma & ea & Ea & ? & Hma).
  destruct (fexp_canon b Hb) as (mb & eb & Eb & ? & Hmb).
  rewrite Ea, Eb. unfold cfmod, fexp_of, mant_at, f_sign. cbn [cond_Zopp].
  set (e0 := Z.min ea eb).
  rewrite !Z.shiftl_mul_pow2, Hma, Hmb, <- !Z.mul_assoc, <- !Z.pow_add_r by lia.
  replace (- ea + (ea - e0)) with (- e0) by lia.
  replace (- eb + (eb - e0)) with (- e0) by lia.
  pose proof (pow2_pos (- e0) ltac:(lia)).
  rewrite Z.rem_mod_nonneg, Z.mul_mod_distr_r by nia.
  pose proof (Z.mod_pos_bound a b ltac:(lia)).
  destruct (Z.eqb_spec (a mod b) 0) as [->|Hr]; [done|].
  rewrite (proj2 (Z.eqb_neq _ _)) by nia.
  rewrite <- (fnorm_of_Z (a mod b) (- e0)) by lia. by rewrite Z.opp_involutive.
Qed.

Lemma fmod_exact a b : 0 < a < 2 ^ 53 -> 0 < b < 2 ^ 53 ->
  fmod (f_of_Z a) (f_of_Z b) = f_of_Z (a mod b).
Proof.
  intros Ha Hb. unfold fmod. rewrite cfmod_exact by done.
  pose proof (Z.mod_pos_bound a b ltac:(lia)).
  destruct (f_of_pos_nonzero b Hb) as (_ & Hs & _). rewrite Hs.
  destruct (Z.eqb_spec (a mod b) 0) as [->|Hr]; [done|].
  destruct (f_of_pos_nonzero (a mod b)) as (-> & -> & _); [lia|]. done.
Qed.

Lemma fdiv_exact n b : 0 < n -> 0 < b -> n * b < 2 ^ 53 ->
  fdiv (f_of_Z (n * b)) (f_of_Z b) = f_of_Z n.
Proof.
  intros Hn Hb Hlt. destruct n as [|n|]; [lia| |lia]. destruct b as [|b|]; [lia| |lia].
  change (Zpos n * Zpos b) with (Zpos (n * b)) in *.
  destruct (canon_shape (n * b)) as (ma & ea & Ea & Hea & ? & Hma & Hda); [lia|].
  destruct (canon_shape b) as (mb & eb & Eb & Heb & ? & Hmb & Hdb); [nia|].
  rewrite Ea, Eb. unfold fdiv, SFdiv, SFdiv_core_binary. cbn [Zdigits2 xorb].
  rewrite Hda, Hdb, fexp_53 by lia.
  replace (Z.min (53 + ea - (53 + eb) - 53) (ea - eb)) with (ea - eb - 53) by lia.
  replace (ea - eb - (ea - eb - 53)) with 53 by lia. cbv iota.
  pose proof (digits_bounds n) as [Ln Un]. pose proof (digits_bounds b) as [Lb Ub].
  pose proof (digits_bounds (n * b)) as [Lnb Unb].
  assert (Hdn : Zpos (digits2_pos (n * b)) <= Zpos (digits2_pos n) + Zpos (digits2_pos b)).
  { assert (Zpos (digits2_pos (n * b)) - 1 < Zpos (digits2_pos n) + Zpos (digits2_pos b)); [|lia].
    apply (Z.pow_lt_mono_r_iff 2); [lia..|]. rewrite Z.pow_add_r by lia. nia. }
  assert (Hdb2 : Zpos (digits2_pos b) <= Zpos (digits2_pos (n * b))).
  { assert (Zpos (digits2_pos b) - 1 < Zpos (digits2_pos (n * b))); [|lia].
    apply (Z.pow_lt_mono_r_iff 2); [lia..|]. nia. }
  assert (Hq : Z.shiftl (Zpos ma) 53 = Zpos n * 2 ^ (53 - ea + eb) * Zpos mb).
  { rewrite Z.shiftl_mul_pow2, Hma, Hmb by lia.
    replace (53 - ea + eb) with (53 + - ea - - eb) by lia.
    rewrite <- (Z.mul_assoc (Zpos (n * b))), <- Z.pow_add_r by lia.
    replace (Zpos n * 2 ^ (53 + - ea - - eb) * (Zpos b * 2 ^ (- eb)))
      with (Zpos n * Zpos b * (2 ^ (53 + - ea - - eb) * 2 ^ (- eb))) by lia.
    rewrite <- Z.pow_add_r by lia. rewrite Pos2Z.inj_mul. do 2 f_equal. lia. }
  assert (Hdiv : Z.div_eucl (Z.shiftl (Zpos ma) 53) (Zpos mb) = (Zpos n * 2 ^ (53 - ea + eb), 0)).
  { pose proof (Z.div_mul (Zpos n * 2 ^ (53 - ea + eb)) (Zpos mb) ltac:(lia)) as Q1.
    pose proof (Z.mod_mul (Zpos n * 2 ^ (53 - ea + eb)) (Zpos mb) ltac:(lia)) as Q2.
    rewrite <- Hq in Q1, Q2. unfold Z.div, Z.modulo in Q1, Q2.
    destruct (Z.div_eucl _ _). by subst. }
  rewrite Hdiv. replace (new_location (Zpos mb) 0) with loc_Exact
    by (unfold new_location, new_location_even, new_location_odd; by destruct (Z.even _)).
  pose proof (pow2_pos (53 - ea + eb) ltac:(lia)).
  assert (Zpos n * Zpos b < 2 ^ 53) by lia. assert (Zpos n < 2 ^ 53) by nia.
  replace (ea - eb - 53) with (0 - (53 - ea + eb)) by lia.
  rewrite f_of_pos by done.
  replace (Zpos n * 2 ^ (53 - ea + eb)) with (Zpos (Z.to_pos (Zpos n * 2 ^ (53 - ea + eb))))
    by (rewrite Z2Pos.id; lia).
  apply round_aux_exact; [by apply short_digits|lia..|]. rewrite Z2Pos.id; lia.
Qed.

Lemma fsub_diag s m e : fsub (S754_finite s m e) (S754_finite s m e) = fzero.
Proof. unfold fsub, SFsub. by rewrite Z.sub_diag. Qed.

Lemma ffloor_exact a : 0 < a < 2 ^ 53 -> ffloor (f_of_Z a) = f_of_Z a.
Proof.
  intros Ha. destruct (fexp_canon a Ha) as (m & e & E & He & Hm). rewrite E. unfold ffloor.
  destruct (Z.leb_spec 0 e); [done|]. unfold mant_at, cond_Zopp.
  pose proof (pow2_pos (- e) ltac:(lia)).
  rewrite Z.sub_diag, Z.shiftl_0_r, Hm, Z.div_mul by lia. exact E.
Qed.

Lemma ffloordiv_exact n b : 0 < n -> 0 < b -> n * b < 2 ^ 53 ->
  ffloordiv (f_of_Z (n * b)) (f_of_Z b) = f_of_Z n.
Proof.
  intros Hn Hb Hlt. unfold ffloordiv. rewrite cfmod_exact, Z.mod_mul by nia.
  cbn [Z.eqb f_nonzero andb].
  assert (Hs : fsub (f_of_Z (n * b)) (S754_zero false) = f_of_Z (n * b)).
  { destruct (fexp_canon (n * b)) as (m & e & E & _); [nia|]. by rewrite E. }
  rewrite Hs, fdiv_exact by done.
  destruct (f_of_pos_nonzero n) as (-> & _); [nia|].
  rewrite ffloor_exact by nia.
  destruct (fexp_canon n) as (m & e & E & _); [nia|]. by rewrite E, fsub_diag.
Qed.

Lemma float_to_int_exact a : 0 <= a < 2 ^ 53 -> float_to_int (f_of_Z a) = Ok a.
Proof.
  intros Ha. destruct (Z.eqb_spec a 0) as [->|]; [done|].
  destruct (fexp_canon a) as (m & e & E & He & Hm); [lia|]. rewrite E. simpl. f_equal.
  pose proof (pow2_pos (- e) ltac:(lia)).
  replace (Z.shiftl (Zpos m) e) with (Z.shiftr (Zpos m) (- e))
    by (unfold Z.shiftr; by rewrite Z.opp_involutive).
  rewrite Hm, Z.shiftr_div_pow2, Z.div_mul; lia.
Qed.

Lemma int_to_float_exact a : 0 <= a < 2 ^ 53 -> int_to_float a = Ok (f_of_Z a).
Proof.
  intros Ha. unfold int_to_float. destruct (Z.eqb_spec a 0) as [->|]; [done|].
  destruct (fexp_canon a) as (m & e & E & _); [lia|]. by rewrite E.
Qed.

Lemma shr_1_le r : 0 <= shr_m r -> 0 <= shr_m (shr_1 r) <= shr_m r.
Proof. destruct r as [m rr s]. destruct m as [|[p|p|]|]; simpl; lia. Qed.

Lemma shr_le r e n : 0 <= shr_m r -> 0 <= shr_m (fst (shr r e n)) <= shr_m r /\ snd (shr r e n) = e + Z.max 0 n.
Proof.
  intros Hr. destruct n as [|p|p]; simpl; [lia| |lia]. split; [|lia]. rewrite iter_pos_nat.
  induction (Pos.to_nat p) as [|k IH]; simpl; [lia|]. pose proof (shr_1_le (Nat.iter k shr_1 r)). lia.
Qed.

Lemma Zdigits2_le m d : 0 <= m < 2 ^ d -> 0 <= d -> 0 <= Zdigits2 m <= d.
Proof.
  intros Hm Hd. destruct m as [|p|p]; simpl; [lia| |lia]. pose proof (digits_bounds p) as [Bl _].
  split; [lia|]. assert (Zpos (digits2_pos p) - 1 < d); [|lia]. apply (Z.pow_lt_mono_r_iff 2); lia.
Qed.


(** A rounded integer of less than 400 bits is finite (crude: the exponent
    stays far below the greatest). *)
Lemma f_of_Z_finite z : 0 <= z < 2 ^ 400 -> f_is_inf (f_of_Z z) = false.
Proof.
  intros Hz. destruct (Z.ltb_spec z (2 ^ 53)) as [Hs|Hs].
  { pose proof (int_to_float_exact z ltac:(lia)) as He. unfold int_to_float in He. by destruct (f_is_inf _). }
  destruct z as [|p|p]; [lia| |lia]. unfold f_of_Z, fnorm, binary_normalize, binary_round.
  pose proof (Zdigits2_le (Zpos p) 400 Hz ltac:(lia)) as Hd. cbn [Zdigits2] in Hd.
  assert (Hd54 : 54 <= Zpos (digits2_pos p)).
  { pose proof (digits_bounds p) as [_ Bu]. assert (53 < Zpos (digits2_pos p)); [|lia].
    apply (Z.pow_lt_mono_r_iff 2); lia. }
  assert (Hex : forall e, fexp 53 1024 e = Z.max (e - 53) (-1074)) by (intros; unfold fexp, emin; f_equal; lia).
  unfold shl_align. rewrite Hex.
  destruct (Z.max (Zpos (digits2_pos p) + 0 - 53) (-1074) - 0) as [|q|q] eqn:Eq; [lia| |lia].
  unfold binary_round_aux, shr_fexp. rewrite !Hex. cbn [Zdigits2 shr_record_of_loc].
  match goal with |- context [shr ?r ?e ?n] => pose proof (shr_le r e n ltac:(cbn; lia)) as [Hm He]; destruct (shr r e n) as [r1 e1] end.
  cbn [fst snd shr_m] in Hm, He.
  set (m2 := round_nearest_even (shr_m r1) (loc_of_shr_record r1)).
  assert (Hm2 : 0 <= m2 < 2 ^ 401).
  { assert (0 <= m2 <= shr_m r1 + 1); [|lia]. unfold m2, round_nearest_even.
    destruct (loc_of_shr_record r1) as [|[| |]]; try lia. destruct (Z.even _); lia. }
  pose proof (Zdigits2_le m2 401 Hm2 ltac:(lia)) as Hd2. rewrite Hex.
  match goal with |- context [shr ?r ?e ?n] => pose proof (shr_le r e n ltac:(cbn; lia)) as [Hm3 He2]; destruct (shr r e n) as [r2 e2] end.
  cbn [fst snd] in Hm3, He2. destruct (shr_m r2) as [|m|m]; [done| |done].
  destruct (e2 <=? 1024 - 53) eqn:E; [done|]. lia.
Qed.

Create Rewrite HintDb pyfloat.
#[export] Hint Rewrite fadd_exact fmul_exact fltb_exact fleb_exact fmod_exact
  ffloordiv_exact float_to_int_exact int_to_float_exact using lia : pyfloat.
