(* ===== verification/PyValue.v ===== *)
(** * PyValue: dynamic Python values and insertion-ordered dictionaries

    Fields whose type the code tests at run time, and the payload mappings it
    copies around, are values of [pyval].  A [dict] has string keys (every
    mapping of the modelled code is a JSON object) and keeps insertion order. *)

From S2P Require Import Prelude PyFloat.
Local Open Scope Z_scope.

(* ------------------------------------------------------------------ *)
(** ** Dictionaries *)

Abbreviation dict A := (list (string * A)).

Section Dict.
Context {A : Type}.
Implicit Types d : dict A.

(** [d.get(k)] *)
Fixpoint dget (d : dict A) (k : string) : option A :=
  match d with
  | [] => None
  | (k', v) :: d' => if String.eqb k' k then Some v else dget d' k
  end.

(** [k in d] *)
Definition dmem (d : dict A) (k : string) : bool :=
  match dget d k with Some _ => true | None => false end.

(** [d[k] = v]: in place when the key exists, appended otherwise. *)
Fixpoint dset (d : dict A) (k : string) (v : A) : dict A :=
  match d with
  | [] => [(k, v)]
  | (k', v') :: d' => if String.eqb k' k then (k', v) :: d' else (k', v') :: dset d' k v
  end.

(** [d.update(d2)] *)
Definition dupdate (d d2 : dict A) : dict A := fold_left (fun d '(k, v) => dset d k v) d2 d.

Definition dkeys (d : dict A) : list string := map fst d.

(** [del d[k]], of a key in [d]. *)
Definition ddel (d : dict A) (k : string) : dict A :=
  List.filter (fun '(k', _) => negb (String.eqb k' k)) d.

Lemma ddel_elem d k x : x ∈ ddel d k -> x ∈ d.
Proof. unfold ddel. rewrite !list_elem_of_In. by intros [? _]%filter_In. Qed.

Lemma ddel_nodup d k : NoDup (dkeys d) -> NoDup (dkeys (ddel d k)).
Proof.
  induction d as [|[k' v] d IH]; simpl; [done|]. intros [Hn Hd]%NoDup_cons.
  destruct (String.eqb k' k); simpl; [by apply IH|]. constructor; [|by apply IH].
  intros Hin. apply Hn. apply list_elem_of_fmap in Hin as ([k2 v2] & Heq & Hin). simpl in Heq. subst k'.
  exact (list_elem_of_fmap_2 fst _ _ (ddel_elem _ _ _ Hin)).
Qed.

Lemma dget_dset_eq d k v : dget (dset d k v) k = Some v.
Proof.
  induction d as [|[k' v'] d IH]; simpl; [by rewrite String.eqb_refl|].
  destruct (String.eqb k' k) eqn:E; simpl; by rewrite E.
Qed.

Lemma dget_dset_ne d k k' v : k <> k' -> dget (dset d k v) k' = dget d k'.
Proof.
  intros Hne. induction d as [|[k0 v0] d IH]; simpl.
  - by apply String.eqb_neq in Hne as ->.
  - destruct (String.eqb_spec k0 k) as [->|]; simpl.
    + by apply String.eqb_neq in Hne as ->.
    + by rewrite IH.
Qed.

Lemma dget_dset d k k' v :
  dget (dset d k v) k' = if String.eqb k k' then Some v else dget d k'.
Proof.
  destruct (String.eqb_spec k k') as [->|]; [apply dget_dset_eq | by apply dget_dset_ne].
Qed.

Lemma dkeys_dset d k v x : x ∈ dkeys (dset d k v) <-> x = k \/ x ∈ dkeys d.
Proof.
  induction d as [|[k' v'] d IH]; simpl; [set_solver|].
  destruct (String.eqb_spec k' k) as [->|]; simpl; set_solver.
Qed.

Lemma NoDup_dset d k v : NoDup (dkeys d) -> NoDup (dkeys (dset d k v)).
Proof.
  induction d as [|[k' v'] d IH]; simpl; [intros _; apply NoDup_singleton|].
  intros [Hn Hd]%NoDup_cons. destruct (String.eqb_spec k' k) as [->|Hne]; simpl.
  - by constructor.
  - constructor; [|by apply IH]. rewrite dkeys_dset. set_solver.
Qed.

Lemma dget_Some_elem d k v : dget d k = Some v -> (k, v) ∈ d.
Proof.
  induction d as [|[k' v'] d IH]; simpl; [done|].
  destruct (String.eqb_spec k' k) as [->|]; intros; simplify_eq; set_solver.
Qed.

Lemma dmem_keys d k : dmem d k = true <-> k ∈ dkeys d.
Proof.
  unfold dmem. induction d as [|[k' v'] d IH]; simpl; [set_solver|].
  destruct (String.eqb_spec k' k) as [->|]; [set_solver|]. rewrite IH. set_solver.
Qed.

Lemma dget_None_keys d k : dget d k = None <-> k ∉ dkeys d.
Proof. rewrite <- dmem_keys. unfold dmem. destruct (dget d k); naive_solver. Qed.

Lemma elem_dget d k v : NoDup (dkeys d) -> (k, v) ∈ d -> dget d k = Some v.
Proof.
  induction d as [|[k' v'] d IH]; simpl; [set_solver|].
  intros [Hn Hd]%NoDup_cons [Heq|Hin]%elem_of_cons.
  - simplify_eq. by rewrite String.eqb_refl.
  - destruct (String.eqb_spec k' k) as [->|]; [|by apply IH].
    destruct Hn. change k with (fst (k, v)). by apply (list_elem_of_fmap_2 fst).
Qed.

(** [update] writes the items in order; other keys keep their value. *)
Lemma dupdate_cases d items k :
  (exists v, (k, v) ∈ items /\ dget (dupdate d items) k = Some v) \/
  (k ∉ dkeys items /\ dget (dupdate d items) k = dget d k).
Proof.
  revert d. induction items as [|[k' v'] items IH]; intros d; [right; set_solver|].
  simpl. destruct (IH (dset d k' v')) as [(v & Hv & ->)|[Hn ->]].
  - left. exists v. set_solver.
  - rewrite dget_dset. destruct (String.eqb_spec k' k) as [->|].
    + left. exists v'. set_solver.
    + right. set_solver.
Qed.

Lemma dget_dupdate_in d items k v :
  NoDup (dkeys items) -> (k, v) ∈ items -> dget (dupdate d items) k = Some v.
Proof.
  intros Hnd Hin. destruct (dupdate_cases d items k) as [(v' & Hv' & ->)|[Hn _]].
  - pose proof (elem_dget items k v Hnd Hin). pose proof (elem_dget items k v' Hnd Hv'). congruence.
  - destruct Hn. by apply (list_elem_of_fmap_2 fst) in Hin.
Qed.
End Dict.

(* ------------------------------------------------------------------ *)
(** ** Values *)

Inductive pyval : Type :=
| VNone
| VBool (b : bool)
| VInt (z : Z)
| VFloat (f : float64)
| VStr (s : string)
| VList (l : list pyval)
| VDict (d : list (string * pyval)).

(** The int-or-float part of a value ([bool] is a subclass of [int]). *)
Inductive num := NZ (z : Z) | NF (f : float64).

Definition as_num (v : pyval) : option num :=
  match v with
  | VBool b => Some (NZ (if b then 1 else 0))
  | VInt z => Some (NZ z)
  | VFloat f => Some (NF f)
  | _ => None
  end.

(** Exact comparison of an integer with a float, as CPython does it. *)
Definition compare_ZF (z : Z) (f : float64) : option comparison :=
  match f with
  | S754_nan => None
  | S754_infinity s => Some (if s then Gt else Lt)
  | S754_zero _ => Some (z ?= 0)
  | S754_finite s m e =>
      let v := if s then Zneg m else Zpos m in
      Some (if 0 <=? e then z ?= v * 2 ^ e else z * 2 ^ (- e) ?= v)
  end.

Definition num_compare (a b : num) : option comparison :=
  match a, b with
  | NZ x, NZ y => Some (x ?= y)
  | NF x, NF y => SFcompare x y
  | NZ x, NF y => compare_ZF x y
  | NF x, NZ y => match compare_ZF y x with Some c => Some (CompOpp c) | None => None end
  end.

Definition num_eqb (a b : num) : bool :=
  match num_compare a b with Some Eq => true | _ => false end.
Definition num_ltb (a b : num) : bool :=
  match num_compare a b with Some Lt => true | _ => false end.
Definition num_leb (a b : num) : bool :=
  match num_compare a b with Some (Lt | Eq) => true | _ => false end.

(** [a == b] *)
Fixpoint py_eq (a b : pyval) {struct a} : bool :=
  match a, b with
  | VNone, VNone => true
  | VStr s, VStr t => String.eqb s t
  | VList l, VList l' =>
      (fix go (l l' : list pyval) {struct l} : bool :=
         match l, l' with
         | [], [] => true
         | x :: l, y :: l' => py_eq x y && go l l'
         | _, _ => false
         end) l l'
  | VDict d, VDict d' =>
      (length d =? length d')%nat &&
      (fix go (d : list (string * pyval)) : bool :=
         match d with
         | [] => true
         | (k, x) :: d => match dget d' k with Some y => py_eq x y | None => false end && go d
         end) d
  | _, _ =>
      match as_num a, as_num b with
      | Some x, Some y => num_eqb x y
      | _, _ => false
      end
  end.

(** [bool(v)] *)
Definition py_true (v : pyval) : bool :=
  match v with
  | VNone => false
  | VBool b => b
  | VInt z => negb (z =? 0)
  | VFloat f => f_nonzero f
  | VStr s => str_true s
  | VList l => match l with [] => false | _ => true end
  | VDict d => match d with [] => false | _ => true end
  end.

(** [a < b] and [a <= b]; list operands, which the modelled code never
    compares, are grouped with the pairs that raise. *)
Definition py_ltb (a b : pyval) : result pyexn bool :=
  match a, b with
  | VStr s, VStr t => Ok (String.ltb s t)
  | _, _ => match as_num a, as_num b with
            | Some x, Some y => Ok (num_ltb x y)
            | _, _ => Err TypeError
            end
  end.

(** [isinstance(v, (int, float))], [bool] included. *)
Definition is_number (v : pyval) : bool :=
  match as_num v with Some _ => true | None => false end.
Definition is_bool (v : pyval) : bool := match v with VBool _ => true | _ => false end.
Definition is_dict (v : pyval) : bool := match v with VDict _ => true | _ => false end.
Definition is_list (v : pyval) : bool := match v with VList _ => true | _ => false end.
Definition is_str (v : pyval) : bool := match v with VStr _ => true | _ => false end.
(** [isinstance(v, int)], [bool] included. *)
Definition is_int (v : pyval) : bool :=
  match v with VInt _ | VBool _ => true | _ => false end.
Definition is_None (v : pyval) : bool := match v with VNone => true | _ => false end.

(** [float(v)] on a number; a string argument would be parsed and is outside
    the model, any other value raises TypeError. *)
Definition to_float (v : pyval) : result pyexn float64 :=
  match v with
  | VFloat f => Ok f
  | VInt z => int_to_float z
  | VBool b => Ok (f_of_Z (if b then 1 else 0))
  | _ => Err TypeError
  end.

(** [int(v)] on a number; a string argument would be parsed and is outside
    the model. *)
Definition py_int (v : pyval) : result pyexn Z :=
  match v with
  | VInt z => Ok z
  | VBool b => Ok (if b then 1%Z else 0%Z)
  | VFloat f => float_to_int f
  | _ => Err TypeError
  end.

(** [d.get(k)] on a payload dictionary: absent keys read as [None]. *)
Definition vget (d : dict pyval) (k : string) : pyval :=
  match dget d k with Some v => v | None => VNone end.

(** [v or None] *)
Definition or_none (v : pyval) : pyval := if py_true v then v else VNone.

(** An [Optional[str]] as a value. *)
Definition opt_str (o : option string) : pyval :=
  match o with Some s => VStr s | None => VNone end.

Lemma num_eqb_refl_Z z : num_eqb (NZ z) (NZ z) = true.
Proof. unfold num_eqb; simpl. by rewrite Z.compare_refl. Qed.

(** Two numbers without a NaN are always ordered. *)
Definition num_is_nan (n : num) : bool := match n with NF f => f_is_nan f | _ => false end.

Lemma compare_ZF_total z f : f_is_nan f = false -> exists c, compare_ZF z f = Some c.
Proof. destruct f; simpl; intros; eauto; done. Qed.

Lemma num_compare_antisym a b :
  num_compare b a = match num_compare a b with Some c => Some (CompOpp c) | None => None end.
Proof.
  destruct a as [x|x], b as [y|y]; cbn [num_compare].
  - by rewrite Z.compare_antisym.
  - done.
  - destruct (compare_ZF y x) as [[]|]; done.
  - apply SFcompare_antisym.
Qed.

Lemma num_compare_total a b : num_is_nan a = false -> num_is_nan b = false ->
  exists c, num_compare a b = Some c.
Proof.
  destruct a as [x|x], b as [y|y]; simpl; intros Ha Hb; eauto using compare_ZF_total.
  - destruct (compare_ZF_total y x) as [c ->]; eauto.
  - destruct x as [[]|[]| |[] m e], y as [[]|[]| |[] m' e']; simpl in *; eauto; done.
Qed.

Lemma num_leb_total a b : num_is_nan a = false -> num_is_nan b = false ->
  num_leb a b = false -> num_leb b a = true.
Proof.
  intros Ha Hb. destruct (num_compare_total a b Ha Hb) as [c Hc].
  unfold num_leb. rewrite (num_compare_antisym a b), Hc. by destruct c.
Qed.

Lemma py_eq_str_r v s : py_eq v (VStr s) = true -> v = VStr s.
Proof. destruct v; simpl; try discriminate. intros E. apply String.eqb_eq in E. by subst. Qed.

Lemma py_eq_str_l v s : py_eq (VStr s) v = true -> v = VStr s.
Proof. destruct v; simpl; try discriminate. intros E. apply String.eqb_eq in E. by subst. Qed.

Lemma py_eq_str_refl s : py_eq (VStr s) (VStr s) = true.
Proof. simpl. apply String.eqb_refl. Qed.
