(* ===== verification/Episode.v ===== *)
(** * Episode: the ground-truth record a cassette judges

    Models src/sentinel_os/episode.py.  An episode holds what was requested,
    what the observed record says happened, and what the acting system claims.
    Validation is the only door to judgment: it refuses a malformed record and
    a requested/actual mismatch with no outcome reason on file. *)

From S2P Require Import Prelude PyFloat PyValue.

Definition UNOBSERVED : string := "<<UNOBSERVED>>".

Record EpisodeEvent := mkEpisodeEvent {
  ev_at : pyval;
  ev_kind : string;
  ev_detail : dict pyval;
}.

Record Mismatch := mkMismatch {
  mm_name : string;
  mm_requested : pyval;
  mm_actual : pyval;
}.

Inductive discrepancy_kind := DIVERGE | EXTRA.

Record Discrepancy := mkDiscrepancy {
  dc_name : string;
  dc_actor_claimed : pyval;
  dc_observed : pyval;
  dc_kind : discrepancy_kind;
}.

(** The type of a timeline entry is tested at run time. *)
Inductive timeline_entry := TEvent (e : EpisodeEvent) | TOther.

Record Episode := mkEpisode {
  episode_id : string;
  domain : string;
  requested : pyval;
  actual : pyval;
  actor_report : pyval;
  timeline : list timeline_entry;
  outcome_reasons : list string;
  attributes : pyval;
}.

(** The message templates of the violations [validate_episode] collects. *)
Inductive episode_violation :=
| EV_empty (label : string)
| EV_not_dict (label : string)
| EV_blank_reason (i : nat)
| EV_bad_timeline (i : nat)
| EV_unexplained (m : Mismatch).

Inductive episode_exn :=
| EpisodeIntegrityError (id : string) (vs : list episode_violation)
| EpisodePyExn (e : pyexn).

Record EpisodeReport := mkReport {
  rep_mismatches : list Mismatch;
  rep_discrepancies : list Discrepancy;
}.

Definition opt_dict (d : option (dict pyval)) : dict pyval :=
  match d with Some d => d | None => [] end.

Definition make_episode (episode_id domain : string) (requested actual : dict pyval)
    (actor_report : option (dict pyval)) (timeline : list timeline_entry)
    (outcome_reasons : list string) (attributes : option (dict pyval)) : Episode :=
  {| episode_id := episode_id;
     domain := domain;
     requested := VDict requested;
     actual := VDict actual;
     actor_report := VDict (opt_dict actor_report);
     timeline := timeline;
     outcome_reasons := outcome_reasons;
     attributes := VDict (opt_dict attributes) |}.

(** Iterating or subscripting by name needs a mapping. *)
Definition as_dict (v : pyval) : result pyexn (dict pyval) :=
  match v with VDict d => Ok d | _ => Err TypeError end.

(** [sorted(d)]: the keys in code point order. *)
Definition sorted_keys {A} (d : dict A) : list string := sort String.leb (dkeys d).

Definition mismatch_at (req act : dict pyval) (name : string) : list Mismatch :=
  let want := vget req name in
  match dget act name with
  | None => [mkMismatch name want VNone]
  | Some got => if negb (py_eq got want) then [mkMismatch name want got] else []
  end.

Definition outcome_mismatches (ep : Episode) : result pyexn (list Mismatch) :=
  req ← as_dict (requested ep);
  act ← as_dict (actual ep);
  Ok (flat_map (mismatch_at req act) (sorted_keys req)).

Definition discrepancy_at (rep act : dict pyval) (name : string) : list Discrepancy :=
  let claimed := vget rep name in
  match dget act name with
  | None => [mkDiscrepancy name claimed (VStr UNOBSERVED) EXTRA]
  | Some got => if negb (py_eq got claimed)
                then [mkDiscrepancy name claimed got DIVERGE] else []
  end.

Definition actor_discrepancies (ep : Episode) : result pyexn (list Discrepancy) :=
  rep ← as_dict (actor_report ep);
  act ← as_dict (actual ep);
  Ok (flat_map (discrepancy_at rep act) (sorted_keys rep)).

Fixpoint enum_violations {A} (f : nat -> A -> list episode_violation) (i : nat) (l : list A)
    : list episode_violation :=
  match l with [] => [] | a :: l' => f i a ++ enum_violations f (S i) l' end.

(** The shape checks, before any comparison of requested with actual. *)
Definition shape_violations (ep : Episode) : list episode_violation :=
  (if blank (episode_id ep) then [EV_empty "episode_id"] else []) ++
  (if blank (domain ep) then [EV_empty "domain"] else []) ++
  flat_map (fun '(label, v) => if is_dict v then [] else [EV_not_dict label])
    [("requested", requested ep); ("actual", actual ep);
     ("actor_report", actor_report ep); ("attributes", attributes ep)] ++
  enum_violations (fun i r => if blank r then [EV_blank_reason i] else []) 0 (outcome_reasons ep) ++
  enum_violations (fun i e => match e with TEvent _ => [] | TOther => [EV_bad_timeline i] end)
    0 (timeline ep).

Definition lift_py {A} (r : result pyexn A) : result episode_exn A := map_err EpisodePyExn r.

Definition validate_episode (ep : Episode) : result episode_exn EpisodeReport :=
  match shape_violations ep with
  | _ :: _ as vs => Err (EpisodeIntegrityError (episode_id ep) vs)
  | [] =>
      mismatches ← lift_py (outcome_mismatches ep);
      match mismatches, outcome_reasons ep with
      | _ :: _, [] => Err (EpisodeIntegrityError (episode_id ep) (map EV_unexplained mismatches))
      | _, _ =>
          discrepancies ← lift_py (actor_discrepancies ep);
          Ok (mkReport mismatches discrepancies)
      end
  end.

(** What the kernel asks of a cassette: the two methods judgment calls. *)
Class Cassette (C Q F : Type) := {
  judge : C -> Episode -> result episode_exn Q;
  explain : C -> Episode -> result episode_exn (list F);
}.

(** Kernel findings are prepended to the cassette's own factors. *)
Inductive factor (F : Type) :=
| actor_report_divergence (d : Discrepancy)
| outcome_mismatch (m : Mismatch) (reasons_on_file : list string)
| cassette_factor (f : F).
Arguments actor_report_divergence {F} d.
Arguments outcome_mismatch {F} m reasons_on_file.
Arguments cassette_factor {F} f.

Section Judgment.
Context {C Q F : Type} `{Cassette C Q F}.

Definition judge_episode (cassette : C) (ep : Episode) : result episode_exn Q :=
  _ ← validate_episode ep;
  judge cassette ep.

Definition explain_episode (cassette : C) (ep : Episode) : result episode_exn (list (factor F)) :=
  report ← validate_episode ep;
  own ← explain cassette ep;
  Ok (map actor_report_divergence (rep_discrepancies report) ++
      map (fun m => outcome_mismatch m (outcome_reasons ep)) (rep_mismatches report) ++
      map cassette_factor own).
End Judgment.

(* ------------------------------------------------------------------ *)
(** ** Lemmas *)

Lemma elem_of_sorted_keys {A} (d : dict A) k : k ∈ sorted_keys d <-> k ∈ dkeys d.
Proof. apply elem_of_sort. Qed.

Lemma elem_of_flat_map {A B} (f : A -> list B) l y :
  y ∈ flat_map f l <-> exists x, x ∈ l /\ y ∈ f x.
Proof.
  rewrite list_elem_of_In, in_flat_map.
  split; intros (x & ? & ?); exists x; by rewrite ?list_elem_of_In in *.
Qed.

Lemma mismatch_at_spec req act name m :
  m ∈ mismatch_at req act name <->
  mm_name m = name /\ mm_requested m = vget req name /\ mm_actual m = vget act name /\
  match dget act name with Some got => py_eq got (vget req name) = false | None => True end.
Proof.
  unfold mismatch_at, vget. destruct (dget act name) as [got|] eqn:E.
  - destruct (py_eq got _) eqn:Eq; simpl; rewrite ?list_elem_of_singleton; destruct m; simpl;
      set_solver.
  - rewrite list_elem_of_singleton; destruct m; simpl. naive_solver.
Qed.

Lemma enum_violations_nil {A} (f : nat -> A -> list episode_violation) i l :
  enum_violations f i l = [] <-> forall j a, l !! j = Some a -> f (i + j) a = [].
Proof.
  revert i. induction l as [|a l IH]; intros i; simpl; [done|].
  split.
  - intros [Ha Hl]%app_eq_nil [|j] b; simpl; intros ?; simplify_eq.
    + by rewrite Nat.add_0_r.
    + rewrite <- Nat.add_succ_comm. by apply IH.
  - intros Hf. rewrite (proj2 (IH (S i))).
    + rewrite app_nil_r. rewrite <- (Nat.add_0_r i). by apply (Hf 0).
    + intros j b Hj. rewrite Nat.add_succ_comm. by apply (Hf (S j)).
Qed.

(** The shape every validated record has. *)
Definition episode_shape (ep : Episode) : Prop :=
  blank (episode_id ep) = false /\ blank (domain ep) = false /\
  (is_dict (requested ep) && is_dict (actual ep) && is_dict (actor_report ep) &&
   is_dict (attributes ep) = true) /\
  Forall (fun r => blank r = false) (outcome_reasons ep) /\
  Forall (fun e => e <> TOther) (timeline ep).

Lemma shape_violations_nil ep : shape_violations ep = [] <-> episode_shape ep.
Proof.
  unfold shape_violations, episode_shape. rewrite !app_nil, !enum_violations_nil, !Forall_lookup.
  simpl. destruct (blank (episode_id ep)), (blank (domain ep)); simpl; try naive_solver.
  destruct (is_dict (requested ep)), (is_dict (actual ep)), (is_dict (actor_report ep)),
    (is_dict (attributes ep)); simpl; try naive_solver.
  split.
  - intros (_ & _ & _ & Hr & Ht). split_and!; try done.
    + intros i r Hi. specialize (Hr i r Hi). by destruct (blank r).
    + intros i e Hi. specialize (Ht i e Hi). by destruct e.
  - intros (_ & _ & _ & Hr & Ht). split_and!; try done.
    + intros i r Hi. by rewrite (Hr i r Hi).
    + intros i e Hi. specialize (Ht i e Hi). by destruct e.
Qed.

Lemma is_dict_inv v : is_dict v = true -> exists d, v = VDict d.
Proof. destruct v; simpl; intros; eauto; done. Qed.

Lemma episode_shape_dicts ep : episode_shape ep -> exists req act rep att,
  requested ep = VDict req /\ actual ep = VDict act /\
  actor_report ep = VDict rep /\ attributes ep = VDict att.
Proof.
  intros (_ & _ & Hd & _). bool_hyps.
  repeat match goal with H : is_dict _ = true |- _ => apply is_dict_inv in H as [? ?] end.
  by do 4 eexists.
Qed.

(** [ep] answers the request: every requested field has an equal actual value. *)
Definition request_met (req act : dict pyval) : Prop :=
  forall name, name ∈ dkeys req ->
    exists got, dget act name = Some got /\ py_eq got (vget req name) = true.

Lemma no_mismatch_iff req act :
  flat_map (mismatch_at req act) (sorted_keys req) = [] <-> request_met req act.
Proof.
  split.
  - intros Hnil name Hin.
    assert (Hno : forall m, m ∉ mismatch_at req act name).
    { intros m Hm. assert (m ∈ flat_map (mismatch_at req act) (sorted_keys req)).
      { apply elem_of_flat_map. exists name. by rewrite elem_of_sorted_keys. }
      rewrite Hnil in *. set_solver. }
    unfold mismatch_at in Hno. destruct (dget act name) as [got|]; [|set_solver].
    exists got. split; [done|]. destruct (py_eq got _); [done|]. set_solver.
  - intros Hmet. destruct (flat_map _ _) as [|m l] eqn:E; [done|].
    assert (Hm : m ∈ flat_map (mismatch_at req act) (sorted_keys req)) by (rewrite E; set_solver).
    apply elem_of_flat_map in Hm as (name & Hin & Hm). rewrite elem_of_sorted_keys in Hin.
    destruct (Hmet name Hin) as (got & Hg & Heq).
    apply mismatch_at_spec in Hm as (_ & _ & _ & Hbad). rewrite Hg in Hbad. congruence.
Qed.

(** The whole of [validate_episode] on a record of the right shape. *)
Lemma validate_episode_shape ep req act rep :
  episode_shape ep -> requested ep = VDict req -> actual ep = VDict act ->
  actor_report ep = VDict rep ->
  validate_episode ep =
    let ms := flat_map (mismatch_at req act) (sorted_keys req) in
    match ms, outcome_reasons ep with
    | _ :: _, [] => Err (EpisodeIntegrityError (episode_id ep) (map EV_unexplained ms))
    | _, _ => Ok (mkReport ms (flat_map (discrepancy_at rep act) (sorted_keys rep)))
    end.
Proof.
  intros Hs Hr Ha Hp. unfold validate_episode, outcome_mismatches, actor_discrepancies.
  rewrite (proj2 (shape_violations_nil ep) Hs), Hr, Ha, Hp. simpl.
  by destruct (flat_map (mismatch_at req act) _), (outcome_reasons ep).
Qed.

(** Admission: [validate_episode] accepts a record exactly when its shape
    is right and either a reason is on file or every requested field was met. *)
Theorem validate_episode_admits ep :
  is_ok (validate_episode ep) = true <->
  episode_shape ep /\
  (outcome_reasons ep <> [] \/
   exists req act, requested ep = VDict req /\ actual ep = VDict act /\ request_met req act).
Proof.
  destruct (decide (shape_violations ep = [])) as [Hs|Hs].
  - apply shape_violations_nil in Hs.
    destruct (episode_shape_dicts ep Hs) as (req & act & rep & att & Hr & Ha & Hp & _).
    rewrite (validate_episode_shape ep req act rep Hs Hr Ha Hp), Hr, Ha. cbv zeta.
    destruct (flat_map _ _) as [|m ms] eqn:E; simpl.
    + apply no_mismatch_iff in E. naive_solver.
    + assert (~ request_met req act) by (rewrite <- no_mismatch_iff, E; done).
      destruct (outcome_reasons ep); simpl; naive_solver.
  - split; [|intros [?%shape_violations_nil _]; done].
    unfold validate_episode. by destruct (shape_violations ep).
Qed.

(** Mismatch rule: the reported mismatches are exactly the requested
    fields whose actual value is absent or different, whatever the outcome
    was called. *)
Theorem outcome_mismatches_complete ep ms m :
  outcome_mismatches ep = Ok ms ->
  m ∈ ms <->
  exists req act, requested ep = VDict req /\ actual ep = VDict act /\
    mm_name m ∈ dkeys req /\ mm_requested m = vget req (mm_name m) /\
    mm_actual m = vget act (mm_name m) /\
    match dget act (mm_name m) with
    | Some got => py_eq got (vget req (mm_name m)) = false
    | None => True
    end.
Proof.
  unfold outcome_mismatches. destruct (requested ep) as [| | | | | |req]; try done.
  destruct (actual ep) as [| | | | | |act]; try done. simpl. intros [= <-].
  rewrite elem_of_flat_map. setoid_rewrite elem_of_sorted_keys.
  setoid_rewrite mismatch_at_spec. naive_solver.
Qed.

(** Actor distrust: two records that differ only in the actor's own report
    are admitted or refused alike, with the same mismatches. *)
Theorem actor_report_never_trusted ep r1 r2 :
  let with_report r := mkEpisode (episode_id ep) (domain ep) (requested ep) (actual ep)
    (VDict r) (timeline ep) (outcome_reasons ep) (attributes ep) in
  match validate_episode (with_report r1), validate_episode (with_report r2) with
  | Ok a, Ok b => rep_mismatches a = rep_mismatches b
  | Err a, Err b => a = b
  | _, _ => False
  end.
Proof.
  intros w. assert (Hs : shape_violations (w r1) = shape_violations (w r2)) by done.
  destruct (shape_violations (w r1)) as [|v vs] eqn:E1.
  - assert (Hsh1 := proj1 (shape_violations_nil _) E1).
    assert (Hsh2 := proj1 (shape_violations_nil _) (eq_sym Hs)).
    destruct (episode_shape_dicts _ Hsh1) as (req & act & rep & att & Hr & Ha & _).
    rewrite (validate_episode_shape (w r1) req act r1), (validate_episode_shape (w r2) req act r2)
      by done. cbv zeta. simpl.
    by destruct (flat_map _ (sorted_keys req)), (outcome_reasons ep).
  - unfold validate_episode. rewrite E1, <- Hs. done.
Qed.

Section ExplainSpec.
Context {C Q F : Type} `{Cassette C Q F}.

(** Kernel findings first: when an explanation is returned, every
    divergence and every mismatch validation found stands in it, before the
    cassette's own factors, whatever the cassette does. *)
Theorem explain_episode_prepends (cassette : C) ep fs :
  explain_episode cassette ep = Ok fs ->
  exists ms ds own, outcome_mismatches ep = Ok ms /\ actor_discrepancies ep = Ok ds /\
    explain cassette ep = Ok own /\
    fs = map actor_report_divergence ds ++
         map (fun m => outcome_mismatch m (outcome_reasons ep)) ms ++
         map cassette_factor own.
Proof.
  unfold explain_episode, validate_episode.
  destruct (shape_violations ep); [|done].
  destruct (outcome_mismatches ep) as [ms|]; [|done]. cbn [lift_py map_err mbind result_bind].
  destruct (actor_discrepancies ep) as [ds|]; cbn [lift_py map_err mbind result_bind];
    destruct ms as [|m ms], (outcome_reasons ep) as [|r rs]; cbn [mbind result_bind]; try done;
    destruct (explain cassette ep) as [own|]; try done;
    intros [= <-]; by do 3 eexists.
Qed.
End ExplainSpec.

(* ------------------------------------------------------------------ *)
(** ** Concrete inputs *)

(** A claim paid at a reduced amount, with no denial anywhere. *)
Definition downcoded (reasons : list string) : Episode :=
  make_episode "ep-1" "insurance"
    [("outcome", VStr "paid"); ("amount", VFloat (f_of_Z 1200))]
    [("outcome", VStr "paid"); ("amount", VFloat (f_of_Z 900))]
    (Some [("amount", VFloat (f_of_Z 1200)); ("adjuster", VStr "bot-7")])
    [TEvent (mkEpisodeEvent (VInt 0) "payment_adjusted" [])]
    reasons None.

Definition amount_mismatch : Mismatch :=
  mkMismatch "amount" (VFloat (f_of_Z 1200)) (VFloat (f_of_Z 900)).

Example downcoded_refused : validate_episode (downcoded []) =
  Err (EpisodeIntegrityError "ep-1" [EV_unexplained amount_mismatch]).
Proof. vm_compute. reflexivity. Qed.

Example downcoded_explained : validate_episode (downcoded ["policy limit"]) =
  Ok (mkReport [amount_mismatch]
       [mkDiscrepancy "adjuster" (VStr "bot-7") (VStr UNOBSERVED) EXTRA;
        mkDiscrepancy "amount" (VFloat (f_of_Z 1200)) (VFloat (f_of_Z 900)) DIVERGE]).
Proof. vm_compute. reflexivity. Qed.

Lemma outcome_mismatches_complete_witness :
  outcome_mismatches (downcoded []) = Ok [amount_mismatch] /\
  exists req act, requested (downcoded []) = VDict req /\ actual (downcoded []) = VDict act /\
    "amount" ∈ dkeys req /\ VFloat (f_of_Z 1200) = vget req "amount" /\
    VFloat (f_of_Z 900) = vget act "amount" /\
    match dget act "amount" with
    | Some got => py_eq got (vget req "amount") = false
    | None => True
    end.
Proof.
  split; [vm_compute; reflexivity|].
  apply (outcome_mismatches_complete (downcoded []) [amount_mismatch] amount_mismatch).
  - vm_compute. reflexivity.
  - apply list_elem_of_singleton. reflexivity.
Defined.

Definition quality_stub : Cassette unit bool string :=
  {| judge := fun _ _ => Ok true; explain := fun _ _ => Ok ["duration"] |}.

Lemma explain_episode_prepends_witness :
  exists fs ms ds own,
    @explain_episode unit bool string quality_stub tt (downcoded ["policy limit"]) = Ok fs /\
    outcome_mismatches (downcoded ["policy limit"]) = Ok ms /\
    actor_discrepancies (downcoded ["policy limit"]) = Ok ds /\
    @explain unit bool string quality_stub tt (downcoded ["policy limit"]) = Ok own /\
    fs = map actor_report_divergence ds ++
         map (fun m => outcome_mismatch m (outcome_reasons (downcoded ["policy limit"]))) ms ++
         map cassette_factor own.
Proof.
  eexists.
  destruct (@explain_episode_prepends unit bool string quality_stub tt (downcoded ["policy limit"]) _ eq_refl)
    as (ms & ds & own & H1 & H2 & H3 & H4).
  exists ms, ds, own. split; [reflexivity|]. repeat split; assumption.
Defined.
