(* ===== verification/Event.v ===== *)
(** * Event: provenance-stamped facts and the assembly of an episode

    Models src/sentinel_os/event_v1.py.  Every observed fact carries a stamp;
    [assemble_episode] routes a fact by its stamp, so an attested fact (the
    actor's claim about itself) never reaches the fields judgment reads. *)

From S2P Require Import Prelude PyFloat PyValue Episode.

Definition PROVENANCE_VERIFIED : string := "verified".
Definition PROVENANCE_ATTESTED : string := "attested".
Definition PROVENANCE_ESTIMATED : string := "estimated".

Definition EVENT_SCHEMA_VERSION : Z := 1.
Definition REDUCER_VERSION : string := "assemble_episode.v1".

Definition PROVENANCE_STAMPS : list string :=
  [PROVENANCE_VERIFIED; PROVENANCE_ATTESTED; PROVENANCE_ESTIMATED].

Definition PROVENANCE_ATTRIBUTE : string := "sentinel_provenance".

Definition STAMP_DESTINATION : dict string :=
  [(PROVENANCE_VERIFIED, "actual"); (PROVENANCE_ESTIMATED, "actual");
   (PROVENANCE_ATTESTED, "actor_report")].

Record EventV1 := mkEvent {
  e_event_id : string;
  e_episode_id : string;
  e_domain : string;
  e_kind : string;
  e_occurred_at : pyval;
  e_observed_at : pyval;
  e_source : string;
  e_provenance : string;
  e_fields : pyval;
  e_method : option string;
  e_detail : pyval;
  e_schema_version : pyval;
  e_reducer_version : option string;
}.

Inductive event_violation :=
| EVV_empty (label : string)
| EVV_bad_stamp
| EVV_estimate_without_method
| EVV_method_on_observed
| EVV_not_dict (label : string)
| EVV_schema_version
| EVV_reducer_version
| EVV_not_number (label : string)
| EVV_not_positive (label : string)
| EVV_foreign_episode (id : string).

Inductive event_exn :=
| EventIntegrityError (id : string) (vs : list event_violation)
| EventPyExn (e : pyexn).

Definition make_event (event_id episode_id domain kind : string)
    (occurred_at observed_at : pyval) (source provenance : string)
    (fields : option (dict pyval)) (method : option string) (detail : option (dict pyval))
    (schema_version : Z) (reducer_version : option string) : result pyexn EventV1 :=
  occ ← to_float occurred_at;
  obs ← to_float observed_at;
  Ok {| e_event_id := event_id; e_episode_id := episode_id; e_domain := domain;
        e_kind := kind; e_occurred_at := VFloat occ; e_observed_at := VFloat obs;
        e_source := source; e_provenance := provenance;
        e_fields := VDict (opt_dict fields); e_method := method;
        e_detail := VDict (opt_dict detail);
        e_schema_version := VInt schema_version;
        e_reducer_version :=
          Some (match reducer_version with None => REDUCER_VERSION | Some r => r end) |}.

(** [value <= 0] on a number. *)
Definition not_positive (v : pyval) : bool :=
  match as_num v with Some n => num_leb n (NZ 0) | None => false end.

Definition event_violations (e : EventV1) : list event_violation :=
  flat_map (fun '(label, v) => if blank v then [EVV_empty label] else [])
    [("event_id", e_event_id e); ("episode_id", e_episode_id e); ("domain", e_domain e);
     ("kind", e_kind e); ("source", e_source e)] ++
  (if str_mem (e_provenance e) PROVENANCE_STAMPS then [] else [EVV_bad_stamp]) ++
  (if String.eqb (e_provenance e) PROVENANCE_ESTIMATED && blank (or_empty (e_method e))
   then [EVV_estimate_without_method] else []) ++
  (if str_mem (e_provenance e) [PROVENANCE_VERIFIED; PROVENANCE_ATTESTED] && opt_true (e_method e)
   then [EVV_method_on_observed] else []) ++
  flat_map (fun '(label, v) => if is_dict v then [] else [EVV_not_dict label])
    [("fields", e_fields e); ("detail", e_detail e)] ++
  (if negb (is_int (e_schema_version e)) || is_bool (e_schema_version e) ||
      match e_schema_version e with VInt z => (z <? 1)%Z | _ => false end
   then [EVV_schema_version] else []) ++
  (if blank (or_empty (e_reducer_version e)) then [EVV_reducer_version] else []) ++
  flat_map (fun '(label, v) =>
      if negb (is_number v) || is_bool v then [EVV_not_number label]
      else if not_positive v then [EVV_not_positive label] else [])
    [("occurred_at", e_occurred_at e); ("observed_at", e_observed_at e)].

Definition validate_event (e : EventV1) : result event_exn unit :=
  match event_violations e with
  | [] => Ok tt
  | vs => Err (EventIntegrityError (e_event_id e) vs)
  end.

Record EpisodeAssembly := mkAssembly {
  asm_episode : Episode;
  asm_provenance : dict string;
  asm_estimated_fields : list string;
  asm_source_events : list string;
  asm_reducer_version : string;
}.

(** The sort key [(occurred_at, event_id)], compared as Python compares
    tuples: the first unequal component decides. *)
Definition event_ltb (a b : EventV1) : bool :=
  if py_eq (e_occurred_at a) (e_occurred_at b)
  then String.ltb (e_event_id a) (e_event_id b)
  else match py_ltb (e_occurred_at a) (e_occurred_at b) with Ok r => r | Err _ => false end.

Definition event_leb (a b : EventV1) : bool := negb (event_ltb b a).

(** [sorted] raises TypeError when it has to compare timestamps of unordered
    types; with fewer than two events it compares nothing. *)
Definition sort_events (events : list EventV1) : result pyexn (list EventV1) :=
  if (length events <=? 1)%nat
     || forallb (fun e => is_number (e_occurred_at e)) events
     || forallb (fun e => is_str (e_occurred_at e)) events
  then Ok (sort event_leb events) else Err TypeError.

(** [a - b] on numbers. *)
Definition num_sub (a b : num) : result pyexn pyval :=
  match a, b with
  | NZ x, NZ y => Ok (VInt (x - y))
  | NF x, NF y => Ok (VFloat (fsub x y))
  | NZ x, NF y => fx ← int_to_float x; Ok (VFloat (fsub fx y))
  | NF x, NZ y => fy ← int_to_float y; Ok (VFloat (fsub x fy))
  end.

Definition py_sub (a b : pyval) : result pyexn pyval :=
  match as_num a, as_num b with
  | Some x, Some y => num_sub x y
  | _, _ => Err TypeError
  end.

(** The loop state of [assemble_episode]. *)
Record asm_state := mkAsm {
  st_actual : dict pyval;
  st_actor_report : dict pyval;
  st_provenance : dict string;
  st_timeline : list timeline_entry;
}.

Definition field_items (e : EventV1) : result pyexn (dict pyval) := as_dict (e_fields e).

Definition stamped_detail (e : EventV1) (d : dict pyval) : dict pyval :=
  let d := dset (dset (dset d "event_id" (VStr (e_event_id e)))
                  "source" (VStr (e_source e))) "provenance" (VStr (e_provenance e)) in
  if opt_true (e_method e) then dset d "method" (VStr (or_empty (e_method e))) else d.

Definition assemble_step (origin : pyval) (st : asm_state) (e : EventV1)
    : result pyexn asm_state :=
  match dget STAMP_DESTINATION (e_provenance e) with
  | None => Err KeyError
  | Some dest =>
      items ← field_items e;
      d ← as_dict (e_detail e);
      at_ ← py_sub (e_occurred_at e) origin;
      let to_actual := String.eqb dest "actual" in
      Ok {| st_actual := if to_actual then dupdate (st_actual st) items else st_actual st;
            st_actor_report :=
              if to_actual then st_actor_report st else dupdate (st_actor_report st) items;
            st_provenance :=
              if to_actual
              then fold_left (fun p '(name, _) => dset p name (e_provenance e)) items
                     (st_provenance st)
              else st_provenance st;
            st_timeline := st_timeline st ++
              [TEvent (mkEpisodeEvent at_ (e_kind e) (stamped_detail e d))] |}
  end.

Definition estimated_names (prov : dict string) : list string :=
  sort String.leb (map fst (List.filter (fun '(_, p) => String.eqb p PROVENANCE_ESTIMATED) prov)).

Definition lift_event {A} (r : result pyexn A) : result event_exn A := map_err EventPyExn r.

Definition assemble_episode (episode_id domain : string) (requested : dict pyval)
    (events : list EventV1) (outcome_reasons : list string)
    (attributes : option (dict pyval)) : result event_exn EpisodeAssembly :=
  ordered ← lift_event (sort_events events);
  _ ← mapM_r validate_event ordered;
  match List.filter (fun e => negb (String.eqb (e_episode_id e) episode_id)) ordered with
  | m :: ms =>
      Err (EventIntegrityError (e_event_id m)
             (map (fun e => EVV_foreign_episode (e_episode_id e)) (m :: ms)))
  | [] =>
      let origin := match ordered with e :: _ => e_occurred_at e | [] => VFloat fzero end in
      st ← lift_event (foldM (assemble_step origin) (mkAsm [] [] [] []) ordered);
      let merged_attributes :=
        dset (opt_dict attributes) PROVENANCE_ATTRIBUTE
          (VDict (map (fun '(n, p) => (n, VStr p)) (st_provenance st))) in
      Ok {| asm_episode :=
              make_episode episode_id domain requested (st_actual st)
                (Some (st_actor_report st)) (st_timeline st) outcome_reasons
                (Some merged_attributes);
            asm_provenance := st_provenance st;
            asm_estimated_fields := estimated_names (st_provenance st);
            asm_source_events := map e_event_id ordered;
            asm_reducer_version := REDUCER_VERSION |}
  end.

(** [episode.attributes.get(PROVENANCE_ATTRIBUTE)], [{}] unless it is a dict. *)
Definition episode_provenance (ep : Episode) : result pyexn (dict pyval) :=
  attrs ← as_dict (attributes ep);
  match vget attrs PROVENANCE_ATTRIBUTE with
  | VDict found => Ok found
  | _ => Ok []
  end.

Definition estimated_fields (ep : Episode) : result pyexn (list string) :=
  prov ← episode_provenance ep;
  Ok (sort String.leb
        (map fst (List.filter (fun '(_, p) => py_eq p (VStr PROVENANCE_ESTIMATED)) prov))).

(* ------------------------------------------------------------------ *)
(** ** Lemmas *)

(** Timestamps as [make_event] produces them. *)
Definition float_stamped (e : EventV1) : Prop :=
  exists f, e_occurred_at e = VFloat f /\ f_is_nan f = false.

Definition occ_key (e : EventV1) : Z * Z * Z :=
  match e_occurred_at e with VFloat f => fkey f | _ => (0, 0, 0)%Z end.

Lemma event_leb_float a b : float_stamped a -> float_stamped b ->
  event_leb a b = true <->
  klt (occ_key a) (occ_key b) \/
  occ_key a = occ_key b /\ String.leb (e_event_id a) (e_event_id b) = true.
Proof.
  intros (x & Ex & Hx) (y & Ey & Hy).
  unfold event_leb, event_ltb, occ_key. rewrite Ex, Ey.
  cbn [py_eq py_ltb as_num]. unfold num_eqb, num_ltb. cbn [num_compare].
  pose proof (SFcompare_fkey y x Hy Hx) as Hc.
  destruct (SFcompare y x) as [[]|]; simpl; [| | |done].
  - rewrite string_ltb_leb, negb_involutive. split; [by right|].
    intros [Hlt|[_ ?]]; [|done]. unfold klt in Hlt. rewrite Hc in Hlt. lia.
  - split; [done|]. unfold klt in *. intros [?|[E _]]; [lia|]. rewrite E in Hc. lia.
  - split; [by left|done].
Qed.

Lemma event_leb_total a b : float_stamped a -> float_stamped b ->
  event_leb a b = false -> event_leb b a = true.
Proof.
  intros Ha Hb Hf. apply not_true_iff_false in Hf. rewrite event_leb_float in Hf by done.
  rewrite event_leb_float by done.
  destruct (occ_key a) as [[a1 a2] a3] eqn:Ea, (occ_key b) as [[b1 b2] b3] eqn:Eb.
  unfold klt in *; simpl in *.
  destruct (decide ((a1, a2, a3) = (b1, b2, b3))) as [E|E].
  - right. split; [done|].
    destruct (String.leb (e_event_id a) (e_event_id b)) eqn:L; [destruct Hf; by right|].
    destruct (String.leb_total (e_event_id a) (e_event_id b)); congruence.
  - left. apply Decidable.not_or in Hf as [Hf _].
    assert (a1 <> b1 \/ a2 <> b2 \/ a3 <> b3); [|lia].
    destruct (Z.eq_dec a1 b1), (Z.eq_dec a2 b2), (Z.eq_dec a3 b3); try lia. subst; by destruct E.
Qed.

Lemma event_leb_trans a b c : float_stamped a -> float_stamped b -> float_stamped c ->
  event_leb a b = true -> event_leb b c = true -> event_leb a c = true.
Proof.
  intros Ha Hb Hc. rewrite !event_leb_float by done. unfold klt.
  intros [H1|[E1 L1]] [H2|[E2 L2]].
  - left. lia.
  - left. by rewrite <- E2.
  - left. by rewrite E1.
  - right. split; [congruence|]. by apply (string_leb_trans _ (e_event_id b)).
Qed.

Lemma event_leb_antisym a b : float_stamped a -> float_stamped b ->
  event_leb a b = true -> event_leb b a = true -> e_event_id a = e_event_id b.
Proof.
  intros Ha Hb. rewrite !event_leb_float by done. unfold klt.
  intros [H1|[E1 L1]] [H2|[E2 L2]].
  - lia.
  - rewrite E2 in H1. lia.
  - rewrite E1 in H2. lia.
  - by apply String.leb_antisym.
Qed.

Lemma validate_event_ok e : validate_event e = Ok tt <-> event_violations e = [].
Proof. unfold validate_event. by destruct (event_violations e). Qed.

Lemma stamp_dest_cases p dest : dget STAMP_DESTINATION p = Some dest ->
  ((p = PROVENANCE_VERIFIED \/ p = PROVENANCE_ESTIMATED) /\ dest = "actual") \/
  (p = PROVENANCE_ATTESTED /\ dest = "actor_report").
Proof.
  unfold STAMP_DESTINATION. cbn [dget].
  destruct (String.eqb_spec PROVENANCE_VERIFIED p); [intros; simplify_eq; auto|].
  destruct (String.eqb_spec PROVENANCE_ESTIMATED p); [intros; simplify_eq; auto|].
  destruct (String.eqb_spec PROVENANCE_ATTESTED p); [intros; simplify_eq; auto|done].
Qed.

Lemma stamp_fold_get (items : dict pyval) (p : string) (prov : dict string) k :
  dget (fold_left (fun q '(name, _) => dset q name p) items prov) k =
  if decide (k ∈ dkeys items) then Some p else dget prov k.
Proof.
  revert prov. induction items as [|[n v] items IH]; intros prov; cbn [fold_left].
  - destruct (decide (k ∈ dkeys [])); [set_solver|done].
  - rewrite IH, dget_dset.
    destruct (decide (k ∈ dkeys ((n, v) :: items)%list)) as [Hi|Hn]; simpl in *;
      destruct (decide (k ∈ dkeys items)), (String.eqb_spec n k); try done; set_solver.
Qed.

(** Where every field of the assembled record came from. *)
Definition routed (done_ : list EventV1) (st : asm_state) : Prop :=
  (forall k, match dget (st_actual st) k with
     | Some v => exists e items, e ∈ done_ /\ e_fields e = VDict items /\ (k, v) ∈ items /\
         (e_provenance e = PROVENANCE_VERIFIED \/ e_provenance e = PROVENANCE_ESTIMATED) /\
         dget (st_provenance st) k = Some (e_provenance e)
     | None => dget (st_provenance st) k = None
     end) /\
  (forall k v, dget (st_actor_report st) k = Some v ->
     exists e items, e ∈ done_ /\ e_fields e = VDict items /\ (k, v) ∈ items /\
       e_provenance e = PROVENANCE_ATTESTED) /\
  length (st_timeline st) = length done_.

Lemma assemble_step_inv origin st e st' : assemble_step origin st e = Ok st' ->
  exists dest items d at_, dget STAMP_DESTINATION (e_provenance e) = Some dest /\
    e_fields e = VDict items /\ e_detail e = VDict d /\
    py_sub (e_occurred_at e) origin = Ok at_ /\
    st' = {| st_actual := if String.eqb dest "actual" then dupdate (st_actual st) items else st_actual st;
            st_actor_report :=
              if String.eqb dest "actual" then st_actor_report st else dupdate (st_actor_report st) items;
            st_provenance :=
              if String.eqb dest "actual"
              then fold_left (fun p '(name, _) => dset p name (e_provenance e)) items
                     (st_provenance st)
              else st_provenance st;
            st_timeline := st_timeline st ++
              [TEvent (mkEpisodeEvent at_ (e_kind e) (stamped_detail e d))] |}.
Proof.
  unfold assemble_step, field_items. destruct (dget _ _) as [dest|]; [|done].
  destruct (e_fields e) as [| | | | | |items]; try done.
  destruct (e_detail e) as [| | | | | |d]; try done. simpl.
  destruct (py_sub _ _) as [a|]; [|done]. intros [= <-]. by exists dest, items, d, a.
Qed.

Lemma routed_step origin l st e st' :
  routed l st -> assemble_step origin st e = Ok st' -> routed (l ++ [e]) st'.
Proof.
  intros (Ha & Hr & Hl) Hs.
  destruct (assemble_step_inv _ _ _ _ Hs) as (dest & items & d & a & Hd & Hf & _ & _ & ->).
  clear Hs. split_and!; simpl.
  - intros k. specialize (Ha k).
    destruct (stamp_dest_cases _ _ Hd) as [[Hp ->]|[Hp ->]]; simpl.
    + rewrite stamp_fold_get. case_decide as Hk.
      * destruct (dupdate_cases (st_actual st) items k) as [(v & Hv & ->)|[? _]]; [|done].
        exists e, items. split_and!; set_solver.
      * destruct (dupdate_cases (st_actual st) items k) as [(v & Hv & _)|[_ ->]].
        { destruct Hk. by apply (list_elem_of_fmap_2 fst) in Hv. }
        destruct (dget (st_actual st) k); [|done].
        destruct Ha as (e' & it & ? & ? & ? & ? & ?). exists e', it. split_and!; set_solver.
    + destruct (dget (st_actual st) k); [|done].
      destruct Ha as (e' & it & ? & ? & ? & ? & ?). exists e', it. split_and!; set_solver.
  - intros k v. destruct (stamp_dest_cases _ _ Hd) as [[Hp ->]|[Hp ->]]; simpl.
    + intros Hk. destruct (Hr k v Hk) as (e' & it & ? & ? & ? & ?). exists e', it. set_solver.
    + destruct (dupdate_cases (st_actor_report st) items k) as [(v' & Hv & ->)|[_ ->]]; intros Hk.
      * simplify_eq. exists e, items. set_solver.
      * destruct (Hr k v Hk) as (e' & it & ? & ? & ? & ?). exists e', it. set_solver.
  - rewrite !length_app, Hl. done.
Qed.

Lemma sort_events_sort events ordered :
  sort_events events = Ok ordered -> ordered = sort event_leb events.
Proof. unfold sort_events. case_bool; congruence. Qed.

Lemma assemble_inv eid dom req events reasons attrs asm :
  assemble_episode eid dom req events reasons attrs = Ok asm ->
  exists st origin,
    Forall (fun e => validate_event e = Ok tt /\ e_episode_id e = eid) events /\
    foldM (assemble_step origin) (mkAsm [] [] [] []) (sort event_leb events) = Ok st /\
    actual (asm_episode asm) = VDict (st_actual st) /\
    actor_report (asm_episode asm) = VDict (st_actor_report st) /\
    timeline (asm_episode asm) = st_timeline st /\
    asm_provenance asm = st_provenance st /\
    asm_source_events asm = map e_event_id (sort event_leb events) /\
    asm_estimated_fields asm = estimated_names (st_provenance st) /\
    attributes (asm_episode asm) = VDict (dset (opt_dict attrs) PROVENANCE_ATTRIBUTE
      (VDict (map (fun '(n, p) => (n, VStr p)) (st_provenance st)))).
Proof.
  unfold assemble_episode.
  destruct (sort_events events) as [ordered|] eqn:Es; [|done].
  apply sort_events_sort in Es as ->. cbn [lift_event map_err mbind result_bind].
  destruct (mapM_r validate_event (sort event_leb events)) as [us|] eqn:Ev; [|done].
  destruct (List.filter _ _) eqn:Ef; [|done].
  set (origin := match sort event_leb events with [] => _ | e :: _ => _ end).
  destruct (foldM _ _ _) as [st|] eqn:Eo; [|done]. cbn [mbind result_bind].
  intros [= <-]. exists st, origin. split_and!; try done.
  apply Forall_forall. intros e He.
  assert (He' : e ∈ sort event_leb events) by (by rewrite elem_of_sort).
  split.
  - destruct (mapM_r_all _ _ _ _ Ev He') as [[] Hok]. done.
  - destruct (String.eqb_spec (e_episode_id e) eid) as [|Hne]; [done|].
    assert (Hin : e ∈ List.filter (fun e => negb (String.eqb (e_episode_id e) eid)) (sort event_leb events)).
    { apply list_elem_of_In, filter_In. split; [by apply list_elem_of_In|].
      apply negb_true_iff. by apply String.eqb_neq. }
    rewrite Ef in Hin. set_solver.
Qed.

Lemma foldM_routed origin l st :
  foldM (assemble_step origin) (mkAsm [] [] [] []) l = Ok st -> routed l st.
Proof.
  intros H. apply (foldM_ind _ routed [] l _ _ (fun l s a s' => routed_step origin l s a s')) in H;
    [done|]. by split_and!.
Qed.

(** The method rule: a validated estimate names its method, and a
    validated observation or claim names none; nothing outside the three
    stamps validates. *)
Theorem validate_event_method_rule e :
  validate_event e = Ok tt ->
  (e_provenance e = PROVENANCE_ESTIMATED /\ blank (or_empty (e_method e)) = false) \/
  ((e_provenance e = PROVENANCE_VERIFIED \/ e_provenance e = PROVENANCE_ATTESTED) /\
   opt_true (e_method e) = false).
Proof.
  rewrite validate_event_ok. unfold event_violations. rewrite !app_nil.
  intros (_ & Hs & He & Hm & _).
  destruct (str_mem (e_provenance e) PROVENANCE_STAMPS) eqn:Es; [|done].
  apply str_mem_spec in Es. unfold PROVENANCE_STAMPS in Es.
  rewrite !elem_of_cons in Es. destruct Es as [E|[E|[E|E]]];
    [rewrite E in He, Hm |- *; simpl in *..|set_solver].
  - right. destruct (opt_true (e_method e)); [done|auto].
  - right. destruct (opt_true (e_method e)); [done|auto].
  - left. destruct (blank _); [done|auto].
Qed.

(** Routing by stamp: in an assembled episode every field judgment reads
    was carried by a verified or estimated event, whose stamp the provenance
    map records; every field of the actor's report was carried by an attested
    event; and the provenance map covers exactly the judged fields. *)
Theorem assemble_episode_routes_by_stamp eid dom req events reasons attrs asm :
  assemble_episode eid dom req events reasons attrs = Ok asm ->
  exists act rep, actual (asm_episode asm) = VDict act /\
    actor_report (asm_episode asm) = VDict rep /\
    (forall name v, dget act name = Some v ->
       exists e items, e ∈ events /\ e_fields e = VDict items /\ (name, v) ∈ items /\
         (e_provenance e = PROVENANCE_VERIFIED \/ e_provenance e = PROVENANCE_ESTIMATED) /\
         dget (asm_provenance asm) name = Some (e_provenance e)) /\
    (forall name, dget act name = None -> dget (asm_provenance asm) name = None) /\
    (forall name v, dget rep name = Some v ->
       exists e items, e ∈ events /\ e_fields e = VDict items /\ (name, v) ∈ items /\
         e_provenance e = PROVENANCE_ATTESTED).
Proof.
  intros H. apply assemble_inv in H as (st & origin & _ & Hf & -> & -> & _ & -> & _).
  apply foldM_routed in Hf as (Ha & Hr & _).
  exists (st_actual st), (st_actor_report st). split_and!; try done.
  - intros name v Hv. specialize (Ha name). rewrite Hv in Ha.
    destruct Ha as (e & it & He & ?). exists e, it. by rewrite elem_of_sort in He.
  - intros name Hn. specialize (Ha name). by rewrite Hn in Ha.
  - intros name v Hv. destruct (Hr name v Hv) as (e & it & He & ?). exists e, it.
    by rewrite elem_of_sort in He.
Qed.

(** Arrival order is not consulted: re-delivering the same float-stamped
    events in any order assembles the same episode, provided event ids identify
    events. *)
Theorem assemble_episode_order_irrelevant eid dom req events events' reasons attrs :
  Forall float_stamped events ->
  (forall a b, a ∈ events -> b ∈ events -> e_event_id a = e_event_id b -> a = b) ->
  events ≡ₚ events' ->
  assemble_episode eid dom req events reasons attrs =
  assemble_episode eid dom req events' reasons attrs.
Proof.
  intros Hf Hid Hp.
  assert (Hall : forall l, Forall float_stamped l -> sort_events l = Ok (sort event_leb l)).
  { intros l Hl. unfold sort_events. rewrite (proj2 (forallb_forall _ l)), orb_true_r; [done|].
    intros e He. apply list_elem_of_In in He. rewrite Forall_forall in Hl.
    destruct (Hl e He) as (f & E & _). by rewrite E. }
  assert (Hf' : Forall float_stamped events') by (by rewrite <- Hp).
  unfold assemble_episode. rewrite !Hall by done.
  rewrite (sort_unique event_leb float_stamped events events'); auto using event_leb_total.
  - eauto using event_leb_trans.
  - intros a b Ha Hb L1 L2. rewrite Forall_forall in Hf. apply Hid; [done..|].
    apply event_leb_antisym; auto.
Qed.

(** One bad event fails the whole assembly: an event that does not
    validate, or that belongs to another episode, is never silently dropped. *)
Theorem assemble_episode_no_silent_drop eid dom req events reasons attrs e :
  e ∈ events -> validate_event e <> Ok tt \/ e_episode_id e <> eid ->
  is_ok (assemble_episode eid dom req events reasons attrs) = false.
Proof.
  intros He Hbad. destruct (assemble_episode _ _ _ _ _ _) as [asm|] eqn:E; [|done].
  apply assemble_inv in E as (st & origin & Hv & _). rewrite Forall_forall in Hv.
  destruct (Hv e He). by destruct Hbad.
Qed.

Lemma estimated_names_map prov :
  sort String.leb (map fst (List.filter (fun '(_, p) => py_eq p (VStr PROVENANCE_ESTIMATED))
    (map (fun '(n, p) => (n, VStr p)) prov))) = estimated_names prov.
Proof.
  unfold estimated_names. f_equal. induction prov as [|[n p] prov IH]; simpl; [done|].
  destruct (String.eqb p PROVENANCE_ESTIMATED); simpl; by rewrite IH.
Qed.

(** The stamp map rides in the record: the accessors, given only the
    assembled episode, recover the provenance map and the estimated fields the
    assembly computed, and every event has one timeline entry. *)
Theorem assembled_episode_carries_provenance eid dom req events reasons attrs asm :
  assemble_episode eid dom req events reasons attrs = Ok asm ->
  episode_provenance (asm_episode asm) =
    Ok (map (fun '(n, p) => (n, VStr p)) (asm_provenance asm)) /\
  estimated_fields (asm_episode asm) = Ok (asm_estimated_fields asm) /\
  length (timeline (asm_episode asm)) = length events.
Proof.
  intros H. apply assemble_inv in H as (st & origin & _ & Hf & _ & _ & Ht & Hp & _ & He & Hat).
  assert (Hprov : episode_provenance (asm_episode asm) =
    Ok (map (fun '(n, p) => (n, VStr p)) (asm_provenance asm))).
  { unfold episode_provenance, vget. rewrite Hat, Hp. cbn [as_dict mbind result_bind].
    by rewrite dget_dset_eq. }
  split_and!; [done| |].
  - unfold estimated_fields. rewrite Hprov, Hp, He. cbn [mbind result_bind].
    by rewrite estimated_names_map.
  - apply foldM_routed in Hf as (_ & _ & Hl). by rewrite Ht, Hl, length_sort.
Qed.

(* ------------------------------------------------------------------ *)
(** ** Concrete inputs *)

Definition sample_event (id : string) (t : Z) (stamp : string) (fields : dict pyval)
    (method : option string) : EventV1 :=
  {| e_event_id := id; e_episode_id := "ep-1"; e_domain := "ivr"; e_kind := "wait";
     e_occurred_at := VFloat (f_of_Z t); e_observed_at := VFloat (f_of_Z (t + 5));
     e_source := "twilio:webhook"; e_provenance := stamp; e_fields := VDict fields;
     e_method := method; e_detail := VDict []; e_schema_version := VInt 1;
     e_reducer_version := Some REDUCER_VERSION |}.

Definition ev_start := sample_event "a" 1000 PROVENANCE_VERIFIED [("queue", VStr "sales")] None.
Definition ev_claim := sample_event "b" 1010 PROVENANCE_ATTESTED [("wait_s", VInt 3)] None.
Definition ev_guess :=
  sample_event "c" 1020 PROVENANCE_ESTIMATED [("wait_s", VInt 60)] (Some "total_duration*0.5").

Definition sample_assembly (events : list EventV1) :=
  assemble_episode "ep-1" "ivr" [("queue", VStr "sales")] events [] None.

Example sample_assembly_fields :
  match sample_assembly [ev_guess; ev_start; ev_claim] with
  | Ok a => actual (asm_episode a) = VDict [("queue", VStr "sales"); ("wait_s", VInt 60)] /\
            actor_report (asm_episode a) = VDict [("wait_s", VInt 3)] /\
            asm_estimated_fields a = ["wait_s"] /\ asm_source_events a = ["a"; "b"; "c"]
  | Err _ => False
  end.
Proof. vm_compute. repeat split. Qed.

Lemma validate_event_method_rule_witness :
  validate_event ev_guess = Ok tt /\
  ((e_provenance ev_guess = PROVENANCE_ESTIMATED /\ blank (or_empty (e_method ev_guess)) = false) \/
   ((e_provenance ev_guess = PROVENANCE_VERIFIED \/ e_provenance ev_guess = PROVENANCE_ATTESTED) /\
    opt_true (e_method ev_guess) = false)).
Proof.
  split; [vm_compute; reflexivity|]. apply (validate_event_method_rule ev_guess).
  vm_compute. reflexivity.
Defined.

Lemma assemble_episode_routes_by_stamp_witness :
  exists asm act rep, sample_assembly [ev_start; ev_claim; ev_guess] = Ok asm /\
    actual (asm_episode asm) = VDict act /\ actor_report (asm_episode asm) = VDict rep.
Proof.
  eexists.
  destruct (assemble_episode_routes_by_stamp "ep-1" "ivr" [("queue", VStr "sales")]
    [ev_start; ev_claim; ev_guess] [] None _ eq_refl) as (act & rep & H1 & H2 & _).
  exists act, rep. split; [reflexivity|]. split; assumption.
Defined.

Lemma assemble_episode_order_irrelevant_witness :
  sample_assembly [ev_guess; ev_start] = sample_assembly [ev_start; ev_guess].
Proof.
  apply (assemble_episode_order_irrelevant "ep-1" "ivr" [("queue", VStr "sales")]
    [ev_guess; ev_start] [ev_start; ev_guess] [] None).
  - repeat constructor; eexists; split; reflexivity.
  - intros a b Ha Hb Hab. rewrite !elem_of_cons in Ha, Hb.
    destruct Ha as [->|[->|Ha]]; [| |by apply elem_of_nil in Ha];
      (destruct Hb as [->|[->|Hb]]; [| |by apply elem_of_nil in Hb]);
      first [reflexivity | discriminate Hab].
  - apply Permutation_swap.
Defined.

Lemma assemble_episode_no_silent_drop_witness :
  is_ok (sample_assembly [ev_start; sample_event "d" 1030 PROVENANCE_ESTIMATED [] None]) = false.
Proof.
  apply (assemble_episode_no_silent_drop "ep-1" "ivr" [("queue", VStr "sales")]
    [ev_start; sample_event "d" 1030 PROVENANCE_ESTIMATED [] None] [] None
    (sample_event "d" 1030 PROVENANCE_ESTIMATED [] None)).
  - apply elem_of_cons. right. apply elem_of_cons. left. reflexivity.
  - left. vm_compute. discriminate.
Defined.

Lemma assembled_episode_carries_provenance_witness :
  exists asm, sample_assembly [ev_start; ev_guess] = Ok asm /\
    estimated_fields (asm_episode asm) = Ok (asm_estimated_fields asm).
Proof.
  eexists. split; [reflexivity|].
  apply (assembled_episode_carries_provenance "ep-1" "ivr" [("queue", VStr "sales")]
    [ev_start; ev_guess] [] None _ eq_refl).
Defined.
