(* ===== verification/Outcome.v ===== *)
(** * Outcome: the durable outcome obligation

    Models src/sentinel_os/outcome_v1.py: the maturation rule and its text,
    the obligation and its three states, the operations that close or restate
    one, the portfolio counts, and the derivation of what is owed from the
    decision rows alone. *)

From S2P Require Import Prelude PyFloat PyValue Episode Event.

Definition OUTCOME_OPEN : string := "OPEN".
Definition OUTCOME_RESOLVED : string := "RESOLVED".
Definition OUTCOME_ABANDONED : string := "ABANDONED".
Definition OUTCOME_STATES : list string := [OUTCOME_OPEN; OUTCOME_RESOLVED; OUTCOME_ABANDONED].

Definition REASON_NOT_YET_DUE : string := "not_yet_due".
Definition REASON_INSUFFICIENT_COHORT : string := "insufficient_cohort".
Definition REASON_DATA_SOURCE_UNREACHABLE : string := "data_source_unreachable".
Definition REASON_GENUINELY_AMBIGUOUS : string := "genuinely_ambiguous".
Definition OPEN_REASONS : list string :=
  [REASON_NOT_YET_DUE; REASON_INSUFFICIENT_COHORT; REASON_DATA_SOURCE_UNREACHABLE;
   REASON_GENUINELY_AMBIGUOUS].

Definition REASON_SUBJECT_WITHDREW : string := "subject_withdrew".
Definition REASON_DECISION_SUPERSEDED : string := "decision_superseded".
Definition REASON_RETENTION_EXPIRED : string := "retention_expired".
Definition ABANDONED_REASONS : list string :=
  [REASON_SUBJECT_WITHDREW; REASON_DECISION_SUPERSEDED; REASON_RETENTION_EXPIRED].

(** The unit sizes, as the integers whose floats the table holds. *)
Definition unit_Z : dict Z :=
  [("s", 1); ("m", 60); ("h", 3600); ("d", 86400); ("mo", 86400 * 30); ("y", 86400 * 365)]%Z.
Definition UNIT_SECONDS : dict float64 := map (fun '(u, z) => (u, f_of_Z z)) unit_Z.

(** [_DECLARATION_RE] on a stripped string: identifier, [@], digits, unit. *)
Definition ident_ok (s : string) : bool :=
  match s with
  | EmptyString => false
  | String c r =>
      is_alpha c && str_forallb (fun c => is_alpha c || is_digit c || Ascii.eqb c "_"%char) r
  end.

Definition match_declaration (s : string) : option (string * string * string) :=
  match split_at "@"%char s with
  | None => None
  | Some (kind, rest) =>
      let '(digits, unit) := str_span is_digit rest in
      if ident_ok kind && str_true digits && dmem UNIT_SECONDS unit
      then Some (kind, digits, unit) else None
  end.

Record MaturationRule := mkRule {
  kind : string;
  horizon_seconds : float64;
}.

(** [int(digits)]; CPython refuses more than 4300 digits with a ValueError. *)
Definition int_of_digits (digits : string) : result pyexn Z :=
  if (4300 <? String.length digits)%nat then Err ValueError
  else match N_of_digits digits with
       | Some n => Ok (Z.of_N n)
       | None => Err ValueError
       end.

Definition parse (declaration : string) : result pyexn MaturationRule :=
  match match_declaration (strip declaration) with
  | None => Err ValueError
  | Some (k, digits, unit) =>
      count ← int_of_digits digits;
      if (count <=? 0)%Z then Err ValueError
      else
        c ← int_to_float count;
        match dget UNIT_SECONDS unit with
        | Some u => Ok (mkRule k (fmul c u))
        | None => Err KeyError
        end
  end.

(** [str(z)] *)
Definition string_of_Z (z : Z) : string :=
  if (z <? 0)%Z then String "-"%char (string_of_N (Z.to_N (- z))) else string_of_N (Z.to_N z).

Definition suffixes : list string := ["y"; "mo"; "d"; "h"; "m"; "s"].

Definition render (r : MaturationRule) (n : Z) (suffix : string) : string :=
  (kind r +:+ "@" +:+ string_of_Z n +:+ suffix)%string.

Fixpoint declare_with (r : MaturationRule) (us : list string) : result pyexn string :=
  match us with
  | [] =>
      n ← float_to_int (horizon_seconds r);
      Ok (render r n "s")
  | suffix :: us' =>
      match dget UNIT_SECONDS suffix with
      | None => Err KeyError
      | Some size =>
          if fleb size (horizon_seconds r) && feqb (fmod (horizon_seconds r) size) fzero
          then n ← float_to_int (ffloordiv (horizon_seconds r) size);
               Ok (render r n suffix)
          else declare_with r us'
      end
  end.

Definition declaration (r : MaturationRule) : result pyexn string := declare_with r suffixes.

Record OutcomeObligation := mkObligation {
  obligation_id : string;
  decision_hash : string;
  domain : string;
  obligation_kind : string;
  opened_at : pyval;
  expected_by : pyval;
  state : string;
  reason_code : option string;
  resolved_at : pyval;
  resolved_value : pyval;
  resolution_provenance : option string;
  resolution_method : option string;
  favorable : pyval;
  subject_id : option string;
  detail : dict pyval;
}.

Inductive outcome_violation :=
| OV_empty (label : string)
| OV_bad_state
| OV_not_number (label : string)
| OV_no_horizon
| OV_open_reason
| OV_open_resolution
| OV_open_favorable
| OV_resolved_reason
| OV_resolved_no_time
| OV_resolved_no_value
| OV_resolved_stamp
| OV_estimated_no_method
| OV_abandoned_reason
| OV_abandoned_favorable
| OV_cohort_not_resolved
| OV_cohort_ambiguous.

Inductive outcome_exn :=
| OutcomeIntegrityError (id : string) (vs : list outcome_violation)
| OutcomePyExn (e : pyexn).

Definition lift_outcome {A} (r : result pyexn A) : result outcome_exn A := map_err OutcomePyExn r.

(** [expected_by <= opened_at], tested only when both are numbers. *)
Definition horizon_missing (ob : OutcomeObligation) : bool :=
  match as_num (opened_at ob), as_num (expected_by ob) with
  | Some o, Some x => num_leb x o
  | _, _ => false
  end.

(** [not isinstance(v, dict) or not v] *)
Definition no_value (v : pyval) : bool := negb (is_dict v) || negb (py_true v).

Definition state_violations (ob : OutcomeObligation) : list outcome_violation :=
  if String.eqb (state ob) OUTCOME_OPEN then
    (if opt_mem (reason_code ob) OPEN_REASONS then [] else [OV_open_reason]) ++
    (if negb (is_None (resolved_at ob)) || negb (is_None (resolved_value ob))
     then [OV_open_resolution] else []) ++
    (if negb (is_None (favorable ob)) then [OV_open_favorable] else [])
  else if String.eqb (state ob) OUTCOME_RESOLVED then
    (match reason_code ob with Some _ => [OV_resolved_reason] | None => [] end) ++
    (if is_None (resolved_at ob) then [OV_resolved_no_time] else []) ++
    (if no_value (resolved_value ob) then [OV_resolved_no_value] else []) ++
    (if opt_mem (resolution_provenance ob) PROVENANCE_STAMPS then [] else [OV_resolved_stamp]) ++
    (if opt_mem (resolution_provenance ob) [PROVENANCE_ESTIMATED] &&
        blank (or_empty (resolution_method ob)) then [OV_estimated_no_method] else [])
  else if String.eqb (state ob) OUTCOME_ABANDONED then
    (if opt_mem (reason_code ob) ABANDONED_REASONS then [] else [OV_abandoned_reason]) ++
    (if negb (is_None (favorable ob)) then [OV_abandoned_favorable] else [])
  else [].

Definition obligation_violations (ob : OutcomeObligation) : list outcome_violation :=
  flat_map (fun '(label, v) => if blank v then [OV_empty label] else [])
    [("obligation_id", obligation_id ob); ("decision_hash", decision_hash ob);
     ("domain", domain ob); ("obligation_kind", obligation_kind ob)] ++
  (if str_mem (state ob) OUTCOME_STATES then [] else [OV_bad_state]) ++
  flat_map (fun '(label, v) =>
      if negb (is_number v) || is_bool v then [OV_not_number label] else [])
    [("opened_at", opened_at ob); ("expected_by", expected_by ob)] ++
  (if horizon_missing ob then [OV_no_horizon] else []) ++
  state_violations ob.

Definition validate_obligation (ob : OutcomeObligation) : result outcome_exn unit :=
  match obligation_violations ob with
  | [] => Ok tt
  | vs => Err (OutcomeIntegrityError (obligation_id ob) vs)
  end.

Definition open_obligation (obligation_id decision_hash domain : string) (rule : MaturationRule)
    (opened_at : pyval) (subject_id : option string) (detail : option (dict pyval))
    : result pyexn OutcomeObligation :=
  t ← to_float opened_at;
  Ok {| obligation_id := obligation_id; decision_hash := decision_hash; domain := domain;
        obligation_kind := kind rule; opened_at := VFloat t;
        expected_by := VFloat (fadd t (horizon_seconds rule));
        state := OUTCOME_OPEN; reason_code := Some REASON_NOT_YET_DUE;
        resolved_at := VNone; resolved_value := VNone;
        resolution_provenance := None; resolution_method := None; favorable := VNone;
        subject_id := subject_id; detail := opt_dict detail |}.

(** A new obligation that keeps the identity, the horizon, the subject and the
    detail of [ob]; the closing fields are given. *)
Definition restate (ob : OutcomeObligation) (st : string) (reason : option string)
    (at_ value : pyval) (prov method : option string) (fav : pyval) : OutcomeObligation :=
  {| obligation_id := obligation_id ob; decision_hash := decision_hash ob; domain := domain ob;
     obligation_kind := obligation_kind ob; opened_at := opened_at ob;
     expected_by := expected_by ob; state := st; reason_code := reason;
     resolved_at := at_; resolved_value := value; resolution_provenance := prov;
     resolution_method := method; favorable := fav; subject_id := subject_id ob;
     detail := detail ob |}.

Definition checked (ob : OutcomeObligation) : result outcome_exn OutcomeObligation :=
  _ ← validate_obligation ob;
  Ok ob.

Definition resolve (ob : OutcomeObligation) (resolved_at : pyval) (value : dict pyval)
    (provenance : string) (favorable : pyval) (method : option string)
    : result outcome_exn OutcomeObligation :=
  t ← lift_outcome (to_float resolved_at);
  checked (restate ob OUTCOME_RESOLVED None (VFloat t) (VDict value) (Some provenance) method
             favorable).

Definition stay_open (ob : OutcomeObligation) (reason : string)
    : result outcome_exn OutcomeObligation :=
  checked (restate ob OUTCOME_OPEN (Some reason) VNone VNone None None VNone).

Definition abandon (ob : OutcomeObligation) (reason : string) (at_ : pyval)
    : result outcome_exn OutcomeObligation :=
  t ← lift_outcome (to_float at_);
  checked (restate ob OUTCOME_ABANDONED (Some reason) (VFloat t) VNone None None VNone).

(** [float(now) > expected_by], evaluated only for an open obligation. *)
Definition is_overdue (ob : OutcomeObligation) (now : pyval) : result pyexn bool :=
  if String.eqb (state ob) OUTCOME_OPEN
  then t ← to_float now; py_ltb (expected_by ob) (VFloat t)
  else Ok false.

Definition bump (d : dict Z) (k : string) : dict Z :=
  dset d k (match dget d k with Some n => n | None => 0 end + 1)%Z.

Definition honored_step (now : pyval) (acc : dict Z * dict Z) (ob : OutcomeObligation)
    : result pyexn (dict Z * dict Z) :=
  let '(counts, reasons) := acc in
  let counts := bump counts (state ob) in
  overdue ← is_overdue ob now;
  let counts := if (overdue : bool) then bump counts "overdue" else counts in
  let reasons :=
    if String.eqb (state ob) OUTCOME_OPEN && opt_true (reason_code ob)
    then bump reasons (or_empty (reason_code ob)) else reasons in
  Ok (counts, reasons).

Definition honored_init : dict Z := [("OPEN", 0); ("RESOLVED", 0); ("ABANDONED", 0); ("overdue", 0)]%Z.

Definition horizon_honored (obs : list OutcomeObligation) (now : pyval) : result pyexn (dict Z) :=
  '(counts, reasons) ← foldM (honored_step now) (honored_init, []) obs;
  Ok (fold_left (fun c '(reason, n) => dset c ("open:" +:+ reason) n) reasons counts).

(** The columns of a decision row that the derivation reads. *)
Record DecisionRow := mkRow {
  row_current_hash : option string;
  row_timestamp : pyval;
  row_outcome_obligation : option string;
  row_domain : option string;
  row_cassette_version : option string;
  row_subject_id : option string;
}.

(** [a or b or ...] on optional strings. *)
Definition or_str (a : option string) (b : string) : string :=
  if opt_true a then or_empty a else b.

Definition derive_row (row : DecisionRow) : result pyexn (list OutcomeObligation) :=
  if opt_true (row_outcome_obligation row) then
    rule ← parse (or_empty (row_outcome_obligation row));
    let decision_hash := or_str (row_current_hash row) "" in
    ob ← open_obligation (decision_hash +:+ ":" +:+ kind rule) decision_hash
           (or_str (row_domain row) (or_str (row_cassette_version row) "unknown"))
           rule
           (if py_true (row_timestamp row) then row_timestamp row else VFloat fzero)
           (row_subject_id row) None;
    Ok [ob]
  else Ok [].

Definition derive_open_obligations (rows : list DecisionRow)
    : result pyexn (list OutcomeObligation) :=
  obs ← mapM_r derive_row rows;
  Ok (concat obs).

Definition cohort_favorable (ob : OutcomeObligation) : result outcome_exn bool :=
  if negb (String.eqb (state ob) OUTCOME_RESOLVED)
  then Err (OutcomeIntegrityError (obligation_id ob) [OV_cohort_not_resolved])
  else if is_None (favorable ob)
  then Err (OutcomeIntegrityError (obligation_id ob) [OV_cohort_ambiguous])
  else Ok (py_true (favorable ob)).

Record CohortDecision (G : Type) := mkCohortDecision {
  cd_subject_id : string;
  cd_favorable_outcome : bool;
  cd_group_distribution : G;
}.
Arguments mkCohortDecision {G}.

Definition to_cohort_decision {G} (ob : OutcomeObligation) (group_distribution : G)
    : result outcome_exn (CohortDecision G) :=
  fav ← cohort_favorable ob;
  Ok (mkCohortDecision (or_str (subject_id ob) (decision_hash ob)) fav group_distribution).

(* ------------------------------------------------------------------ *)
(** ** The maturation rule and its text *)

Lemma ident_chars k : ident_ok k = true ->
  str_forallb (fun c => is_alpha c || is_digit c || Ascii.eqb c "_"%char) k = true.
Proof. destruct k as [|c k]; [done|]. simpl. intros. bool_hyps. by rewrite H. Qed.

Lemma ident_char_plain c : is_alpha c || is_digit c || Ascii.eqb c "_"%char = true ->
  negb (is_space c) && negb (Ascii.eqb c "@"%char) = true.
Proof. destruct c as [[] [] [] [] [] [] [] []]; vm_compute; congruence. Qed.

Lemma match_declaration_text k n u z :
  ident_ok k = true -> dget unit_Z u = Some z ->
  match_declaration (strip (k +:+ "@" +:+ string_of_N n +:+ u)) = Some (k, string_of_N n, u).
Proof.
  intros Hk Hu.
  assert (Hun : exists c r, u = String c r /\ is_digit c = false /\
    str_forallb (fun c => negb (is_space c)) u = true /\ dmem UNIT_SECONDS u = true).
  { apply dget_Some_elem in Hu. unfold unit_Z in Hu. rewrite !elem_of_cons in Hu.
    repeat (destruct Hu as [[= -> ->]|Hu]; [do 2 eexists; split_and!; reflexivity|]). by apply elem_of_nil in Hu. }
  destruct Hun as (c & r & -> & Hc & Hsp & Hm).
  assert (Hkc := str_forallb_impl _ _ k ident_char_plain (ident_chars k Hk)).
  rewrite strip_nospace.
  - unfold match_declaration. change ("@" +:+ ?x) with (String "@"%char x).
    rewrite split_at_app.
    + rewrite str_span_app by (done || apply string_of_N_all_digits).
      by rewrite Hk, string_of_N_nonempty, Hm.
    + apply (str_forallb_impl _ _ k) with (2 := Hkc). intros d Hd. by bool_hyps; rewrite H0.
  - rewrite !str_forallb_app, Hsp.
    rewrite (str_forallb_impl _ _ k) with (2 := Hkc) by (intros d Hd; by bool_hyps; rewrite H).
    rewrite (str_forallb_impl is_digit _ (string_of_N n)); [done| |apply string_of_N_all_digits].
    intros d. destruct d as [[] [] [] [] [] [] [] []]; vm_compute; congruence.
Qed.

Lemma int_of_digits_text (n : Z) : (0 <= n < 2 ^ 53)%Z ->
  int_of_digits (string_of_N (Z.to_N n)) = Ok n.
Proof.
  intros Hn. unfold int_of_digits.
  assert (String.length (string_of_N (Z.to_N n)) <= 4300)%nat as Hl.
  { pose proof (length_string_of_N (Z.to_N n)).
    assert (N.size_nat (Z.to_N n) <= 53)%nat; [|lia].
    destruct (Z.to_N n) as [|p] eqn:E; simpl; [lia|].
    assert (Npos p < 2 ^ 53)%N by lia.
    pose proof (Pos.size_nat_monotone p (2 ^ 53 - 1)). 
    assert (Pos.size_nat (2 ^ 53 - 1) = 53%nat) by reflexivity.
    destruct (decide (p = 2 ^ 53 - 1)%positive) as [->|]; [lia|]. lia. }
  rewrite (proj2 (Nat.ltb_ge _ _)) by done. rewrite string_of_N_digits. f_equal. lia.
Qed.

(** Reading back the text of [n] units of size [z]. *)
Lemma parse_text k (n z : Z) u :
  ident_ok k = true -> dget unit_Z u = Some z -> (0 < n)%Z -> (n * z < 2 ^ 53)%Z ->
  parse (k +:+ "@" +:+ string_of_Z n +:+ u) = Ok (mkRule k (f_of_Z (n * z))).
Proof.
  intros Hk Hu Hn Hnz.
  assert (Hz : (0 < z)%Z /\ dget UNIT_SECONDS u = Some (f_of_Z z)).
  { apply dget_Some_elem in Hu. unfold unit_Z in Hu. rewrite !elem_of_cons in Hu.
    repeat (destruct Hu as [[= -> ->]|Hu]; [done|]). by apply elem_of_nil in Hu. }
  destruct Hz as [Hz Hus].
  unfold string_of_Z. rewrite (proj2 (Z.ltb_ge _ _)) by lia.
  unfold parse. rewrite (match_declaration_text k _ u z) by done.
  rewrite int_of_digits_text by nia. cbn [mbind result_bind].
  rewrite (proj2 (Z.leb_gt _ _)) by lia. rewrite int_to_float_exact by nia. cbn [mbind result_bind].
  rewrite Hus. by rewrite fmul_exact by lia.
Qed.

(** A rule whose horizon is a whole number of seconds below 2^53. *)
Definition exact_rule (r : MaturationRule) (n : Z) : Prop :=
  ident_ok (kind r) = true /\ (0 < n < 2 ^ 53)%Z /\ horizon_seconds r = f_of_Z n.

Lemma unit_sizes u z : dget unit_Z u = Some z ->
  (0 < z < 2 ^ 53)%Z /\ dget UNIT_SECONDS u = Some (f_of_Z z).
Proof.
  intros Hu. apply dget_Some_elem in Hu. unfold unit_Z in Hu. rewrite !elem_of_cons in Hu.
  repeat (destruct Hu as [[= -> ->]|Hu]; [done|]). by apply elem_of_nil in Hu.
Qed.

(** The units are tried in order; the first that divides the horizon prints. *)
Lemma declare_exact r n us : exact_rule r n ->
  Forall (fun u => u ∈ suffixes) us -> "s" ∈ us ->
  exists u z, dget unit_Z u = Some z /\ (n mod z = 0)%Z /\
    declare_with r us = Ok (render r (n / z) u).
Proof.
  intros (Hk & Hn & Hh) Hall Hs. induction us as [|u us IH]; [set_solver|].
  apply Forall_cons in Hall as [Hu Hall].
  assert (exists z, dget unit_Z u = Some z) as [z Hz].
  { unfold suffixes in Hu. rewrite !elem_of_cons in Hu.
    repeat (destruct Hu as [->|Hu]; [by eexists|]). by apply elem_of_nil in Hu. }
  destruct (unit_sizes u z Hz) as [Hz0 Hus]. pose proof (Z.mod_pos_bound n z ltac:(lia)) as Hmod.
  cbn [declare_with]. rewrite Hus, Hh, fleb_exact, fmod_exact by lia.
  assert (Hq : feqb (f_of_Z (n mod z)) fzero = (n mod z =? 0)%Z).
  { change fzero with (f_of_Z 0). unfold feqb, SFeqb.
    rewrite fcompare_exact by lia. by destruct (n mod z)%Z. }
  rewrite Hq. destruct ((z <=? n)%Z && (n mod z =? 0)%Z) eqn:Ed.
  - bool_hyps. exists u, z. split_and!; [done|lia|].
    assert (Hd : n = (n / z * z)%Z) by (pose proof (Z.div_exact n z); lia).
    rewrite Hd at 1. rewrite ffloordiv_exact, float_to_int_exact by nia. done.
  - apply elem_of_cons in Hs as [<-|Hs]; [|by apply IH].
    simpl in Hz. simplify_eq. rewrite Z.mod_1_r in Ed. simpl in Ed.
    rewrite andb_true_r in Ed. lia.
Qed.

(** The text of a rule reads back: for every rule with an identifier kind
    and a horizon of whole seconds below 2^53, [declaration] returns a text and
    [parse] of that text is the same rule. *)
Theorem declaration_parse_roundtrip r n : exact_rule r n ->
  exists s, declaration r = Ok s /\ parse s = Ok r.
Proof.
  intros Hr. destruct (declare_exact r n suffixes Hr) as (u & z & Hz & Hm & Hd).
  - unfold suffixes. rewrite !Forall_cons. split_and!; try set_solver.
  - unfold suffixes. set_solver.
  - exists (render r (n / z) u). split; [done|].
    destruct Hr as (Hk & Hn & Hh). destruct (unit_sizes u z Hz) as [Hz0 _].
    pose proof (Z.div_exact n z ltac:(lia)) as [_ Hde]. specialize (Hde Hm).
    unfold render. rewrite (parse_text (kind r) (n / z) z u) by (done || nia).
    replace (n / z * z)%Z with n by lia. rewrite <- Hh. by destruct r.
Qed.

Lemma declaration_parse_roundtrip_witness :
  exact_rule (mkRule "loan_performance" (f_of_Z 62208000)) 62208000 /\
  exists s, declaration (mkRule "loan_performance" (f_of_Z 62208000)) = Ok s /\
            parse s = Ok (mkRule "loan_performance" (f_of_Z 62208000)).
Proof.
  assert (H : exact_rule (mkRule "loan_performance" (f_of_Z 62208000)) 62208000)
    by (split; [reflexivity|split; [split; reflexivity|reflexivity]]).
  split; [exact H|]. apply (declaration_parse_roundtrip _ 62208000 H).
Defined.

(** The text is not preserved the other way, and 24 months are 720 days:
    a declaration in a smaller unit prints back in the largest one, and
    "24mo" is not the 730 days the source comment states. *)
Theorem declaration_text_changes :
  (exists r, parse "hold@60s" = Ok r /\ declaration r = Ok "hold@1m") /\
  (exists r, parse "loan@24mo" = Ok r /\ horizon_seconds r = f_of_Z (720 * 86400) /\
     parse "loan@730d" <> Ok r).
Proof.
  split; eexists; (split; [reflexivity|]).
  - reflexivity.
  - split; [reflexivity|]. vm_compute. discriminate.
Qed.

(** Parsing is fail-loud: a declaration parses to a rule whose kind is the
    identifier before the "@", or is refused with ValueError or, when the
    count is beyond binary64, with OverflowError; nothing is defaulted. *)
Theorem parse_outcomes s :
  match parse s with
  | Ok r => ident_ok (kind r) = true /\
      exists digits unit z count, match_declaration (strip s) = Some (kind r, digits, unit) /\
        dget unit_Z unit = Some z /\ int_of_digits digits = Ok count /\ (0 < count)%Z /\
        f_is_inf (f_of_Z count) = false /\
        horizon_seconds r = fmul (f_of_Z count) (f_of_Z z)
  | Err e => e = ValueError \/ e = OverflowError
  end.
Proof.
  unfold parse. destruct (match_declaration (strip s)) as [[[k ds] u]|] eqn:Em; [|by left].
  assert (Hm := Em). unfold match_declaration in Hm.
  destruct (split_at _ _) as [[k' rest]|]; [|done].
  destruct (str_span is_digit rest) as [ds' u']. case_bool; [|done]. simplify_eq. bool_hyps.
  destruct (int_of_digits ds) as [count|e] eqn:Ei; cbn [mbind result_bind].
  - destruct (Z.leb_spec count 0); [by left|]. unfold int_to_float.
    destruct (f_is_inf (f_of_Z count)) eqn:Ef; cbn [mbind result_bind]; [by right|].
    assert (Hu : exists z, dget unit_Z u = Some z /\ dget UNIT_SECONDS u = Some (f_of_Z z)).
    { match goal with H : dmem UNIT_SECONDS u = true |- _ => apply dmem_keys in H as Hin end.
      change (dkeys UNIT_SECONDS) with ["s"; "m"; "h"; "d"; "mo"; "y"] in Hin.
      rewrite !elem_of_cons in Hin.
      repeat (destruct Hin as [->|Hin]; [eexists; split; reflexivity|]).
      by apply elem_of_nil in Hin. }
    destruct Hu as (z & Hz & ->). split; [done|]. exists ds, u, z, count. split_and!; done.
  - left. unfold int_of_digits in Ei. case_bool; [congruence|]. destruct (N_of_digits ds); congruence.
Qed.

Lemma strip_length s : (String.length (strip s) <= String.length s)%nat.
Proof.
  assert (Hl : forall s, (String.length (lstrip s) <= String.length s)%nat)
    by (induction s0 as [|c s0 IH]; simpl; [done|]; destruct (is_space c); simpl; lia).
  assert (Hr : forall s, (String.length (rstrip s) <= String.length s)%nat).
  { induction s0 as [|c s0 IH]; simpl; [done|]. destruct (rstrip s0); [destruct (is_space c); simpl; lia|]. simpl in *. lia. }
  unfold strip. specialize (Hr (lstrip s)). specialize (Hl s). lia.
Qed.

Lemma split_at_length c s a b : split_at c s = Some (a, b) -> (String.length b < String.length s)%nat.
Proof.
  revert a. induction s as [|d s IH]; intros a; simpl; [done|]. destruct (Ascii.eqb d c); [intros [= <- <-]; lia|].
  destruct (split_at c s) as [[a' b']|]; [|done]. intros [= <- <-]. specialize (IH a' eq_refl). lia.
Qed.

Lemma str_span_length f s a b : str_span f s = (a, b) -> (String.length a <= String.length s)%nat.
Proof.
  revert a. induction s as [|d s IH]; intros a; simpl; [by intros [= <- <-]|]. destruct (f d); [|intros [= <- <-]; simpl; lia].
  destruct (str_span f s) as [a' b']. intros [= <- <-]. specialize (IH a' eq_refl). simpl. lia.
Qed.

(** A declaration that fits its column counts less than [10 ^ 120] units, and
    never overflows. *)
Lemma parse_short s : (String.length s <= 120)%nat -> is_ok (parse s) = true \/ parse s = Err ValueError.
Proof.
  intros Hs. pose proof (parse_outcomes s) as Ho. destruct (parse s) as [r|e] eqn:Ep; [by left|right].
  destruct Ho as [->| ->]; [done|]. exfalso. revert Ep. unfold parse.
  destruct (match_declaration (strip s)) as [[[k ds] u]|] eqn:Em; [|done].
  unfold match_declaration in Em. destruct (split_at _ _) as [[k' rest]|] eqn:Es; [|done].
  destruct (str_span is_digit rest) as [ds' u'] eqn:Ed. case_bool; [|done]. simplify_eq.
  pose proof (strip_length s). pose proof (split_at_length _ _ _ _ Es). pose proof (str_span_length _ _ _ _ Ed).
  destruct (int_of_digits ds) as [count|e] eqn:Ei; cbn [mbind result_bind].
  - unfold int_of_digits in Ei. destruct (4300 <? _)%nat; [discriminate Ei|].
    destruct (N_of_digits ds) as [n|] eqn:En; [|discriminate Ei].
    injection Ei as <-. apply N_of_digits_bound in En.
    assert (Hn : (n < 2 ^ 400)%N).
    { assert (10 ^ N.of_nat (String.length ds) <= 10 ^ 120)%N by (apply N.pow_le_mono_r; lia).
      assert (10 ^ 120 <= 2 ^ 400)%N by (vm_compute; discriminate). lia. }
    destruct (Z.leb_spec (Z.of_N n) 0); [done|]. unfold int_to_float. rewrite f_of_Z_finite; [|lia].
    cbn [mbind result_bind]. destruct (dget _ _); discriminate.
  - unfold int_of_digits in Ei. case_bool; [congruence|]. destruct (N_of_digits ds); congruence.
Qed.

(** A count past the range of binary64 is not a ValueError. *)
Fixpoint nines (n : nat) : string :=
  match n with O => EmptyString | S n => String "9"%char (nines n) end.

Example parse_overflow : parse ("k@" +:+ nines 309 +:+ "s") = Err OverflowError.
Proof. vm_compute. reflexivity. Qed.

(* ------------------------------------------------------------------ *)
(** ** The obligation *)

(** A validated obligation is one of three things, and says which. *)
Inductive accounted (ob : OutcomeObligation) : Prop :=
| acc_open :
    state ob = OUTCOME_OPEN -> opt_mem (reason_code ob) OPEN_REASONS = true ->
    resolved_at ob = VNone -> resolved_value ob = VNone -> favorable ob = VNone ->
    accounted ob
| acc_resolved v :
    state ob = OUTCOME_RESOLVED -> reason_code ob = None -> resolved_at ob <> VNone ->
    resolved_value ob = VDict v -> v <> [] ->
    opt_mem (resolution_provenance ob) PROVENANCE_STAMPS = true ->
    (resolution_provenance ob = Some PROVENANCE_ESTIMATED ->
     blank (or_empty (resolution_method ob)) = false) ->
    accounted ob
| acc_abandoned :
    state ob = OUTCOME_ABANDONED -> opt_mem (reason_code ob) ABANDONED_REASONS = true ->
    favorable ob = VNone -> accounted ob.

(** What validation asks of every obligation, whatever its state. *)
Definition base_ok (ob : OutcomeObligation) : Prop :=
  Forall (fun s => blank s = false) [obligation_id ob; decision_hash ob; domain ob; obligation_kind ob] /\
  Forall (fun v => is_number v && negb (is_bool v) = true) [opened_at ob; expected_by ob] /\
  horizon_missing ob = false.

Lemma is_None_inv v : is_None v = true <-> v = VNone.
Proof. by destruct v. Qed.

Lemma if_nil {A} (b : bool) (x : A) : (if b then [x] else []) = [] <-> b = false.
Proof. by destruct b. Qed.

Lemma if_nil' {A} (b : bool) (x : A) : (if b then [] else [x]) = [] <-> b = true.
Proof. by destruct b. Qed.

Lemma state_violations_nil ob :
  str_mem (state ob) OUTCOME_STATES = true -> state_violations ob = [] <-> accounted ob.
Proof.
  intros Hst. apply str_mem_spec in Hst. unfold OUTCOME_STATES in Hst.
  rewrite !elem_of_cons in Hst. unfold state_violations.
  destruct Hst as [E|[E|[E|E]]]; [rewrite E|rewrite E|rewrite E|set_solver]; simpl.
  - rewrite !app_nil, if_nil', !if_nil, orb_false_iff, !negb_false_iff, !is_None_inv. split.
    + intros (? & [? ?] & ?). by apply acc_open.
    + destruct 1 as [E2 ?|v E2 ?|E2 ?]; rewrite E in E2; try discriminate E2; done.
  - rewrite !app_nil, if_nil', !if_nil. split.
    + intros (Hr & Ht & Hv & Hp & Hm). unfold no_value in Hv. bool_hyps.
      destruct (resolved_value ob) as [| | | | | |v] eqn:Ev; try done.
      apply (acc_resolved ob v); try done.
      * by destruct (reason_code ob).
      * intros Hn. by rewrite Hn in Ht.
      * by destruct v.
      * intros Hes. rewrite Hes in Hm. simpl in Hm. by destruct (blank _).
    + destruct 1 as [E2|v E2 Hr Ht Hv Hne Hp Hm|E2]; rewrite E in E2; try discriminate E2.
      rewrite Hr, Hv, Hp. split_and!; try done.
      * destruct (is_None (resolved_at ob)) eqn:En; [|done]. by apply is_None_inv in En.
      * unfold no_value. simpl. by destruct v.
      * destruct (resolution_provenance ob) as [p|] eqn:Ep; [|done]. simpl.
        destruct (String.eqb_spec p PROVENANCE_ESTIMATED) as [->|]; [|done].
        by rewrite (Hm eq_refl).
  - rewrite !app_nil, if_nil', !if_nil, !negb_false_iff, !is_None_inv. split.
    + intros (? & ?). by apply acc_abandoned.
    + destruct 1 as [E2 ?|v E2 ?|E2 ?]; rewrite E in E2; try discriminate E2; done.
Qed.

Lemma obligation_violations_nil ob :
  obligation_violations ob = [] <-> base_ok ob /\ accounted ob.
Proof.
  unfold obligation_violations, base_ok. rewrite !app_nil. cbn [flat_map].
  rewrite !app_nil, !if_nil, if_nil', !Forall_cons.
  destruct (str_mem (state ob) OUTCOME_STATES) eqn:Es.
  - rewrite state_violations_nil by done.
    destruct (opened_at ob), (expected_by ob); simpl; intuition (try done; by constructor).
  - split; [intuition congruence|]. intros [_ Hac].
    destruct Hac as [E|v E|E]; rewrite E in Es; discriminate.
Qed.

Lemma validate_obligation_iff ob :
  validate_obligation ob = Ok tt <-> base_ok ob /\ accounted ob.
Proof.
  rewrite <- obligation_violations_nil. unfold validate_obligation.
  by destruct (obligation_violations ob).
Qed.

(** An unknown says why, a known says how: [validate_obligation] accepts
    exactly the obligations with named parties and a real horizon that are open
    with a typed reason and no verdict, resolved with a stamped non-empty value
    (and a method when estimated), or abandoned with a typed reason. *)
Theorem validate_obligation_spec ob :
  validate_obligation ob = Ok tt <-> base_ok ob /\ accounted ob.
Proof. apply validate_obligation_iff. Qed.

Lemma checked_ok ob ob' : checked ob = Ok ob' <-> ob' = ob /\ base_ok ob /\ accounted ob.
Proof.
  unfold checked. rewrite <- validate_obligation_iff.
  destruct (validate_obligation ob) as [[]|]; cbn [mbind result_bind]; split; intros H;
    simplify_eq; try done; destruct H as [-> ?]; done.
Qed.

(** The part of an obligation no operation changes. *)
Definition same_debt (a b : OutcomeObligation) : Prop :=
  obligation_id a = obligation_id b /\ decision_hash a = decision_hash b /\
  domain a = domain b /\ obligation_kind a = obligation_kind b /\
  opened_at a = opened_at b /\ expected_by a = expected_by b /\
  subject_id a = subject_id b /\ detail a = detail b.

Lemma restate_same_debt ob st r a v p m f : same_debt (restate ob st r a v p m f) ob.
Proof. by split_and!. Qed.

(** Closing operations: whatever [resolve], [stay_open] or [abandon]
    returns is a validated record of the same debt in the state the operation
    names, and [resolve] succeeds on a well-identified obligation exactly when
    the value is non-empty and its stamp (with a method, if estimated) is one
    of the three. *)
Theorem closing_operations ob ob' t value prov fav method reason :
  base_ok ob ->
  (resolve ob (VFloat t) value prov fav method = Ok ob' <->
     value <> [] /\ str_mem prov PROVENANCE_STAMPS = true /\
     (prov = PROVENANCE_ESTIMATED -> blank (or_empty method) = false) /\
     ob' = restate ob OUTCOME_RESOLVED None (VFloat t) (VDict value) (Some prov) method fav) /\
  (stay_open ob reason = Ok ob' <->
     str_mem reason OPEN_REASONS = true /\
     ob' = restate ob OUTCOME_OPEN (Some reason) VNone VNone None None VNone) /\
  (abandon ob reason (VFloat t) = Ok ob' <->
     str_mem reason ABANDONED_REASONS = true /\
     ob' = restate ob OUTCOME_ABANDONED (Some reason) (VFloat t) VNone None None VNone) /\
  (resolve ob (VFloat t) value prov fav method = Ok ob' \/ stay_open ob reason = Ok ob' \/
   abandon ob reason (VFloat t) = Ok ob' -> same_debt ob' ob /\ validate_obligation ob' = Ok tt).
Proof.
  intros Hb. unfold resolve, stay_open, abandon. cbn [to_float lift_outcome map_err mbind result_bind].
  rewrite !checked_ok. split_and!.
  - split.
    + intros (-> & _ & Hac). destruct Hac as [E|v E _ _ Hv Hne Hp Hm|E]; try done.
      simpl in *. simplify_eq. split_and!; try done. intros ->. by apply Hm.
    + intros (Hne & Hp & Hm & ->). split_and!; [done|done|].
      apply (acc_resolved _ value); try done. simpl. intros [= ->]. by apply Hm.
  - split.
    + intros (-> & _ & Hac). by destruct Hac as [E Hr|v E|E].
    + intros (Hr & ->). split_and!; [done|done|]. by apply acc_open.
  - split.
    + intros (-> & _ & Hac). by destruct Hac as [E|v E|E Hr].
    + intros (Hr & ->). split_and!; [done|done|]. by apply acc_abandoned.
  - rewrite validate_obligation_iff.
    intros [(-> & ? & ?)|[(-> & ? & ?)|(-> & ? & ?)]]; (split; [apply restate_same_debt|done]).
Qed.

(* ------------------------------------------------------------------ *)
(** ** Overdue *)

Lemma overdue_open ob x now : state ob = OUTCOME_OPEN -> expected_by ob = VFloat x ->
  is_overdue ob (VFloat now) = Ok (fltb x now).
Proof. intros Hs He. unfold is_overdue. rewrite Hs, He. done. Qed.

Lemma fltb_fleb_trans x a b : fltb x a = true -> fleb a b = true -> fltb x b = true.
Proof.
  intros H1 H2.
  assert (Hx : f_is_nan x = false) by (destruct x; done).
  assert (Ha : f_is_nan a = false) by (destruct a; try done; by destruct x as [[]|[]| |[]]).
  assert (Hb : f_is_nan b = false) by (destruct b; try done; by destruct a as [[]|[]| |[]]).
  unfold fltb, SFltb, fleb, SFleb in *.
  pose proof (SFcompare_fkey x a Hx Ha) as C1. pose proof (SFcompare_fkey a b Ha Hb) as C2.
  pose proof (SFcompare_fkey x b Hx Hb) as C3.
  destruct (SFcompare x a) as [[]|]; try done.
  destruct (SFcompare a b) as [[]|]; try done;
    destruct (SFcompare x b) as [[]|]; try done; unfold klt in *;
    try rewrite C2 in *; try rewrite C3 in *; lia.
Qed.

(** Overdue is arithmetic: an obligation opened from a rule at second [t]
    is overdue at second [now] exactly when [now] is past [t] plus the horizon;
    and once overdue it stays overdue at every later time. *)
Theorem overdue_is_arithmetic oid dh dom r h t now now' sid det ob :
  exact_rule r h -> (0 <= t)%Z -> (t + h < 2 ^ 53)%Z -> (0 <= now <= now' /\ now' < 2 ^ 53)%Z ->
  open_obligation oid dh dom r (VInt t) sid det = Ok ob ->
  is_overdue ob (VInt now) = Ok (t + h <? now)%Z /\
  (is_overdue ob (VInt now) = Ok true -> is_overdue ob (VInt now') = Ok true).
Proof.
  intros (_ & Hh & Hr) Ht Hth Hnow. unfold open_obligation. cbn [to_float].
  rewrite int_to_float_exact by lia. cbn [mbind result_bind]. rewrite Hr, fadd_exact by lia.
  intros [= <-]. unfold is_overdue. cbn [state expected_by to_float].
  change (String.eqb OUTCOME_OPEN OUTCOME_OPEN) with true. cbv iota.
  rewrite !int_to_float_exact by lia. cbn [mbind result_bind py_ltb as_num].
  change (num_ltb (NF ?a) (NF ?b)) with (fltb a b). rewrite !fltb_exact by lia.
  split; [done|]. intros [= Hlt]. f_equal. lia.
Qed.

Definition two_day_rule := mkRule "settlement" (f_of_Z 172800).

Lemma overdue_is_arithmetic_witness :
  exists ob, open_obligation "ob" "h" "bank" two_day_rule (VInt 1000) None None = Ok ob /\
    is_overdue ob (VInt 173801) = Ok true /\ is_overdue ob (VInt 200000) = Ok true.
Proof.
  eexists. split; [reflexivity|].
  assert (Hr : exact_rule two_day_rule 172800)
    by (split; [reflexivity|split; [split; reflexivity|reflexivity]]).
  destruct (overdue_is_arithmetic "ob" "h" "bank" two_day_rule 172800 1000 173801 200000 None None
    _ Hr ltac:(lia) ltac:(lia) ltac:(lia) eq_refl) as [H1 H2].
  split; [exact H1|]. apply H2, H1.
Defined.

(** No clock reaches a NaN horizon: an open obligation whose horizon is NaN
    passes validation, and is then overdue at no time at all. *)
Theorem nan_horizon_never_overdue ob o :
  base_ok ob -> accounted ob -> state ob = OUTCOME_OPEN -> opened_at ob = VFloat o ->
  let ob' := mkObligation (obligation_id ob) (decision_hash ob) (domain ob) (obligation_kind ob)
    (opened_at ob) (VFloat fnan) (state ob) (reason_code ob) (resolved_at ob)
    (resolved_value ob) (resolution_provenance ob) (resolution_method ob) (favorable ob)
    (subject_id ob) (detail ob) in
  validate_obligation ob' = Ok tt /\ forall now, is_overdue ob' (VFloat now) = Ok false.
Proof.
  intros (Hids & Hnum & Hh) Hac Hs Ho ob'. split.
  - apply validate_obligation_iff. split.
    + split_and!; [done| |].
      * subst ob'. cbn [opened_at expected_by] in *.
        rewrite !Forall_cons in *. destruct Hnum as (? & _). split_and!; [done|done|constructor].
      * unfold horizon_missing. subst ob'. cbn [opened_at expected_by]. rewrite Ho. simpl.
        by destruct o as [[]|[]| |[]].
    + destruct Hac as [E|v E|E]; [by apply acc_open|by apply (acc_resolved _ v)|by apply acc_abandoned].
  - intros now. rewrite (overdue_open ob' fnan) by done. by destruct now as [[]|[]| |[]].
Qed.

Definition sample_obligation : OutcomeObligation :=
  mkObligation "h1:settlement" "h1" "bank" "settlement" (VFloat (f_of_Z 1000))
    (VFloat (f_of_Z 173800)) OUTCOME_OPEN (Some REASON_NOT_YET_DUE) VNone VNone None None VNone
    None [].

Lemma sample_obligation_valid : validate_obligation sample_obligation = Ok tt.
Proof. vm_compute. reflexivity. Qed.

Lemma nan_horizon_never_overdue_witness :
  is_overdue (mkObligation "h1:settlement" "h1" "bank" "settlement" (VFloat (f_of_Z 1000))
    (VFloat fnan) OUTCOME_OPEN (Some REASON_NOT_YET_DUE) VNone VNone None None VNone
    None []) (VFloat (f_of_Z 4000000000)) = Ok false.
Proof.
  destruct (proj1 (validate_obligation_iff sample_obligation) sample_obligation_valid) as [Hb Ha].
  exact (proj2 (nan_horizon_never_overdue sample_obligation (f_of_Z 1000) Hb Ha eq_refl eq_refl)
    (f_of_Z 4000000000)).
Defined.

Lemma closing_operations_witness :
  exists ob', resolve sample_obligation (VFloat (f_of_Z 2000)) [("paid", VBool true)]
      PROVENANCE_VERIFIED (VBool true) None = Ok ob' /\
    same_debt ob' sample_obligation /\ validate_obligation ob' = Ok tt.
Proof.
  destruct (proj1 (validate_obligation_iff sample_obligation) sample_obligation_valid) as [Hb _].
  eexists. split; [reflexivity|].
  apply (closing_operations sample_obligation _ (f_of_Z 2000) [("paid", VBool true)]
    PROVENANCE_VERIFIED (VBool true) None REASON_NOT_YET_DUE Hb).
  left. reflexivity.
Defined.

(* ------------------------------------------------------------------ *)
(** ** Portfolio counts *)

Definition count_of {A} (f : A -> bool) (l : list A) : Z :=
  Z.of_nat (length (List.filter f l)).

Lemma count_app {A} (f : A -> bool) l a :
  count_of f (l ++ [a]) = (count_of f l + if f a then 1 else 0)%Z.
Proof.
  unfold count_of. rewrite List.filter_app, length_app. simpl. destruct (f a); simpl; lia.
Qed.

Lemma dget_bump d k k' : dget (bump d k) k' =
  if String.eqb k k' then Some (match dget d k with Some n => n | None => 0 end + 1)%Z else dget d k'.
Proof. unfold bump. apply dget_dset. Qed.

Definition overdue_b (now : pyval) (ob : OutcomeObligation) : bool :=
  match is_overdue ob now with Ok b => b | Err _ => false end.

Definition open_for (r : string) (ob : OutcomeObligation) : bool :=
  String.eqb (state ob) OUTCOME_OPEN && opt_mem (reason_code ob) [r].

Definition in_state (s : string) (ob : OutcomeObligation) : bool := String.eqb (state ob) s.

(** The accumulators of [horizon_honored] after a prefix of the portfolio. *)
Definition counted (now : pyval) (l : list OutcomeObligation) (acc : dict Z * dict Z) : Prop :=
  (forall s, s ∈ OUTCOME_STATES -> dget acc.1 s = Some (count_of (in_state s) l)) /\
  dget acc.1 "overdue" = Some (count_of (overdue_b now) l) /\
  (forall r, str_true r = true ->
     match dget acc.2 r with Some n => n | None => 0%Z end = count_of (open_for r) l) /\
  NoDup (dkeys acc.2) /\
  (forall r, dget acc.1 ("open:" +:+ r) = None).

Lemma open_key_plain r s : s ∈ "overdue" :: OUTCOME_STATES -> String.eqb s ("open:" +:+ r) = false.
Proof.
  unfold OUTCOME_STATES. rewrite !elem_of_cons.
  intros [->|[->|[->|[->|Hs]]]]; try done. by apply elem_of_nil in Hs.
Qed.

Lemma counted_step now l acc ob acc' :
  state ob ∈ OUTCOME_STATES -> counted now l acc -> honored_step now acc ob = Ok acc' ->
  counted now (l ++ [ob]) acc'.
Proof.
  destruct acc as [counts reasons]. intros Hst (Hc & Ho & Hr & Hnd & Hk). unfold honored_step.
  destruct (is_overdue ob now) as [od|] eqn:Eo; [|done]. cbn [mbind result_bind].
  intros [= <-]. cbn [fst snd] in *.
  assert (Hod : overdue_b now ob = od) by (unfold overdue_b; by rewrite Eo).
  assert (Hns : forall s, s ∈ OUTCOME_STATES -> String.eqb "overdue" s = false).
  { intros s Hs. unfold OUTCOME_STATES in Hs. rewrite !elem_of_cons in Hs.
    destruct Hs as [->|[->|[->|Hs]]]; try done. by apply elem_of_nil in Hs. }
  split_and!; cbn [fst snd].
  - intros s Hs. rewrite count_app. unfold in_state at 2.
    assert (Hb : dget (bump counts (state ob)) s
      = Some (count_of (in_state s) l + if String.eqb (state ob) s then 1 else 0)%Z).
    { rewrite dget_bump. destruct (String.eqb_spec (state ob) s) as [->|]; by rewrite Hc, ?Z.add_0_r. }
    destruct od; [|done]. rewrite dget_bump, Hns by done. done.
  - rewrite count_app, Hod.
    assert (Hb : dget (bump counts (state ob)) "overdue" = Some (count_of (overdue_b now) l)).
    { rewrite dget_bump. destruct (String.eqb_spec (state ob) "overdue") as [E|]; [|done].
      specialize (Hns _ Hst). rewrite E in Hns. done. }
    destruct od; [|by rewrite Z.add_0_r]. rewrite dget_bump, Hb. done.
  - intros r Htr. rewrite count_app. unfold open_for at 2. specialize (Hr r Htr).
    destruct (String.eqb (state ob) OUTCOME_OPEN); cbn [andb]; [|by rewrite Z.add_0_r].
    destruct (reason_code ob) as [rc|]; cbn; [|by rewrite Z.add_0_r].
    rewrite orb_false_r. unfold opt_true; cbn [or_empty]. destruct (str_true rc) eqn:Erc.
    + rewrite dget_bump, (String.eqb_sym rc r). destruct (String.eqb_spec r rc) as [->|]; lia.
    + destruct (String.eqb_spec rc r) as [->|]; [congruence|lia].
  - case_bool; [|done]. by apply NoDup_dset.
  - intros r. specialize (Hk r).
    assert (Hb : dget (bump counts (state ob)) ("open:" +:+ r) = None)
      by (rewrite dget_bump, open_key_plain by (by right); done).
    destruct od; [|done]. rewrite dget_bump, open_key_plain by left. done.
Qed.

Lemma open_key_inj r r' : String.eqb ("open:" +:+ r) ("open:" +:+ r') = String.eqb r r'.
Proof. done. Qed.

Lemma publish_reasons_get (reasons counts : dict Z) k :
  NoDup (dkeys reasons) ->
  dget (fold_left (fun c '(reason, n) => dset c ("open:" +:+ reason) n) reasons counts) k =
  match List.find (fun '(reason, _) => String.eqb ("open:" +:+ reason) k) reasons with
  | Some (_, n) => Some n
  | None => dget counts k
  end.
Proof.
  revert counts. induction reasons as [|[r n] reasons IH]; intros counts Hnd; [done|].
  apply NoDup_cons in Hnd as [Hn Hnd]. cbn [fold_left List.find].
  rewrite IH, dget_dset by done.
  destruct (String.eqb_spec ("open:" +:+ r) k) as [<-|]; [|done].
  destruct (List.find _ reasons) as [[r' n']|] eqn:Ef; [|done].
  apply find_some in Ef as [Hin Heq]. rewrite open_key_inj in Heq.
  apply String.eqb_eq in Heq as ->. destruct Hn. apply list_elem_of_In in Hin.
  by apply (list_elem_of_fmap_2 fst) in Hin.
Qed.

Lemma find_open_reason (reasons : dict Z) r :
  match List.find (fun '(reason, _) => String.eqb ("open:" +:+ reason) ("open:" +:+ r)) reasons with
  | Some (_, n) => Some n | None => None end = dget reasons r.
Proof.
  induction reasons as [|[r' n] reasons IH]; [done|]. cbn [List.find dget].
  rewrite open_key_inj. by destruct (String.eqb r' r).
Qed.

(** The portfolio answer is a count: for obligations in the three states,
    [horizon_honored] reports, for every state, how many are in it; how many
    are overdue; and for every open reason, how many are open for it. *)
Theorem horizon_honored_counts obs now counts :
  Forall (fun ob => state ob ∈ OUTCOME_STATES) obs ->
  horizon_honored obs now = Ok counts ->
  (forall s, s ∈ OUTCOME_STATES -> dget counts s = Some (count_of (in_state s) obs)) /\
  dget counts "overdue" = Some (count_of (overdue_b now) obs) /\
  (forall r, str_true r = true ->
     match dget counts ("open:" +:+ r) with Some n => n | None => 0%Z end
     = count_of (open_for r) obs).
Proof.
  intros Hst. unfold horizon_honored.
  destruct (foldM _ _ obs) as [[cs rs]|] eqn:Ef; [|done]. cbn [mbind result_bind].
  intros [= <-].
  assert (Hcnt : counted now obs (cs, rs)).
  { refine (foldM_ind (honored_step now) (fun l acc => l `prefix_of` obs -> counted now l acc)
      [] obs (honored_init, []) (cs, rs) _ _ Ef (reflexivity obs)).
    - intros l s a s' IH Hs Hpre. apply (counted_step now l s a); [|apply IH|done].
      + rewrite Forall_forall in Hst. apply Hst. destruct Hpre as [k ->]. set_solver.
      + etrans; [|exact Hpre]. by apply prefix_app_r.
    - intros _. split_and!; try done; [|constructor].
      intros s Hs. unfold OUTCOME_STATES in Hs. rewrite !elem_of_cons in Hs.
      destruct Hs as [->|[->|[->|Hs]]]; try done. by apply elem_of_nil in Hs. }
  destruct Hcnt as (Hc & Ho & Hr & Hnd & Hk). cbn [fst snd] in *.
  assert (Hskip : forall s, s ∈ "overdue" :: OUTCOME_STATES ->
    List.find (fun '(reason, _) => String.eqb ("open:" +:+ reason) s) rs = None).
  { intros s Hs. destruct (List.find _ rs) as [[r n]|] eqn:Ef2; [|done].
    apply find_some in Ef2 as [_ Heq]. by rewrite String.eqb_sym, open_key_plain in Heq. }
  split_and!.
  - intros s Hs. rewrite publish_reasons_get, Hskip by (done || by right). by apply Hc.
  - rewrite publish_reasons_get, Hskip by (done || left). done.
  - intros r Htr. rewrite publish_reasons_get by done. rewrite <- (Hr r Htr).
    pose proof (find_open_reason rs r) as Hf.
    destruct (List.find _ rs) as [[r' n]|]; rewrite <- Hf; [done|].
    by rewrite Hk.
Qed.

Definition abandoned_sample : OutcomeObligation :=
  restate sample_obligation OUTCOME_ABANDONED (Some REASON_SUBJECT_WITHDREW) (VInt 5) VNone
    None None VNone.

Lemma horizon_honored_counts_witness :
  exists counts,
    horizon_honored [sample_obligation; abandoned_sample; sample_obligation] (VInt 400000)
      = Ok counts /\
    dget counts "overdue" =
      Some (count_of (overdue_b (VInt 400000)) [sample_obligation; abandoned_sample; sample_obligation]).
Proof.
  eexists. split; [vm_compute; reflexivity|].
  refine (proj1 (proj2 (horizon_honored_counts
    [sample_obligation; abandoned_sample; sample_obligation] (VInt 400000) _ _ _))).
  - repeat constructor; apply str_mem_spec; reflexivity.
  - vm_compute. reflexivity.
Defined.

(* ------------------------------------------------------------------ *)
(** ** Independent derivation *)

Definition declares (row : DecisionRow) : bool := opt_true (row_outcome_obligation row).

(** The obligation a declaring row owes. *)
Definition owed (row : DecisionRow) (ob : OutcomeObligation) : Prop :=
  exists rule, parse (or_empty (row_outcome_obligation row)) = Ok rule /\
    decision_hash ob = or_str (row_current_hash row) "" /\
    obligation_id ob = or_str (row_current_hash row) "" +:+ ":" +:+ kind rule /\
    obligation_kind ob = kind rule /\ state ob = OUTCOME_OPEN /\
    reason_code ob = Some REASON_NOT_YET_DUE /\
    exists t, opened_at ob = VFloat t /\ expected_by ob = VFloat (fadd t (horizon_seconds rule)).

Lemma open_obligation_inv oid dh dom r t sid det ob :
  open_obligation oid dh dom r t sid det = Ok ob ->
  exists f, to_float t = Ok f /\ obligation_id ob = oid /\ decision_hash ob = dh /\
    obligation_kind ob = kind r /\ state ob = OUTCOME_OPEN /\
    reason_code ob = Some REASON_NOT_YET_DUE /\
    opened_at ob = VFloat f /\ expected_by ob = VFloat (fadd f (horizon_seconds r)).
Proof.
  unfold open_obligation. destruct (to_float t) as [f|]; [|done]. cbn [mbind result_bind].
  intros [= <-]. by exists f.
Qed.

Lemma derive_row_inv row obs : derive_row row = Ok obs ->
  (declares row = false /\ obs = []) \/
  (declares row = true /\ exists ob, obs = [ob] /\ owed row ob).
Proof.
  unfold derive_row, declares. destruct (opt_true _); [|intros [= <-]; by left].
  destruct (parse _) as [rule|] eqn:Ep; [|done]. cbn [mbind result_bind].
  destruct (open_obligation _ _ _ _ _ _ _) as [ob|] eqn:Eo; [|done]. cbn [mbind result_bind].
  intros [= <-]. right. split; [done|]. exists ob. split; [done|].
  apply open_obligation_inv in Eo as (f & _ & ? & ? & ? & ? & ? & ? & ?).
  exists rule. split_and!; try done. by exists f.
Qed.

(** The debt is derivable and no row is skipped: when the derivation
    returns, the obligations are, in order, exactly one per row that declares
    one, computed from that row alone; so a declaring row that does not parse
    makes the derivation fail. *)
Theorem derive_open_obligations_complete rows obs :
  derive_open_obligations rows = Ok obs ->
  Forall2 owed (List.filter declares rows) obs.
Proof.
  unfold derive_open_obligations.
  destruct (mapM_r derive_row rows) as [oss|] eqn:Em; [|done]. cbn [mbind result_bind].
  intros [= <-]. revert oss Em. induction rows as [|row rows IH]; intros oss; simpl.
  - intros [= <-]. constructor.
  - destruct (derive_row row) as [os|] eqn:Er; [|done].
    destruct (mapM_r derive_row rows) as [oss'|]; [|done]. intros [= <-]. simpl.
    apply derive_row_inv in Er as [[-> ->]|[-> (ob & -> & Ho)]]; simpl; [by apply IH|].
    constructor; [done|by apply IH].
Qed.

Definition sample_row (h : string) (decl : option string) : DecisionRow :=
  mkRow (Some h) (VFloat (f_of_Z 1000)) decl None (Some "bank:v1") None.

Lemma derive_open_obligations_complete_witness :
  exists obs, derive_open_obligations [sample_row "h1" (Some "settlement@2d"); sample_row "h2" None]
      = Ok obs /\
    Forall2 owed (List.filter declares
      [sample_row "h1" (Some "settlement@2d"); sample_row "h2" None]) obs.
Proof.
  eexists. split; [reflexivity|]. apply derive_open_obligations_complete. reflexivity.
Defined.

(** Only measured outcomes enter a cohort: an obligation becomes a cohort
    decision exactly when it is resolved with a favorable/unfavorable call, and
    then with that call; an open or ambiguous one is refused, never defaulted. *)
Theorem to_cohort_decision_gate {G} (ob : OutcomeObligation) (dist : G) :
  (forall c, to_cohort_decision ob dist = Ok c <->
     state ob = OUTCOME_RESOLVED /\ favorable ob <> VNone /\
     c = mkCohortDecision (or_str (subject_id ob) (decision_hash ob)) (py_true (favorable ob)) dist) /\
  (state ob <> OUTCOME_RESOLVED \/ favorable ob = VNone ->
     exists v, to_cohort_decision ob dist = Err (OutcomeIntegrityError (obligation_id ob) [v])).
Proof.
  unfold to_cohort_decision, cohort_favorable.
  destruct (String.eqb_spec (state ob) OUTCOME_RESOLVED) as [E|E]; cbn [negb].
  - destruct (is_None (favorable ob)) eqn:En.
    + apply is_None_inv in En. split; [|intros _; by eexists].
      intros c. split; [done|]. by intros (_ & ? & _).
    + assert (Hn : favorable ob <> VNone) by (intros H; by rewrite H in En).
      cbn [mbind result_bind]. split; [|by intros [?|?]].
      intros c. split; [intros [= <-]; done|]. by intros (_ & _ & ->).
  - cbn [mbind result_bind]. split; [|intros _; by eexists].
    intros c. split; [done|]. by intros (? & _).
Qed.
