(* ===== verification/CircuitBreaker.v ===== *)
(** * CircuitBreaker: the per-resource breaker

    Models src/sentinel_os/circuit_breaker.py.  A breaker is one object with one
    lock; each critical section under the lock is one definition here, so a
    [call] is three steps ([enter], the unprotected callable, [on_success] or
    [on_failure]) that other threads may interleave with.  Clock readings are
    arguments.  Logging is left out. *)

From S2P Require Import Prelude PyFloat PyValue.
Local Open Scope Z_scope.

Inductive CircuitState := CLOSED | OPEN | HALF_OPEN.

#[export] Instance CircuitState_eq_dec : EqDecision CircuitState.
Proof. solve_decision. Defined.

Record Breaker := mkBreaker {
  name : string;
  failure_threshold : Z;
  reset_timeout_s : float64;
  half_open_success_threshold : Z;
  st : CircuitState;
  failure_count : Z;
  half_open_successes : Z;
  opened_at : option float64;
  half_open_probe_in_flight : bool;
  total_calls : Z;
  total_failures : Z;
  total_rejections : Z;
  total_opens : Z;
}.

(** Why a call ended without a value. *)
Inductive call_exn (E : Type) :=
| CircuitOpenError (s : CircuitState) (opened : option float64)
| FuncRaised (e : E).
Arguments CircuitOpenError {E} s opened.
Arguments FuncRaised {E} e.

Definition make_breaker (name : string) (failure_threshold : Z) (reset_timeout_s : float64)
    (half_open_success_threshold : Z) : result pyexn Breaker :=
  if failure_threshold <? 1 then Err ValueError
  else if half_open_success_threshold <? 1 then Err ValueError
  else if fleb reset_timeout_s fzero then Err ValueError
  else Ok (mkBreaker name failure_threshold reset_timeout_s half_open_success_threshold
             CLOSED 0 0 None false 0 0 0 0).

(** The assignments of one critical section: the gate fields, then the
    lifetime counters. *)
Definition set_gate (b : Breaker) (s : CircuitState) (fc hs : Z) (o : option float64)
    (probe : bool) : Breaker :=
  mkBreaker (name b) (failure_threshold b) (reset_timeout_s b) (half_open_success_threshold b)
    s fc hs o probe (total_calls b) (total_failures b) (total_rejections b) (total_opens b).

Definition add_totals (b : Breaker) (calls failures rejections opens : Z) : Breaker :=
  mkBreaker (name b) (failure_threshold b) (reset_timeout_s b) (half_open_success_threshold b)
    (st b) (failure_count b) (half_open_successes b) (opened_at b) (half_open_probe_in_flight b)
    (total_calls b + calls) (total_failures b + failures) (total_rejections b + rejections)
    (total_opens b + opens).

(** [time.time() - self._opened_at >= self.reset_timeout_s] *)
Definition timed_out (b : Breaker) (now t : float64) : bool :=
  fleb (reset_timeout_s b) (fsub now t).

(** [_state_locked]: the lazy OPEN -> HALF_OPEN transition. *)
Definition state_locked (now : float64) (b : Breaker) : Breaker :=
  match st b, opened_at b with
  | OPEN, Some t =>
      if timed_out b now t then set_gate b HALF_OPEN (failure_count b) 0 (Some t) false else b
  | _, _ => b
  end.

Record Snapshot := mkSnapshot {
  sn_name : string;
  sn_state : CircuitState;
  sn_failure_count : Z;
  sn_failure_threshold : Z;
  sn_half_open_successes : Z;
  sn_half_open_success_threshold : Z;
  sn_opened_at : option string;
  sn_totals : Z * Z * Z * Z;
}.

(** [iso] is [datetime.fromtimestamp(t, tz=utc).isoformat()]; a zero
    [opened_at] is falsy and prints as [None]. *)
Definition snapshot (iso : float64 -> string) (now : float64) (b0 : Breaker) : Breaker * Snapshot :=
  let b := state_locked now b0 in
  (b, mkSnapshot (name b) (st b) (failure_count b) (failure_threshold b)
        (half_open_successes b) (half_open_success_threshold b)
        (match opened_at b with
         | Some t => if f_nonzero t then Some (iso t) else None
         | None => None
         end)
        (total_calls b, total_failures b, total_rejections b, total_opens b)).

(** The first critical section of [call]: admit or reject. *)
Definition enter {E} (now : float64) (b0 : Breaker) : Breaker * result (call_exn E) unit :=
  let b := state_locked now b0 in
  match st b with
  | OPEN => (add_totals b 0 0 1 0, Err (CircuitOpenError OPEN (opened_at b)))
  | HALF_OPEN =>
      if half_open_probe_in_flight b
      then (add_totals b 0 0 1 0, Err (CircuitOpenError HALF_OPEN (opened_at b)))
      else (add_totals (set_gate b HALF_OPEN (failure_count b) (half_open_successes b)
                          (opened_at b) true) 1 0 0 0, Ok tt)
  | CLOSED => (add_totals b 1 0 0 0, Ok tt)
  end.

Definition on_success (b : Breaker) : Breaker :=
  match st b with
  | HALF_OPEN =>
      let hs := half_open_successes b + 1 in
      if half_open_success_threshold b <=? hs
      then set_gate b CLOSED 0 hs None false
      else set_gate b HALF_OPEN (failure_count b) hs (opened_at b) false
  | CLOSED => set_gate b CLOSED 0 (half_open_successes b) (opened_at b)
                (half_open_probe_in_flight b)
  | OPEN => b
  end.

Definition reopen_locked (now : float64) (b : Breaker) : Breaker :=
  let was_open_already := bool_decide (st b = OPEN) in
  let b' := set_gate b OPEN (failure_count b) 0 (Some now) (half_open_probe_in_flight b) in
  if was_open_already then b' else add_totals b' 0 0 0 1.

Definition on_failure (now : float64) (b0 : Breaker) : Breaker :=
  let b := add_totals b0 0 1 0 0 in
  match st b with
  | HALF_OPEN =>
      reopen_locked now (set_gate b HALF_OPEN (failure_count b) (half_open_successes b)
                           (opened_at b) false)
  | s =>
      let fc := failure_count b + 1 in
      let b' := set_gate b s fc (half_open_successes b) (opened_at b)
                  (half_open_probe_in_flight b) in
      if failure_threshold b <=? fc then reopen_locked now b' else b'
  end.

Definition reset (b : Breaker) : Breaker := set_gate b CLOSED 0 0 None false.

(** What the wrapped callable does to its world: returns, raises an
    [Exception], or raises a [BaseException] that is not one
    (KeyboardInterrupt, SystemExit), which [call] does not catch. *)
Inductive fres (V E : Type) := FReturn (v : V) | FRaise (e : E) | FBase (e : E).
Arguments FReturn {V E} v.
Arguments FRaise {V E} e.
Arguments FBase {V E} e.

Section Call.
Context {W V E : Type}.
Variable func : W -> W * fres V E.
Variable is_failure : option (V -> result E bool).

(** [call] with no other thread in between: [now] and [now'] are the clock at
    the two critical sections.  An exception of [is_failure] itself propagates
    with no outcome recorded. *)
Definition call (now now' : float64) (b : Breaker) (w : W)
    : Breaker * W * result (call_exn E) V :=
  match enter now b with
  | (b1, Err e) => (b1, w, Err e)
  | (b1, Ok _) =>
      match func w with
      | (w', FRaise e) => (on_failure now' b1, w', Err (FuncRaised e))
      | (w', FBase e) => (b1, w', Err (FuncRaised e))
      | (w', FReturn v) =>
          match is_failure with
          | None => (on_success b1, w', Ok v)
          | Some p =>
              match p v with
              | Err e => (b1, w', Err (FuncRaised e))
              | Ok true => (on_failure now' b1, w', Ok v)
              | Ok false => (on_success b1, w', Ok v)
              end
          end
      end
  end.
End Call.

(* ------------------------------------------------------------------ *)
(** ** Interleaved callers *)

(** A breaker shared by threads: its state, and for each admitted call that
    has not reported back, the state it was admitted in. *)
Record shared := mkShared { brk : Breaker; in_flight : list CircuitState }.

Inductive step : shared -> shared -> Prop :=
| step_admit now b fl b' :
    enter (E := unit) now b = (b', Ok tt) ->
    step (mkShared b fl) (mkShared b' (st b' :: fl))
| step_reject now b fl b' e :
    enter (E := unit) now b = (b', Err e) ->
    step (mkShared b fl) (mkShared b' fl)
| step_success b fl1 s fl2 :
    step (mkShared b (fl1 ++ s :: fl2)) (mkShared (on_success b) (fl1 ++ fl2))
| step_failure now b fl1 s fl2 :
    step (mkShared b (fl1 ++ s :: fl2)) (mkShared (on_failure now b) (fl1 ++ fl2))
| step_read now b fl :
    step (mkShared b fl) (mkShared (state_locked now b) fl).

Inductive reachable (b0 : Breaker) : shared -> Prop :=
| reach_init : reachable b0 (mkShared b0 [])
| reach_step x y : reachable b0 x -> step x y -> reachable b0 y.

(* ------------------------------------------------------------------ *)
(** ** Invariant *)

(** What every operation preserves on a constructed breaker. *)
Record gate_ok (b : Breaker) : Prop := {
  ok_thresholds : 1 <= failure_threshold b /\ 1 <= half_open_success_threshold b;
  ok_closed : st b = CLOSED -> 0 <= failure_count b < failure_threshold b /\ opened_at b = None;
  ok_tripped : st b <> CLOSED -> failure_threshold b <= failure_count b /\ opened_at b <> None;
  ok_half : st b = HALF_OPEN -> 0 <= half_open_successes b < half_open_success_threshold b;
  ok_probe : half_open_probe_in_flight b = true -> st b = HALF_OPEN;
}.

(** The parameters a breaker never changes. *)
Definition same_config (a b : Breaker) : Prop :=
  name a = name b /\ failure_threshold a = failure_threshold b /\
  reset_timeout_s a = reset_timeout_s b /\
  half_open_success_threshold a = half_open_success_threshold b.

Create HintDb breaker.

(** Closes the clauses of [gate_ok] that hold by the state or by arithmetic. *)
Ltac gate_split :=
  split; simpl; intros; try congruence; try done; split_and?; try done; try lia.

Lemma make_breaker_ok n ft rt hst b : make_breaker n ft rt hst = Ok b -> gate_ok b.
Proof.
  unfold make_breaker. intros H.
  destruct (ft <? 1) eqn:E1; [done|]. destruct (hst <? 1) eqn:E2; [done|].
  destruct (fleb rt fzero); [done|]. apply Z.ltb_ge in E1, E2. simplify_eq.
  gate_split.
Qed.

Lemma state_locked_ok now b : gate_ok b -> gate_ok (state_locked now b).
Proof.
  intros Hb. unfold state_locked.
  destruct (st b) eqn:Es; try done. destruct (opened_at b) as [t|] eqn:Eo; [|done].
  destruct (timed_out b now t); [|done].
  destruct Hb as [H1 _ H3 _ _]. destruct H3 as [H3 _]; [by rewrite Es|]. gate_split.
Qed.

Lemma enter_ok {E} now b b' (r : result (call_exn E) unit) :
  gate_ok b -> enter now b = (b', r) -> gate_ok b'.
Proof.
  intros Hb. unfold enter. pose proof (state_locked_ok now b Hb) as [H1 H2 H3 H4 H5].
  set (c := state_locked now b) in *. clearbody c.
  destruct (st c) eqn:Es; [| |destruct (half_open_probe_in_flight c) eqn:Ep];
    intros [= <- _]; split; simpl; rewrite ?Es, ?Ep; auto; naive_solver.
Qed.

Lemma on_success_ok b : gate_ok b -> gate_ok (on_success b).
Proof.
  intros [H1 H2 H3 H4 H5]. unfold on_success. destruct (st b) eqn:Es.
  - destruct H2 as [H2 H2']; [done|]. gate_split. by apply H5.
  - split; rewrite ?Es; auto.
  - destruct (Z.leb_spec (half_open_success_threshold b) (half_open_successes b + 1)).
    + gate_split.
    + destruct H3 as [H3 H3'], H4 as [H4 H4']; try done. gate_split.
Qed.

Lemma probe_only_half b : gate_ok b -> st b <> HALF_OPEN -> half_open_probe_in_flight b = false.
Proof. intros Hb Hs. destruct (half_open_probe_in_flight b) eqn:E; [|done]. by apply (ok_probe b Hb) in E. Qed.

Lemma on_failure_ok now b : gate_ok b -> gate_ok (on_failure now b).
Proof.
  intros Hb. pose proof (probe_only_half b Hb) as Hp. destruct Hb as [H1 H2 H3 H4 H5].
  unfold on_failure, reopen_locked. cbn.
  destruct (st b) eqn:Es.
  - destruct H2 as [H2 H2']; [done|]. rewrite Hp by done.
    destruct (Z.leb_spec (failure_threshold b) (failure_count b + 1)); gate_split.
  - destruct H3 as [H3 H3']; [done|]. rewrite Hp by done.
    destruct (Z.leb_spec (failure_threshold b) (failure_count b + 1)); gate_split.
  - destruct H3 as [H3 H3']; [done|]. gate_split.
Qed.

Lemma reset_ok b : gate_ok b -> gate_ok (reset b).
Proof. intros [H1 _ _ _ _]. gate_split. Qed.

#[export] Hint Resolve state_locked_ok on_success_ok on_failure_ok reset_ok : breaker.

(** The counters and the probe slot, next to the gate: failures are failures of
    calls that returned, the breaker trips no more often than calls fail, and
    while the slot is taken a probe really is outstanding. *)
Record shared_ok (b0 : Breaker) (x : shared) : Prop := {
  sh_gate : gate_ok (brk x);
  sh_config : same_config (brk x) b0;
  sh_failures : total_failures (brk x) + Z.of_nat (length (in_flight x)) <= total_calls (brk x);
  sh_opens : 0 <= total_opens (brk x) <= total_failures (brk x);
  sh_probe : half_open_probe_in_flight (brk x) = true -> HALF_OPEN ∈ in_flight x;
}.

(** What a step leaves alone, operation by operation. *)
Lemma state_locked_frame now b :
  same_config (state_locked now b) b /\ total_calls (state_locked now b) = total_calls b /\
  total_failures (state_locked now b) = total_failures b /\
  total_opens (state_locked now b) = total_opens b /\
  (half_open_probe_in_flight (state_locked now b) = true -> half_open_probe_in_flight b = true).
Proof.
  unfold state_locked, same_config. destruct (st b); try done.
  destruct (opened_at b) as [t|]; [|done]. by destruct (timed_out b now t).
Qed.

Lemma on_success_frame b :
  same_config (on_success b) b /\ total_calls (on_success b) = total_calls b /\
  total_failures (on_success b) = total_failures b /\ total_opens (on_success b) = total_opens b.
Proof.
  unfold on_success, same_config. destruct (st b); try done.
  by destruct (half_open_success_threshold b <=? half_open_successes b + 1).
Qed.

Lemma on_success_slot b : gate_ok b -> half_open_probe_in_flight (on_success b) = false.
Proof.
  intros Hb. pose proof (probe_only_half b Hb). unfold on_success.
  destruct (st b); simpl; auto. by destruct (half_open_success_threshold b <=? _).
Qed.

Lemma on_failure_frame now b :
  same_config (on_failure now b) b /\ total_calls (on_failure now b) = total_calls b /\
  total_failures (on_failure now b) = total_failures b + 1 /\
  total_opens b <= total_opens (on_failure now b) <= total_opens b + 1.
Proof.
  unfold on_failure, reopen_locked, same_config. cbn.
  destruct (st b); [destruct (failure_threshold b <=? failure_count b + 1)..|]; simpl;
    split_and!; try done; lia.
Qed.

Lemma on_failure_slot now b : gate_ok b -> half_open_probe_in_flight (on_failure now b) = false.
Proof.
  intros Hb. pose proof (probe_only_half b Hb). unfold on_failure, reopen_locked. cbn.
  destruct (st b); [destruct (failure_threshold b <=? failure_count b + 1)..|]; simpl; auto.
Qed.

Lemma same_config_trans a b c : same_config a b -> same_config b c -> same_config a c.
Proof. unfold same_config. intuition congruence. Qed.

Lemma enter_frame {E} now b b' (r : result (call_exn E) unit) :
  enter now b = (b', r) ->
  same_config b' b /\ total_failures b' = total_failures b /\ total_opens b' = total_opens b /\
  total_calls b' = total_calls b + (if is_ok r then 1 else 0) /\
  (half_open_probe_in_flight b' = true ->
   half_open_probe_in_flight b = true \/ st b' = HALF_OPEN /\ is_ok r = true).
Proof.
  unfold enter. destruct (state_locked_frame now b) as (Hc & Ht & Hf & Ho & Hp).
  set (c := state_locked now b) in *. clearbody c. rewrite <- Ht, <- Hf, <- Ho.
  destruct (st c) eqn:Es; [| |destruct (half_open_probe_in_flight c) eqn:Ep];
    intros [= <- <-]; simpl; rewrite ?Es; split_and!; try done; try lia; auto.
Qed.

Lemma step_shared_ok b0 x y : shared_ok b0 x -> step x y -> shared_ok b0 y.
Proof.
  intros [Hg Hc Hf Ho Hp] Hs. destruct Hs as [now b fl b' He|now b fl b' e He|b fl1 s fl2
    |now b fl1 s fl2|now b fl]; simpl in *; rewrite ?length_app in Hf; simpl in Hf.
  - pose proof (enter_ok now b b' _ Hg He). apply enter_frame in He as (? & ? & ? & ? & Hp').
    simpl in *. split; simpl; try lia; eauto using same_config_trans.
    intros [?|[-> _]]%Hp'; set_solver.
  - pose proof (enter_ok now b b' _ Hg He). apply enter_frame in He as (? & ? & ? & ? & Hp').
    simpl in *. split; simpl; try lia; eauto using same_config_trans. naive_solver.
  - destruct (on_success_frame b) as (? & ? & ? & ?). pose proof (on_success_slot b Hg).
    split; simpl; rewrite ?length_app; try lia; eauto using same_config_trans with breaker.
    congruence.
  - destruct (on_failure_frame now b) as (? & ? & ? & ?). pose proof (on_failure_slot now b Hg).
    split; simpl; rewrite ?length_app; try lia; eauto using same_config_trans with breaker.
    congruence.
  - destruct (state_locked_frame now b) as (? & ? & ? & ? & ?).
    split; simpl; try lia; eauto using same_config_trans with breaker.
Qed.

(** Invariant under interleaving: however threads interleave their calls on
    one constructed breaker, a closed breaker is below its threshold, a tripped
    one has reached it and knows when it opened, the probe slot is taken only
    while half-open and then by a call that is really outstanding, and the
    counters count only calls that were admitted. *)
Theorem breaker_invariant n ft rt hst b0 x :
  make_breaker n ft rt hst = Ok b0 -> reachable b0 x -> shared_ok b0 x.
Proof.
  intros Hm Hr. induction Hr as [|x y Hr IH Hs]; [|by eapply step_shared_ok].
  pose proof (make_breaker_ok n ft rt hst b0 Hm). unfold make_breaker in Hm.
  repeat case_bool; simplify_eq. split; simpl; try done; lia.
Qed.

(** A breaker for the examples: trips on the first failure, probes after 30
    seconds, closes after two good probes. *)
Definition demo : Breaker :=
  mkBreaker "db" 1 (f_of_Z 30) 2 CLOSED 0 0 None false 0 0 0 0.

Lemma demo_made : make_breaker "db" 1 (f_of_Z 30) 2 = Ok demo.
Proof. reflexivity. Qed.

Lemma breaker_invariant_witness :
  exists x, reachable demo x /\ st (brk x) = OPEN /\ shared_ok demo x.
Proof.
  assert (H : reachable demo (mkShared (on_failure (f_of_Z 1) (add_totals demo 1 0 0 0)) [])).
  { eapply reach_step; [eapply reach_step; [apply reach_init|]|].
    - exact (step_admit (f_of_Z 0) demo [] (add_totals demo 1 0 0 0) eq_refl).
    - exact (step_failure (f_of_Z 1) (add_totals demo 1 0 0 0) [] CLOSED []). }
  exists (mkShared (on_failure (f_of_Z 1) (add_totals demo 1 0 0 0)) []).
  split; [exact H|]. split; [reflexivity|].
  exact (breaker_invariant "db" 1 (f_of_Z 30) 2 demo _ demo_made H).
Defined.

(** More than one probe can be out: a call admitted before the breaker
    tripped that reports success in the probe window counts as a probe and
    frees the slot, so a second probe is admitted while the first is still
    outstanding, against the stated one at a time. *)
Theorem two_probes_outstanding :
  exists x, reachable demo x /\ st (brk x) = HALF_OPEN /\
    in_flight x = [HALF_OPEN; HALF_OPEN] /\ half_open_successes (brk x) = 1.
Proof.
  set (admitted b := fst (enter (E := unit) (f_of_Z 100) b)).
  set (b1 := admitted (admitted demo)). set (b2 := on_failure (f_of_Z 1) b1).
  set (b3 := on_success (admitted b2)).
  exists (mkShared (admitted b3) [HALF_OPEN; HALF_OPEN]). split; [|by vm_compute].
  eapply reach_step; [eapply reach_step; [eapply reach_step; [eapply reach_step;
    [eapply reach_step; [eapply reach_step; [apply reach_init|]|]|]|]|]|].
  - exact (step_admit (f_of_Z 100) demo [] (admitted demo) eq_refl).
  - exact (step_admit (f_of_Z 100) (admitted demo) [CLOSED] b1 eq_refl).
  - exact (step_failure (f_of_Z 1) b1 [] CLOSED [CLOSED]).
  - exact (step_admit (f_of_Z 100) b2 [CLOSED] (admitted b2) eq_refl).
  - exact (step_success (admitted b2) [HALF_OPEN] CLOSED []).
  - exact (step_admit (f_of_Z 100) b3 [HALF_OPEN] (admitted b3) eq_refl).
Qed.

(* ------------------------------------------------------------------ *)
(** ** One caller at a time: the abstract breaker *)

(** Every way the protected callable can end a call it was let into: it
    returns with no [is_failure] given; it returns and [is_failure] answers
    false, answers true, or raises; it raises an [Exception], or a
    [BaseException] that is not one. *)
Inductive ending :=
| Returned | Judged_good | Judged_bad | Judge_raised | Raised | Base_raised.

(** What the breaker learns from it: a success, a failure, or nothing. *)
Definition lesson (o : ending) : option bool :=
  match o with
  | Returned | Judged_good => Some true
  | Judged_bad | Raised => Some false
  | Judge_raised | Base_raised => None
  end.

(** What its caller sees: the value, or the exception as it was raised. *)
Definition ended (o : ending) : result (call_exn ending) ending :=
  match o with
  | Returned | Judged_good | Judged_bad => Ok o
  | Judge_raised | Raised | Base_raised => Err (FuncRaised o)
  end.

(** What the breaker promises a sequential caller.  A probe that taught
    nothing is never given back. *)
Inductive phase :=
| Closed (failures : Z)
| Open (since : float64)
| Probing (successes : Z) (since : float64)
| Stuck (since : float64).

Local Notation answer := (result (call_exn ending) ending).
Local Notation one_call := (float64 * float64 * ending)%type.

Section Spec.
Variable b0 : Breaker.

(** One call at time [now] that, if it runs, ends as [o] at [now']: the next
    phase, and the caller's answer. *)
Definition probe_phase (now' : float64) (o : ending) (k : Z) (t : float64) : phase :=
  match lesson o with
  | Some true => if half_open_success_threshold b0 <=? k + 1 then Closed 0 else Probing (k + 1) t
  | Some false => Open now'
  | None => Stuck t
  end.

Definition closed_phase (now' : float64) (o : ending) (n : Z) : phase :=
  match lesson o with
  | Some true => Closed 0
  | Some false => if failure_threshold b0 <=? n + 1 then Open now' else Closed (n + 1)
  | None => Closed n
  end.

Definition spec_call (now now' : float64) (o : ending) (p : phase) : phase * answer :=
  match p with
  | Closed n => (closed_phase now' o n, ended o)
  | Open t =>
      if timed_out b0 now t then (probe_phase now' o 0 t, ended o)
      else (Open t, Err (CircuitOpenError OPEN (Some t)))
  | Probing k t => (probe_phase now' o k t, ended o)
  | Stuck t => (Stuck t, Err (CircuitOpenError HALF_OPEN (Some t)))
  end.

Fixpoint spec_calls (l : list one_call) (p : phase) : phase * list answer :=
  match l with
  | [] => (p, [])
  | (now, now', o) :: l =>
      let '(p1, a) := spec_call now now' o p in
      let '(p2, answers) := spec_calls l p1 in (p2, a :: answers)
  end.
End Spec.

Definition phase_of (b : Breaker) : phase :=
  let t := default fzero (opened_at b) in
  match st b with
  | CLOSED => Closed (failure_count b)
  | OPEN => Open t
  | HALF_OPEN => if half_open_probe_in_flight b then Stuck t else Probing (half_open_successes b) t
  end.

(** A run of the code: a callable and a predicate that end as asked; the
    world counts how often the callable was executed. *)
Definition counted_func (o : ending) (n : nat) : nat * fres ending ending :=
  (S n, match o with
        | Raised => FRaise o
        | Base_raised => FBase o
        | _ => FReturn o
        end).

Definition predicate (o : ending) : option (ending -> result ending bool) :=
  match o with
  | Judged_good => Some (fun _ => Ok false)
  | Judged_bad => Some (fun _ => Ok true)
  | Judge_raised => Some (fun v => Err v)
  | _ => None
  end.

Definition run_call (now now' : float64) (o : ending) (b : Breaker) (n : nat)
    : Breaker * nat * answer :=
  call (counted_func o) (predicate o) now now' b n.

Fixpoint run_calls (l : list one_call) (b : Breaker) (n : nat) : Breaker * nat * list answer :=
  match l with
  | [] => (b, n, [])
  | (now, now', o) :: l =>
      let '(b1, n1, r) := run_call now now' o b n in
      let '(b2, n2, rs) := run_calls l b1 n1 in (b2, n2, r :: rs)
  end.

(** The call was let in: its answer is not the breaker's own refusal. *)
Definition let_in (a : answer) : bool :=
  match a with Err (CircuitOpenError _ _) => false | _ => true end.

Definition runs (answers : list answer) : nat := length (List.filter let_in answers).

Lemma timed_out_config a b now t : same_config a b -> timed_out a now t = timed_out b now t.
Proof. unfold timed_out. by intros (_ & _ & -> & _). Qed.

(** A call is the gate, and then what the ending teaches. *)
Lemma run_call_eq now now' o b n :
  run_call now now' o b n =
  match enter now b with
  | (b1, Err e) => (b1, n, Err e)
  | (b1, Ok _) => (match lesson o with
                   | Some true => on_success b1
                   | Some false => on_failure now' b1
                   | None => b1
                   end, S n, ended o)
  end.
Proof.
  unfold run_call, call. destruct (enter now b) as [b1 [[]|e]]; [|done]. by destruct o.
Qed.

Lemma run_call_keeps now now' o b n b' n' r :
  gate_ok b -> run_call now now' o b n = (b', n', r) -> gate_ok b' /\ same_config b' b.
Proof.
  rewrite run_call_eq. intros Hg H. destruct (enter now b) as [b1 r1] eqn:He.
  pose proof (enter_ok now b b1 r1 Hg He) as H1.
  destruct (enter_frame now b b1 r1 He) as (H2 & _).
  pose proof (on_success_frame b1) as [? _]. pose proof (on_failure_frame now' b1) as [? _].
  destruct r1 as [u|e]; [destruct (lesson o) as [[]|]|]; simplify_eq;
    eauto using same_config_trans with breaker.
Qed.

(** The abstract call, told as the gate and then the lesson. *)
Lemma call_refines b0 now now' o b n b' n' r :
  same_config b b0 -> gate_ok b -> run_call now now' o b n = (b', n', r) ->
  spec_call b0 now now' o (phase_of b) = (phase_of b', r) /\
  n' = (if let_in r then S n else n).
Proof.
  intros Hc Hg. rewrite run_call_eq. intros Hcall.
  assert (Ht : forall t, timed_out b now t = timed_out b0 now t) by (intros; by apply timed_out_config).
  destruct Hc as (_ & Hft & _ & Hst). pose proof (ok_tripped b Hg) as Htrip.
  assert (Hin : let_in (ended o) = true) by by destruct o.
  unfold enter, state_locked, phase_of, spec_call, probe_phase, closed_phase in *.
  rewrite <- Hst, <- Hft. destruct (st b) eqn:Es.
  - rewrite Es in Hcall. simplify_eq. rewrite Hin. split; [|done].
    destruct (lesson o) as [[]|]; cbn; unfold on_success, on_failure; cbn; rewrite Es; cbn; try done.
    by destruct (failure_threshold b <=? failure_count b + 1); cbn; rewrite ?Es.
  - destruct (opened_at b) as [t|] eqn:Eo; [|by destruct Htrip]. simpl.
    rewrite <- Ht. destruct (timed_out b now t) eqn:Et; cbn in Hcall.
    + simplify_eq. rewrite Hin. split; [|done]. destruct (lesson o) as [[]|]; cbn; try done.
      unfold on_success; cbn. by case_match.
    + rewrite Es in Hcall. cbn in Hcall. simplify_eq. cbn. by rewrite Es, Eo.
  - destruct (opened_at b) as [t|] eqn:Eo; [|by destruct Htrip].
    rewrite Es in Hcall. destruct (half_open_probe_in_flight b) eqn:Ep; cbn in Hcall.
    + simplify_eq. cbn. by rewrite Es, Eo, Ep.
    + simplify_eq. rewrite Hin. split; [|done].
      destruct (lesson o) as [[]|]; cbn; rewrite ?Eo; try done.
      unfold on_success; cbn. rewrite ?Eo.
      by destruct (half_open_success_threshold b <=? half_open_successes b + 1).
Qed.

Lemma run_calls_refine b0 l b n b' n' answers :
  same_config b b0 -> gate_ok b -> run_calls l b n = (b', n', answers) ->
  (gate_ok b' /\ same_config b' b0) /\ spec_calls b0 l (phase_of b) = (phase_of b', answers) /\
  n' = (n + runs answers)%nat.
Proof.
  revert b n answers. induction l as [|[[now now'] o] l IH]; cbn [run_calls spec_calls];
    intros b n answers Hc Hi Hr.
  - simplify_eq. by rewrite Nat.add_0_r.
  - destruct (run_call now now' o b n) as [[b1 n1] r] eqn:Ecall.
    destruct (run_calls l b1 n1) as [[b2 n2] rs] eqn:Erun. simplify_eq.
    destruct (call_refines b0 now now' o b n b1 n1 r Hc Hi Ecall) as (-> & Hn).
    destruct (run_call_keeps now now' o b n b1 n1 r Hi Ecall) as (Hi1 & Hc1).
    destruct (IH b1 _ rs (same_config_trans _ _ _ Hc1 Hc) Hi1 Erun) as (? & -> & ->).
    split; [done|]. split; [done|]. unfold runs. simpl. destruct (let_in r); simpl; lia.
Qed.

(** C32 (refinement of the abstract breaker): for any sequence of calls made one
    at a time on a constructed breaker, each ending in any of the ways a
    callable can end (it returns, with or without a predicate on the value, or
    it or the predicate raises), the answers the callers get, values, passed-on
    exceptions and refusals with their state and opening time, and the phase
    reached, are those of the abstract four-phase breaker; and the callable
    was executed exactly once per call that was let in, never for a refused
    one. *)
Theorem sequential_calls_refine nm ft rt hst b0 l n b' n' answers :
  make_breaker nm ft rt hst = Ok b0 -> run_calls l b0 n = (b', n', answers) ->
  spec_calls b0 l (Closed 0) = (phase_of b', answers) /\ n' = (n + runs answers)%nat.
Proof.
  intros Hm Hr. pose proof (make_breaker_ok nm ft rt hst b0 Hm) as Hg.
  unfold make_breaker in Hm. repeat case_bool; simplify_eq.
  exact (proj2 (run_calls_refine _ l _ n b' n' answers ltac:(done) Hg Hr)).
Qed.

Definition secs (l : list (Z * ending)) : list one_call :=
  map (fun '(t, o) => (f_of_Z t, f_of_Z t, o)) l.

(** Trips on the exception at second 1, refuses at 2, fails its probe at 40
    and so starts the timeout again, refuses at 60, probes at 80 and 81, is
    closed at 82. *)
Definition demo_run := secs [(1, Raised); (2, Returned); (40, Judged_bad); (60, Returned);
  (80, Returned); (81, Judged_good); (82, Base_raised)].

Definition demo_answers : list answer :=
  [Err (FuncRaised Raised); Err (CircuitOpenError OPEN (Some (f_of_Z 1))); Ok Judged_bad;
   Err (CircuitOpenError OPEN (Some (f_of_Z 40))); Ok Returned; Ok Judged_good;
   Err (FuncRaised Base_raised)].

Lemma sequential_calls_refine_witness :
  run_calls demo_run demo 0 = (fst (fst (run_calls demo_run demo 0)), 5%nat, demo_answers) /\
  spec_calls demo demo_run (Closed 0) = (Closed 0, demo_answers).
Proof.
  assert (H : run_calls demo_run demo 0 =
    (fst (fst (run_calls demo_run demo 0)), 5%nat, demo_answers)) by (by vm_compute).
  split; [exact H|].
  exact (proj1 (sequential_calls_refine "db" 1 (f_of_Z 30) 2 demo demo_run 0 _ _ _ demo_made H)).
Defined.

(* ------------------------------------------------------------------ *)
(** ** Tripping and recovering *)

(** What the callers of calls that all run see. *)
Definition all_ended (l : list one_call) : list answer := map (fun c => ended (snd c)) l.

Definition all_refused (t : float64) (l : list one_call) : list answer :=
  map (fun _ => Err (CircuitOpenError OPEN (Some t))) l.

(** Every call of the list teaches the breaker [good]. *)
Local Notation teach good := (Forall (fun c : one_call => lesson (snd c) = Some good)).

Lemma spec_probing b0 l k t :
  0 <= k -> teach true l -> k + Z.of_nat (length l) = half_open_success_threshold b0 ->
  k < half_open_success_threshold b0 ->
  spec_calls b0 l (Probing k t) = (Closed 0, all_ended l).
Proof.
  intros Hk Hl. revert k Hk. induction Hl as [|[[now now'] o] l Ho Hl IH]; cbn [length];
    intros k Hk Hlen Hlt; [simpl in *; lia|].
  cbn [spec_calls spec_call]. unfold probe_phase. simpl in Ho. rewrite Ho.
  destruct (Z.leb_spec (half_open_success_threshold b0) (k + 1)).
  - assert (l = []) as -> by (destruct l; simpl in *; [done|lia]). done.
  - rewrite IH by lia. done.
Qed.

Lemma spec_failing b0 l now now' o k :
  0 <= k -> teach false (l ++ [(now, now', o)]) ->
  k + Z.of_nat (length l) + 1 = failure_threshold b0 ->
  spec_calls b0 (l ++ [(now, now', o)]) (Closed k)
    = (Open now', all_ended (l ++ [(now, now', o)])).
Proof.
  revert k. induction l as [|[[n n'] o1] l IH]; cbn [app length]; intros k Hk Hl Hlen;
    inversion_clear Hl as [|? ? Ho Hl']; simpl in Ho; cbn [spec_calls spec_call];
    unfold closed_phase; rewrite Ho;
    destruct (Z.leb_spec (failure_threshold b0) (k + 1)); try lia; [done|].
  by rewrite IH by (done || lia).
Qed.

Lemma spec_waiting b0 early t :
  Forall (fun c => timed_out b0 (fst (fst c)) t = false) early ->
  spec_calls b0 early (Open t) = (Open t, all_refused t early).
Proof.
  induction 1 as [|[[now now'] g] early Hc He IH]; simpl in *; [done|]. by rewrite Hc, IH.
Qed.

(** Running the code where the abstract breaker's answer is known. *)
Lemma run_phase b0 l b n p answers :
  same_config b b0 -> gate_ok b -> spec_calls b0 l (phase_of b) = (p, answers) ->
  exists b', run_calls l b n = (b', (n + runs answers)%nat, answers) /\
    (gate_ok b' /\ same_config b' b0) /\ phase_of b' = p.
Proof.
  intros Hc Hi Hs. destruct (run_calls l b n) as [[b' n'] answers'] eqn:E.
  destruct (run_calls_refine b0 l b n b' n' answers' Hc Hi E) as (H & Hs' & ->).
  rewrite Hs in Hs'. simplify_eq. exists b'. split; [done|]. by split; [exact H|].
Qed.

Lemma phase_of_state b :
  (forall t, phase_of b = Open t -> st b = OPEN) /\
  (forall k, phase_of b = Closed k -> st b = CLOSED /\ failure_count b = k).
Proof.
  unfold phase_of. destruct (st b); [| |destruct (half_open_probe_in_flight b)];
    split; intros ? [=]; by subst.
Qed.

Lemma made_ready nm ft rt hst b0 : make_breaker nm ft rt hst = Ok b0 ->
  gate_ok b0 /\ phase_of b0 = Closed 0 /\
  failure_threshold b0 = ft /\ half_open_success_threshold b0 = hst.
Proof.
  intros Hm. pose proof (make_breaker_ok nm ft rt hst b0 Hm).
  unfold make_breaker in Hm. repeat case_bool; simplify_eq. by split.
Qed.

Lemma refused_runs t l : runs (all_refused t l) = 0%nat.
Proof. by induction l. Qed.

(** Trip, hold, recover: exactly [failure_threshold] consecutive failures,
    exceptions or values judged bad, open a fresh breaker; every call until the
    timeout is refused unexecuted; and [half_open_success_threshold] good calls
    from the first one past the timeout all run and close it again. *)
Theorem trips_and_recovers nm ft rt hst b0 fails last last' o early probe probe' good probes n :
  make_breaker nm ft rt hst = Ok b0 ->
  teach false (fails ++ [(last, last', o)]) -> Z.of_nat (length fails) + 1 = ft ->
  Forall (fun c => timed_out b0 (fst (fst c)) last' = false) early ->
  timed_out b0 probe last' = true ->
  teach true ((probe, probe', good) :: probes) -> Z.of_nat (length probes) + 1 = hst ->
  exists b1 n1 b2 b3 n3,
    run_calls (fails ++ [(last, last', o)]) b0 n
      = (b1, n1, all_ended (fails ++ [(last, last', o)])) /\ st b1 = OPEN /\
    run_calls early b1 n1 = (b2, n1, all_refused last' early) /\ st b2 = OPEN /\
    run_calls ((probe, probe', good) :: probes) b2 n1
      = (b3, n3, all_ended ((probe, probe', good) :: probes)) /\
    st b3 = CLOSED /\ failure_count b3 = 0.
Proof.
  intros Hm Hfail Hft Hearly Hprobe Hgood Hhst.
  destruct (made_ready nm ft rt hst b0 Hm) as (Hi & Hp & Hft0 & Hhst0).
  destruct (run_phase b0 (fails ++ [(last, last', o)]) b0 n _ _ ltac:(done) Hi
    ltac:(rewrite Hp; apply spec_failing; [lia|exact Hfail|lia])) as (b1 & E1 & [Hi1 Hc1] & P1).
  match type of E1 with _ = (_, ?k, _) => set (n1 := k) in E1; clearbody n1 end.
  destruct (run_phase b0 early b1 n1 _ _ Hc1 Hi1 ltac:(rewrite P1; by apply spec_waiting))
    as (b2 & E2 & [Hi2 Hc2] & P2).
  rewrite refused_runs, Nat.add_0_r in E2.
  assert (S3 : spec_calls b0 ((probe, probe', good) :: probes) (phase_of b2)
               = (Closed 0, all_ended ((probe, probe', good) :: probes))).
  { rewrite P2. rewrite <- (spec_probing b0 _ 0 last') by (done || simpl; lia).
    cbn [spec_calls spec_call]. by rewrite Hprobe. }
  destruct (run_phase b0 _ b2 n1 _ _ Hc2 Hi2 S3) as (b3 & E3 & [Hi3 _] & P3).
  destruct (phase_of_state b1) as [O1 _], (phase_of_state b2) as [O2 _],
    (phase_of_state b3) as [_ C3].
  destruct (C3 _ P3). do 5 eexists. split_and!; eauto.
Qed.

Lemma trips_and_recovers_witness :
  timed_out demo (f_of_Z 31) (f_of_Z 1) = true /\
  exists b1 n1 b2 b3 n3,
    run_calls (secs [(1, Raised)]) demo 0 = (b1, n1, [Err (FuncRaised Raised)]) /\
    st b1 = OPEN /\
    run_calls (secs [(30, Returned)]) b1 n1
      = (b2, n1, [Err (CircuitOpenError OPEN (Some (f_of_Z 1)))]) /\ st b2 = OPEN /\
    run_calls (secs [(31, Returned); (32, Judged_good)]) b2 n1
      = (b3, n3, [Ok Returned; Ok Judged_good]) /\ st b3 = CLOSED /\ failure_count b3 = 0.
Proof.
  split; [by vm_compute|].
  exact (trips_and_recovers "db" 1 (f_of_Z 30) 2 demo [] (f_of_Z 1) (f_of_Z 1) Raised
    (secs [(30, Returned)]) (f_of_Z 31) (f_of_Z 31) Returned (secs [(32, Judged_good)]) 0 demo_made
    ltac:(by repeat constructor) eq_refl
    ltac:(repeat constructor; by vm_compute) ltac:(by vm_compute)
    ltac:(by repeat constructor) eq_refl).
Defined.

(** The answers to later callers, at any clock readings. *)
Fixpoint admissions (ts : list float64) (b : Breaker) : list bool :=
  match ts with
  | [] => []
  | t :: ts => let '(b', r) := enter (E := unit) t b in is_ok r :: admissions ts b'
  end.

Lemma stuck_half_open ts b : st b = HALF_OPEN -> half_open_probe_in_flight b = true ->
  admissions ts b = map (fun _ => false) ts.
Proof.
  revert b. induction ts as [|t ts IH]; intros b Hs Hp; [done|]. simpl.
  unfold enter, state_locked. rewrite Hs, Hs, Hp. simpl. f_equal. by apply IH.
Qed.

(** A lost probe is never given back: when the admitted probe ends without
    an outcome being recorded, because [is_failure] raised on its result or the
    callable raised a BaseException, no later call is ever admitted, at any
    time, until [reset]. *)
Theorem lost_probe_blocks_forever {W V E} (func : W -> W * fres V E) is_failure now now' b w w' r ts :
  st (state_locked now b) = HALF_OPEN ->
  half_open_probe_in_flight (state_locked now b) = false ->
  func w = (w', r) ->
  (exists e, r = FBase e \/ exists v p, r = FReturn v /\ is_failure = Some p /\ p v = Err e) ->
  exists b' res, call func is_failure now now' b w = (b', w', Err (FuncRaised res)) /\
    admissions ts b' = map (fun _ => false) ts /\
    admissions [now'] (reset b') = [true].
Proof.
  intros Hs Hp Hf (e & Hr). unfold call, enter. rewrite Hs, Hp, Hf.
  set (b' := add_totals _ _ _ _ _).
  exists b', e. split.
  - destruct Hr as [->|(v & p & -> & -> & ->)]; done.
  - split; [by apply stuck_half_open|done].
Qed.

Lemma lost_probe_blocks_forever_witness :
  let b := on_failure (f_of_Z 1) demo in
  exists b' res,
    call (fun w : nat => (S w, FReturn tt)) (Some (fun _ => Err tt)) (f_of_Z 50) (f_of_Z 51) b 0%nat
      = (b', 1%nat, Err (FuncRaised res)) /\
    admissions (map f_of_Z [100; 1000; 1000000]) b' = [false; false; false] /\
    admissions [f_of_Z 51] (reset b') = [true].
Proof.
  refine (lost_probe_blocks_forever (fun w : nat => (S w, FReturn tt)) (Some (fun _ => Err tt))
    (f_of_Z 50) (f_of_Z 51) (on_failure (f_of_Z 1) demo) 0%nat 1%nat (FReturn tt)
    (map f_of_Z [100; 1000; 1000000]) eq_refl eq_refl eq_refl _).
  exists tt. right. by exists tt, (fun _ => Err tt).
Defined.
