(* ===== verification/LoopGuard.v ===== *)
(** * LoopGuard: repeated governor outputs and the retry budget

    Models src/sentinel_os/governance_loop_guard.py.  A deque with a maximum
    length is a list whose head is the oldest entry; the per-trace windows are
    an insertion-ordered dictionary whose first entry is the least recently
    used.  The digest function (hashlib's sha256) is a parameter. *)

From S2P Require Import Prelude PyFloat PyValue.

(** [deque(maxlen=n).append(x)]: the oldest entry falls out at the bound. *)
Definition deque_append (maxlen : nat) (d : list string) (x : string) : list string :=
  drop (S (length d) - maxlen) (d ++ [x]).

Record EngineState := mkEngineState {
  seen_outputs : list string;
  last_output_hash : option string;
  last_timestamp : option float64;
  retry_counter : Z;
  trace_outputs : dict (list string);
}.

Record PipelineStateEngine := mkEngine {
  state : EngineState;
  max_retries : Z;
  max_history : nat;
  max_traces : Z;
}.

Inductive verdict := BLOCKED_LOOP | RETRY | SYSTEM_ERROR | ACCEPTED.

#[export] Instance verdict_eq_dec : EqDecision verdict.
Proof. solve_decision. Defined.

(** [deque(maxlen=...)] refuses a negative bound. *)
Definition make_engine (max_retries max_history max_traces : Z)
    : result pyexn PipelineStateEngine :=
  if (max_history <? 0)%Z then Err ValueError
  else Ok (mkEngine (mkEngineState [] None None 0 []) max_retries (Z.to_nat max_history) max_traces).

Definition with_state (e : PipelineStateEngine) (s : EngineState) : PipelineStateEngine :=
  mkEngine s (max_retries e) (max_history e) (max_traces e).

Definition evaluate_integrity (output : string) : bool :=
  if negb (str_true output) || negb (str_true (strip output)) then false else true.

(** [OrderedDict.move_to_end] *)
Definition move_to_end {A} (d : dict A) (k : string) : dict A :=
  match dget d k with Some v => ddel d k ++ [(k, v)] | None => d end.

(** [_trace_window]: the traces afterwards, and the window's contents. *)
Definition trace_window (e : PipelineStateEngine) (trace_id : string)
    : dict (list string) * list string :=
  let traces := trace_outputs (state e) in
  match dget traces trace_id with
  | None =>
      let traces := dset traces trace_id [] in
      (if (max_traces e <? Z.of_nat (length traces))%Z then tail traces else traces, [])
  | Some window => (move_to_end traces trace_id, window)
  end.

Definition set_traces (e : PipelineStateEngine) (t : dict (list string)) : PipelineStateEngine :=
  let s := state e in
  with_state e (mkEngineState (seen_outputs s) (last_output_hash s) (last_timestamp s)
                  (retry_counter s) t).

Definition check_loop_condition (e : PipelineStateEngine) (output : string)
    (trace_id : option string) : PipelineStateEngine * bool :=
  match trace_id with
  | None => (e, str_mem output (seen_outputs (state e)))
  | Some t => let '(traces, window) := trace_window e t in
              (set_traces e traces, str_mem output window)
  end.

(** Appending to the window object of a trace; a window that eviction already
    removed from the mapping is appended to out of sight. *)
Definition append_window (n : nat) (d : dict (list string)) (k output : string)
    : dict (list string) :=
  match dget d k with Some w => dset d k (deque_append n w output) | None => d end.

Section Engine.
Variable compute_hash : string -> string.

Definition record_state (e : PipelineStateEngine) (output : string) (trace_id : option string)
    (now : float64) : PipelineStateEngine :=
  let s := state e in
  match trace_id with
  | None =>
      with_state e (mkEngineState (deque_append (max_history e) (seen_outputs s) output)
        (Some (compute_hash output)) (Some now) (retry_counter s) (trace_outputs s))
  | Some t =>
      let '(traces, _) := trace_window e t in
      with_state e (mkEngineState (seen_outputs s) (Some (compute_hash output)) (Some now)
        (retry_counter s) (append_window (max_history e) traces t output))
  end.

Definition check_retry_capacity (e : PipelineStateEngine) : bool :=
  (retry_counter (state e) <? max_retries e)%Z.

Definition set_retry (e : PipelineStateEngine) (n : Z) : PipelineStateEngine :=
  let s := state e in
  with_state e (mkEngineState (seen_outputs s) (last_output_hash s) (last_timestamp s) n
                  (trace_outputs s)).

Definition increment_retry (e : PipelineStateEngine) : PipelineStateEngine :=
  set_retry e (retry_counter (state e) + 1).

Definition clear_retry_state (e : PipelineStateEngine) : PipelineStateEngine := set_retry e 0.

Definition process_lifecycle (e : PipelineStateEngine) (output : string)
    (trace_id : option string) (now : float64) : PipelineStateEngine * verdict :=
  let '(e, looped) := check_loop_condition e output trace_id in
  if looped then (e, BLOCKED_LOOP)
  else if negb (evaluate_integrity output) then
    if check_retry_capacity e then (increment_retry e, RETRY) else (e, SYSTEM_ERROR)
  else (clear_retry_state (record_state e output trace_id now), ACCEPTED).

(** A sequence of calls, each with its trace and clock reading. *)
Definition request : Type := string * option string * float64.

Fixpoint run (e : PipelineStateEngine) (l : list request) : PipelineStateEngine * list verdict :=
  match l with
  | [] => (e, [])
  | (output, t, now) :: l =>
      let '(e1, v) := process_lifecycle e output t now in
      let '(e2, vs) := run e1 l in (e2, v :: vs)
  end.

(* ------------------------------------------------------------------ *)
(** ** Windows *)

(** The last [n] entries of a list. *)
Definition last_n (n : nat) (l : list string) : list string := drop (length l - n) l.

Lemma deque_append_last n l x : deque_append n (last_n n l) x = last_n n (l ++ [x]).
Proof.
  unfold deque_append, last_n. rewrite length_drop, length_app. simpl.
  destruct (decide (length l < n)) as [H|H].
  - replace (length l - n) with 0 by lia. rewrite drop_0. f_equal. lia.
  - rewrite <- drop_app_le by lia. rewrite drop_drop. f_equal. lia.
Qed.

Lemma length_deque_append n l x : length l <= n -> length (deque_append n l x) <= n.
Proof. intros. unfold deque_append. rewrite length_drop, length_app. simpl. lia. Qed.

(** The window a call on trace [tid] is judged against. *)
Definition window_of (e : PipelineStateEngine) (tid : option string) : list string :=
  match tid with
  | None => seen_outputs (state e)
  | Some t => match dget (trace_outputs (state e)) t with Some w => w | None => [] end
  end.

Lemma dget_ddel {A} (d : dict A) k k' :
  dget (ddel d k) k' = if String.eqb k k' then None else dget d k'.
Proof.
  induction d as [|[k0 v] d IH]; simpl; [by destruct (String.eqb k k')|].
  destruct (String.eqb_spec k0 k) as [->|Hne]; simpl.
  - rewrite IH. by destruct (String.eqb_spec k k').
  - destruct (String.eqb_spec k0 k') as [->|]; [|done].
    by apply not_eq_sym, String.eqb_neq in Hne as ->.
Qed.

Lemma dget_app_single {A} (d : dict A) k v k' :
  dget (d ++ [(k, v)]) k' = match dget d k' with Some x => Some x
                            | None => if String.eqb k k' then Some v else None end.
Proof. induction d as [|[k0 v0] d IH]; simpl; [done|]. by destruct (String.eqb k0 k'). Qed.

Lemma dget_move_to_end {A} (d : dict A) k k' : dget (move_to_end d k) k' = dget d k'.
Proof.
  unfold move_to_end. destruct (dget d k) as [v|] eqn:E; [|done].
  rewrite dget_app_single, dget_ddel. destruct (String.eqb_spec k k') as [->|]; [done|].
  by destruct (dget d k').
Qed.

Lemma dkeys_move_to_end {A} (d : dict A) k : NoDup (dkeys d) ->
  NoDup (dkeys (move_to_end d k)) /\ length (move_to_end d k) = length d /\
  forall x, x ∈ dkeys (move_to_end d k) <-> x ∈ dkeys d.
Proof.
  intros Hn. split; [|split].
  - unfold move_to_end. destruct (dget d k) as [v|] eqn:E; [|done].
    unfold dkeys, ddel. rewrite map_app. apply NoDup_app. split_and!.
    + clear E. induction d as [|[k0 v0] d IH]; simpl in *; [constructor|].
      apply NoDup_cons in Hn as [Hk Hn]. destruct (String.eqb k0 k); simpl; [by apply IH|].
      constructor; [|by apply IH]. intros Hin. apply Hk. clear -Hin.
      induction d as [|[k1 v1] d IH]; simpl in *; [done|].
      destruct (String.eqb k1 k); simpl in *; set_solver.
    + intros x Hx ->%list_elem_of_singleton.
      assert (dget (ddel d k) k = None) as Hd by (by rewrite dget_ddel, String.eqb_refl).
      by apply dget_None_keys in Hd.
    + apply NoDup_singleton.
  - unfold move_to_end. destruct (dget d k) as [v|] eqn:E; [|done].
    rewrite length_app. simpl. revert Hn E. clear. induction d as [|[k0 v0] d IH]; simpl; [done|].
    intros [Hk Hn]%NoDup_cons E. destruct (String.eqb_spec k0 k) as [->|]; simpl.
    + apply dget_None_keys in Hk. clear -Hk. rewrite Nat.add_1_r. f_equal.
      induction d as [|[k1 v1] d IH]; simpl in *; [done|].
      destruct (String.eqb k1 k); [done|]. simpl. f_equal. by apply IH.
    + f_equal. by apply IH.
  - intros x. rewrite <- !dmem_keys. unfold dmem. by rewrite dget_move_to_end.
Qed.

(** Within the trace bound nothing is evicted, and a looked-up trace is present. *)
Lemma trace_window_spec e t traces w :
  NoDup (dkeys (trace_outputs (state e))) ->
  (dmem (trace_outputs (state e)) t = false ->
   (Z.of_nat (length (trace_outputs (state e))) + 1 <= max_traces e)%Z) ->
  trace_window e t = (traces, w) ->
  w = window_of e (Some t) /\ dget traces t = Some w /\
  (forall t', t' <> t -> dget traces t' = dget (trace_outputs (state e)) t') /\
  NoDup (dkeys traces) /\
  (forall x, x ∈ dkeys traces <-> x = t \/ x ∈ dkeys (trace_outputs (state e))).
Proof.
  unfold trace_window, window_of, dmem. intros Hn Hlen H. set (d := trace_outputs (state e)) in *.
  destruct (dget d t) as [w0|] eqn:E.
  - simplify_eq. destruct (dkeys_move_to_end d t Hn) as (? & _ & Hk).
    split_and!; try done; [by rewrite dget_move_to_end|intros; by rewrite dget_move_to_end|].
    intros x. rewrite Hk. split; [auto|]. intros [->|?]; [|done].
    apply dmem_keys. unfold dmem. by rewrite E.
  - assert (Hl : length (dset d t []) = S (length d)).
    { clear Hlen H Hn. induction d as [|[k v] d IH]; simpl in *; [done|].
      destruct (String.eqb k t); [done|]. simpl. f_equal. by apply IH. }
    specialize (Hlen eq_refl). destruct (Z.ltb_spec (max_traces e) (Z.of_nat (length (dset d t []))));
      [lia|]. simplify_eq. split_and!; [done|apply dget_dset_eq|intros; by apply dget_dset_ne| |].
    + by apply NoDup_dset.
    + intros x. by rewrite dkeys_dset.
Qed.

(** The verdict as a function of the window and the retry counter. *)
Definition verdict_spec (w : list string) (retry max : Z) (output : string) : verdict :=
  if str_mem output w then BLOCKED_LOOP
  else if evaluate_integrity output then ACCEPTED
  else if (retry <? max)%Z then RETRY else SYSTEM_ERROR.

Definition retry_after (v : verdict) (retry : Z) : Z :=
  match v with RETRY => retry + 1 | ACCEPTED => 0 | _ => retry end.

(** Every trace the caller names is one of [names], and they all fit. *)
Definition room (names : list string) (e : PipelineStateEngine) : Prop :=
  (Z.of_nat (length names) <= max_traces e)%Z /\
  NoDup (dkeys (trace_outputs (state e))) /\
  forall x, x ∈ dkeys (trace_outputs (state e)) -> x ∈ names.

Definition named (names : list string) (tid : option string) : Prop :=
  match tid with Some t => t ∈ names | None => True end.

Lemma room_for names e t : room names e -> t ∈ names ->
  dmem (trace_outputs (state e)) t = false ->
  (Z.of_nat (length (trace_outputs (state e))) + 1 <= max_traces e)%Z.
Proof.
  intros (Hl & Hn & Hs) Ht Hm. unfold dmem in Hm.
  destruct (dget (trace_outputs (state e)) t) eqn:E; [done|]. apply dget_None_keys in E.
  assert (Hle : length (t :: dkeys (trace_outputs (state e))) <= length names).
  { apply submseteq_length, NoDup_submseteq; [by constructor|].
    intros x [->|Hx]%elem_of_cons; auto. }
  simpl in Hle. unfold dkeys in Hle. rewrite length_map in Hle. lia.
Qed.

Lemma trace_window_room names e t traces w :
  room names e -> t ∈ names -> trace_window e t = (traces, w) ->
  w = window_of e (Some t) /\ dget traces t = Some w /\
  (forall t', t' <> t -> dget traces t' = dget (trace_outputs (state e)) t') /\
  room names (set_traces e traces).
Proof.
  intros Hr Ht H. destruct (trace_window_spec e t traces w (proj1 (proj2 Hr))
    (room_for names e t Hr Ht) H) as (-> & ? & ? & ? & Hk).
  destruct Hr as (? & ? & Hs). split_and!; try done. split_and!; try done.
  intros x Hx. apply Hk in Hx as [->|]; auto.
Qed.

Lemma check_loop_spec names e output tid :
  room names e -> named names tid ->
  exists e1, check_loop_condition e output tid = (e1, str_mem output (window_of e tid)) /\
    room names e1 /\ max_retries e1 = max_retries e /\ max_history e1 = max_history e /\
    max_traces e1 = max_traces e /\ retry_counter (state e1) = retry_counter (state e) /\
    forall tid', window_of e1 tid' = window_of e tid'.
Proof.
  intros Hr Ht. destruct tid as [t|]; simpl.
  - destruct (trace_window e t) as [traces w] eqn:E.
    destruct (trace_window_room names e t traces w Hr Ht E) as (-> & Hw & Ho & Hr').
    exists (set_traces e traces). split_and!; try done.
    intros [t'|]; [|done]. simpl. destruct (decide (t' = t)) as [->|Hne]; [|by rewrite Ho].
    by rewrite Hw.
  - exists e. by split_and!.
Qed.

Lemma record_spec names e output tid now :
  room names e -> named names tid ->
  let e1 := record_state e output tid now in
  room names e1 /\ max_retries e1 = max_retries e /\ max_history e1 = max_history e /\
  max_traces e1 = max_traces e /\
  forall tid', window_of e1 tid' =
    if decide (tid' = tid) then deque_append (max_history e) (window_of e tid) output
    else window_of e tid'.
Proof.
  intros Hr Ht. destruct tid as [t|]; simpl.
  - destruct (trace_window e t) as [traces w] eqn:E.
    destruct (trace_window_room names e t traces w Hr Ht E) as (-> & Hw & Ho & Hl & Hn & Hs).
    unfold append_window. rewrite Hw. simpl in *. split_and!; try done.
    + split_and!; [done|by apply NoDup_dset|]. intros x. simpl. rewrite dkeys_dset.
      intros [->|?]; auto.
    + intros [t'|]; simpl; [|done]. rewrite dget_dset.
      destruct (decide (Some t' = Some t)) as [[= ->]|Hne]; [by rewrite String.eqb_refl|].
      assert (Hne' : t' <> t) by congruence.
      rewrite (proj2 (String.eqb_neq t t')) by congruence. by rewrite Ho.
  - split_and!; try done. intros [t'|]; [by rewrite decide_False|by rewrite decide_True].
Qed.

Lemma process_spec names e output tid now :
  room names e -> named names tid ->
  let w := window_of e tid in
  let v := verdict_spec w (retry_counter (state e)) (max_retries e) output in
  exists e1, process_lifecycle e output tid now = (e1, v) /\
    room names e1 /\ max_retries e1 = max_retries e /\ max_history e1 = max_history e /\
    max_traces e1 = max_traces e /\
    retry_counter (state e1) = retry_after v (retry_counter (state e)) /\
    forall tid', window_of e1 tid' =
      if decide (tid' = tid /\ v = ACCEPTED) then deque_append (max_history e) w output
      else window_of e tid'.
Proof.
  intros Hr Ht w v. unfold process_lifecycle.
  destruct (check_loop_spec names e output tid Hr Ht) as (e1 & -> & Hr1 & Hm & Hh & Hx & Hc & Hw).
  unfold v, verdict_spec, w. destruct (str_mem output (window_of e tid)) eqn:El.
  { exists e1. split_and!; try done. intros tid'. by rewrite decide_False by naive_solver. }
  destruct (evaluate_integrity output) eqn:Ei; simpl.
  - destruct (record_spec names e1 output tid now Hr1 Ht) as (Hr2 & Hm2 & Hh2 & Hx2 & Hw2).
    exists (clear_retry_state (record_state e1 output tid now)). split_and!; try done.
    + simpl. congruence.
    + simpl. congruence.
    + simpl. congruence.
    + intros tid'. transitivity (window_of (record_state e1 output tid now) tid'); [by destruct tid'|].
      rewrite Hw2, Hh, !Hw. destruct (decide (tid' = tid)); [by rewrite decide_True|].
      by rewrite decide_False by naive_solver.
  - unfold check_retry_capacity. rewrite Hc, Hm.
    destruct (retry_counter (state e) <? max_retries e)%Z eqn:Ec.
    + exists (increment_retry e1). split_and!; try done; [simpl; by rewrite Hc|].
      intros tid'. rewrite decide_False by naive_solver. rewrite <- Hw. by destruct tid'.
    + exists e1. split_and!; try done. intros tid'. by rewrite decide_False by naive_solver.
Qed.

(** The outputs of a run that were accepted on trace [tid]. *)
Definition accepted (tid : option string) (l : list request) (vs : list verdict) : list string :=
  map (fun r => fst (fst (fst r)))
    (List.filter (fun '(_, t, _, v) => bool_decide (t = tid /\ v = ACCEPTED)) (zip l vs)).

Lemma run_windows names l e hist e' vs :
  room names e -> Forall (fun r => named names (snd (fst r))) l ->
  (forall tid, window_of e tid = last_n (max_history e) (hist tid)) ->
  run e l = (e', vs) ->
  room names e' /\ max_history e' = max_history e /\ max_retries e' = max_retries e /\
  forall tid, window_of e' tid = last_n (max_history e) (hist tid ++ accepted tid l vs).
Proof.
  revert e hist vs. induction l as [|[[output t] now] l IH]; intros e hist vs Hr Hl Hw Hrun.
  - simpl in Hrun. simplify_eq. split_and!; try done. intros tid. by rewrite app_nil_r.
  - apply Forall_cons in Hl as [Ht Hl]. simpl in Hrun, Ht.
    destruct (process_spec names e output t now Hr Ht) as (e1 & E & Hr1 & Hm & Hh & Hx & _ & Hw1).
    rewrite E in Hrun. destruct (run e1 l) as [e2 vs2] eqn:E2. simplify_eq.
    set (v := verdict_spec _ _ _ _) in *.
    set (hist1 := fun tid => if decide (tid = t /\ v = ACCEPTED) then hist tid ++ [output] else hist tid).
    destruct (IH e1 hist1 vs2 Hr1 Hl) as (? & Hh2 & ? & Hw2); [|done|].
    + intros tid. rewrite Hw1, Hh. unfold hist1.
      destruct (decide (tid = t /\ v = ACCEPTED)) as [[-> ?]|]; [|done].
      rewrite Hw. apply deque_append_last.
    + split_and!; try done; try congruence. intros tid. rewrite Hw2, Hh. unfold hist1, accepted. simpl.
      f_equal. destruct (decide (tid = t /\ v = ACCEPTED)) as [[-> ?]|Hn].
      * rewrite bool_decide_true by done. simpl. by rewrite <- app_assoc.
      * rewrite bool_decide_false by naive_solver. done.
Qed.

Lemma make_engine_room mr mh mt e names :
  make_engine mr mh mt = Ok e -> (Z.of_nat (length names) <= mt)%Z ->
  room names e /\ max_history e = Z.to_nat mh /\ max_retries e = mr /\
  retry_counter (state e) = 0%Z /\ forall tid, window_of e tid = [].
Proof.
  unfold make_engine. intros Hm Hl. destruct (mh <? 0)%Z; [done|]. simplify_eq.
  split_and!; try done; [|by intros []]. split_and!; simpl; [done|constructor|set_solver].
Qed.

(** Each trace is judged against its own recent outputs: on a fresh engine
    with room for the traces in use, the verdict on an output is BLOCKED_LOOP
    exactly when that text is among the last [max_history] outputs accepted on
    the same trace; other traces' outputs never matter, and blocked, retried
    or failed outputs are never recorded. *)
Theorem verdict_reads_own_recent_outputs mr mh mt e names l e' vs output tid now :
  make_engine mr mh mt = Ok e -> (Z.of_nat (length names) <= mt)%Z ->
  Forall (fun r => named names (snd (fst r))) l -> named names tid ->
  run e l = (e', vs) ->
  snd (process_lifecycle e' output tid now) = BLOCKED_LOOP <->
  output ∈ last_n (Z.to_nat mh) (accepted tid l vs).
Proof.
  intros Hm Hlen Hl Ht Hrun.
  destruct (make_engine_room mr mh mt e names Hm Hlen) as (Hr & Hh & _ & _ & Hw).
  destruct (run_windows names l e (fun _ => []) e' vs Hr Hl ltac:(intros; by rewrite Hw) Hrun)
    as (Hr' & Hh' & _ & Hw').
  destruct (process_spec names e' output tid now Hr' Ht) as (e2 & -> & _).
  rewrite <- Hh, <- (app_nil_l (accepted tid l vs)), <- Hw', <- str_mem_spec.
  unfold verdict_spec. simpl. destruct (str_mem output (window_of e' tid)); [done|].
  destruct (evaluate_integrity output); [done|]. by destruct (_ <? _)%Z.
Qed.

(** Memory stays bounded whatever the callers name. *)
Definition bounded (e : PipelineStateEngine) : Prop :=
  length (seen_outputs (state e)) <= max_history e /\
  (Z.of_nat (length (trace_outputs (state e))) <= Z.max 0 (max_traces e))%Z /\
  NoDup (dkeys (trace_outputs (state e))) /\
  Forall (fun kv => length (snd kv) <= max_history e) (trace_outputs (state e)).

Lemma Forall_move_to_end {A} (P : string * A -> Prop) d k : Forall P d -> Forall P (move_to_end d k).
Proof.
  intros H. unfold move_to_end. destruct (dget d k) as [v|] eqn:E; [|done].
  apply Forall_app. split; [|constructor; [|done]].
  - apply Forall_forall. intros x Hx. apply list_elem_of_In, filter_In in Hx as [Hx _].
    rewrite Forall_forall in H. by apply H, list_elem_of_In.
  - rewrite Forall_forall in H. by apply H, dget_Some_elem.
Qed.

Lemma Forall_dset {A} (P : string * A -> Prop) d k v : P (k, v) -> Forall P d -> Forall P (dset d k v).
Proof.
  intros Hv. induction 1 as [|[k0 v0] d H0 Hd IH]; simpl; [by constructor|].
  destruct (String.eqb_spec k0 k) as [->|]; by constructor.
Qed.

Lemma length_dset {A} (d : dict A) k v :
  length (dset d k v) = if dmem d k then length d else S (length d).
Proof.
  unfold dmem. induction d as [|[k0 v0] d IH]; simpl; [done|].
  destruct (String.eqb k0 k); [done|]. simpl. rewrite IH. by destruct (dget d k).
Qed.

Lemma trace_window_bounded e t traces w : bounded e -> trace_window e t = (traces, w) ->
  bounded (set_traces e traces) /\ length w <= max_history e.
Proof.
  intros (Hs & Hl & Hn & Hf). unfold trace_window. set (d := trace_outputs (state e)) in *.
  destruct (dget d t) as [w0|] eqn:E; intros H; simplify_eq.
  - destruct (dkeys_move_to_end d t Hn) as (? & Hlen & _). split.
    + split_and!; simpl; rewrite ?Hlen; try done. by apply Forall_move_to_end.
    + apply dget_Some_elem in E. rewrite Forall_forall in Hf. by apply (Hf (t, w)).
  - split; [|simpl; lia]. pose proof (length_dset d t []) as Hd. unfold dmem in Hd. rewrite E in Hd.
    pose proof (NoDup_dset d t [] Hn) as Hn'.
    assert (Hf' : Forall (fun kv => length (snd kv) <= max_history e) (dset d t []))
      by (apply Forall_dset; [simpl; lia|done]).
    destruct (Z.ltb_spec (max_traces e) (Z.of_nat (length (dset d t [])))).
    + destruct (dset d t []) as [|kv d'] eqn:Ed; [done|]. simpl in *.
      apply NoDup_cons in Hn' as [_ Hn']. apply Forall_cons in Hf' as [_ Hf'].
      split_and!; simpl; try done. lia.
    + split_and!; simpl; try done. lia.
Qed.

Lemma append_window_bounded e t output : bounded e ->
  bounded (set_traces e (append_window (max_history e) (trace_outputs (state e)) t output)).
Proof.
  intros (Hs & Hl & Hn & Hf). unfold append_window.
  destruct (dget (trace_outputs (state e)) t) as [w|] eqn:E; [|done].
  assert (Hw : length w <= max_history e).
  { apply dget_Some_elem in E. rewrite Forall_forall in Hf. by apply (Hf (t, w)). }
  split_and!; simpl; [done| |by apply NoDup_dset|].
  - rewrite length_dset. unfold dmem. by rewrite E.
  - apply Forall_dset; [|done]. by apply length_deque_append.
Qed.

Lemma process_bounded e output tid now : bounded e ->
  bounded (fst (process_lifecycle e output tid now)) /\
  max_history (fst (process_lifecycle e output tid now)) = max_history e.
Proof.
  intros Hb. unfold process_lifecycle.
  assert (H1 : exists e1 b, check_loop_condition e output tid = (e1, b) /\ bounded e1 /\
    max_history e1 = max_history e).
  { destruct tid as [t|]; simpl; [|by exists e; eexists].
    destruct (trace_window e t) as [traces w] eqn:E. do 2 eexists.
    split; [done|]. split; [|done]. by apply (trace_window_bounded e t traces w). }
  destruct H1 as (e1 & b & -> & Hb1 & Hh). destruct b; [done|].
  destruct (evaluate_integrity output); simpl; [|by destruct (check_retry_capacity e1)].
  destruct tid as [t|]; simpl.
  - destruct (trace_window e1 t) as [traces w] eqn:E.
    destruct (trace_window_bounded e1 t traces w Hb1 E) as [Hb2 _]. split; [|done].
    exact (append_window_bounded _ t output Hb2).
  - destruct Hb1 as (Hs & Hrest). split; [|done]. split; [|done]. by apply length_deque_append.
Qed.

(** Bounded memory: after any run, with any number of traces, no window
    holds more than [max_history] outputs and at most [max_traces] windows are
    kept, one per trace. *)
Theorem engine_memory_bounded mr mh mt e l :
  make_engine mr mh mt = Ok e ->
  let s := state (fst (run e l)) in
  length (seen_outputs s) <= Z.to_nat mh /\
  (Z.of_nat (length (trace_outputs s)) <= Z.max 0 mt)%Z /\ NoDup (dkeys (trace_outputs s)) /\
  Forall (fun kv => length (snd kv) <= Z.to_nat mh) (trace_outputs s).
Proof.
  intros Hm. assert (Hb : bounded e /\ max_history e = Z.to_nat mh /\ max_traces e = mt).
  { unfold make_engine in Hm. destruct (mh <? 0)%Z; [done|]. simplify_eq.
    split; [|done]. split_and!; simpl; try lia; constructor. }
  clear Hm. revert e Hb. induction l as [|[[output t] now] l IH]; intros e (Hb & Hh & Hx).
  - simpl. destruct Hb as (? & ? & ? & ?). by rewrite <- Hh, <- Hx.
  - simpl. destruct (process_lifecycle e output t now) as [e1 v] eqn:E.
    destruct (process_bounded e output t now Hb) as [Hb1 Hh1]. rewrite E in Hb1, Hh1. simpl in *.
    destruct (run e1 l) as [e2 vs] eqn:Er. specialize (IH e1). rewrite Er in IH. apply IH.
    split_and!; [done|congruence|]. rewrite <- Hx. clear -E. unfold process_lifecycle in E.
    destruct t as [t|]; simpl in E; [destruct (trace_window e t)|]; repeat case_bool;
      simplify_eq; try done; simpl; by destruct (trace_window _ t).
Qed.

(** Retry budget: on an engine with room for the traces in use, a run with
    no accepted output contains at most [max_retries] RETRY verdicts; past
    that every unusable output is a SYSTEM_ERROR. *)
Theorem retry_budget mr mh mt e names l e' vs :
  make_engine mr mh mt = Ok e -> (Z.of_nat (length names) <= mt)%Z ->
  Forall (fun r => named names (snd (fst r))) l ->
  run e l = (e', vs) -> ACCEPTED ∉ vs ->
  (Z.of_nat (length (List.filter (fun v => bool_decide (v = RETRY)) vs)) <= Z.max 0 mr)%Z.
Proof.
  intros Hm Hlen Hl Hrun Hacc.
  destruct (make_engine_room mr mh mt e names Hm Hlen) as (Hr & _ & Hmr & Hc & _).
  enough (retry_counter (state e) + Z.of_nat (length (List.filter (fun v => bool_decide (v = RETRY)) vs))
    <= Z.max (retry_counter (state e)) mr)%Z by lia.
  clear Hm Hlen Hc. revert e vs Hr Hmr Hrun Hacc.
  induction l as [|[[output t] now] l IH]; intros e vs Hr Hmr Hrun Hacc; simpl in Hrun.
  - simplify_eq. simpl. lia.
  - apply Forall_cons in Hl as [Ht Hl].
    destruct (process_spec names e output t now Hr Ht) as (e1 & E & Hr1 & Hm1 & _ & _ & Hc1 & _).
    rewrite E in Hrun. destruct (run e1 l) as [e2 vs2] eqn:E2. simplify_eq.
    apply not_elem_of_cons in Hacc as [Hv Hacc].
    specialize (IH Hl e1 vs2 Hr1 Hm1 E2 Hacc). rewrite Hc1 in IH.
    set (v := verdict_spec _ _ _ _) in *. simpl.
    assert (Hlt : v = RETRY -> (retry_counter (state e) < max_retries e)%Z).
    { unfold v, verdict_spec. repeat case_bool; intros; try done. by apply Z.ltb_lt. }
    destruct v; simpl in *; try done; try lia.
    specialize (Hlt eq_refl). lia.
Qed.
End Engine.

(* ------------------------------------------------------------------ *)
(** ** Instances *)

Definition demo_engine : PipelineStateEngine :=
  mkEngine (mkEngineState [] None None 0 []) 1 2 2.

Definition demo_requests : list request :=
  [("ok", Some "t1", fzero); ("ok", Some "t2", fzero); (" ", Some "t2", fzero);
   ("fine", Some "t1", fzero); ("ok", Some "t1", fzero); ("good", Some "t1", fzero)].

Definition no_hash (s : string) : string := s.

(** "ok" repeats inside trace t1 only once two newer outputs pushed it out. *)
Example demo_verdicts :
  snd (run no_hash demo_engine demo_requests) =
    [ACCEPTED; ACCEPTED; RETRY; ACCEPTED; BLOCKED_LOOP; ACCEPTED].
Proof. by vm_compute. Qed.

Lemma demo_named : Forall (fun r => named ["t1"; "t2"] (snd (fst r))) demo_requests.
Proof. repeat constructor; simpl; set_solver. Qed.

Lemma verdict_reads_own_recent_outputs_witness :
  snd (process_lifecycle no_hash (fst (run no_hash demo_engine demo_requests)) "fine" (Some "t1") fzero)
    = BLOCKED_LOOP <->
  "fine" ∈ last_n 2 (accepted (Some "t1") demo_requests (snd (run no_hash demo_engine demo_requests))).
Proof.
  exact (verdict_reads_own_recent_outputs no_hash 1 2 2 demo_engine ["t1"; "t2"] demo_requests
    _ _ "fine" (Some "t1") fzero eq_refl ltac:(by vm_compute) demo_named ltac:(simpl; set_solver)
    (surjective_pairing (run no_hash demo_engine demo_requests))).
Defined.

Lemma engine_memory_bounded_witness :
  length (seen_outputs (state (fst (run no_hash demo_engine demo_requests)))) <= 2.
Proof. exact (proj1 (engine_memory_bounded no_hash 1 2 2 demo_engine demo_requests eq_refl)). Defined.

Definition blank_requests : list request := repeat (" ", Some "t1", fzero) 4.

Lemma retry_budget_witness :
  snd (run no_hash demo_engine blank_requests) = [RETRY; SYSTEM_ERROR; SYSTEM_ERROR; SYSTEM_ERROR] /\
  (Z.of_nat (length (List.filter (fun v => bool_decide (v = RETRY))
     (snd (run no_hash demo_engine blank_requests)))) <= 1)%Z.
Proof.
  split; [by vm_compute|].
  refine (retry_budget no_hash 1 2 2 demo_engine ["t1"] blank_requests _ _ eq_refl ltac:(by vm_compute)
    _ (surjective_pairing (run no_hash demo_engine blank_requests)) _).
  - repeat constructor; simpl; set_solver.
  - vm_compute. intros H. repeat (apply elem_of_cons in H as [H|H]; [discriminate H|]).
    by apply elem_of_nil in H.
Defined.
