(* ===== verification/Redis.v ===== *)
(** * Redis: the keyspace the queue's scripts run against

    The queue's Lua scripts are sequences of [redis.call]s, run atomically by a
    server that is not part of the repository.  A script is a program over a
    typed command set ([prog]); the server is the class [Redis]: any store with
    a [call] whose effect, seen through [view], is the documented effect of the
    command ([exec]).  Theorems are stated for every such store; [rstate] itself
    is the instance used to evaluate examples.

    The hash of a job holds strings and integers; a list element or a
    [cjson.encode]d error record is kept as the value it encodes. *)

From S2P Require Import Prelude PyFloat PyValue.
Local Open Scope Z_scope.

Inductive fval := FS (s : string) | FI (z : Z).

#[export] Instance fval_eq_dec : EqDecision fval.
Proof. solve_decision. Defined.

Record error_record := mkErrorRecord {
  er_attempt : option Z;
  er_reason : string;
  er_detail : string;
  er_worker : string;
  er_at_ms : Z;
}.

Inductive zkey := Scheduled | Processing | Dead | Done.
Inductive lkey := Pending | Orphans.

Notation hash := (gmap string fval).

(** Everything under one queue prefix. *)
Record rstate := mkR {
  clock : Z;
  jobs : gmap string hash;
  jobs_ttl : gmap string Z;
  errors : gmap string (list error_record);
  errors_ttl : gmap string Z;
  pending : list string;
  orphans : list string;
  zsets : zkey -> gmap string Z;
  counters : gmap string Z;
  dead_reasons : gmap string Z;
}.

Definition zkey_eqb (a b : zkey) : bool :=
  match a, b with
  | Scheduled, Scheduled | Processing, Processing | Dead, Dead | Done, Done => true
  | _, _ => false
  end.

Definition set_jobs (s : rstate) j t : rstate :=
  mkR (clock s) j t (errors s) (errors_ttl s) (pending s) (orphans s) (zsets s)
    (counters s) (dead_reasons s).
Definition set_errors (s : rstate) e t : rstate :=
  mkR (clock s) (jobs s) (jobs_ttl s) e t (pending s) (orphans s) (zsets s)
    (counters s) (dead_reasons s).
Definition set_lists (s : rstate) p o : rstate :=
  mkR (clock s) (jobs s) (jobs_ttl s) (errors s) (errors_ttl s) p o (zsets s)
    (counters s) (dead_reasons s).
Definition set_zset (s : rstate) (k : zkey) (m : gmap string Z) : rstate :=
  mkR (clock s) (jobs s) (jobs_ttl s) (errors s) (errors_ttl s) (pending s) (orphans s)
    (fun k' => if zkey_eqb k' k then m else zsets s k') (counters s) (dead_reasons s).
Definition set_counts (s : rstate) c d : rstate :=
  mkR (clock s) (jobs s) (jobs_ttl s) (errors s) (errors_ttl s) (pending s) (orphans s)
    (zsets s) c d.

(** The commands the scripts use, with the type of their replies. *)
Inductive cmd : Type -> Type :=
| TIME : cmd Z
| EXISTS_job (id : string) : cmd bool
| HGET_job (id f : string) : cmd (option fval)
| HSET_job (id : string) (fvs : list (string * fval)) : cmd unit
| HDEL_job (id : string) (fs : list string) : cmd unit
| HINCRBY_job (id f : string) (n : Z) : cmd (option Z)
| PEXPIRE_job (id : string) (ms : Z) : cmd unit
| DEL_job (id : string) : cmd unit
| LPUSH_error (id : string) (r : error_record) : cmd unit
| LTRIM_error (id : string) (stop : Z) : cmd unit
| PEXPIRE_error (id : string) (ms : Z) : cmd unit
| DEL_error (id : string) : cmd unit
| LPUSH (k : lkey) (id : string) : cmd unit
| RPOP_pending : cmd (option string)
| ZADD (k : zkey) (score : Z) (id : string) : cmd unit
| ZREM (k : zkey) (id : string) : cmd unit
| ZRANGEBYSCORE (k : zkey) (max : Z) (limit : Z) : cmd (list string)
| ZREMRANGEBYSCORE (k : zkey) (max : Z) : cmd unit
| HINCRBY_counter (f : string) (n : Z) : cmd unit
| HSET_counter (f : string) (v : Z) : cmd unit
| HINCRBY_reason (f : string) (n : Z) : cmd unit.

(** [LIMIT 0 n]: a negative count means no limit. *)
Definition limited {A} (n : Z) (l : list A) : list A :=
  if n <? 0 then l else take (Z.to_nat n) l.

(** Members by score, equal scores by member text. *)
Definition z_leb (a b : string * Z) : bool :=
  (snd a <? snd b) || ((snd a =? snd b) && String.leb (fst a) (fst b)).

Definition zrange (m : gmap string Z) (max limit : Z) : list string :=
  limited limit (map fst (List.filter (fun p => snd p <=? max) (sort z_leb (map_to_list m)))).

Definition hash_of (s : rstate) (id : string) : hash :=
  match jobs s !! id with Some h => h | None => ∅ end.

(** A hash whose last field is removed no longer exists. *)
Definition put_hash (s : rstate) (id : string) (h : hash) : rstate :=
  if decide (h = ∅) then set_jobs s (delete id (jobs s)) (delete id (jobs_ttl s))
  else set_jobs s (<[id := h]> (jobs s)) (jobs_ttl s).

Definition hset (h : hash) (fvs : list (string * fval)) : hash :=
  fold_left (fun h '(f, v) => <[f := v]> h) fvs h.
Definition hdel (h : hash) (fs : list string) : hash := fold_left (fun h f => delete f h) fs h.

Definition bump_count (m : gmap string Z) (f : string) (n : Z) : gmap string Z :=
  <[f := match m !! f with Some z => z | None => 0 end + n]> m.

(** The documented effect of each command on the keyspace. *)
Definition exec {R} (c : cmd R) (s : rstate) : R * rstate :=
  match c with
  | TIME => (clock s, s)
  | EXISTS_job id => (bool_decide (is_Some (jobs s !! id)), s)
  | HGET_job id f => (hash_of s id !! f, s)
  | HSET_job id fvs => (tt, put_hash s id (hset (hash_of s id) fvs))
  | HDEL_job id fs => (tt, put_hash s id (hdel (hash_of s id) fs))
  | HINCRBY_job id f n =>
      match hash_of s id !! f with
      | Some (FI z) => (Some (z + n), put_hash s id (<[f := FI (z + n)]> (hash_of s id)))
      | None => (Some n, put_hash s id (<[f := FI n]> (hash_of s id)))
      | Some (FS _) => (None, s)
      end
  | PEXPIRE_job id ms =>
      (tt, if decide (is_Some (jobs s !! id))
           then set_jobs s (jobs s) (<[id := clock s + ms]> (jobs_ttl s)) else s)
  | DEL_job id => (tt, set_jobs s (delete id (jobs s)) (delete id (jobs_ttl s)))
  | LPUSH_error id r =>
      (tt, set_errors s (<[id := r :: match errors s !! id with Some l => l | None => [] end]> (errors s))
             (errors_ttl s))
  | LTRIM_error id stop =>
      (tt, match errors s !! id with
           | Some l =>
               match (if stop <? 0 then take (length l - Z.to_nat (- stop - 1)) l
                      else take (S (Z.to_nat stop)) l) with
               | [] => set_errors s (delete id (errors s)) (delete id (errors_ttl s))
               | l' => set_errors s (<[id := l']> (errors s)) (errors_ttl s)
               end
           | None => s
           end)
  | PEXPIRE_error id ms =>
      (tt, if decide (is_Some (errors s !! id))
           then set_errors s (errors s) (<[id := clock s + ms]> (errors_ttl s)) else s)
  | DEL_error id => (tt, set_errors s (delete id (errors s)) (delete id (errors_ttl s)))
  | LPUSH Pending id => (tt, set_lists s (id :: pending s) (orphans s))
  | LPUSH Orphans id => (tt, set_lists s (pending s) (id :: orphans s))
  | RPOP_pending =>
      match last (pending s) with
      | Some id => (Some id, set_lists s (take (length (pending s) - 1) (pending s)) (orphans s))
      | None => (None, s)
      end
  | ZADD k score id => (tt, set_zset s k (<[id := score]> (zsets s k)))
  | ZREM k id => (tt, set_zset s k (delete id (zsets s k)))
  | ZRANGEBYSCORE k max limit => (zrange (zsets s k) max limit, s)
  | ZREMRANGEBYSCORE k max => (tt, set_zset s k (filter (fun p => max < p.2) (zsets s k)))
  | HINCRBY_counter f n => (tt, set_counts s (bump_count (counters s) f n) (dead_reasons s))
  | HSET_counter f v => (tt, set_counts s (<[f := v]> (counters s)) (dead_reasons s))
  | HINCRBY_reason f n => (tt, set_counts s (counters s) (bump_count (dead_reasons s) f n))
  end.

(** A key is still there at time [t]: no expiry, or one not yet past. *)
Definition alive (ttl : gmap string Z) (t : Z) (id : string) : bool :=
  match ttl !! id with Some e => t <=? e | None => true end.

(** The server clock reaches [t]: keys whose expiry lies before it are gone. *)
Definition expire (t : Z) (s : rstate) : rstate :=
  mkR t
    (filter (fun p => alive (jobs_ttl s) t p.1 = true) (jobs s))
    (filter (fun p => t <= p.2) (jobs_ttl s))
    (filter (fun p => alive (errors_ttl s) t p.1 = true) (errors s))
    (filter (fun p => t <= p.2) (errors_ttl s))
    (pending s) (orphans s) (zsets s) (counters s) (dead_reasons s).

(* ------------------------------------------------------------------ *)
(** ** Scripts as programs *)

(** A script: [redis.call]s, a result, or a Lua error (which leaves the effects
    of the calls already made). *)
Inductive prog (A : Type) : Type :=
| Ret (a : A)
| LuaError
| Call {R : Type} (c : cmd R) (k : R -> prog A).
Arguments Ret {A} a.
Arguments LuaError {A}.
Arguments Call {A R} c k.

Fixpoint prog_bind {A B} (f : A -> prog B) (p : prog A) : prog B :=
  match p with
  | Ret a => f a
  | LuaError => LuaError
  | Call c k => Call c (fun r => prog_bind f (k r))
  end.

#[export] Instance prog_mret : MRet prog := fun A a => Ret a.
#[export] Instance prog_mbind : MBind prog := fun A B f p => prog_bind f p.

Definition redis {R} (c : cmd R) : prog R := Call c (fun r => Ret r).

(** [for i = 1, #l do ... end] *)
Fixpoint for_each {A} (f : A -> prog unit) (l : list A) : prog unit :=
  match l with [] => Ret tt | a :: l => _ ← f a; for_each f l end.

(** Running a script on a store, given the effect of single commands. *)
Fixpoint run {S A} (call : forall R, cmd R -> S -> R * S) (p : prog A) (s : S) : option A * S :=
  match p with
  | Ret a => (Some a, s)
  | LuaError => (None, s)
  | Call c k => let '(r, s') := call _ c s in run call (k r) s'
  end.

(** A Redis server: what the queue relies on. *)
Class Redis (S : Type) := {
  call : forall R, cmd R -> S -> R * S;
  tick : Z -> S -> S;
  view : S -> rstate;
  call_documented : forall R (c : cmd R) s,
    (fst (call R c s), view (snd (call R c s))) = exec c (view s);
  tick_documented : forall t s, view (tick t s) = expire t (view s);
}.

#[export] Instance rstate_redis : Redis rstate := {
  call R c s := exec c s;
  tick t s := expire t s;
  view s := s;
  call_documented R c s := eq_sym (surjective_pairing (exec c s));
  tick_documented t s := eq_refl;
}.

Notation run_model := (run (fun R => @exec R)).

(** Every server runs a script as the documented commands do. *)
Lemma run_view {S A} `{Redis S} (p : prog A) (s : S) :
  (fst (run call p s), view (snd (run call p s))) = run_model p (view s).
Proof.
  revert s. induction p as [a| |R c k IH]; intros s; simpl; [done..|].
  pose proof (call_documented R c s) as Hc.
  destruct (call R c s) as [r s'] eqn:E. simpl in Hc. rewrite <- Hc. apply IH.
Qed.

Lemma run_bind {S A B} call (p : prog A) (f : A -> prog B) (s : S) :
  run call (prog_bind f p) s =
    match run call p s with
    | (Some a, s') => run call (f a) s'
    | (None, s') => (None, s')
    end.
Proof.
  revert s. induction p as [a| |R c k IH]; intros s; simpl; [done..|].
  destruct (call R c s) as [r s']. apply IH.
Qed.
