(* ===== verification/Queue.v ===== *)
(** * Queue: the job queue between ingress and workers

    Models src/sentinel_os/queue_schema.py and the scripts of
    src/sentinel_os/lua/.  Each script is one [prog] and runs atomically; the
    methods of [TransmissionQueue] run them on any [Redis] store.  Milliseconds
    stay below 10^14, where Lua prints numbers as plain integers.  Sockets,
    connection pools and sleeping are left out. *)

From S2P Require Import Prelude PyFloat PyValue Redis.
Local Open Scope Z_scope.

Inductive Reason :=
| NETWORK_LATENCY
| SERVICE_INTERRUPTION
| DATA_CORRUPTION
| PROCESS_CRASH
| DB_CONNECTION_LOSS
| DISK_EXHAUSTION
| UNCLASSIFIED.

#[export] Instance Reason_eq_dec : EqDecision Reason.
Proof. solve_decision. Defined.

Definition reason_value (r : Reason) : string :=
  match r with
  | NETWORK_LATENCY => "network_latency"
  | SERVICE_INTERRUPTION => "service_interruption"
  | DATA_CORRUPTION => "data_corruption"
  | PROCESS_CRASH => "process_crash"
  | DB_CONNECTION_LOSS => "db_connection_loss"
  | DISK_EXHAUSTION => "disk_exhaustion"
  | UNCLASSIFIED => "unclassified"
  end.

Definition all_reasons : list Reason :=
  [NETWORK_LATENCY; SERVICE_INTERRUPTION; DATA_CORRUPTION; PROCESS_CRASH;
   DB_CONNECTION_LOSS; DISK_EXHAUSTION; UNCLASSIFIED].

(** [Reason(value)] *)
Definition reason_of_value (v : string) : option Reason :=
  List.find (fun r => String.eqb (reason_value r) v) all_reasons.

Definition RETRYABLE_DEFAULT (r : Reason) : bool :=
  match r with DATA_CORRUPTION => false | _ => true end.

Definition REASON_O2R : dict string :=
  [("process_crash", "process_crash_restart");
   ("data_corruption", "data_corruption_in_transit")].
Definition REASON_R2O : dict string := map (fun '(k, v) => (v, k)) REASON_O2R.

(** A reason argument: the enum, a name of either dialect, or [None]. *)
Inductive reason_arg := AReason (r : Reason) | AName (s : string) | ANone.

Definition reason_from_any (a : reason_arg) : Reason :=
  match a with
  | AReason r => r
  | AName s =>
      let canonical := match dget REASON_R2O s with Some o => o | None => s end in
      match reason_of_value canonical with Some r => r | None => UNCLASSIFIED end
  | ANone => UNCLASSIFIED
  end.

Inductive Outcome := OK | DEAD | SCHEDULED | GONE | STALE.

#[export] Instance Outcome_eq_dec : EqDecision Outcome.
Proof. solve_decision. Defined.

(* ------------------------------------------------------------------ *)
(** ** The scripts *)

Definition now_ms : prog Z := redis TIME.

Definition record_error (id : string) (attempt : option Z) (reason detail worker : string)
    (at_ms keep : Z) : prog unit :=
  _ ← redis (LPUSH_error id (mkErrorRecord attempt reason detail worker at_ms));
  redis (LTRIM_error id (keep - 1)).

Definition is_str_field (v : option fval) (s : string) : bool := bool_decide (v = Some (FS s)).

(** [OK] when the caller holds the live claim. *)
Definition owner_check (id worker claim_id : string) : prog Outcome :=
  ex ← redis (EXISTS_job id);
  if negb ex then Ret GONE else
  st ← redis (HGET_job id "status");
  if negb (is_str_field st "processing") then Ret STALE else
  by_ ← redis (HGET_job id "claimed_by");
  if negb (is_str_field by_ worker) then Ret STALE else
  cid ← redis (HGET_job id "claim_id");
  if negb (is_str_field cid claim_id) then Ret STALE else Ret OK.

(** The refusal branch shared by [ack], [fail] and [heartbeat]. *)
Definition refused (id counter : string) (ok : Outcome) : prog Outcome :=
  st ← redis (HGET_job id "status");
  if bool_decide (ok = STALE) && is_str_field st "done" then Ret GONE
  else _ ← redis (HINCRBY_counter counter 1); Ret ok.

Definition tonumber (v : option fval) : option Z :=
  match v with Some (FI z) => Some z | _ => None end.

Definition enqueue_script (id payload checksum : string) (max_attempts : Z) : prog (bool * option fval) :=
  ex ← redis (EXISTS_job id);
  if (ex : bool) then
    _ ← redis (HINCRBY_counter "duplicate_enqueues" 1);
    st ← redis (HGET_job id "status");
    Ret (false, st)
  else
    now ← now_ms;
    _ ← redis (HSET_job id
      [("id", FS id); ("payload", FS payload); ("checksum", FS checksum);
       ("status", FS "pending"); ("attempts", FI 0); ("max_attempts", FI max_attempts);
       ("enqueued_at_ms", FI now)]);
    _ ← redis (LPUSH Pending id);
    _ ← redis (HINCRBY_counter "enqueued" 1);
    Ret (true, Some (FS "pending")).

(** What [claim] returns for one job. *)
Record claim_reply := mkClaimReply {
  cr_id : string;
  cr_payload : option fval;
  cr_checksum : option fval;
  cr_attempts : Z;
  cr_enqueued : option fval;
  cr_deadline : Z;
}.

Definition lease_job (id worker claim_id : string) (now lease : Z) : prog (option claim_reply) :=
  att ← redis (HINCRBY_job id "attempts" 1);
  match att with
  | None => LuaError
  | Some attempts =>
      let deadline := now + lease in
      _ ← redis (HSET_job id
        [("status", FS "processing"); ("claimed_by", FS worker); ("claim_id", FS claim_id);
         ("claimed_at_ms", FI now); ("lease_deadline_ms", FI deadline)]);
      _ ← redis (ZADD Processing deadline id);
      payload ← redis (HGET_job id "payload");
      checksum ← redis (HGET_job id "checksum");
      enq ← redis (HGET_job id "enqueued_at_ms");
      Ret (Some (mkClaimReply id payload checksum attempts enq deadline))
  end.

Fixpoint scan_pending (n : nat) (worker claim_id : string) (now lease : Z)
    : prog (option claim_reply) :=
  match n with
  | O => Ret None
  | S n =>
      o ← redis RPOP_pending;
      match o with
      | None => Ret None
      | Some id =>
          ex ← redis (EXISTS_job id);
          if (ex : bool) then lease_job id worker claim_id now lease
          else
            _ ← redis (LPUSH Orphans id);
            _ ← redis (HINCRBY_counter "orphan_refs" 1);
            scan_pending n worker claim_id now lease
      end
  end.

Definition promote_one (id : string) : prog unit :=
  _ ← redis (ZREM Scheduled id);
  redis (LPUSH Pending id).

Definition claim_script (worker claim_id : string) (lease promote_batch max_scan : Z)
    : prog (option claim_reply) :=
  now ← now_ms;
  due ← redis (ZRANGEBYSCORE Scheduled now promote_batch);
  _ ← for_each promote_one due;
  scan_pending (Z.to_nat max_scan) worker claim_id now lease.

Definition claim_fields : list string :=
  ["claimed_by"; "claim_id"; "claimed_at_ms"; "lease_deadline_ms"].

(** Past the fence: a done record kept for [keep], or (v1) nothing. *)
Definition ack_body (id result : string) (keep : Z) : prog Outcome :=
  now ← now_ms;
  _ ← redis (ZREM Processing id);
  _ ← (if 0 <? keep then
         _ ← redis (HDEL_job id claim_fields);
         _ ← redis (HSET_job id [("status", FS "done"); ("completed_at_ms", FI now)]);
         _ ← (if str_true result then redis (HSET_job id [("result", FS result)]) else Ret tt);
         _ ← redis (PEXPIRE_job id keep);
         _ ← redis (PEXPIRE_error id keep);
         _ ← redis (ZADD Done now id);
         redis (ZREMRANGEBYSCORE Done (now - keep))
       else
         _ ← redis (DEL_job id);
         redis (DEL_error id));
  _ ← redis (HINCRBY_counter "completed" 1);
  _ ← redis (HSET_counter "last_completed_at_ms" now);
  Ret OK.

Definition ack_script (id worker claim_id result : string) (keep : Z) : prog Outcome :=
  ok ← owner_check id worker claim_id;
  if negb (bool_decide (ok = OK)) then refused id "stale_acks" ok else ack_body id result keep.

(** [fail] answers [SCHEDULED] with its backoff. *)
Definition dead_letter (id reason : string) (now escalate : Z) : prog unit :=
  _ ← redis (HSET_job id [("status", FS "dead"); ("dead_at_ms", FI now);
                          ("dead_reason", FS reason); ("escalate", FI escalate)]);
  _ ← redis (ZADD Dead now id);
  _ ← redis (HINCRBY_counter "dead" 1);
  redis (HINCRBY_reason reason 1).

Definition backoff_of (base_ms max_ms jitter attempts : Z) : Z :=
  Z.min (base_ms * 2 ^ (attempts - 1)) max_ms + jitter.

Definition schedule_retry (id : string) (at_ms : Z) : prog unit :=
  _ ← redis (HSET_job id [("status", FS "scheduled"); ("next_retry_at_ms", FI at_ms)]);
  _ ← redis (ZADD Scheduled at_ms id);
  redis (HINCRBY_counter "retries" 1).

Definition fail_body (id worker reason detail : string) (retryable : bool)
    (base_ms max_ms jitter keep : Z) : prog (Outcome * option Z) :=
  now ← now_ms;
  a ← redis (HGET_job id "attempts");
  m ← redis (HGET_job id "max_attempts");
  let attempts := tonumber a in
  _ ← record_error id attempts reason detail worker now keep;
  _ ← redis (ZREM Processing id);
  _ ← redis (HDEL_job id claim_fields);
  let die := _ ← dead_letter id reason now (if String.eqb reason "unclassified" then 1 else 0);
             Ret (DEAD, None) in
  if negb retryable then die else
  match attempts, tonumber m with
  | Some n, Some mx =>
      if mx <=? n then die else
      let backoff := backoff_of base_ms max_ms jitter n in
      _ ← schedule_retry id (now + backoff);
      Ret (SCHEDULED, Some backoff)
  | _, _ => LuaError
  end.

Definition fail_script (id worker claim_id reason detail : string) (retryable : bool)
    (base_ms max_ms jitter keep : Z) : prog (Outcome * option Z) :=
  ok ← owner_check id worker claim_id;
  if negb (bool_decide (ok = OK)) then o ← refused id "stale_fails" ok; Ret (o, None)
  else fail_body id worker reason detail retryable base_ms max_ms jitter keep.

Definition heartbeat_body (id : string) (lease : Z) : prog Outcome :=
  now ← now_ms;
  let deadline := now + lease in
  _ ← redis (HSET_job id [("lease_deadline_ms", FI deadline)]);
  _ ← redis (ZADD Processing deadline id);
  _ ← redis (HINCRBY_counter "heartbeats" 1);
  Ret OK.

Definition heartbeat_script (id worker claim_id : string) (lease : Z) : prog Outcome :=
  ok ← owner_check id worker claim_id;
  if negb (bool_decide (ok = OK)) then refused id "stale_heartbeats" ok
  else heartbeat_body id lease.

Definition promote_due_one (id : string) : prog unit :=
  _ ← redis (ZREM Scheduled id);
  _ ← redis (LPUSH Pending id);
  redis (HSET_job id [("status", FS "pending")]).

Definition promote_due_script (batch : Z) : prog Z :=
  now ← now_ms;
  due ← redis (ZRANGEBYSCORE Scheduled now batch);
  _ ← for_each promote_due_one due;
  Ret (Z.of_nat (length due)).

Inductive disposition := R_requeued | R_dead | R_orphan.

Definition reap_one (now keep : Z) (id : string) : prog disposition :=
  _ ← redis (ZREM Processing id);
  ex ← redis (EXISTS_job id);
  if negb ex then
    _ ← redis (LPUSH Orphans id);
    _ ← redis (HINCRBY_counter "orphan_refs" 1);
    Ret R_orphan
  else
    a ← redis (HGET_job id "attempts");
    m ← redis (HGET_job id "max_attempts");
    w ← redis (HGET_job id "claimed_by");
    let who := match w with Some (FS s) => s | _ => "unknown" end in
    let attempts := tonumber a in
    _ ← record_error id attempts "process_crash"
          ("lease expired; worker " +:+ who +:+ " presumed crashed or stalled") who now keep;
    _ ← redis (HDEL_job id claim_fields);
    _ ← redis (HINCRBY_counter "reaped" 1);
    match attempts, tonumber m with
    | Some n, Some mx =>
        if mx <=? n then _ ← dead_letter id "process_crash" now 0; Ret R_dead
        else
          _ ← redis (HSET_job id [("status", FS "pending")]);
          _ ← redis (LPUSH Pending id);
          Ret R_requeued
    | _, _ => LuaError
    end.

Fixpoint reap_all (now keep : Z) (l : list string) : prog (list (string * disposition)) :=
  match l with
  | [] => Ret []
  | id :: l => d ← reap_one now keep id; out ← reap_all now keep l; Ret ((id, d) :: out)
  end.

Definition reap_script (batch keep : Z) : prog (list (string * disposition)) :=
  now ← now_ms;
  expired ← redis (ZRANGEBYSCORE Processing now batch);
  reap_all now keep expired.

Definition requeue_dead_script (id : string) : prog Outcome :=
  ex ← redis (EXISTS_job id);
  if negb ex then Ret GONE else
  st ← redis (HGET_job id "status");
  if is_str_field st "done" then Ret GONE else
  if negb (is_str_field st "dead") then Ret STALE else
  _ ← redis (ZREM Dead id);
  _ ← redis (HSET_job id [("status", FS "pending"); ("attempts", FI 0)]);
  _ ← redis (HDEL_job id ["dead_at_ms"; "dead_reason"; "escalate"]);
  _ ← redis (LPUSH Pending id);
  _ ← redis (HINCRBY_counter "requeued_from_dlq" 1);
  Ret OK.
