(* ===== verification/QueueInv.v ===== *)
(** * QueueInv: one job at a time

    The proof technique for the queue's scripts.  [look s id] is everything the
    keyspace says about one job; a script that names one job runs the same on
    this view as on the keyspace ([focus_run]), so the invariant of a script is
    a computation on one view ([good]), and all other jobs are untouched. *)

From S2P Require Import Prelude PyFloat PyValue Redis Queue.
Local Open Scope Z_scope.

Record jview := mkV {
  v_hash : option hash;
  v_ttl : option Z;
  v_pend : nat;
  v_sched : option Z;
  v_proc : option Z;
  v_dead : option Z;
  v_done : option Z;
}.

(** Occurrences of an id in the pending list. *)
Fixpoint occurs (id : string) (l : list string) : nat :=
  match l with [] => 0 | x :: l => ((if String.eqb x id then 1 else 0) + occurs id l)%nat end.

Definition look (s : rstate) (id : string) : jview :=
  mkV (jobs s !! id) (jobs_ttl s !! id) (occurs id (pending s))
    (zsets s Scheduled !! id) (zsets s Processing !! id) (zsets s Dead !! id) (zsets s Done !! id).

Definition vhash (v : jview) : hash := match v_hash v with Some h => h | None => ∅ end.

Definition vset_hash (v : jview) (h : option hash) (ttl : option Z) : jview :=
  mkV h ttl (v_pend v) (v_sched v) (v_proc v) (v_dead v) (v_done v).
Definition vset_pend (v : jview) (n : nat) : jview :=
  mkV (v_hash v) (v_ttl v) n (v_sched v) (v_proc v) (v_dead v) (v_done v).
Definition vset_z (v : jview) (k : zkey) (o : option Z) : jview :=
  match k with
  | Scheduled => mkV (v_hash v) (v_ttl v) (v_pend v) o (v_proc v) (v_dead v) (v_done v)
  | Processing => mkV (v_hash v) (v_ttl v) (v_pend v) (v_sched v) o (v_dead v) (v_done v)
  | Dead => mkV (v_hash v) (v_ttl v) (v_pend v) (v_sched v) (v_proc v) o (v_done v)
  | Done => mkV (v_hash v) (v_ttl v) (v_pend v) (v_sched v) (v_proc v) (v_dead v) o
  end.

Definition vput (v : jview) (h : hash) : jview :=
  if decide (h = ∅) then vset_hash v None None else vset_hash v (Some h) (v_ttl v).

Section Focus.
(** The server time of the script, and the retention of done records. *)
Context (t keep : Z).

(** The effect of a command on the view of the one job it names. *)
Definition lx {R} (c : cmd R) (v : jview) : R * jview :=
  match c with
  | TIME => (t, v)
  | EXISTS_job _ => (bool_decide (is_Some (v_hash v)), v)
  | HGET_job _ f => (vhash v !! f, v)
  | HSET_job _ fvs => (tt, vput v (hset (vhash v) fvs))
  | HDEL_job _ fs => (tt, vput v (hdel (vhash v) fs))
  | HINCRBY_job _ f n =>
      match vhash v !! f with
      | Some (FI z) => (Some (z + n), vput v (<[f := FI (z + n)]> (vhash v)))
      | None => (Some n, vput v (<[f := FI n]> (vhash v)))
      | Some (FS _) => (None, v)
      end
  | PEXPIRE_job _ ms =>
      (tt, if decide (is_Some (v_hash v)) then vset_hash v (v_hash v) (Some (t + ms)) else v)
  | DEL_job _ => (tt, vset_hash v None None)
  | LPUSH Pending _ => (tt, vset_pend v (S (v_pend v)))
  | ZADD k score _ => (tt, vset_z v k (Some score))
  | ZREM k _ => (tt, vset_z v k None)
  | ZREMRANGEBYSCORE k max =>
      (tt, match k with
           | Done => vset_z v Done (match v_done v with
                                    | Some c => if max <? c then Some c else None
                                    | None => None
                                    end)
           | _ => v
           end)
  | RPOP_pending => (None, v)
  | ZRANGEBYSCORE _ _ _ => ([], v)
  | LPUSH Orphans _ => (tt, v)
  | LPUSH_error _ _ | LTRIM_error _ _ | PEXPIRE_error _ _ | DEL_error _ => (tt, v)
  | HINCRBY_counter _ _ | HSET_counter _ _ | HINCRBY_reason _ _ => (tt, v)
  end.

(** Commands that concern job [id] only (or no job); pruning the done set at
    the retention boundary is allowed. *)
Definition targets (id : string) {R} (c : cmd R) : Prop :=
  match c with
  | EXISTS_job i | HGET_job i _ | HSET_job i _ | HDEL_job i _ | HINCRBY_job i _ _
  | PEXPIRE_job i _ | DEL_job i | LPUSH Pending i | ZADD _ _ i | ZREM _ i => i = id
  | ZREMRANGEBYSCORE Done max => max = t - keep
  | RPOP_pending | ZRANGEBYSCORE _ _ _ | ZREMRANGEBYSCORE _ _ => False
  | _ => True
  end.

Definition reply_ok {R} (c : cmd R) : R -> Prop :=
  match c with TIME => fun r => r = t | _ => fun _ => True end.

Fixpoint only (id : string) {A} (p : prog A) : Prop :=
  match p with
  | Ret _ | LuaError => True
  | Call c k => targets id c /\ forall r, reply_ok c r -> only id (k r)
  end.

(** What a script naming another job may do to this one: its done entry may be
    pruned when it is past retention. *)
Definition pruned (v v' : jview) : Prop :=
  v' = v \/ (v' = vset_z v Done None /\ exists c, v_done v = Some c /\ c <= t - keep).

Lemma pruned_trans v1 v2 v3 : pruned v1 v2 -> pruned v2 v3 -> pruned v1 v3.
Proof.
  intros [->|(-> & c & Hc & Hle)] [->|(-> & c' & Hc' & Hle')]; simpl in *; try done.
  - by left.
  - right. split; [done|]. eauto.
  - right. split; [done|]. eauto.
Qed.

(** [s] agrees with [s0] except on job [id], which looks like [v]. *)
Definition focus (s0 : rstate) (id : string) (v : jview) (s : rstate) : Prop :=
  clock s = t /\ look s id = v /\ forall id', id' <> id -> pruned (look s0 id') (look s id').

Lemma occurs_cons_ne id x l : x <> id -> occurs id (x :: l) = occurs id l.
Proof. intros H. simpl. by apply String.eqb_neq in H as ->. Qed.

Lemma look_put_hash s id h : look (put_hash s id h) id = vput (look s id) h.
Proof.
  unfold put_hash, vput, look. destruct (decide (h = ∅)); simpl;
    by rewrite ?lookup_delete_eq, ?lookup_insert_eq.
Qed.

Lemma look_put_hash_ne s id id' h : id' <> id -> look (put_hash s id h) id' = look s id'.
Proof.
  intros Hne. unfold put_hash, look. destruct (decide (h = ∅)); simpl;
    by rewrite ?lookup_delete_ne, ?lookup_insert_ne by done.
Qed.

Lemma clock_put_hash s id h : clock (put_hash s id h) = clock s.
Proof. unfold put_hash. by destruct (decide (h = ∅)). Qed.

Lemma vhash_look s id : vhash (look s id) = hash_of s id.
Proof. done. Qed.

Lemma look_set_zset s k m id :
  look (set_zset s k m) id = vset_z (look s id) k (m !! id).
Proof. unfold look, set_zset. by destruct k. Qed.

Lemma vset_z_same v k : vset_z v k (match k with Scheduled => v_sched v | Processing => v_proc v
                                    | Dead => v_dead v | Done => v_done v end) = v.
Proof. by destruct v, k. Qed.

Lemma look_zset_ne s k m id : m !! id = zsets s k !! id -> look (set_zset s k m) id = look s id.
Proof. intros H. rewrite look_set_zset, H. by destruct k. Qed.

Ltac by_eta := match goal with |- ?v = _ => by destruct v end.

Lemma prune_lookup (m : gmap string Z) max id :
  filter (fun p : string * Z => max < p.2) m !! id =
    match m !! id with Some c => if max <? c then Some c else None | None => None end.
Proof.
  rewrite map_lookup_filter. destruct (m !! id) as [c|]; simpl; [|done].
  destruct (Z.ltb_spec max c); [by rewrite option_guard_True|].
  rewrite option_guard_False; [done|simpl; lia].
Qed.

(** One command: the reply and the new view are those of [lx]. *)
Lemma focus_step s0 id v s {R} (c : cmd R) :
  focus s0 id v s -> targets id c ->
  fst (exec c s) = fst (lx c v) /\ focus s0 id (snd (lx c v)) (snd (exec c s)).
Proof.
  intros (Ht & Hv & Ho) Htg. subst v.
  assert (Hsame : forall s', clock s' = clock s -> look s' id = look s id ->
    (forall id', id' <> id -> look s' id' = look s id') ->
    focus s0 id (look s id) s').
  { intros s' Hc Hl Hx. split_and!; [congruence|done|]. intros id' Hne. rewrite Hx by done. by apply Ho. }
  assert (Hput : forall h, focus s0 id (vput (look s id) h) (put_hash s id h)).
  { intros h. split_and!; [by rewrite clock_put_hash|by rewrite look_put_hash|].
    intros id' Hne. rewrite look_put_hash_ne by done. by apply Ho. }
  assert (Hz : forall k m o, m !! id = o -> (forall id', id' <> id -> m !! id' = zsets s k !! id') ->
    focus s0 id (vset_z (look s id) k o) (set_zset s k m)).
  { intros k m o Hm Hx. split_and!; [done|by rewrite look_set_zset, Hm|].
    intros id' Hne. rewrite look_zset_ne by (by apply Hx). by apply Ho. }
  assert (Hjobs : forall j e h x, j !! id = h -> e !! id = x ->
    (forall id', id' <> id -> j !! id' = jobs s !! id' /\ e !! id' = jobs_ttl s !! id') ->
    focus s0 id (vset_hash (look s id) h x) (set_jobs s j e)).
  { intros j e h x Hj He Hx. split_and!; [done|unfold look; simpl; by rewrite Hj, He|].
    intros id' Hne. specialize (Ho id' Hne). destruct (Hx id' Hne) as [E1 E2].
    unfold look in *. simpl. by rewrite E1, E2. }
  destruct c; simpl in Htg |- *; subst; try (split; [done|by apply Hsame]); try done;
    try (split; [done|by apply Hput]).
  - rewrite vhash_look. destruct (hash_of s id !! f) as [[|z]|];
      (split; [done|]); [by apply Hsame|by apply Hput..].
  - split; [done|]. destruct (decide (is_Some (jobs s !! id))); [|by apply Hsame].
    apply Hjobs; [done|rewrite lookup_insert_eq; congruence|]. intros. by rewrite lookup_insert_ne by done.
  - split; [done|]. apply Hjobs; [by rewrite lookup_delete_eq..|].
    intros. by rewrite !lookup_delete_ne by done.
  - split; [done|]. apply Hsame; destruct (errors s !! id0) as [l|]; try done;
      by destruct (if stop <? 0 then _ else _).
  - split; [done|]. apply Hsame; by destruct (decide (is_Some (errors s !! id0))).
  - destruct k; simpl; subst; [|split; [done|by apply Hsame]]. split; [done|].
    split_and!; [done|unfold look; simpl; by rewrite String.eqb_refl|].
    intros id' Hne. specialize (Ho id' Hne). unfold look. simpl.
    by rewrite (proj2 (String.eqb_neq id id')) by done.
  - split; [done|]. apply Hz; [by rewrite lookup_insert_eq|]. intros. by rewrite lookup_insert_ne.
  - split; [done|]. apply Hz; [by rewrite lookup_delete_eq|]. intros. by rewrite lookup_delete_ne.
  - destruct k; try done. subst. split; [done|]. split_and!; [done| |].
    + rewrite look_set_zset, prune_lookup. done.
    + intros id' Hne. rewrite look_set_zset, prune_lookup. apply pruned_trans with (look s id'); [by apply Ho|].
      destruct (zsets s Done !! id') as [c|] eqn:E.
      * destruct (Z.ltb_spec (t - keep) c); [left; unfold look; simpl; by rewrite E|].
        right. split; [done|]. exists c. split; [done|lia].
      * left. unfold look. simpl. by rewrite E.
Qed.

(** A whole script: reply and new view are those of running it on the view. *)
Lemma focus_run s0 id {A} (p : prog A) v s :
  focus s0 id v s -> only id p ->
  fst (run_model p s) = fst (run (fun R => @lx R) p v) /\
  focus s0 id (snd (run (fun R => @lx R) p v)) (snd (run_model p s)).
Proof.
  revert v s. induction p as [a| |R c k IH]; intros v s Hf Ho; simpl in *; [done..|].
  destruct Ho as [Ht Hk]. destruct (focus_step s0 id v s c Hf Ht) as [Hr Hf'].
  assert (Hok : reply_ok c (fst (exec c s))).
  { clear -Hf. destruct Hf as [Hc _]. by destruct c. }
  destruct (exec c s) as [r s'], (lx c v) as [r' v']. simpl in *. subst r'. apply IH; auto.
Qed.

Lemma focus_self s id : clock s = t -> focus s id (look s id) s.
Proof. intros H. split_and!; [done|done|]. intros. by left. Qed.
End Focus.

(* ------------------------------------------------------------------ *)
(** ** The invariant of one job *)

(** The fields every admitted job keeps for its whole life. *)
Record job_fields (h : hash) (a m : Z) : Prop := {
  jf_attempts : h !! "attempts" = Some (FI a);
  jf_max : h !! "max_attempts" = Some (FI m);
  jf_nonneg : 0 <= a;
  jf_payload : exists p, h !! "payload" = Some (FS p);
  jf_checksum : exists c, h !! "checksum" = Some (FS c);
  jf_enqueued : exists e, h !! "enqueued_at_ms" = Some (FI e);
}.

(** A done-set entry whose retention is over: left for the next
    acknowledgement to prune. *)
Definition spent (t keep : Z) (dn : option Z) : Prop :=
  match dn with Some c => c + keep < t | None => True end.

(** Exactly one home per admitted job, with the status and the attempt count
    that go with it; a job the keyspace does not know is in none.  A done-set
    entry within its retention belongs to a done job; past it, it may be left
    over next to any job. *)
Inductive good (t keep : Z) : jview -> Prop :=
| good_absent dn : spent t keep dn -> good t keep (mkV None None 0 None None None dn)
| good_pending h a m dn :
    job_fields h a m -> h !! "status" = Some (FS "pending") \/ h !! "status" = Some (FS "scheduled") ->
    a < Z.max 1 m -> spent t keep dn -> good t keep (mkV (Some h) None 1 None None None dn)
| good_scheduled h a m at_ms dn :
    job_fields h a m -> h !! "status" = Some (FS "scheduled") -> a < Z.max 1 m ->
    spent t keep dn -> good t keep (mkV (Some h) None 0 (Some at_ms) None None dn)
| good_processing h a m d w c dn :
    job_fields h a m -> h !! "status" = Some (FS "processing") -> 1 <= a <= Z.max 1 m ->
    h !! "claimed_by" = Some (FS w) -> h !! "claim_id" = Some (FS c) ->
    h !! "lease_deadline_ms" = Some (FI d) -> spent t keep dn ->
    good t keep (mkV (Some h) None 0 None (Some d) None dn)
| good_dead h a m d dn :
    job_fields h a m -> h !! "status" = Some (FS "dead") -> 1 <= a <= Z.max 1 m ->
    spent t keep dn -> good t keep (mkV (Some h) None 0 None None (Some d) dn)
| good_done h a m c dn :
    job_fields h a m -> h !! "status" = Some (FS "done") -> 1 <= a <= Z.max 1 m ->
    c <= t <= c + keep -> dn = Some c \/ (dn = None /\ c + keep <= t) ->
    good t keep (mkV (Some h) (Some (c + keep)) 0 None None None dn).

Definition all_good (keep : Z) (s : rstate) : Prop :=
  forall id, good (clock s) keep (look s id).

Lemma good_pruned t keep v v' : good t keep v -> pruned t keep v v' -> good t keep v'.
Proof.
  intros Hg [->|(-> & c & Hc & Hle)]; [done|].
  destruct Hg; simpl in *; try (by econstructor; eauto; exact I).
  apply (good_done t keep h a m c0); try done.
  right. split; [done|]. destruct H3 as [->|[-> ?]]; [|done]. simplify_eq. lia.
Qed.

(** The script on one job keeps that job, and so all jobs, good. *)
Lemma all_good_step keep s id {A} (p : prog A) :
  all_good keep s -> only (clock s) keep id p ->
  (forall v, good (clock s) keep v ->
     good (clock s) keep (snd (run (fun R => @lx (clock s) R) p v))) ->
  all_good keep (snd (run_model p s)) /\ clock (snd (run_model p s)) = clock s.
Proof.
  intros Hs Ho Hp. destruct (focus_run (clock s) keep s id p (look s id) s) as [_ (Hc & Hv & Hx)];
    [by apply focus_self|done|].
  split; [|done]. intros i. rewrite Hc. destruct (decide (i = id)) as [->|Hne].
  - rewrite Hv. by apply Hp.
  - eapply good_pruned; [apply Hs|by apply Hx].
Qed.

(** Executing a script on a view: lookups in the updated hash are decided. *)
Ltac lookups :=
  repeat match goal with
  | H : job_fields _ _ _ |- _ => destruct H
  | H : exists _, _ |- _ => destruct H
  end.

Lemma vput_insert v h f x : vput v (<[f := x]> h) = vset_hash v (Some (<[f := x]> h)) (v_ttl v).
Proof. unfold vput. rewrite decide_False; [done|]. apply insert_non_empty. Qed.

Lemma vput_kept v h f x : h !! f = Some x -> vput v h = vset_hash v (Some h) (v_ttl v).
Proof. intros H. unfold vput. rewrite decide_False; [done|]. intros ->. by rewrite lookup_empty in H. Qed.

Lemma hdel_lookup h fs f : str_mem f fs = false -> hdel h fs !! f = h !! f.
Proof.
  revert h. induction fs as [|g fs IH]; intros h Hm; simpl in *; [done|].
  apply orb_false_iff in Hm as [Hg Hm]. rewrite IH by done.
  apply String.eqb_neq in Hg. by rewrite lookup_delete_ne.
Qed.

Lemma job_fields_insert h a m f x :
  str_mem f ["attempts"; "max_attempts"; "payload"; "checksum"; "enqueued_at_ms"] = false ->
  job_fields h a m -> job_fields (<[f := x]> h) a m.
Proof.
  intros Hf [H1 H2 H3 H4 H5 H6]. simpl in Hf.
  repeat (apply orb_false_iff in Hf as [?%String.eqb_neq Hf]).
  split; rewrite ?lookup_insert_ne by done; done.
Qed.

Lemma job_fields_hdel h a m fs :
  existsb (fun f => str_mem f fs) ["attempts"; "max_attempts"; "payload"; "checksum"; "enqueued_at_ms"]
    = false ->
  job_fields h a m -> job_fields (hdel h fs) a m.
Proof.
  intros Hf [H1 H2 H3 H4 H5 H6]. simpl in Hf.
  repeat (apply orb_false_iff in Hf as [? Hf]).
  split; rewrite ?hdel_lookup by done; done.
Qed.

Lemma job_fields_attempts h a m n : 0 <= n -> job_fields h a m ->
  job_fields (<["attempts" := FI n]> h) n m.
Proof. intros Hn [H1 H2 H3 H4 H5 H6]. split; rewrite ?lookup_insert_eq, ?lookup_insert_ne by done; done. Qed.

(* ------------------------------------------------------------------ *)
(** ** The fence *)

(** Who holds the live claim. *)
Definition holds (v : jview) (worker claim_id : string) : bool :=
  match v_hash v with
  | Some h => is_str_field (h !! "status") "processing" &&
              is_str_field (h !! "claimed_by") worker && is_str_field (h !! "claim_id") claim_id
  | None => false
  end.

Definition fence (v : jview) (worker claim_id : string) : Outcome :=
  if holds v worker claim_id then OK
  else match v_hash v with Some _ => STALE | None => GONE end.

(** The outcome of a refused call: a retained done record answers [GONE]. *)
Definition refusal (v : jview) : Outcome :=
  match v_hash v with
  | Some h => if is_str_field (h !! "status") "done" then GONE else STALE
  | None => GONE
  end.

Lemma vhash_some v h : v_hash v = Some h -> vhash v = h.
Proof. unfold vhash. by intros ->. Qed.

Section Local.
Context (t keep : Z).
Notation lrun := (run (fun R => @lx t R)).

Lemma lrun_bind {A B} (p : prog A) (f : A -> prog B) v :
  lrun (mbind f p) v =
    match lrun p v with (Some a, v') => lrun (f a) v' | (None, v') => (None, v') end.
Proof. apply run_bind. Qed.

Lemma lrun_owner id w c v : lrun (owner_check id w c) v = (Some (fence v w c), v).
Proof.
  unfold fence, holds, owner_check. cbn.
  destruct (v_hash v) as [h|] eqn:E; cbn; [|done]. rewrite (vhash_some v h E).
  destruct (is_str_field (h !! "status") "processing"); cbn; [|done]. rewrite (vhash_some v h E).
  destruct (is_str_field (h !! "claimed_by") w); cbn; [|done]. rewrite (vhash_some v h E).
  by destruct (is_str_field (h !! "claim_id") c).
Qed.

Lemma lrun_refused id k w c v : holds v w c = false ->
  lrun (refused id k (fence v w c)) v = (Some (refusal v), v).
Proof.
  intros Hh. unfold refused, refusal, fence. rewrite Hh. cbn.
  destruct (v_hash v) as [h|] eqn:E; [|done]. rewrite (vhash_some v h E).
  rewrite bool_decide_true by done. by destruct (is_str_field (h !! "status") "done").
Qed.

(** A fenced script: refused without a trace on the job, or its body. *)
Lemma lrun_fenced {A} id w c (body : prog A) (refuse : Outcome -> prog A) r v :
  (holds v w c = false -> lrun (refuse (fence v w c)) v = (Some r, v)) ->
  lrun (ok ← owner_check id w c;
        if negb (bool_decide (ok = OK)) then refuse ok else body) v =
    if holds v w c then lrun body v else (Some r, v).
Proof.
  intros Hr. rewrite lrun_bind, lrun_owner. destruct (holds v w c) eqn:E.
  - unfold fence. by rewrite E.
  - rewrite bool_decide_false; [by apply Hr|]. unfold fence. rewrite E. by destruct (v_hash v).
Qed.

Lemma holds_inv v w c : good t keep v -> holds v w c = true ->
  exists h a m d dn, v = mkV (Some h) None 0 None (Some d) None dn /\ job_fields h a m /\
    h !! "status" = Some (FS "processing") /\ 1 <= a <= Z.max 1 m /\ spent t keep dn.
Proof.
  intros Hg. unfold holds, is_str_field. destruct Hg as [|h a m dn ? [Hs|Hs]|h a m d dn ? Hs
    |h a m d w' c' dn ? Hs|h a m d dn ? Hs|h a m c' dn ? Hs]; simpl; try done; rewrite Hs; try done.
  intros _. by exists h, a, m, d, dn.
Qed.

(** The views a job moves through. *)
Definition vproc (h : hash) (d : Z) (dn : option Z) : jview := mkV (Some h) None 0 None (Some d) None dn.

Lemma vput_hdel v h fs x : h !! "status" = Some x -> str_mem "status" fs = false ->
  vput v (hdel h fs) = vset_hash v (Some (hdel h fs)) (v_ttl v).
Proof. intros Hs Hm. apply (vput_kept v _ "status" x). by rewrite hdel_lookup. Qed.

(** Symbolic execution of a script body on a view. *)
Ltac vstep := cbn -[hdel claim_fields lookup]; rewrite ?vput_insert; cbn -[hdel claim_fields lookup].

Lemma ack_body_local id result h a m d dn :
  spent t keep dn -> job_fields h a m -> h !! "status" = Some (FS "processing") -> 1 <= a <= Z.max 1 m ->
  exists v', lrun (ack_body id result keep) (vproc h d dn) = (Some OK, v') /\ good t keep v' /\
    v_hash v' = (if 0 <? keep then v_hash v' else None) /\
    (0 < keep -> exists h', v_hash v' = Some h' /\ h' !! "status" = Some (FS "done") /\
       v_ttl v' = Some (t + keep) /\ v_done v' = Some t).
Proof.
  intros Hdn Hj Hs Ha. unfold ack_body, vproc. destruct (Z.ltb_spec 0 keep) as [Hk|Hk].
  - set (h1 := <["completed_at_ms" := FI t]> (<["status" := FS "done"]> (hdel h claim_fields))).
    assert (Hj1 : job_fields h1 a m).
    { by apply job_fields_insert, job_fields_insert, job_fields_hdel. }
    assert (Hs1 : h1 !! "status" = Some (FS "done")) by (unfold h1; by simplify_map_eq).
    assert (Hlt : (t - keep <? t) = true) by (apply Z.ltb_lt; lia).
    destruct (str_true result); vstep; rewrite (vput_hdel _ h _ _ Hs) by done; vstep;
      rewrite Hlt; vstep.
    + eexists. split; [done|]. fold h1. split; [|split; [done|]].
      * apply (good_done t keep _ a m t); [by apply job_fields_insert|by simplify_map_eq|done|lia|by left].
      * intros _. eexists. split_and!; try done. by simplify_map_eq.
    + eexists. split; [done|]. fold h1. split; [|split; [done|]].
      * apply (good_done t keep h1 a m t); [done|done|done|lia|by left].
      * intros _. by eexists.
  - vstep. eexists. split_and!; [done|by constructor|done|lia].
Qed.

Lemma holds_full v w c : good t keep v -> holds v w c = true ->
  exists h a m d dn, v = vproc h d dn /\ job_fields h a m /\
    h !! "status" = Some (FS "processing") /\ 1 <= a <= Z.max 1 m /\
    h !! "claimed_by" = Some (FS w) /\ h !! "claim_id" = Some (FS c) /\
    h !! "lease_deadline_ms" = Some (FI d) /\ spent t keep dn.
Proof.
  intros Hg Hh. destruct (holds_inv v w c Hg Hh) as (h & a & m & d & dn & -> & Hj & Hs & Ha & Hdn).
  unfold holds, is_str_field in Hh. simpl in Hh. bool_hyps.
  repeat match goal with H : bool_decide _ = true |- _ => apply bool_decide_eq_true in H end.
  exists h, a, m, d, dn. split_and!; try done; try apply Ha.
  inversion Hg; simplify_eq; congruence.
Qed.

Lemma heartbeat_body_local id lease h a m d dn w c :
  spent t keep dn -> job_fields h a m -> h !! "status" = Some (FS "processing") -> 1 <= a <= Z.max 1 m ->
  h !! "claimed_by" = Some (FS w) -> h !! "claim_id" = Some (FS c) ->
  exists v', lrun (heartbeat_body id lease) (vproc h d dn) = (Some OK, v') /\ good t keep v' /\
    v_proc v' = Some (t + lease) /\ holds v' w c = true.
Proof.
  intros Hdn Hj Hs Ha Hw Hc. unfold heartbeat_body, vproc. vstep. eexists. split; [done|].
  split; [|split; [done|]].
  - apply (good_processing t keep _ a m _ w c); try done; [|by simplify_map_eq..].
    by apply job_fields_insert.
  - unfold holds, is_str_field. simpl. simplify_map_eq. by rewrite !bool_decide_true.
Qed.

(** The hash a failed or reaped attempt leaves, by where the job goes. *)
Definition dead_hash (h : hash) (reason : string) (escalate : Z) : hash :=
  hset (hdel h claim_fields) [("status", FS "dead"); ("dead_at_ms", FI t);
                              ("dead_reason", FS reason); ("escalate", FI escalate)].
Definition retry_hash (h : hash) (at_ms : Z) : hash :=
  hset (hdel h claim_fields) [("status", FS "scheduled"); ("next_retry_at_ms", FI at_ms)].

Lemma job_fields_after h a m fvs :
  forallb (fun p => negb (str_mem p.1 ["attempts"; "max_attempts"; "payload"; "checksum"; "enqueued_at_ms"]))
    fvs = true ->
  job_fields h a m -> job_fields (hset h fvs) a m.
Proof.
  revert h. induction fvs as [|[f x] fvs IH]; intros h Hf Hj; [done|].
  simpl in Hf. apply andb_true_iff in Hf as [Hf%negb_true_iff Hr].
  apply IH; [done|]. by apply job_fields_insert.
Qed.

Lemma dead_hash_good h a m reason e dn :
  spent t keep dn -> job_fields h a m -> 1 <= a <= Z.max 1 m ->
  good t keep (mkV (Some (dead_hash h reason e)) None 0 None None (Some t) dn).
Proof.
  intros Hdn Hj Ha. apply (good_dead t keep _ a m); [|unfold dead_hash; by simplify_map_eq|done|done].
  by apply job_fields_after, job_fields_hdel.
Qed.

(** What [fail] decides for attempt [a] of [m]. *)
Definition fail_verdict (retryable : bool) (a m base_ms max_ms jitter : Z) : Outcome * option Z :=
  if negb retryable || (m <=? a) then (DEAD, None)
  else (SCHEDULED, Some (backoff_of base_ms max_ms jitter a)).

Lemma fail_body_local id worker reason detail retryable base mx jitter ekeep h a m d dn :
  spent t keep dn -> job_fields h a m -> h !! "status" = Some (FS "processing") -> 1 <= a <= Z.max 1 m ->
  let r := fail_verdict retryable a m base mx jitter in
  exists v', lrun (fail_body id worker reason detail retryable base mx jitter ekeep) (vproc h d dn)
      = (Some r, v') /\ good t keep v' /\
    (fst r = DEAD -> v_dead v' = Some t /\
       vhash v' !! "dead_reason" = Some (FS reason) /\
       vhash v' !! "escalate" = Some (FI (if String.eqb reason "unclassified" then 1 else 0))) /\
    (fst r = SCHEDULED -> v_sched v' = Some (t + backoff_of base mx jitter a)).
Proof.
  intros Hdn Hj Hs Ha r. pose proof (jf_attempts h a m Hj) as H1. pose proof (jf_max h a m Hj) as H2.
  set (e := if String.eqb reason "unclassified" then 1 else 0).
  assert (Hdead : good t keep (mkV (Some (dead_hash h reason e)) None 0 None None (Some t) dn))
    by (by eapply dead_hash_good).
  assert (Hr1 : dead_hash h reason e !! "dead_reason" = Some (FS reason)) by (unfold dead_hash; by simplify_map_eq).
  assert (Hr2 : dead_hash h reason e !! "escalate" = Some (FI e)) by (unfold dead_hash; by simplify_map_eq).
  unfold fail_body, vproc, r, fail_verdict. destruct retryable; cbn [negb orb].
  - vstep. rewrite H1, H2, (vput_hdel _ h _ _ Hs) by done. cbn [tonumber].
    destruct (Z.leb_spec m a).
    + vstep. eexists. split; [done|]. fold e. split; [exact Hdead|].
      split; [intros _; by split_and!|done].
    + vstep. eexists. split; [done|]. split; [|split; [done|]; done].
      apply (good_scheduled t keep (retry_hash h _) a m); [|unfold retry_hash; by simplify_map_eq|lia|done].
      by apply job_fields_after, job_fields_hdel.
  - vstep. rewrite (vput_hdel _ h _ _ Hs) by done. vstep.
    eexists. split; [done|]. fold e. split; [exact Hdead|]. split; [intros _; by split_and!|done].
Qed.

Lemma reap_one_local now ekeep id h a m d dn :
  now = t -> spent t keep dn ->
  job_fields h a m -> h !! "status" = Some (FS "processing") -> 1 <= a <= Z.max 1 m ->
  exists v', lrun (reap_one now ekeep id) (vproc h d dn)
      = (Some (if m <=? a then R_dead else R_requeued), v') /\ good t keep v' /\
    v_proc v' = None /\ is_Some (v_hash v').
Proof.
  intros -> Hdn Hj Hs Ha. pose proof (jf_attempts h a m Hj) as H1. pose proof (jf_max h a m Hj) as H2.
  unfold reap_one, vproc. vstep. rewrite H1, H2, (vput_hdel _ h _ _ Hs) by done. cbn [tonumber].
  destruct (Z.leb_spec m a); vstep; eexists; (split; [done|]); (split; [|done]).
  - by apply (dead_hash_good h a m "process_crash" 0 dn).
  - apply (good_pending t keep _ a m); [|left; by simplify_map_eq|lia|done].
    by apply job_fields_insert, job_fields_hdel.
Qed.

Lemma enqueue_local id payload checksum max v :
  good t keep v ->
  exists v', lrun (enqueue_script id payload checksum max) v =
    (Some (match v_hash v with Some h => (false, h !! "status") | None => (true, Some (FS "pending")) end), v')
    /\ good t keep v' /\ (is_Some (v_hash v) -> v' = v) /\
    (v_hash v = None -> v_pend v' = 1%nat /\
       vhash v' !! "payload" = Some (FS payload) /\ vhash v' !! "checksum" = Some (FS checksum)).
Proof.
  intros Hg. unfold enqueue_script. destruct (v_hash v) as [h|] eqn:E.
  - cbn. rewrite E. rewrite bool_decide_true by done. cbn. rewrite (vhash_some v h E).
    eexists. by split_and!.
  - inversion Hg as [dn Hdn Hv| | | | |]; subst; try done. vstep.
    eexists. split; [done|]. split; [|split; [by intros [? ?]|intros _; split_and!; [done|by simplify_map_eq..]]].
    apply (good_pending t keep _ 0 max); [|left; by simplify_map_eq|lia|done].
    split; [by simplify_map_eq..|done| | |]; eexists; by simplify_map_eq.
Qed.

Lemma requeue_dead_local id v :
  good t keep v ->
  exists v' o, lrun (requeue_dead_script id) v = (Some o, v') /\ good t keep v' /\
    (is_Some (v_dead v) -> o = OK /\ v_dead v' = None /\ v_pend v' = 1%nat /\
       vhash v' !! "attempts" = Some (FI 0)) /\
    (v_dead v = None -> o <> OK /\ v' = v).
Proof.
  intros Hg. unfold requeue_dead_script, is_str_field.
  destruct Hg as [dn|h a m dn ? [Hs|Hs]|h a m d dn ? Hs|h a m d w' c' dn ? Hs|h a m d dn Hj Hs|h a m c' dn ? Hs];
    vstep; rewrite ?Hs; vstep;
    try (do 2 eexists; split; [done|]; split; [by econstructor; eauto|by split; [intros [? ?]|]]).
  rewrite bool_decide_false, bool_decide_true by done. vstep.
  rewrite (vput_hdel _ _ _ (FS "pending")) by (done || by simplify_map_eq).
  vstep. set (h1 := hdel _ _).
  assert (h1 !! "attempts" = Some (FI 0) /\ h1 !! "status" = Some (FS "pending")) as [H1 H2].
  { unfold h1. rewrite !hdel_lookup by done. by simplify_map_eq. }
  do 2 eexists. split; [done|]. split; [|split; [intros _; by split_and!|done]].
  apply (good_pending t keep _ 0 m); [|by left|lia|done].
  apply job_fields_hdel, (job_fields_attempts _ a); [done|lia|]. by apply job_fields_insert.
Qed.

(** Promotion: with and without the status write. *)
Lemma promote_one_local id v at_ms : good t keep v -> v_sched v = Some at_ms ->
  exists v', lrun (promote_one id) v = (Some tt, v') /\ good t keep v' /\ v_hash v' = v_hash v /\
    v_pend v' = 1%nat /\ v_sched v' = None.
Proof.
  intros Hg Hv. destruct Hg; simplify_eq. unfold promote_one. vstep. eexists.
  split; [done|]. split; [|done]. apply (good_pending t keep _ a m); auto.
Qed.

Lemma promote_due_one_local id v at_ms : good t keep v -> v_sched v = Some at_ms ->
  exists v', lrun (promote_due_one id) v = (Some tt, v') /\ good t keep v' /\ is_Some (v_hash v') /\
    v_pend v' = 1%nat /\ vhash v' !! "status" = Some (FS "pending").
Proof.
  intros Hg Hv. destruct Hg; simplify_eq. unfold promote_due_one. vstep. eexists.
  split; [done|]. split; [|split_and!; [by eexists|done|unfold vhash; simpl; by simplify_map_eq]].
  apply (good_pending t keep _ a m); [by apply job_fields_insert|left; by simplify_map_eq|done|done].
Qed.

(** Leasing a job just taken off the pending list. *)
Lemma lease_local id worker claim_id now lease h a m dn :
  now = t -> spent t keep dn -> job_fields h a m -> 0 <= a < Z.max 1 m ->
  exists v' p k e, lrun (lease_job id worker claim_id now lease) (mkV (Some h) None 0 None None None dn)
      = (Some (Some (mkClaimReply id (Some (FS p)) (Some (FS k)) (a + 1) (Some (FI e)) (t + lease))), v') /\
    h !! "payload" = Some (FS p) /\ h !! "checksum" = Some (FS k) /\
    good t keep v' /\ v_proc v' = Some (t + lease) /\ holds v' worker claim_id = true.
Proof.
  intros -> Hdn Hj Ha. destruct (jf_payload _ _ _ Hj) as [p Hp]. destruct (jf_checksum _ _ _ Hj) as [k Hk].
  destruct (jf_enqueued _ _ _ Hj) as [e He]. pose proof (jf_attempts h a m Hj) as H1.
  unfold lease_job. vstep. rewrite H1. vstep. simplify_map_eq.
  do 4 eexists. split; [done|]. split_and!; try done.
  - apply (good_processing t keep _ (a + 1) m _ worker claim_id); try by simplify_map_eq.
    + do 5 (apply job_fields_insert; [done|]). apply (job_fields_attempts _ a); [lia|done].
    + lia.
  - unfold holds, is_str_field. simpl. simplify_map_eq. by rewrite !bool_decide_true.
Qed.
End Local.
