(* ===== verification/QueueSafe.v ===== *)
(** * QueueSafe: the queue's guarantees over all interleavings

    Scripts run atomically, so every history of ingress, workers, reaper and
    operators is a sequence of scripts and clock ticks.  The theorems hold in
    every state such a sequence reaches, on every [Redis] store. *)

From S2P Require Import Prelude PyFloat PyValue Redis Queue QueueInv.
Local Open Scope Z_scope.

(* ------------------------------------------------------------------ *)
(** ** Scripts of one job *)

Lemma only_bind t keep id {A B} (p : prog A) (f : A -> prog B) :
  only t keep id p -> (forall a, only t keep id (f a)) -> only t keep id (mbind f p).
Proof. intros Hp Hf. induction p as [a| |R c k IH]; simpl in *; [done..|]. naive_solver. Qed.

Lemma only_now t keep id {B} (f : Z -> prog B) :
  only t keep id (f t) -> only t keep id (mbind f now_ms).
Proof. intros Hf. simpl. split; [done|]. intros r ->. done. Qed.

Ltac only_script :=
  repeat first
    [ apply only_bind; intros
    | split; [done|]; intros
    | match goal with |- only _ _ _ (match ?x with _ => _ end) => destruct x end
    | exact I ].

Section Only.
Context (t keep : Z) (id : string).
Notation only := (only t keep id).

Lemma only_owner w c : only (owner_check id w c).
Proof. unfold owner_check. only_script. Qed.

Lemma only_refused k o : only (refused id k o).
Proof. unfold refused. only_script. Qed.

Lemma only_dead reason now e : only (dead_letter id reason now e).
Proof. unfold dead_letter. only_script. Qed.

Lemma only_record a r d w at_ms k : only (record_error id a r d w at_ms k).
Proof. unfold record_error. only_script. Qed.

Lemma only_retry at_ms : only (schedule_retry id at_ms).
Proof. unfold schedule_retry. only_script. Qed.

Lemma only_enqueue p k m : only (enqueue_script id p k m).
Proof. unfold enqueue_script, now_ms. only_script. Qed.

Lemma only_requeue : only (requeue_dead_script id).
Proof. unfold requeue_dead_script. only_script. Qed.

Lemma only_promote : only (promote_one id).
Proof. unfold promote_one. only_script. Qed.

Lemma only_promote_due : only (promote_due_one id).
Proof. unfold promote_due_one. only_script. Qed.

Lemma only_lease w c now lease : only (lease_job id w c now lease).
Proof. unfold lease_job. only_script. Qed.

Lemma only_heartbeat w c lease : only (heartbeat_script id w c lease).
Proof.
  unfold heartbeat_script, heartbeat_body, now_ms.
  apply only_bind; [apply only_owner|]. intros o. destruct (negb _); [apply only_refused|]. only_script.
Qed.

Lemma only_fail w c r d b bm mx j k : only (fail_script id w c r d b bm mx j k).
Proof.
  unfold fail_script, fail_body, now_ms. apply only_bind; [apply only_owner|]. intros o.
  destruct (negb _); [apply only_bind; [apply only_refused|done]|].
  only_script; try apply only_record; try apply only_dead; try apply only_retry.
Qed.

Lemma only_reap_one now k : only (reap_one now k id).
Proof.
  unfold reap_one. only_script; try apply only_record; try apply only_dead.
Qed.

(** Acknowledgement prunes the done set at the retention boundary of its own
    clock reading. *)
Lemma only_ack w c result : only (ack_script id w c result keep).
Proof.
  unfold ack_script, ack_body. apply only_bind; [apply only_owner|]. intros o.
  destruct (negb _); [apply only_refused|]. apply only_now. only_script. 
Qed.
End Only.


(* ------------------------------------------------------------------ *)
(** ** From one job to the keyspace *)

(** The script keeps the invariant and the clock, and, where done records are
    retained, every admitted job. *)
Definition safe (keep : Z) (s s' : rstate) : Prop :=
  all_good keep s' /\ clock s' = clock s /\
  (0 < keep -> forall id, is_Some (jobs s !! id) -> is_Some (jobs s' !! id)).

Lemma safe_refl keep s : all_good keep s -> safe keep s s.
Proof. intros H. unfold safe. by split_and!. Qed.

Lemma safe_trans keep s1 s2 s3 : safe keep s1 s2 -> safe keep s2 s3 -> safe keep s1 s3.
Proof. intros (? & ? & ?) (? & ? & ?). split_and!; [done|congruence|auto]. Qed.

Lemma pruned_hash t keep v v' : pruned t keep v v' -> v_hash v' = v_hash v.
Proof. by intros [->|[-> _]]. Qed.

(** Running a one-job script: the other jobs at most lose a spent done entry. *)
Lemma run_one keep s id {A} (p : prog A) r v' :
  (forall i, i <> id -> good (clock s) keep (look s i)) -> only (clock s) keep id p ->
  run (fun R => @lx (clock s) R) p (look s id) = (r, v') -> good (clock s) keep v' ->
  (0 < keep -> is_Some (jobs s !! id) -> is_Some (v_hash v')) ->
  exists s', run_model p s = (r, s') /\ safe keep s s' /\ look s' id = v' /\
    forall i, i <> id -> pruned (clock s) keep (look s i) (look s' i).
Proof.
  intros Hs Ho Hr Hg Hk.
  destruct (focus_run (clock s) keep s id p (look s id) s) as [Hf (Hc & Hv & Hx)];
    [by apply focus_self|done|].
  rewrite Hr in *. simpl in *. destruct (run_model p s) as [r' s'] eqn:E. simpl in *. subst r'.
  exists s'. split_and!; try done. split_and!; try done.
  - intros i. rewrite Hc. destruct (decide (i = id)) as [->|Hne].
    + by rewrite Hv.
    + eapply good_pruned; [by apply Hs|by apply Hx].
  - intros Hkeep i Hi. destruct (decide (i = id)) as [->|Hne].
    + change (is_Some (v_hash (look s' id))). rewrite Hv. by apply Hk.
    + change (is_Some (v_hash (look s' i))). by rewrite (pruned_hash _ _ _ _ (Hx i Hne)).
Qed.

(** Members of a zset range. *)
Lemma elem_of_zrange m max limit id :
  id ∈ zrange m max limit -> exists x, m !! id = Some x /\ x <= max.
Proof.
  unfold zrange. intros Hin.
  assert (Hin' : id ∈ map fst (List.filter (fun p => snd p <=? max) (sort z_leb (map_to_list m)))).
  { unfold limited in Hin. destruct (limit <? 0); [done|].
    rewrite <- (take_drop (Z.to_nat limit)). apply elem_of_app. by left. }
  apply list_elem_of_fmap in Hin' as ([i x] & -> & Hp).
  apply list_elem_of_In, filter_In in Hp as [Hp Hle%Z.leb_le].
  apply list_elem_of_In, elem_of_sort, elem_of_map_to_list in Hp. by exists x.
Qed.

(** How many members are due at [max]. *)
Definition due_count (m : gmap string Z) (max : Z) : nat :=
  length (List.filter (fun p => snd p <=? max) (map_to_list m)).

Lemma filter_perm {A} (f : A -> bool) l1 l2 : l1 ≡ₚ l2 -> List.filter f l1 ≡ₚ List.filter f l2.
Proof.
  induction 1 as [|x l1 l2 _ IH|x y l|l1 l2 l3 _ IH1 _ IH2]; simpl; [done|..].
  - destruct (f x); by rewrite ?IH.
  - destruct (f x), (f y); (done || constructor).
  - by rewrite IH1.
Qed.

Lemma length_due m max :
  length (List.filter (fun p => snd p <=? max) (sort z_leb (map_to_list m))) = due_count m max.
Proof. apply Permutation_length, filter_perm, sort_perm. Qed.

Lemma zrange_complete m max limit id x :
  limit < 0 \/ Z.of_nat (due_count m max) <= limit -> m !! id = Some x -> x <= max -> id ∈ zrange m max limit.
Proof.
  intros Hl Hm Hx. unfold zrange.
  assert (Hin : id ∈ map fst (List.filter (fun p => snd p <=? max) (sort z_leb (map_to_list m)))).
  { apply list_elem_of_fmap. exists (id, x). split; [done|].
    apply list_elem_of_In, filter_In. split; [|by apply Z.leb_le].
    by apply list_elem_of_In, elem_of_sort, elem_of_map_to_list. }
  unfold limited. destruct (Z.ltb_spec limit 0); [done|]. rewrite take_ge; [done|].
  rewrite length_map, length_due. destruct Hl; lia.
Qed.

Lemma NoDup_zrange m max limit : NoDup (zrange m max limit).
Proof.
  unfold zrange. assert (Hn : NoDup (map fst (List.filter (fun p => snd p <=? max) (sort z_leb (map_to_list m))))).
  { assert (Hs : NoDup (map fst (sort z_leb (map_to_list m)))).
    { apply (NoDup_Permutation_proper _ (map fst (map_to_list m))).
      - apply Permutation_map, sort_perm.
      - apply NoDup_fst_map_to_list. }
    revert Hs. generalize (sort z_leb (map_to_list m)). intros l. induction l as [|[i x] l IH]; simpl; [done|].
    intros [Hn Hl]%NoDup_cons. destruct (x <=? max); simpl; [|by apply IH].
    constructor; [|by apply IH]. intros Hin. apply Hn.
    apply list_elem_of_fmap in Hin as (p & -> & Hp).
    apply list_elem_of_In, filter_In in Hp as [Hp _]. apply list_elem_of_fmap_2. by apply list_elem_of_In. }
  unfold limited. destruct (limit <? 0); [done|]. rewrite <- (take_drop (Z.to_nat limit)) in Hn.
  by apply NoDup_app in Hn as [? _].
Qed.

(** The promotion loops. *)
Section Promote.
Context (keep t : Z) (f : string -> prog unit).
Hypothesis f_only : forall id, only t keep id (f id).
Hypothesis f_local : forall id v x, good t keep v -> v_sched v = Some x ->
  exists v', run (fun R => @lx t R) (f id) v = (Some tt, v') /\ good t keep v' /\ is_Some (v_hash v') /\
    v_pend v' = 1%nat.

Lemma promote_all due s :
  clock s = t -> all_good keep s -> NoDup due -> (forall id, id ∈ due -> is_Some (v_sched (look s id))) ->
  exists s', run_model (for_each f due) s = (Some tt, s') /\ safe keep s s' /\
    (forall id, id ∈ due -> v_pend (look s' id) = 1%nat) /\
    (forall id, id ∉ due -> v_pend (look s' id) = v_pend (look s id)).
Proof.
  intros Ht. revert s Ht. induction due as [|id due IH]; intros s Ht Hs Hn Hd.
  - exists s. split_and!; [done|by apply safe_refl|set_solver|done].
  - apply NoDup_cons in Hn as [Hid Hn]. destruct (Hd id) as [x Hx]; [set_solver|].
    pose proof (Hs id) as Hg. rewrite Ht in Hg.
    destruct (f_local id _ x Hg Hx) as (v' & Hr & Hg' & Hh & Hp). subst t.
    destruct (run_one keep s id (f id) _ v' (fun i _ => Hs i) (f_only id) Hr Hg' (fun _ _ => Hh)) as (s1 & E & Hsf & Hv & Ho).
    destruct (IH s1) as (s' & E' & Hsf' & Hin & Hout); [apply Hsf|apply Hsf|done| |].
    + intros i Hi. assert (i <> id) by set_solver. specialize (Hd i).
      destruct (Ho i) as [->|[-> _]]; [done|apply Hd; set_solver..].
    + exists s'. cbn [for_each]. unfold mbind, prog_mbind. rewrite run_bind, E. split; [done|].
      split; [by eapply safe_trans|]. split.
      * intros i [->|Hi]%elem_of_cons; [|by apply Hin]. rewrite Hout by done. by rewrite Hv.
      * intros i Hi. apply not_elem_of_cons in Hi as [Hne Hi]. rewrite Hout by done.
        by destruct (Ho i Hne) as [->|[-> _]].
Qed.
End Promote.

(* ------------------------------------------------------------------ *)
(** ** Claiming *)

Lemma run_mbind {A B} (p : prog A) (f : A -> prog B) s :
  run_model (mbind f p) s =
    match run_model p s with (Some a, s') => run_model (f a) s' | (None, s') => (None, s') end.
Proof. apply run_bind. Qed.

(** Promotion puts due jobs behind the ones already waiting. *)
Lemma promote_frame due s :
  let s' := snd (run_model (for_each promote_one due) s) in
  pending s' = rev due ++ pending s /\ jobs s' = jobs s /\ clock s' = clock s.
Proof.
  revert s. induction due as [|id due IH]; intros s; [done|].
  cbn [for_each]. rewrite run_mbind. cbn.
  destruct (IH (set_lists (set_zset s Scheduled (delete id (zsets s Scheduled)))
    (id :: pending s) (orphans s))) as (-> & -> & ->). by rewrite <- app_assoc.
Qed.

Lemma occurs_snoc id l x : occurs id (l ++ [x]) = (occurs id l + (if String.eqb x id then 1 else 0))%nat.
Proof. induction l as [|y l IH]; simpl; [lia|]. rewrite IH. lia. Qed.

Lemma occurs_not_in id l : occurs id l = 0%nat <-> id ∉ l.
Proof.
  induction l as [|x l IH]; simpl; [set_solver|].
  destruct (String.eqb_spec x id) as [->|]; set_solver by lia.
Qed.

Lemma occurs_NoDup l : (forall id, occurs id l <= 1)%nat -> NoDup l.
Proof.
  induction l as [|x l IH]; intros H; [constructor|]. constructor.
  - apply occurs_not_in. specialize (H x). simpl in H. rewrite String.eqb_refl in H. lia.
  - apply IH. intros id. specialize (H id). simpl in H. lia.
Qed.

(** A waiting job has a hash, and is waiting once. *)
Lemma good_waiting t keep v : good t keep v -> (0 < v_pend v)%nat ->
  exists h a m dn, v = mkV (Some h) None 1 None None None dn /\ job_fields h a m /\ a < Z.max 1 m /\
    spent t keep dn.
Proof. intros Hg Hp. destruct Hg; simpl in Hp; try lia. by do 4 eexists. Qed.

Lemma scan_spec keep n s worker claim_id lease :
  all_good keep s ->
  exists r s', run_model (scan_pending (S n) worker claim_id (clock s) lease) s = (Some r, s') /\
    safe keep s s' /\
    match r with
    | None => pending s = [] /\ s' = s
    | Some cr =>
        last (pending s) = Some (cr_id cr) /\ cr_deadline cr = clock s + lease /\
        (exists h, jobs s !! cr_id cr = Some h /\
           cr_payload cr = h !! "payload" /\ cr_checksum cr = h !! "checksum" /\
           exists p k e, cr_payload cr = Some (FS p) /\ cr_checksum cr = Some (FS k) /\
             cr_enqueued cr = Some (FI e)) /\
        v_proc (look s' (cr_id cr)) = Some (clock s + lease) /\
        holds (look s' (cr_id cr)) worker claim_id = true
    end.
Proof.
  intros Hs. destruct (last (pending s)) as [y|] eqn:El.
  - apply last_Some in El as [l Ep]. pose proof (Hs y) as Hy.
    destruct (good_waiting _ _ _ Hy) as (h & a & m & dn & Hv & Hj & Ha & Hdn).
    { unfold look. simpl. rewrite Ep, occurs_snoc, String.eqb_refl. lia. }
    assert (Hh : jobs s !! y = Some h) by (by injection Hv).
    set (s1 := set_lists s l (orphans s)).
    assert (Hne : forall i, i <> y -> look s1 i = look s i).
    { intros i Hi. unfold look. simpl. rewrite Ep, occurs_snoc.
      by rewrite (proj2 (String.eqb_neq y i)), Nat.add_0_r by done. }
    assert (Hl1 : look s1 y = mkV (Some h) None 0 None None None dn).
    { unfold look in Hv |- *. simpl. rewrite Ep, occurs_snoc, String.eqb_refl in Hv.
      injection Hv as ? ? Ho ? ? ? ?. f_equal; try done. lia. }
    destruct (lease_local (clock s) keep y worker claim_id (clock s) lease h a m dn eq_refl Hdn Hj)
      as (v' & p & k & e & Hr & Hp & Hk & Hg & Hpr & Hho); [destruct Hj; lia|].
    rewrite <- Hl1 in Hr.
    assert (Hs1 : forall i, i <> y -> good (clock s1) keep (look s1 i))
      by (intros i Hi; rewrite Hne by done; apply Hs).
    assert (Hv' : 0 < keep -> is_Some (jobs s1 !! y) -> is_Some (v_hash v')).
    { intros _ _. unfold holds in Hho. by destruct (v_hash v'). }
    destruct (run_one keep s1 y _ _ v' Hs1 (only_lease _ _ _ _ _ _ _) Hr Hg Hv')
      as (s' & E & (Hsf & Hc & Hkeep) & Hlk & _).
    eexists _, s'. split.
    { simpl. unfold mbind, prog_mbind. simpl. rewrite Ep, last_snoc, length_app, Nat.add_sub, take_app_length.
      simpl. rewrite Hh, bool_decide_true by done. exact E. }
    split; [by split_and!|]. simpl. split_and!; try done.
    + exists h. split_and!; try done; try congruence. by do 3 eexists.
    + change (v_proc (look s' y) = Some (clock s + lease)). by rewrite Hlk.
    + by rewrite Hlk.
  - assert (Ep : pending s = []) by (by apply last_None in El).
    exists None, s. split; [|split; [by apply safe_refl|done]].
    simpl. unfold mbind, prog_mbind. simpl. by rewrite Ep.
Qed.

Lemma last_app_or {A} (l1 l2 : list A) :
  last (l1 ++ l2) = match last l2 with Some x => Some x | None => last l1 end.
Proof. rewrite last_app. by destruct (last l2). Qed.

(** A whole claim: the oldest waiting job, or the first due one when nothing
    waits, or nothing. *)
Lemma claim_spec keep s worker claim_id lease batch n :
  all_good keep s ->
  let due := zrange (zsets s Scheduled) (clock s) batch in
  exists r s', run_model (claim_script worker claim_id lease batch (Z.pos n)) s = (Some r, s') /\
    safe keep s s' /\
    match r with
    | None => pending s = [] /\ due = []
    | Some cr =>
        last (rev due ++ pending s) = Some (cr_id cr) /\ cr_deadline cr = clock s + lease /\
        (exists h, jobs s !! cr_id cr = Some h /\
           cr_payload cr = h !! "payload" /\ cr_checksum cr = h !! "checksum" /\
           exists p k e, cr_payload cr = Some (FS p) /\ cr_checksum cr = Some (FS k) /\
             cr_enqueued cr = Some (FI e)) /\
        v_proc (look s' (cr_id cr)) = Some (clock s + lease) /\
        holds (look s' (cr_id cr)) worker claim_id = true
    end.
Proof.
  intros Hs due.
  assert (Hloc : forall id v x, good (clock s) keep v -> v_sched v = Some x ->
    exists v', run (fun R => @lx (clock s) R) (promote_one id) v = (Some tt, v') /\
      good (clock s) keep v' /\ is_Some (v_hash v') /\ v_pend v' = 1%nat).
  { intros id v x Hg Hx. destruct (promote_one_local _ _ id v x Hg Hx) as (v' & ? & ? & Hh & ? & ?).
    exists v'. split_and!; try done. rewrite Hh. destruct Hg; try done; by eexists. }
  destruct (promote_all keep (clock s) promote_one (only_promote _ _) Hloc due s eq_refl Hs (NoDup_zrange _ _ _))
    as (s1 & E1 & Hsf1 & _ & _).
  { intros id Hin. destruct (elem_of_zrange _ _ _ _ Hin) as (x & Hx & _). unfold look. simpl. by exists x. }
  destruct (promote_frame due s) as (Hp & Hj & Hc). rewrite E1 in Hp, Hj, Hc. simpl in Hp, Hj, Hc.
    destruct (Pos2Nat.is_succ n) as [n' Hn'].
    destruct (scan_spec keep n' s1 worker claim_id lease (proj1 Hsf1)) as (r & s' & E & Hsf & Hr).
    exists r, s'. split.
    { unfold claim_script, now_ms. change (Z.to_nat (Z.pos n)) with (Pos.to_nat n).
      rewrite Hn', run_mbind. cbn [run redis exec]. rewrite run_mbind.
      cbn [run redis exec]. fold due. rewrite run_mbind, E1, <- Hc. exact E. }
    split; [by eapply safe_trans|]. rewrite Hc, Hp, Hj in Hr. destruct r; [done|].
    destruct Hr as [Hr _]. apply app_eq_nil in Hr as [Hr ->]. split; [done|].
    by apply (f_equal (@rev string)) in Hr; rewrite rev_involutive in Hr.
Qed.

(* ------------------------------------------------------------------ *)
(** ** Reaping *)

Lemma good_leased t keep v d : good t keep v -> v_proc v = Some d ->
  exists h a m dn, v = vproc h d dn /\ job_fields h a m /\
    h !! "status" = Some (FS "processing") /\ 1 <= a <= Z.max 1 m /\ spent t keep dn.
Proof. intros Hg Hd. destruct Hg; simpl in Hd; simplify_eq. by exists h, a, m, dn. Qed.

(** Every admitted job is still there. *)
Definition keeps (s s' : rstate) : Prop :=
  forall id, is_Some (jobs s !! id) -> is_Some (jobs s' !! id).

Lemma one_keeps t keep s s' id : is_Some (v_hash (look s' id)) ->
  (forall i, i <> id -> pruned t keep (look s i) (look s' i)) -> keeps s s'.
Proof.
  intros Hid Ho i Hi. destruct (decide (i = id)) as [->|Hne]; [done|].
  change (is_Some (v_hash (look s' i))). by rewrite (pruned_hash _ _ _ _ (Ho i Hne)).
Qed.

Lemma reap_all_spec keep ekeep l s :
  all_good keep s -> NoDup l -> (forall id, id ∈ l -> is_Some (v_proc (look s id))) ->
  exists out s', run_model (reap_all (clock s) ekeep l) s = (Some out, s') /\ safe keep s s' /\
    keeps s s' /\ map fst out = l /\ Forall (fun p => snd p <> R_orphan) out /\
    (forall id, id ∈ l -> v_proc (look s' id) = None) /\
    (forall id, id ∉ l -> v_proc (look s' id) = v_proc (look s id)).
Proof.
  revert s. induction l as [|id l IH]; intros s Hs Hn Hp.
  - exists [], s. split; [done|]. split; [by apply safe_refl|]. split; [by intros ? ?|].
    split_and!; try done; set_solver.
  - apply NoDup_cons in Hn as [Hid Hn]. destruct (Hp id) as [d Hd]; [set_solver|].
    destruct (good_leased _ _ _ d (Hs id) Hd) as (h & a & m & dn & Hv & Hj & Hst & Ha & Hdn).
    destruct (reap_one_local (clock s) keep (clock s) ekeep id h a m d dn eq_refl Hdn Hj Hst Ha)
      as (v' & Hr & Hg & Hnone & Hh). rewrite <- Hv in Hr.
    destruct (run_one keep s id _ _ v' (fun i _ => Hs i) (only_reap_one _ _ _ _ _) Hr Hg (fun _ _ => Hh))
      as (s1 & E1 & Hsf1 & Hl1 & Ho1).
    destruct (IH s1 (proj1 Hsf1) Hn) as (out & s' & E & Hsf & Hk & Hm & Hf & Hin & Hout).
    { intros i Hi. destruct (Ho1 i) as [->|[-> _]]; [set_solver|apply Hp; set_solver..]. }
    eexists (_ :: out), s'. split.
    { cbn [reap_all]. rewrite run_mbind, E1, run_mbind. destruct Hsf1 as (_ & <- & _). by rewrite E. }
    split; [by eapply safe_trans|]. split.
    { intros i Hi. apply Hk. eapply one_keeps; [|done|done]. by rewrite Hl1. }
    split; [simpl; by rewrite Hm|]. split; [constructor; [by destruct (m <=? a)|done]|]. split.
    + intros i [->|Hi]%elem_of_cons; [|by apply Hin]. by rewrite Hout, Hl1.
    + intros i Hi. apply not_elem_of_cons in Hi as [Hne Hi]. rewrite Hout by done.
      by destruct (Ho1 i Hne) as [->|[-> _]].
Qed.

(* ------------------------------------------------------------------ *)
(** ** Every script *)

(** The scripts [TransmissionQueue] runs, at one retention setting. *)
Inductive is_script (keep : Z) : forall {A}, prog A -> Prop :=
| sc_enqueue id payload checksum m : is_script keep (enqueue_script id payload checksum m)
| sc_claim w c lease batch : is_script keep (claim_script w c lease batch 8)
| sc_ack id w c result : is_script keep (ack_script id w c result keep)
| sc_fail id w c reason detail b base mx jitter ekeep :
    is_script keep (fail_script id w c reason detail b base mx jitter ekeep)
| sc_heartbeat id w c lease : is_script keep (heartbeat_script id w c lease)
| sc_promote batch : is_script keep (promote_due_script batch)
| sc_reap batch ekeep : is_script keep (reap_script batch ekeep)
| sc_requeue id : is_script keep (requeue_dead_script id).

(** The fenced scripts on one view. *)
Lemma ack_local t keep id w c result v : good t keep v ->
  exists r v', run (fun R => @lx t R) (ack_script id w c result keep) v = (Some r, v') /\
    good t keep v' /\ (0 < keep -> is_Some (v_hash v) -> is_Some (v_hash v')) /\
    r = (if holds v w c then OK else refusal v) /\ (holds v w c = false -> v' = v).
Proof.
  intros Hg. unfold ack_script.
  rewrite (lrun_fenced t id w c _ (refused id "stale_acks") (refusal v)) by apply lrun_refused.
  destruct (holds v w c) eqn:Eh; [|by do 2 eexists].
  destruct (holds_inv t keep v w c Hg Eh) as (h & a & m & d & dn & -> & Hj & Hs & Ha & Hdn).
  destruct (ack_body_local t keep id result h a m d dn Hdn Hj Hs Ha) as (v' & Hr & Hg' & _ & Hk).
  exists OK, v'. split_and!; try done. intros Hkeep _. destruct (Hk Hkeep) as (h' & -> & _). by eexists.
Qed.

Lemma fail_local t keep id w c reason detail b base mx jitter ekeep v : good t keep v ->
  exists r v', run (fun R => @lx t R) (fail_script id w c reason detail b base mx jitter ekeep) v
      = (Some r, v') /\ good t keep v' /\ (is_Some (v_hash v) -> is_Some (v_hash v')) /\
    (holds v w c = false -> r = (refusal v, None) /\ v' = v).
Proof.
  intros Hg. unfold fail_script.
  rewrite (lrun_fenced t id w c _ _ (refusal v, None));
    [|intros Hh; by rewrite lrun_bind, (lrun_refused t id _ w c v Hh)].
  destruct (holds v w c) eqn:Eh; [|by do 2 eexists].
  destruct (holds_inv t keep v w c Hg Eh) as (h & a & m & d & dn & -> & Hj & Hs & Ha & Hdn).
  destruct (fail_body_local t keep id w reason detail b base mx jitter ekeep h a m d dn Hdn Hj Hs Ha)
    as (v' & Hr & Hg' & Hd & Hsch).
  eexists _, v'. split_and!; try done. intros _.
  destruct (fail_verdict b a m base mx jitter) as [o ob] eqn:Ev. simpl in *.
  unfold fail_verdict in Ev. destruct (negb b || (m <=? a)); simplify_eq.
  - destruct (Hd eq_refl) as (Hv & _). destruct Hg'; simpl in Hv; simplify_eq; by eexists.
  - specialize (Hsch eq_refl). destruct Hg'; simpl in Hsch; simplify_eq; by eexists.
Qed.

Lemma heartbeat_local t keep id w c lease v : good t keep v ->
  exists r v', run (fun R => @lx t R) (heartbeat_script id w c lease) v = (Some r, v') /\
    good t keep v' /\ (is_Some (v_hash v) -> is_Some (v_hash v')) /\
    r = (if holds v w c then OK else refusal v) /\ (holds v w c = false -> v' = v) /\
    (holds v w c = true -> v_proc v' = Some (t + lease) /\ holds v' w c = true).
Proof.
  intros Hg. unfold heartbeat_script.
  rewrite (lrun_fenced t id w c _ (refused id "stale_heartbeats") (refusal v)) by apply lrun_refused.
  destruct (holds v w c) eqn:Eh; [|by do 2 eexists].
  destruct (holds_full t keep v w c Hg Eh) as (h & a & m & d & dn & -> & Hj & Hs & Ha & Hw & Hc & Hd & Hdn).
  destruct (heartbeat_body_local t keep id lease h a m d dn w c Hdn Hj Hs Ha Hw Hc) as (v' & Hr & Hg' & Hp & Hh).
  exists OK, v'. split_and!; try done. intros _. unfold holds in Hh. by destruct (v_hash v').
Qed.

Lemma local_safe keep s id {A} (p : prog A) :
  all_good keep s -> only (clock s) keep id p ->
  (forall v, good (clock s) keep v -> exists r v', run (fun R => @lx (clock s) R) p v = (Some r, v') /\
     good (clock s) keep v' /\ (0 < keep -> is_Some (v_hash v) -> is_Some (v_hash v'))) ->
  exists r s', run_model p s = (Some r, s') /\ safe keep s s'.
Proof.
  intros Hs Ho Hp. destruct (Hp (look s id) (Hs id)) as (r & v' & Hr & Hg & Hk).
  destruct (run_one keep s id p _ v' (fun i _ => Hs i) Ho Hr Hg Hk) as (s' & E & Hsf & _).
  by exists r, s'.
Qed.

(** Every script, run on good keyspace, returns and leaves it good. *)
Lemma script_safe keep {A} (p : prog A) s : is_script keep p -> all_good keep s ->
  exists r s', run_model p s = (Some r, s') /\ safe keep s s'.
Proof.
  intros Hp Hs. destruct Hp as [id pl k m|w c lease batch|id w c rs|id w c rn dt b bm mx j ek|id w c lease
    |batch|batch ek|id].
  - apply (local_safe keep s id); [done|apply only_enqueue|]. intros v Hg.
    destruct (enqueue_local (clock s) keep id pl k m v Hg) as (v' & Hr & Hg' & Hsame & _).
    do 2 eexists. split_and!; [done..|]. intros _ Hh. by rewrite (Hsame Hh).
  - destruct (claim_spec keep s w c lease batch 8 Hs) as (r & s' & E & Hsf & _). by exists r, s'.
  - apply (local_safe keep s id); [done|apply only_ack|]. intros v Hg.
    destruct (ack_local (clock s) keep id w c rs v Hg) as (r & v' & ? & ? & ? & _). by exists r, v'.
  - apply (local_safe keep s id); [done|apply only_fail|]. intros v Hg.
    destruct (fail_local (clock s) keep id w c rn dt b bm mx j ek v Hg) as (r & v' & ? & ? & ? & _).
    exists r, v'. by split_and!.
  - apply (local_safe keep s id); [done|apply only_heartbeat|]. intros v Hg.
    destruct (heartbeat_local (clock s) keep id w c lease v Hg) as (r & v' & ? & ? & ? & _).
    exists r, v'. by split_and!.
  - unfold promote_due_script, now_ms. set (due := zrange (zsets s Scheduled) (clock s) batch).
    assert (Hloc : forall id v x, good (clock s) keep v -> v_sched v = Some x ->
      exists v', run (fun R => @lx (clock s) R) (promote_due_one id) v = (Some tt, v') /\
        good (clock s) keep v' /\ is_Some (v_hash v') /\ v_pend v' = 1%nat).
    { intros id v x Hg Hx. destruct (promote_due_one_local _ _ id v x Hg Hx) as (v' & ? & ? & ? & ? & ?).
      by exists v'. }
    destruct (promote_all keep (clock s) promote_due_one (only_promote_due _ _) Hloc due s eq_refl Hs
      (NoDup_zrange _ _ _)) as (s1 & E1 & Hsf1 & _).
    { intros id Hin. destruct (elem_of_zrange _ _ _ _ Hin) as (x & Hx & _). unfold look. simpl. by exists x. }
    exists (Z.of_nat (length due)), s1. split; [|done].
    rewrite run_mbind. cbn [run redis exec]. rewrite run_mbind. cbn [run redis exec]. fold due.
    by rewrite run_mbind, E1.
  - unfold reap_script, now_ms. set (l := zrange (zsets s Processing) (clock s) batch).
    destruct (reap_all_spec keep ek l s Hs (NoDup_zrange _ _ _)) as (out & s' & E & Hsf & _).
    { intros id Hin. destruct (elem_of_zrange _ _ _ _ Hin) as (x & Hx & _). unfold look. simpl. by exists x. }
    exists out, s'. split; [|done]. rewrite run_mbind. cbn [run redis exec]. rewrite run_mbind. exact E.
  - apply (local_safe keep s id); [done|apply only_requeue|]. intros v Hg.
    destruct (requeue_dead_local (clock s) keep id v Hg) as (v' & o & ? & ? & Hd & Hn).
    exists o, v'. split_and!; [done..|]. intros _ Hh. destruct (v_dead v) as [d|] eqn:Ed.
    + destruct Hd as (_ & _ & _ & Hd); [by eexists|]. unfold vhash in Hd.
      destruct (v_hash v'); [by eexists|]. by rewrite lookup_empty in Hd.
    + by destruct (Hn eq_refl) as [_ ->].
Qed.

(** A clock tick only lets done records go. *)
Lemma look_expire t s id :
  look (expire t s) id =
    vset_hash (look s id) (if alive (jobs_ttl s) t id then jobs s !! id else None)
      (match jobs_ttl s !! id with Some e => if t <=? e then Some e else None | None => None end).
Proof.
  unfold look, expire, vset_hash. simpl. rewrite !map_lookup_filter. f_equal.
  - destruct (jobs s !! id); simpl; [|by destruct (alive _ _ _)].
    case_guard; destruct (alive (jobs_ttl s) t id); done.
  - destruct (jobs_ttl s !! id) as [e|]; simpl; [|done].
    destruct (Z.leb_spec t e); [by rewrite option_guard_True|].
    rewrite option_guard_False; [done|simpl; lia].
Qed.

Lemma expire_good keep t s : all_good keep s -> clock s <= t -> all_good keep (expire t s).
Proof.
  intros Hs Ht id. rewrite look_expire. unfold alive.
  change (jobs s !! id) with (v_hash (look s id)). change (jobs_ttl s !! id) with (v_ttl (look s id)).
  simpl clock. pose proof (Hs id) as Hg. revert Hg. generalize (look s id). intros v Hg.
  assert (Hspent : forall dn, spent (clock s) keep dn -> spent t keep dn)
    by (intros [c|]; simpl; [lia|done]).
  destruct Hg; simpl; try (by econstructor; eauto).
  destruct (Z.leb_spec t (c + keep)); simpl.
  2:{ constructor. destruct H3 as [->|[-> _]]; [simpl; lia|done]. }
  apply (good_done t keep h a m c); try done; [lia|]. destruct H3 as [?|[? ?]]; [by left|right; split; [done|lia]].
Qed.

(* ------------------------------------------------------------------ *)
(** ** Reachable states of any server *)

Section Reach.
Context {S : Type} `{Redis S} (keep : Z).

Definition fresh (r : rstate) : Prop :=
  jobs r = ∅ /\ jobs_ttl r = ∅ /\ pending r = [] /\ forall k, zsets r k = ∅.

Inductive reachable : S -> Prop :=
| reach_fresh s : fresh (view s) -> reachable s
| reach_script {A} (p : prog A) s : reachable s -> is_script keep p -> reachable (snd (run call p s))
| reach_tick t s : reachable s -> clock (view s) <= t -> reachable (tick t s).

Lemma reachable_good s : reachable s -> all_good keep (view s).
Proof.
  induction 1 as [s (Hj & Ht & Hp & Hz)|A p s Hr IH Hs|t s Hr IH Ht].
  - intros id. unfold look. rewrite Hj, Ht, Hp, !Hz, !lookup_empty. by constructor.
  - destruct (script_safe keep p (view s) Hs IH) as (r & s' & E & Hsf).
    pose proof (run_view p s) as Hv. rewrite E in Hv. injection Hv as _ ->. apply Hsf.
  - rewrite tick_documented. by apply expire_good.
Qed.

(** A script on a server is the script on its view. *)
Lemma run_on_view {A} (p : prog A) s r s' : run_model p (view s) = (r, s') ->
  fst (run call p s) = r /\ view (snd (run call p s)) = s'.
Proof. intros E. pose proof (run_view p s) as Hv. rewrite E in Hv. by injection Hv. Qed.

(** Every script returns, without a script error. *)
Lemma script_returns {A} (p : prog A) s : reachable s -> is_script keep p -> is_Some (fst (run call p s)).
Proof.
  intros Hr Hp. destruct (script_safe keep p (view s) Hp (reachable_good s Hr)) as (r & s' & E & _).
  destruct (run_on_view p s _ _ E) as [-> _]. by eexists.
Qed.

(** The five homes, as tests.  The done set is bounded by the retention: an
    entry counts until its retention is over. *)
Definition in_done (r : rstate) (id : string) : bool :=
  match zsets r Done !! id with Some c => clock r <=? c + keep | None => false end.

Definition homes (r : rstate) (id : string) : list bool :=
  [bool_decide (id ∈ pending r); bool_decide (is_Some (zsets r Scheduled !! id));
   bool_decide (is_Some (zsets r Processing !! id)); bool_decide (is_Some (zsets r Dead !! id));
   in_done r id].

(** A done record in the last millisecond of its retention, whose entry
    another acknowledgement has already pruned. *)
Definition leaving (r : rstate) (id : string) : Prop :=
  is_str_field (hash_of r id !! "status") "done" = true /\ jobs_ttl r !! id = Some (clock r) /\
  zsets r Done !! id = None /\ homes r id = repeat false 5.

Definition attempts_within (r : rstate) (id : string) : Prop :=
  exists a m, hash_of r id !! "attempts" = Some (FI a) /\
    hash_of r id !! "max_attempts" = Some (FI m) /\ 0 <= a <= Z.max 1 m.

Lemma pend_in r id : v_pend (look r id) = 0%nat <-> id ∉ pending r.
Proof. apply occurs_not_in. Qed.

Lemma good_homes r id : good (clock r) keep (look r id) ->
  match jobs r !! id with
  | None => homes r id = repeat false 5
  | Some _ => (length (List.filter (fun b => b) (homes r id)) = 1%nat \/ leaving r id) /\
              attempts_within r id
  end.
Proof.
  intros Hg. unfold leaving, homes, in_done, attempts_within, hash_of.
  assert (Hp : bool_decide (id ∈ pending r) = negb (v_pend (look r id) =? 0)%nat).
  { destruct (Nat.eqb_spec (v_pend (look r id)) 0) as [E|E]; rewrite pend_in in E.
    - by rewrite bool_decide_false.
    - rewrite bool_decide_true; [done|]. by destruct (decide (id ∈ pending r)). }
  rewrite Hp. clear Hp. unfold is_str_field.
  change (jobs r !! id) with (v_hash (look r id)).
  change (jobs_ttl r !! id) with (v_ttl (look r id)).
  change (zsets r Scheduled !! id) with (v_sched (look r id)).
  change (zsets r Processing !! id) with (v_proc (look r id)).
  change (zsets r Dead !! id) with (v_dead (look r id)).
  change (zsets r Done !! id) with (v_done (look r id)).
  generalize dependent (look r id). generalize (clock r). intros t v Hg.
  assert (Hspent : forall dn, spent t keep dn ->
    (match dn with Some c => t <=? c + keep | None => false end) = false)
    by (intros [c|]; simpl; [intros; by apply Z.leb_gt|done]).
  destruct Hg as [dn Hdn|h a m dn Hj Hs ? Hdn|h a m d dn Hj Hs ? Hdn|h a m d w' c' dn Hj Hs ? ? ? ? Hdn
    |h a m d dn Hj Hs ? Hdn|h a m c dn Hj Hs ? Hc Hdn]; simpl; [by rewrite (Hspent dn Hdn)|..];
    (split; [|exists a, m; destruct Hj; split_and!; try done; lia]);
    try (left; by rewrite (Hspent dn Hdn)).
  destruct Hdn as [->|[-> Hle]].
  - left. by rewrite (proj2 (Z.leb_le t (c + keep))) by lia.
  - right. rewrite Hs. split_and!; try done. f_equal. lia.
Qed.

(** C26 (every job in exactly one place): in every state the queue can reach, a
    known job is in exactly one of the pending list and the scheduled,
    processing, dead and done sets, once, within its attempt budget, where a
    done-set entry counts for as long as its retention lasts; the one exception
    is a done record at the very last millisecond of its retention whose entry
    was just pruned.  An unknown id is in none of them; and every script the
    queue runs next returns without a script error. *)
Theorem queue_invariant s : reachable s ->
  NoDup (pending (view s)) /\
  (forall id, match jobs (view s) !! id with
              | None => homes (view s) id = repeat false 5
              | Some _ => (length (List.filter (fun b => b) (homes (view s) id)) = 1%nat \/
                           leaving (view s) id) /\
                          attempts_within (view s) id
              end) /\
  (forall A (p : prog A), is_script keep p -> is_Some (fst (run call p s))).
Proof.
  intros Hr. pose proof (reachable_good s Hr) as Hg. split_and!.
  - apply occurs_NoDup. intros id. specialize (Hg id). unfold look in Hg.
    inversion Hg; lia.
  - intros id. exact (good_homes _ _ (Hg id)).
  - intros A p. by apply script_returns.
Qed.

(** C27 (no admitted job is lost): with done records retained, no script ever
    removes a known job, and the clock removes only a done one, after its
    retention. *)
Theorem no_job_lost s id : reachable s -> 0 < keep -> is_Some (jobs (view s) !! id) ->
  (forall A (p : prog A), is_script keep p -> is_Some (jobs (view (snd (run call p s))) !! id)) /\
  (forall t, clock (view s) <= t -> jobs (view (tick t s)) !! id = None ->
     is_str_field (hash_of (view s) id !! "status") "done" = true /\
     exists e, jobs_ttl (view s) !! id = Some e /\ e < t).
Proof.
  intros Hr Hk Hid. pose proof (reachable_good s Hr) as Hg. split.
  - intros A p Hp. destruct (script_safe keep p (view s) Hp Hg) as (r & s' & E & _ & _ & Hkeep).
    destruct (run_on_view p s _ _ E) as [_ ->]. by apply Hkeep.
  - intros t Ht. rewrite tick_documented. intros Hn.
    change (v_hash (look (expire t (view s)) id) = None) in Hn. rewrite look_expire in Hn. simpl in Hn.
    unfold alive in Hn. unfold hash_of, is_str_field.
    change (jobs (view s) !! id) with (v_hash (look (view s) id)) in *.
    change (jobs_ttl (view s) !! id) with (v_ttl (look (view s) id)) in *.
    specialize (Hg id). destruct Hg as [| | | | |h a m c dn ? Hs]; simpl in *; try done; try (by destruct Hid).
    rewrite Hs. split; [by rewrite bool_decide_true|]. exists (c + keep). split; [done|].
    destruct (Z.leb_spec t (c + keep)); [done|lia].
Qed.

(** The keyspace up to its counters. *)
Definition same_jobs (a b : rstate) : Prop :=
  jobs a = jobs b /\ jobs_ttl a = jobs_ttl b /\ errors a = errors b /\
  errors_ttl a = errors_ttl b /\ pending a = pending b /\ orphans a = orphans b /\
  zsets a = zsets b /\ clock a = clock b.

Lemma model_owner id w c s : run_model (owner_check id w c) s = (Some (fence (look s id) w c), s).
Proof.
  unfold fence, holds, owner_check, look. cbn. unfold hash_of.
  destruct (jobs s !! id) as [h|] eqn:E; cbn; [|done]. unfold hash_of. rewrite E.
  destruct (is_str_field (h !! "status") "processing"); cbn; [|done]. unfold hash_of. rewrite E.
  destruct (is_str_field (h !! "claimed_by") w); cbn; [|done]. unfold hash_of. rewrite E.
  by destruct (is_str_field (h !! "claim_id") c).
Qed.

Lemma model_refused id k w c s : holds (look s id) w c = false ->
  exists s', run_model (refused id k (fence (look s id) w c)) s = (Some (refusal (look s id)), s') /\
    same_jobs s' s.
Proof.
  intros Hh. unfold refused, refusal, fence. rewrite Hh. unfold look. cbn. unfold hash_of.
  destruct (jobs s !! id) as [h|] eqn:E; cbn.
  - rewrite bool_decide_true by done. destruct (is_str_field (h !! "status") "done"); cbn;
      eexists; (split; [done|]); by unfold same_jobs.
  - eexists. split; [done|]. by unfold same_jobs.
Qed.

Lemma model_fenced {A} id w c (body : prog A) (refuse : Outcome -> prog A) r s :
  holds (look s id) w c = false ->
  (exists s', run_model (refuse (fence (look s id) w c)) s = (Some r, s') /\ same_jobs s' s) ->
  exists s', run_model (ok ← owner_check id w c;
        if negb (bool_decide (ok = OK)) then refuse ok else body) s = (Some r, s') /\ same_jobs s' s.
Proof.
  intros Hh (s' & E & Hs). exists s'. split; [|done]. rewrite run_mbind, model_owner.
  rewrite bool_decide_false; [done|]. unfold fence. rewrite Hh. by destruct (v_hash _).
Qed.

(** A worker without the live claim changes nothing: whatever it asks, and
    whatever state the queue is in, the answer is STALE or GONE and no job,
    list, set or error trail differs afterwards. *)
Theorem stale_worker_changes_nothing s id w c : holds (look (view s) id) w c = false ->
  let o := refusal (look (view s) id) in
  (o = STALE \/ o = GONE) /\
  (forall result, let x := run call (ack_script id w c result keep) s in
     fst x = Some o /\ same_jobs (view (snd x)) (view s)) /\
  (forall reason detail b base mx jitter ekeep,
     let x := run call (fail_script id w c reason detail b base mx jitter ekeep) s in
     fst x = Some (o, None) /\ same_jobs (view (snd x)) (view s)) /\
  (forall lease, let x := run call (heartbeat_script id w c lease) s in
     fst x = Some o /\ same_jobs (view (snd x)) (view s)).
Proof.
  intros Hh o. split_and!.
  - unfold o, refusal. destruct (v_hash _) as [h|]; [|by right].
    destruct (is_str_field _ _); [by right|by left].
  - intros result. destruct (model_fenced id w c (ack_body id result keep) (refused id "stale_acks") o
      (view s) Hh) as (s' & E & Hs); [by apply model_refused|].
    cbv zeta. destruct (run_on_view (ack_script id w c result keep) s _ _ E) as [? ->]. done.
  - intros reason detail b base mx jitter ekeep.
    destruct (model_fenced id w c (fail_body id w reason detail b base mx jitter ekeep)
      (fun ok => o ← refused id "stale_fails" ok; Ret (o, None)) (o, None) (view s) Hh) as (s' & E & Hs).
    { destruct (model_refused id "stale_fails" w c (view s) Hh) as (s' & E & ?).
      exists s'. split; [|done]. by rewrite run_mbind, E. }
    cbv zeta. destruct (run_on_view (fail_script id w c reason detail b base mx jitter ekeep) s _ _ E) as [? ->]. done.
  - intros lease. destruct (model_fenced id w c (heartbeat_body id lease) (refused id "stale_heartbeats") o
      (view s) Hh) as (s' & E & Hs); [by apply model_refused|].
    cbv zeta. destruct (run_on_view (heartbeat_script id w c lease) s _ _ E) as [? ->]. done.
Qed.

(** C28 (a claim hands out one waiting job, exclusively): a claim returns nothing
    only when nothing waits and nothing is due; otherwise the oldest waiting
    job (or the first due retry), with the payload and checksum stored for it,
    under a lease that only this worker and claim id hold. *)
Theorem claim_exclusive s w c lease batch : reachable s ->
  let due := zrange (zsets (view s) Scheduled) (clock (view s)) batch in
  let x := run call (claim_script w c lease batch 8) s in
  (fst x = Some None /\ pending (view s) = [] /\ due = []) \/
  exists cr, fst x = Some (Some cr) /\
    last (rev due ++ pending (view s)) = Some (cr_id cr) /\
    cr_payload cr = hash_of (view s) (cr_id cr) !! "payload" /\
    cr_checksum cr = hash_of (view s) (cr_id cr) !! "checksum" /\
    is_Some (cr_payload cr) /\
    cr_deadline cr = clock (view s) + lease /\
    forall w' c', holds (look (view (snd x)) (cr_id cr)) w' c' = true <-> w' = w /\ c' = c.
Proof.
  intros Hr due. destruct (claim_spec keep (view s) w c lease batch 8 (reachable_good s Hr))
    as (r & s' & E & _ & Hcr). destruct (run_on_view _ _ _ _ E) as [E1 E2]. cbv zeta. rewrite E1, E2.
  destruct r as [cr|]; [right|left; by destruct Hcr].
  destruct Hcr as (Hl & Hd & (h & Hh & Hp & Hk & p & k & e & Hp' & _) & _ & Hho).
  exists cr. unfold hash_of. rewrite Hh. do 4 (split; [done|]).
  split; [rewrite Hp'; by eexists|]. split; [done|].
  intros w' c'. split; [|by intros [-> ->]]. unfold holds, is_str_field in *.
  destruct (v_hash _) as [h'|]; [|done]. intros Hw. bool_hyps.
  repeat match goal with H : bool_decide _ = true |- _ => apply bool_decide_eq_true in H end.
  split; congruence.
Qed.

(** Enqueue is idempotent: a known id is answered with its live status and
    no job changes; an unknown one is admitted once, pending, with exactly the
    payload and checksum given. *)
Theorem enqueue_idempotent s id payload checksum m :
  let x := run call (enqueue_script id payload checksum m) s in
  match jobs (view s) !! id with
  | Some h => fst x = Some (false, h !! "status") /\ same_jobs (view (snd x)) (view s)
  | None => fst x = Some (true, Some (FS "pending")) /\
      pending (view (snd x)) = id :: pending (view s) /\
      hash_of (view (snd x)) id !! "payload" = Some (FS payload) /\
      hash_of (view (snd x)) id !! "checksum" = Some (FS checksum) /\
      forall i, i <> id -> look (view (snd x)) i = look (view s) i
  end.
Proof.
  cbv zeta. destruct (run_model (enqueue_script id payload checksum m) (view s)) as [r s'] eqn:E.
  destruct (run_on_view _ s _ _ E) as [-> ->]. unfold enqueue_script in E. cbn in E.
  destruct (jobs (view s) !! id) as [h|] eqn:Ej.
  - rewrite bool_decide_true in E by done. cbn in E. unfold hash_of in E. simpl in E. rewrite Ej in E.
    injection E as <- <-. split; [done|]. by unfold same_jobs.
  - rewrite bool_decide_false in E by (by intros [? ?]). cbn in E. injection E as <- <-.
    split; [done|]. unfold put_hash. rewrite decide_False by apply insert_non_empty.
    split; [done|]. unfold hash_of. simpl. rewrite !lookup_insert_eq.
    split; [by simplify_map_eq|]. split; [by simplify_map_eq|].
    intros i Hne. unfold look. simpl. rewrite lookup_insert_ne by done.
    by rewrite (proj2 (String.eqb_neq id i)) by done.
Qed.

(** Failures are bounded and accounted for: a failure reported by the
    holder dead-letters the job, with the reason and the escalation flag for
    unclassified ones, exactly when it is not retryable or the attempt budget
    is spent; otherwise the retry is scheduled no later than the backoff cap
    plus jitter from now. *)
Theorem fail_bounded s id w c reason detail b base mx jitter ekeep :
  reachable s -> holds (look (view s) id) w c = true ->
  exists a m, hash_of (view s) id !! "attempts" = Some (FI a) /\
    hash_of (view s) id !! "max_attempts" = Some (FI m) /\ 1 <= a <= Z.max 1 m /\
  let x := run call (fail_script id w c reason detail b base mx jitter ekeep) s in
  let r' := view (snd x) in
  if negb b || (m <=? a)
  then fst x = Some (DEAD, None) /\ zsets r' Dead !! id = Some (clock (view s)) /\
       hash_of r' id !! "dead_reason" = Some (FS reason) /\
       hash_of r' id !! "escalate" = Some (FI (if String.eqb reason "unclassified" then 1 else 0))
  else exists bo, fst x = Some (SCHEDULED, Some bo) /\
       zsets r' Scheduled !! id = Some (clock (view s) + bo) /\
       bo = Z.min (base * 2 ^ (a - 1)) mx + jitter /\ bo <= mx + jitter.
Proof.
  intros Hr Hh. pose proof (reachable_good s Hr) as Hg. set (t := clock (view s)) in *.
  destruct (holds_inv t keep _ w c (Hg id) Hh) as (h & a & m & d & dn & Hl & Hj & Hs & Ha & Hdn).
  assert (Hid : jobs (view s) !! id = Some h) by (by injection Hl).
  exists a, m. unfold hash_of at 1 2. rewrite Hid. split; [apply Hj|]. split; [apply Hj|]. split; [done|].
  destruct (fail_body_local t keep id w reason detail b base mx jitter ekeep h a m d dn Hdn Hj Hs Ha)
    as (v' & Hrun & Hg' & Hd & Hsch).
  assert (Hlr : run (fun R => @lx t R) (fail_script id w c reason detail b base mx jitter ekeep)
      (look (view s) id) = (Some (fail_verdict b a m base mx jitter), v')).
  { unfold fail_script. rewrite (lrun_fenced t id w c _ _ (OK, None)); rewrite Hh; [|done].
    by rewrite Hl. }
  assert (Hkeep : 0 < keep -> is_Some (jobs (view s) !! id) -> is_Some (v_hash v')).
  { intros Hk0 _. destruct (fail_local t keep id w c reason detail b base mx jitter ekeep _ (Hg id))
      as (r0 & v0 & Hr0 & _ & Hk & _). rewrite Hlr in Hr0. injection Hr0 as <- <-.
    apply Hk. rewrite Hl. by eexists. }
  destruct (run_one keep (view s) id _ _ v' (fun i _ => Hg i) (only_fail _ _ _ _ _ _ _ _ _ _ _ _) Hlr Hg' Hkeep)
    as (s' & E & _ & Hlk & _).
  destruct (run_on_view _ _ _ _ E) as [-> ->]. cbv zeta. unfold fail_verdict in *.
  destruct (negb b || (m <=? a)).
  - destruct (Hd eq_refl) as (H1 & H2 & H3). rewrite <- Hlk in *. by split_and!.
  - specialize (Hsch eq_refl). rewrite <- Hlk in Hsch. exists (backoff_of base mx jitter a).
    split_and!; try done. unfold backoff_of. lia.
Qed.

(** C40 (the reaper leaves nothing behind): one reap whose batch is unlimited or
    at least the number of leases expired at that moment frees every job whose lease has passed, none becomes an orphan,
    and jobs whose lease is still running keep it. *)
Theorem reap_recovers_all s batch ekeep : reachable s ->
  batch < 0 \/ Z.of_nat (due_count (zsets (view s) Processing) (clock (view s))) <= batch ->
  let x := run call (reap_script batch ekeep) s in
  (exists out, fst x = Some out /\ Forall (fun p => snd p <> R_orphan) out) /\
  forall id d, zsets (view s) Processing !! id = Some d ->
    is_Some (jobs (view (snd x)) !! id) /\
    zsets (view (snd x)) Processing !! id = (if d <=? clock (view s) then None else Some d).
Proof.
  intros Hr Hb. pose proof (reachable_good s Hr) as Hg.
  set (l := zrange (zsets (view s) Processing) (clock (view s)) batch).
  destruct (reap_all_spec keep ekeep l (view s) Hg (NoDup_zrange _ _ _))
    as (out & s' & E & _ & Hk & _ & Hf & Hin & Hout).
  { intros id Hin. destruct (elem_of_zrange _ _ _ _ Hin) as (y & Hy & _). unfold look. simpl. by exists y. }
  assert (E' : run_model (reap_script batch ekeep) (view s) = (Some out, s')).
  { unfold reap_script, now_ms. rewrite run_mbind. cbn [run redis exec]. rewrite run_mbind. exact E. }
  cbv zeta. destruct (run_on_view _ s _ _ E') as [-> ->]. split; [by exists out|].
  intros id d Hd. split.
  - apply Hk. destruct (good_leased _ _ _ d (Hg id) Hd) as (h & ? & ? & ? & Hl & _).
    exists h. by injection Hl.
  - change (v_proc (look s' id) = if d <=? clock (view s) then None else Some d).
    destruct (Z.leb_spec d (clock (view s))) as [Hle|Hgt].
    + apply Hin. by apply (zrange_complete _ _ _ _ d).
    + rewrite Hout; [done|]. intros Hx. destruct (elem_of_zrange _ _ _ _ Hx) as (y & Hy & ?).
      simplify_eq. lia.
Qed.
End Reach.

(* ------------------------------------------------------------------ *)
(** ** Instances *)

Definition empty_store : rstate := mkR 1000 ∅ ∅ ∅ ∅ [] [] (fun _ => ∅) ∅ ∅.

(** Two jobs admitted; "a" claimed by worker "w1" under claim id "c1". *)
Definition day : Z := 86400000.
Definition admitted : rstate :=
  snd (run_model (enqueue_script "b" "{}" "sum" 2)
    (snd (run_model (enqueue_script "a" "{}" "sum" 2) empty_store))).
Definition claimed : rstate := snd (run_model (claim_script "w1" "c1" 30000 64 8) admitted).
Definition expired : rstate := expire 40000 claimed.

Lemma reachable_run keep {A} (p : prog A) (s : rstate) :
  reachable keep s -> is_script keep p -> reachable keep (snd (run_model p s)).
Proof. exact (reach_script keep p s). Qed.

Lemma reachable_admitted : reachable day admitted.
Proof.
  apply reachable_run; [|constructor]. apply reachable_run; [|constructor].
  apply reach_fresh. by split_and!.
Qed.

Lemma reachable_claimed : reachable day claimed.
Proof. apply reachable_run; [exact reachable_admitted|constructor]. Qed.

Lemma reachable_expired : reachable day expired.
Proof. refine (reach_tick day 40000 claimed reachable_claimed _). by vm_compute. Qed.

Definition acked : rstate := snd (run_model (ack_script "a" "w1" "c1" "" day) claimed).

Example claimed_homes :
  homes day claimed "a" = [false; false; true; false; false] /\
  homes day claimed "b" = [true; false; false; false; false] /\
  homes day acked "a" = [false; false; false; false; true].
Proof. by vm_compute. Qed.

Lemma reachable_acked : reachable day acked.
Proof. apply reachable_run; [exact reachable_claimed|constructor]. Qed.

Lemma acked_knows : jobs (view acked) !! "missing" = None /\ is_Some (jobs (view acked) !! "a").
Proof. split; [by vm_compute|]. apply (bool_decide_eq_true_1 _). by vm_compute. Qed.

Lemma queue_invariant_witness :
  NoDup (pending (view acked)) /\ homes day (view acked) "missing" = repeat false 5 /\
  (length (List.filter (fun b => b) (homes day (view acked) "a")) = 1%nat \/
   leaving day (view acked) "a").
Proof.
  destruct (queue_invariant day acked reachable_acked) as (H1 & H2 & _).
  destruct acked_knows as [E1 [h E2]]. pose proof (H2 "missing") as H3. rewrite E1 in H3.
  pose proof (H2 "a") as H4. rewrite E2 in H4. exact (conj H1 (conj H3 (proj1 H4))).
Defined.

Lemma claimed_knows_a : is_Some (jobs (view claimed) !! "a").
Proof. apply (bool_decide_eq_true_1 _). by vm_compute. Qed.

Lemma no_job_lost_witness :
  is_Some (jobs (view (snd (run call (ack_script "a" "w1" "c1" "" day) claimed))) !! "a").
Proof.
  exact (proj1 (no_job_lost day claimed "a" reachable_claimed eq_refl claimed_knows_a) _ _
    (sc_ack day "a" "w1" "c1" "")).
Defined.

Lemma stale_worker_changes_nothing_witness :
  same_jobs (view (snd (run call (ack_script "a" "w1" "c0" "" day) claimed))) (view claimed).
Proof.
  exact (proj2 (proj1 (proj2 (stale_worker_changes_nothing day claimed "a" "w1" "c0"
    ltac:(by vm_compute))) "")).
Defined.

Lemma claim_exclusive_witness :
  exists cr, fst (run call (claim_script "w2" "c2" 30000 64 8) claimed) = Some (Some cr) /\
    cr_id cr = "b".
Proof.
  destruct (claim_exclusive day claimed "w2" "c2" 30000 64 reachable_claimed) as [(E & _)|(cr & E & Hl & _)].
  - vm_compute in E. discriminate E.
  - exists cr. split; [exact E|]. enough (Some (cr_id cr) = Some "b") by congruence.
    rewrite <- Hl. by vm_compute.
Defined.

Lemma fail_bounded_witness :
  exists a m, hash_of claimed "a" !! "attempts" = Some (FI a) /\
    hash_of claimed "a" !! "max_attempts" = Some (FI m) /\ 1 <= a <= Z.max 1 m.
Proof.
  destruct (fail_bounded day claimed "a" "w1" "c1" "network_latency" "" true 1000 60000 0 5
    reachable_claimed ltac:(by vm_compute)) as (a & m & H1 & H2 & H3 & _).
  by exists a, m.
Defined.

Lemma reap_recovers_all_witness :
  zsets (view expired) Processing !! "a" = Some 31000 /\
  zsets (view (snd (run call (reap_script 100 5) expired))) Processing !! "a" = None.
Proof.
  assert (H : zsets (view expired) Processing !! "a" = Some 31000) by (by vm_compute).
  split; [exact H|]. rewrite (proj2 (proj2 (reap_recovers_all day expired 100 5 reachable_expired
    ltac:(right; by vm_compute)) "a" 31000 H)). by vm_compute.
Defined.
