(* ===== verification/QueueApi.v ===== *)
(** * QueueApi: the methods of TransmissionQueue

    Models the class of src/sentinel_os/queue_schema.py over any [Redis] store:
    the two constructor dialects, the methods that run the scripts of [Queue],
    and the read-only views.  [json.dumps], [json.loads] and the sha256 hex
    digest are parameters; random tokens, the jitter draw and clock readings
    are arguments.  A read-only method is a function of the keyspace. *)

From S2P Require Import Prelude PyFloat PyValue Redis Queue QueueInv QueueSafe.
Local Open Scope Z_scope.

(** What a method raises: a Python exception, a script error, or an index past
    the end of a reply. *)
Inductive queue_exn := QPy (e : pyexn) | QResponseError | QIndexError.

Inductive dialect := Original | Rebuild.

#[export] Instance dialect_eq_dec : EqDecision dialect.
Proof. solve_decision. Defined.

Record TransmissionQueue := mkQueue {
  q_dialect : dialect;
  q_name : string;
  q_prefix : string;
  q_max_attempts : Z;
  q_lease_ms : Z;
  q_base_backoff_ms : Z;
  q_max_backoff_ms : Z;
  q_jitter_ms : Z;
  q_promote_batch : Z;
  q_done_keep_ms : Z;
  q_error_trail_keep : Z;
}.

(** The constructor's keyword arguments, connection settings aside. *)
Record QueueArgs := mkArgs {
  a_name : option string;
  a_namespace : option string;
  a_max_attempts : option Z;
  a_lease_ms : option Z;
  a_lease_seconds : option float64;
  a_base_backoff_ms : option Z;
  a_backoff_base : option float64;
  a_max_backoff_ms : option Z;
  a_backoff_cap : option float64;
  a_jitter_ms : option Z;
  a_promote_batch : Z;
  a_error_trail_keep : option Z;
  a_done_keep_ms : Z;
}.

(** [int(seconds * 1000)] *)
Definition int_ms (seconds : float64) : result pyexn Z := float_to_int (fmul seconds (f_of_Z 1000)).

Definition ms_or (ms : option Z) (seconds : option float64) (default : result pyexn Z) : result pyexn Z :=
  match ms with
  | Some z => Ok z
  | None => match seconds with Some f => int_ms f | None => default end
  end.

Definition or_default {A} (o : option A) (d : A) : A := match o with Some x => x | None => d end.

Definition make_queue (a : QueueArgs) : result pyexn TransmissionQueue :=
  match a_namespace a, a_name a with
  | Some _, Some _ => Err ValueError
  | Some ns, None =>
      let max_attempts := or_default (a_max_attempts a) 3 in
      lease ← ms_or (a_lease_ms a) (a_lease_seconds a) (int_ms (f_of_Z 30));
      base ← ms_or (a_base_backoff_ms a) (a_backoff_base a) (int_ms (fdiv (f_of_Z 1) (f_of_Z 2)));
      mx ← ms_or (a_max_backoff_ms a) (a_backoff_cap a) (int_ms (f_of_Z 30));
      Ok (mkQueue Rebuild ns ns max_attempts lease base mx (or_default (a_jitter_ms a) 0)
            (a_promote_batch a) (a_done_keep_ms a)
            (or_default (a_error_trail_keep a) (max_attempts + 3)))
  | None, nm =>
      let name := if opt_true nm then or_empty nm else "v12" in
      let max_attempts := or_default (a_max_attempts a) 5 in
      base ← ms_or (a_base_backoff_ms a) (a_backoff_base a) (Ok 1000);
      mx ← ms_or (a_max_backoff_ms a) (a_backoff_cap a) (Ok 60000);
      Ok (mkQueue Original name ("sq:" +:+ name) max_attempts (or_default (a_lease_ms a) 30000)
            base mx (or_default (a_jitter_ms a) 250) (a_promote_batch a) (a_done_keep_ms a)
            (or_default (a_error_trail_keep a) (max_attempts + 3)))
  end.

Record ClaimedJob := mkClaimedJob {
  cj_id : string;
  cj_payload : pyval;
  cj_attempt : Z;
  cj_worker_id : string;
  cj_claim_id : string;
  cj_enqueued_at_ms : Z;
  cj_lease_deadline_ms : Z;
}.

(** Both dialect views of one enqueue. *)
Record EnqueueResult := mkEnqueueResult {
  en_job_id : string;
  en_created : bool;
  en_status : string;
  en_deduped : bool;
}.

Definition TOKEN_SEP : ascii := ascii_of_N 31.
Definition claim_token (worker claim_id : string) : string := worker +:+ String TOKEN_SEP claim_id.

(** [str(token).partition(sep)]: the worker and the claim id it carries. *)
Definition fence_from_token (job_id token : string) : ClaimedJob :=
  let '(w, c) := match split_at TOKEN_SEP token with Some p => p | None => (token, EmptyString) end in
  mkClaimedJob job_id (VDict []) 0 w c 0 0.

(** A job argument: the claimed job, or an id with a token. *)
Inductive job_arg := AJob (j : ClaimedJob) | AId (id : string).

(** What the two dialects answer. *)
Inductive answer := AOutcome (o : Outcome) | ABool (b : bool).

Record rebuild_claim := mkRebuildClaim {
  rc_job : ClaimedJob;
  rc_max_attempts : option Z;
  rc_claim_token : string;
  rc_created_at : float64;
  rc_lease_expires_at : float64;
}.

(** [z / 1000.0] *)
Definition seconds_of (z : Z) : float64 := fdiv (f_of_Z z) (f_of_Z 1000).

Section Api.
Context {S : Type} `{Redis S}.
Variable dumps : dict pyval -> string.
Variable loads : string -> result pyexn pyval.
Variable sha256 : string -> string.
Variable q : TransmissionQueue.

(** Run a script: a Lua error is raised as a response error. *)
Definition invoke {A} (p : prog A) (s : S) : S * result queue_exn A :=
  match run call p s with
  | (Some a, s') => (s', Ok a)
  | (None, s') => (s', Err QResponseError)
  end.

Definition enqueue (payload : option (dict pyval)) (job_id : option string) (uuid : string)
    (max_attempts : option Z) (s : S) : S * result queue_exn EnqueueResult :=
  match payload with
  | None => (s, Err (QPy TypeError))
  | Some payload =>
      let jid := if opt_true job_id then or_empty job_id else uuid in
      let body := dumps payload in
      let m := match max_attempts with Some n => if n =? 0 then q_max_attempts q else n
               | None => q_max_attempts q end in
      match invoke (enqueue_script jid body (sha256 body) m) s with
      | (s', Ok (created, Some (FS status))) =>
          (s', Ok (mkEnqueueResult jid created status (negb created)))
      | (s', Ok (_, _)) => (s', Err (QPy AttributeError))
      | (s', Err e) => (s', Err e)
      end
  end.

Inductive claim_step := Got (j : ClaimedJob) | Drained | NothingReady.

Definition mismatch_detail (body stored actual : string) : string :=
  "payload checksum mismatch: stored " +:+ String.substring 0 12 stored +:+ ".. actual " +:+
  String.substring 0 12 actual +:+ ".. (" +:+ string_of_N (N.of_nat (String.length body)) +:+ " bytes)".

(** One turn of the claim loop. *)
Definition claim_once (worker claim_id : string) (lease : Z) (s : S) : S * result queue_exn claim_step :=
  match invoke (claim_script worker claim_id lease (q_promote_batch q) 8) s with
  | (s1, Err e) => (s1, Err e)
  | (s1, Ok None) => (s1, Ok NothingReady)
  | (s1, Ok (Some cr)) =>
      match cr_payload cr, cr_checksum cr, cr_enqueued cr with
      | Some (FS body), Some (FS stored), Some (FI enq) =>
          let actual := sha256 body in
          if negb (String.eqb actual stored) then
            match invoke (fail_script (cr_id cr) worker claim_id (reason_value DATA_CORRUPTION)
                    (mismatch_detail body stored actual) false (q_base_backoff_ms q)
                    (q_max_backoff_ms q) 0 (q_error_trail_keep q)) s1 with
            | (s2, Err e) => (s2, Err e)
            | (s2, Ok _) =>
                match invoke (redis (HINCRBY_counter "corrupt_payloads" 1)) s2 with
                | (s3, Err e) => (s3, Err e)
                | (s3, Ok _) => (s3, Ok Drained)
                end
            end
          else
            match loads body with
            | Err e => (s1, Err (QPy e))
            | Ok payload =>
                (s1, Ok (Got (mkClaimedJob (cr_id cr) payload (cr_attempts cr) worker claim_id enq
                                (cr_deadline cr))))
            end
      | _, _, _ => (s1, Err QIndexError)
      end
  end.

(** The claim loop: one claim id and clock reading per turn; [None] while it is
    still polling when the readings run out. *)
Fixpoint claim_loop (worker : string) (lease : Z) (deadline : float64)
    (turns : list (string * float64)) (s : S) : S * option (result queue_exn (option ClaimedJob)) :=
  match turns with
  | [] => (s, None)
  | (claim_id, now) :: turns =>
      match claim_once worker claim_id lease s with
      | (s', Err e) => (s', Some (Err e))
      | (s', Ok (Got j)) => (s', Some (Ok (Some j)))
      | (s', Ok Drained) => claim_loop worker lease deadline turns s'
      | (s', Ok NothingReady) =>
          if fleb deadline now then (s', Some (Ok None))
          else claim_loop worker lease deadline turns s'
      end
  end.

Definition lease_of (lease_ms : option Z) (lease_seconds : option float64) : result pyexn Z :=
  match lease_ms, lease_seconds with
  | None, Some f => int_ms f
  | Some z, _ => Ok z
  | None, None => Ok (q_lease_ms q)
  end.

Definition claim (worker : string) (lease_ms : option Z) (lease_seconds : option float64)
    (wait_timeout_s start : float64) (turns : list (string * float64)) (s : S)
    : S * option (result queue_exn (option ClaimedJob)) :=
  match lease_of lease_ms lease_seconds with
  | Err e => (s, Some (Err (QPy e)))
  | Ok lease =>
      let wait := if fltb fzero wait_timeout_s then wait_timeout_s else fzero in
      claim_loop worker lease (fadd start wait) turns s
  end.

(** The rebuild dialect's shape of a claimed job. *)
Definition claim_view (j : ClaimedJob) (s : S) : rebuild_claim :=
  mkRebuildClaim j
    (match hash_of (view s) (cj_id j) !! "max_attempts" with Some (FI m) => Some m | _ => None end)
    (claim_token (cj_worker_id j) (cj_claim_id j))
    (seconds_of (cj_enqueued_at_ms j)) (seconds_of (cj_lease_deadline_ms j)).

Definition answer_of (r_style : bool) (o : Outcome) : answer :=
  if r_style then ABool (bool_decide (o = OK)) else AOutcome o.

Definition ack (job : job_arg) (token : option string) (result_ : option (dict pyval)) (s : S)
    : S * result queue_exn answer :=
  let go fence r_style :=
    let body := match result_ with Some d => dumps d | None => EmptyString end in
    match invoke (ack_script (cj_id fence) (cj_worker_id fence) (cj_claim_id fence) body
                    (q_done_keep_ms q)) s with
    | (s', Ok o) => (s', Ok (answer_of r_style o))
    | (s', Err e) => (s', Err e)
    end in
  match job, token with
  | AJob j, _ => go j false
  | AId id, Some t => go (fence_from_token id t) true
  | AId _, None => (s, Err (QPy TypeError))
  end.

(** What [fail] answers: the original's pair, or the rebuild's word. *)
Inductive fail_answer := FPair (o : Outcome) (backoff : option Z) | FScheduled | FDead | FFenced.

Definition rebuild_word (o : Outcome) : fail_answer :=
  match o with SCHEDULED => FScheduled | DEAD => FDead | _ => FFenced end.

(** [secrets.randbelow(jitter_ms + 1) if jitter_ms else 0] from a draw. *)
Definition jitter_draw (draw : Z) : result pyexn Z :=
  if q_jitter_ms q =? 0 then Ok 0
  else if q_jitter_ms q + 1 <=? 0 then Err ValueError
  else Ok (draw mod (q_jitter_ms q + 1)).

(** [str(reason)] of a positional token argument. *)
Definition token_text (a : reason_arg) : option string :=
  match a with
  | AName s => Some s
  | AReason r => Some ("Reason." +:+
      match r with
      | NETWORK_LATENCY => "NETWORK_LATENCY" | SERVICE_INTERRUPTION => "SERVICE_INTERRUPTION"
      | DATA_CORRUPTION => "DATA_CORRUPTION" | PROCESS_CRASH => "PROCESS_CRASH"
      | DB_CONNECTION_LOSS => "DB_CONNECTION_LOSS" | DISK_EXHAUSTION => "DISK_EXHAUSTION"
      | UNCLASSIFIED => "UNCLASSIFIED" end)
  | ANone => None
  end.

Definition name_arg (o : option string) : reason_arg :=
  match o with Some s => AName s | None => ANone end.

Definition fail (job : job_arg) (reason : reason_arg) (detail r_error : option string)
    (retryable : option bool) (token error : option string) (draw : Z) (s : S)
    : S * result queue_exn fail_answer :=
  let go fence r_style f_reason f_detail retryable :=
    match jitter_draw draw with
    | Err e => (s, Err (QPy e))
    | Ok jitter =>
        match invoke (fail_script (cj_id fence) (cj_worker_id fence) (cj_claim_id fence)
                (reason_value f_reason) (String.substring 0 2000 f_detail) retryable
                (q_base_backoff_ms q) (q_max_backoff_ms q) jitter (q_error_trail_keep q)) s with
        | (s', Err e) => (s', Err e)
        | (s', Ok (o, backoff)) =>
            (s', Ok (if (r_style : bool) then rebuild_word o else FPair o backoff))
        end
    end in
  match job with
  | AJob j =>
      let r := reason_from_any reason in
      go j false r (or_empty detail) (or_default retryable (RETRYABLE_DEFAULT r))
  | AId id =>
      match (match token with Some t => Some t | None => token_text reason end) with
      | None => (s, Err (QPy TypeError))
      | Some t =>
          let r := reason_from_any (match token with None => name_arg detail | Some _ => reason end) in
          let d := match token with None => r_error | Some _ => detail end in
          let d := if opt_true d then or_empty d else or_empty error in
          go (fence_from_token id t) true r d (or_default retryable true)
      end
  end.

Definition heartbeat (job : job_arg) (token : option string) (lease_ms : option Z)
    (lease_seconds : option float64) (s : S) : S * result queue_exn answer :=
  let go fence r_style :=
    match lease_of lease_ms lease_seconds with
    | Err e => (s, Err (QPy e))
    | Ok lease =>
        match invoke (heartbeat_script (cj_id fence) (cj_worker_id fence) (cj_claim_id fence) lease) s with
        | (s', Ok o) => (s', Ok (answer_of r_style o))
        | (s', Err e) => (s', Err e)
        end
    end in
  match job, token with
  | AJob j, _ => go j false
  | AId id, Some t => go (fence_from_token id t) true
  | AId _, None => (s, Err (QPy TypeError))
  end.

Definition promote_due (batch : option Z) (s : S) : S * result queue_exn Z :=
  let b := match batch with Some n => if n =? 0 then q_promote_batch q else n
           | None => q_promote_batch q end in
  invoke (promote_due_script b) s.

Record reap_report := mkReapReport {
  rp_requeued : list string;
  rp_dead : list string;
  rp_orphaned : list string;
}.

Definition report_of (out : list (string * disposition)) : reap_report :=
  let pick d := map fst (List.filter (fun p => match snd p, d with
    | R_requeued, R_requeued | R_dead, R_dead | R_orphan, R_orphan => true | _, _ => false end) out) in
  mkReapReport (pick R_requeued) (pick R_dead) (pick R_orphan).

Definition reap_expired (batch : Z) (s : S) : S * result queue_exn reap_report :=
  match invoke (reap_script batch (q_error_trail_keep q)) s with
  | (s', Ok out) => (s', Ok (report_of out))
  | (s', Err e) => (s', Err e)
  end.

Definition requeue_from_dlq (job_id : string) (s : S) : S * result queue_exn Outcome :=
  invoke (requeue_dead_script job_id) s.

(* ------------------------------------------------------------------ *)
(** ** Read-only views *)

Definition o2r (r : string) : string := match dget REASON_O2R r with Some x => x | None => r end.

Record trail_entry := mkTrail {
  tr_attempt : option Z;
  tr_reason : string;
  tr_error : string;
  tr_at : float64;
}.

Record job_view := mkJobView {
  jv_job_id : string;
  jv_status : option string;
  jv_attempts : Z;
  jv_max_attempts : Z;
  jv_created_at : float64;
  jv_payload : option pyval;
  jv_updated_at : result pyexn float64;
  jv_error_trail : list trail_entry;
  jv_last_error : option string;
  jv_scheduled_for : option float64;
  jv_claimed_by : option string;
  jv_lease_expires_at : option float64;
  jv_completed_at : option float64;
  jv_result : option pyval;
  jv_dead_reason : option string;
  jv_died_at : option float64;
}.

Definition fstr (h : hash) (f : string) : option string :=
  match h !! f with Some (FS s) => Some s | _ => None end.
(** [int(h[f])] where the scripts wrote a number. *)
Definition fnum (h : hash) (f : string) : option Z :=
  match h !! f with Some (FI z) => Some z | _ => None end.

(** [json.loads(text)], falling back to the text itself. *)
Definition loads_or_text (text : string) : pyval :=
  match loads text with Ok v => v | Err _ => VStr text end.

(** The error trail, newest first, and with the rebuild's reason names, oldest
    first. *)
Definition error_trail (job_id : string) (s : S) : list error_record :=
  match errors (view s) !! job_id with Some l => l | None => [] end.

Definition rebuild_trail (job_id : string) (s : S) : list trail_entry :=
  map (fun e => mkTrail (er_attempt e) (o2r (er_reason e)) (er_detail e) (seconds_of (er_at_ms e)))
    (rev (error_trail job_id s)).

Fixpoint first_num (h : hash) (fs : list string) : option Z :=
  match fs with
  | [] => None
  | f :: fs => match fnum h f with Some z => Some z | None => first_num h fs end
  end.

(** [updated_ms or enqueued_at_ms]: a zero timestamp is falsy. *)
Definition updated_at (h : hash) (trail : list trail_entry) : result pyexn float64 :=
  let enq := or_default (fnum h "enqueued_at_ms") 0 in
  let pick z := seconds_of (if z =? 0 then enq else z) in
  match first_num h ["completed_at_ms"; "dead_at_ms"; "next_retry_at_ms"; "claimed_at_ms"] with
  | Some z => Ok (pick z)
  | None =>
      match last trail with
      | Some e => z ← int_ms (tr_at e); Ok (pick z)
      | None => Ok (seconds_of enq)
      end
  end.

Definition only_if {A} (b : bool) (o : option A) : option A := if b then o else None.

Definition get_job (job_id : string) (s : S) : option job_view :=
  match jobs (view s) !! job_id with
  | None => None
  | Some h =>
      let trail := rebuild_trail job_id s in
      let st := fstr h "status" in
      let at_st v := bool_decide (st = Some v) in
      Some (mkJobView (or_default (fstr h "id") job_id) st
        (or_default (fnum h "attempts") 0) (or_default (fnum h "max_attempts") 0)
        (seconds_of (or_default (fnum h "enqueued_at_ms") 0))
        (loads_or_text <$> fstr h "payload")
        (updated_at h trail) trail (tr_error <$> last trail)
        (only_if (at_st "scheduled") (seconds_of <$> fnum h "next_retry_at_ms"))
        (only_if (at_st "processing") (fstr h "claimed_by"))
        (only_if (at_st "processing") (seconds_of <$> fnum h "lease_deadline_ms"))
        (only_if (at_st "done") (seconds_of <$> fnum h "completed_at_ms"))
        (only_if (at_st "done") (loads_or_text <$> fstr h "result"))
        (only_if (at_st "dead") (o2r <$> fstr h "dead_reason"))
        (only_if (at_st "dead") (seconds_of <$> fnum h "dead_at_ms")))
  end.

Definition zcount (m : gmap string Z) (lo hi : Z) : Z :=
  Z.of_nat (length (List.filter (fun p => (lo <=? snd p) && (snd p <=? hi)) (map_to_list m))).
Definition zcount_upto (m : gmap string Z) (hi : Z) : Z :=
  Z.of_nat (length (List.filter (fun p => snd p <=? hi) (map_to_list m))).
Definition zcard (m : gmap string Z) : Z := Z.of_nat (size m).

Definition ready_depth (s : S) : Z :=
  Z.of_nat (length (pending (view s))) + zcount_upto (zsets (view s) Scheduled) (clock (view s)).

Record queue_stats := mkStats {
  qs_now_ms : Z;
  qs_depth_ready : Z;
  qs_pending : Z;
  qs_scheduled : Z;
  qs_scheduled_due : Z;
  qs_processing : Z;
  qs_processing_overdue : Z;
  qs_dead : Z;
  qs_dead_last_hour : Z;
  qs_done : Z;
  qs_done_retained : Z;
  qs_oldest_pending_age_ms : option Z;
  qs_oldest_pending_age_s : option float64;
  qs_orphan_refs : Z;
  qs_counters : gmap string Z;
  qs_dead_reasons : gmap string Z;
}.

Definition stats (s : S) : queue_stats :=
  let r := view s in
  let now := clock r in
  let npend := Z.of_nat (length (pending r)) in
  let due := zcount_upto (zsets r Scheduled) now in
  let age := match last (pending r) with
             | Some id => (fun enq => now - enq) <$> fnum (hash_of r id) "enqueued_at_ms"
             | None => None
             end in
  mkStats now (npend + due) npend (zcard (zsets r Scheduled)) due
    (zcard (zsets r Processing)) (zcount_upto (zsets r Processing) now)
    (zcard (zsets r Dead)) (zcount (zsets r Dead) (now - 3600000) now)
    (or_default (counters r !! "completed") 0) (zcard (zsets r Done))
    age (seconds_of <$> age) (Z.of_nat (length (orphans r))) (counters r) (dead_reasons r).

(** Dead-letter arrivals in the trailing window: the window, the count, and
    the rate per minute (a zero window divides by zero). *)
Definition dlq_rate (window_s : Z) (s : S) : float64 * float64 * option float64 :=
  let n := zcount (zsets (view s) Dead) (clock (view s) - window_s * 1000) (clock (view s)) in
  (f_of_Z window_s, f_of_Z n,
   if window_s =? 0 then None
   else Some (fdiv (f_of_Z n) (fdiv (f_of_Z window_s) (f_of_Z 60)))).

(** The [n] most recently dead jobs (all of them for a zero [n], as
    [ZREVRANGE 0 -1]; a more negative stop drops the oldest). *)
Definition dlq_peek (n : Z) (s : S) : list (string * hash * list error_record) :=
  let ids := map fst (rev (sort z_leb (map_to_list (zsets (view s) Dead)))) in
  let ids := if n <=? 0 then take (length ids - Z.to_nat (- n)) ids else take (Z.to_nat n) ids in
  map (fun id => (id, hash_of (view s) id, error_trail id s)) ids.
End Api.

(* ------------------------------------------------------------------ *)
(** ** The invariant sweep *)

Inductive structure := In_pending | In_scheduled | In_processing | In_dead | In_done.

Definition structure_name (p : structure) : string :=
  match p with
  | In_pending => "pending" | In_scheduled => "scheduled" | In_processing => "processing"
  | In_dead => "dead" | In_done => "done"
  end.

Inductive violation :=
| V_duplicate_pending
| V_places (jid : string) (places : list structure) (status : option fval)
| V_status (jid : string) (status : option fval) (place : structure)
| V_no_hash (jid : string) (place : structure).

(** [key.rsplit(":", 1)[1]] of the key of job [jid]: the text after the id's
    last colon, or the id itself. *)
Fixpoint last_segment (jid : string) : string :=
  match jid with
  | EmptyString => EmptyString
  | String c rest =>
      match split_at ":"%char rest with
      | Some _ => last_segment rest
      | None => if Ascii.eqb c ":" then rest else jid
      end
  end.

Section Sweep.
Context {S : Type} `{Redis S}.
Variable q : TransmissionQueue.

(** The sweep first prunes the done set, a second before retention ends. *)
Definition sweep_prune : prog unit :=
  if 0 <? q_done_keep_ms q then
    now ← now_ms;
    redis (ZREMRANGEBYSCORE Done (now - Z.max 0 (q_done_keep_ms q - 1000)))
  else Ret tt.

Definition places_of (r : rstate) (jid : string) : list structure :=
  (if bool_decide (jid ∈ pending r) then [In_pending] else []) ++
  (if bool_decide (is_Some (zsets r Scheduled !! jid)) then [In_scheduled] else []) ++
  (if bool_decide (is_Some (zsets r Processing !! jid)) then [In_processing] else []) ++
  (if bool_decide (is_Some (zsets r Dead !! jid)) then [In_dead] else []) ++
  (if bool_decide (is_Some (zsets r Done !! jid)) then [In_done] else []).

(** One job key: the status is the key's, the id is what its name parses to. *)
Definition check_job (r : rstate) (key_id : string) (h : hash) : list violation :=
  let jid := last_segment key_id in
  let status := h !! "status" in
  match places_of r jid with
  | [p] => if is_str_field status (structure_name p) then [] else [V_status jid status p]
  | ps => [V_places jid ps status]
  end.

Definition members_without_hash (r : rstate) (job_ids : list string) : list violation :=
  flat_map (fun '(k, p) =>
      flat_map (fun id => if str_mem id job_ids then [] else [V_no_hash id p])
        (map fst (sort z_leb (map_to_list (zsets r k)))))
    [(Scheduled, In_scheduled); (Processing, In_processing); (Dead, In_dead); (Done, In_done)].

Definition sweep (r : rstate) : Z * list violation :=
  let keys := map_to_list (jobs r) in
  let job_ids := map (fun p => last_segment p.1) keys in
  (Z.of_nat (length keys),
   (if bool_decide (NoDup (pending r)) then [] else [V_duplicate_pending]) ++
   flat_map (fun p => check_job r p.1 p.2) keys ++
   members_without_hash r job_ids ++
   flat_map (fun id => if str_mem id job_ids then [] else [V_no_hash id In_pending])
     (remove_dups (pending r))).

(** [ok], [checked] and the violations found. *)
Definition verify_invariants (s : S) : S * (bool * Z * list violation) :=
  let s' := snd (run call sweep_prune s) in
  let '(checked, vs) := sweep (view s') in
  (s', (match vs with [] => true | _ => false end, checked, vs)).
End Sweep.

(** A worker exception as [classify_exception] sees it: the lower-cased class
    name and text, and the tests it makes. *)
Record exc_facts := mkExc {
  x_name : string;
  x_text : string;
  x_is_timeout : bool;
  x_is_connection : bool;
  x_enospc : bool;
}.

Definition classify_exception (x : exc_facts) : Reason :=
  if x_is_timeout x || contains "timeout" (x_name x) then NETWORK_LATENCY
  else if x_enospc x || contains "no space left" (x_text x) then DISK_EXHAUSTION
  else if str_mem (x_name x) ["operationalerror"; "interfaceerror"] then DB_CONNECTION_LOSS
  else if x_is_connection x || contains "connection" (x_name x) then SERVICE_INTERRUPTION
  else if str_mem (x_name x) ["jsondecodeerror"; "unicodedecodeerror"] then DATA_CORRUPTION
  else UNCLASSIFIED.

(* ------------------------------------------------------------------ *)
(** ** Properties *)

Lemma reason_names_round_trip r :
  reason_from_any (AName (reason_value r)) = r /\
  reason_from_any (AName (o2r (reason_value r))) = r.
Proof. by destruct r. Qed.

Section ApiSpec.
Context {S : Type} `{Redis S}.
Variable dumps : dict pyval -> string.
Variable loads : string -> result pyexn pyval.
Variable sha256 : string -> string.
Variable q : TransmissionQueue.
Notation keep := (q_done_keep_ms q).

Lemma invoke_ok {A} (p : prog A) s s' r : invoke p s = (s', Ok r) <-> run call p s = (Some r, s').
Proof.
  unfold invoke. destruct (run call p s) as [[a|] x]; split; intros; simplify_eq; done.
Qed.

(** The job a claim just leased. *)
Lemma claimed_reply s worker claim_id lease s1 cr :
  reachable keep s ->
  run call (claim_script worker claim_id lease (q_promote_batch q) 8) s = (Some (Some cr), s1) ->
  reachable keep s1 /\ holds (look (view s1) (cr_id cr)) worker claim_id = true /\
  exists body stored enq, cr_payload cr = Some (FS body) /\ cr_checksum cr = Some (FS stored) /\
    cr_enqueued cr = Some (FI enq) /\
    hash_of (view s) (cr_id cr) !! "payload" = Some (FS body) /\
    hash_of (view s) (cr_id cr) !! "checksum" = Some (FS stored).
Proof.
  intros Hr E. split.
  { pose proof (reach_script keep (claim_script worker claim_id lease (q_promote_batch q) 8) s Hr
      (sc_claim _ _ _ _ _)) as Hx. by rewrite E in Hx. }
  destruct (claim_spec keep (view s) worker claim_id lease (q_promote_batch q) 8 (reachable_good keep s Hr))
    as (r & s' & Em & _ & Hcr).
  pose proof (run_view (claim_script worker claim_id lease (q_promote_batch q) 8) s) as Hv.
  rewrite E, Em in Hv. simpl in Hv. injection Hv as <- <-.
  destruct Hcr as (_ & _ & (h & Hh & Hp & Hk & p & k & e & Hp' & Hk' & He) & _ & Hho).
  split; [done|]. exists p, k, e. unfold hash_of. rewrite Hh. by rewrite <- Hp, <- Hk.
Qed.

(** A corrupted payload never reaches a worker: one turn of the claim loop
    hands out a job only when the digest of its stored payload is the stored
    checksum, and then decoded from exactly that payload; otherwise the job is
    dead-lettered as data corruption, and the turn raises nothing of its own. *)
Theorem claim_checks_payload s worker claim_id lease : reachable keep s ->
  let '(s', r) := claim_once loads sha256 q worker claim_id lease s in
  match r with
  | Ok (Got j) =>
      exists body, hash_of (view s) (cj_id j) !! "payload" = Some (FS body) /\
        hash_of (view s) (cj_id j) !! "checksum" = Some (FS (sha256 body)) /\
        loads body = Ok (cj_payload j) /\
        holds (look (view s') (cj_id j)) worker claim_id = true
  | Ok Drained =>
      exists id body stored, hash_of (view s) id !! "payload" = Some (FS body) /\
        hash_of (view s) id !! "checksum" = Some (FS stored) /\ sha256 body <> stored /\
        is_Some (zsets (view s') Dead !! id) /\
        hash_of (view s') id !! "dead_reason" = Some (FS "data_corruption")
  | Ok NothingReady => pending (view s) = []
  | Err (QPy e) =>
      exists id body, hash_of (view s) id !! "payload" = Some (FS body) /\ loads body = Err e
  | Err _ => False
  end.
Proof.
  intros Hr. unfold claim_once.
  destruct (invoke (claim_script worker claim_id lease (q_promote_batch q) 8) s) as [s1 [o|e]] eqn:E.
  2:{ unfold invoke in E. pose proof (script_returns keep (claim_script worker claim_id lease
        (q_promote_batch q) 8) s Hr (sc_claim _ _ _ _ _)) as [x Hx].
      destruct (run call _ s) as [[a|] y]; simpl in Hx; [|done]. by simplify_eq. }
  apply invoke_ok in E. destruct o as [cr|].
  2:{ destruct (claim_spec keep (view s) worker claim_id lease (q_promote_batch q) 8 (reachable_good keep s Hr))
        as (r & s' & E' & _ & Hn). destruct (run_on_view _ _ _ _ E') as [Hx _]. rewrite E in Hx.
      simpl in Hx. simplify_eq. by destruct Hn. }
  destruct (claimed_reply s worker claim_id lease s1 cr Hr E) as (Hr1 & Hho & body & stored & enq & -> & -> & -> & Hb & Hs).
  destruct (String.eqb_spec (sha256 body) stored) as [<-|Hne]; simpl.
  - destruct (loads body) as [v|e] eqn:El; [by exists body|by exists (cr_id cr), body].
  - destruct (fail_bounded keep s1 (cr_id cr) worker claim_id (reason_value DATA_CORRUPTION)
      (mismatch_detail body stored (sha256 body)) false (q_base_backoff_ms q) (q_max_backoff_ms q) 0
      (q_error_trail_keep q) Hr1 Hho) as (a & m & _ & _ & _ & Hf & Hd & Hrs & _).
    unfold invoke at 1.
    destruct (run call (fail_script _ _ _ _ _ _ _ _ _ _) s1) as [r2 s2] eqn:E2. simpl in Hf, Hd, Hrs. subst r2.
    destruct (run_on_view (redis (HINCRBY_counter "corrupt_payloads" 1)) s2 _ _ eq_refl) as [H1 H2].
    unfold invoke. destruct (run call (redis (HINCRBY_counter "corrupt_payloads" 1)) s2) as [r3 s3].
    simpl in H1, H2. subst r3. exists (cr_id cr), body, stored. rewrite H2. by split_and!.
Qed.

Lemma fence_of_token id w c : str_forallb (fun d => negb (Ascii.eqb d TOKEN_SEP)) w = true ->
  fence_from_token id (claim_token w c) = mkClaimedJob id (VDict []) 0 w c 0 0.
Proof. intros Hw. unfold fence_from_token, claim_token. by rewrite split_at_app. Qed.

Definition rebuild_answer (a : answer) : answer :=
  match a with AOutcome o => ABool (bool_decide (o = OK)) | b => b end.
Definition rebuild_fail (a : fail_answer) : fail_answer :=
  match a with FPair o _ => rebuild_word o | f => f end.
Definition translate {A} (f : A -> A) (x : S * result queue_exn A) : S * result queue_exn A :=
  let '(s, r) := x in (s, f <$> r).

(** One engine, two dialects: with a worker name free of the separator, the
    token handed out with a claim carries the same fence as the claimed job, so
    [ack], [fail] and [heartbeat] by token have the effect of the calls by job,
    and the answer is the translation of theirs. *)
Theorem dialects_agree j s :
  str_forallb (fun d => negb (Ascii.eqb d TOKEN_SEP)) (cj_worker_id j) = true ->
  let token := Some (claim_token (cj_worker_id j) (cj_claim_id j)) in
  (forall res, ack dumps q (AId (cj_id j)) token res s
     = translate rebuild_answer (ack dumps q (AJob j) None res s)) /\
  (forall lm ls, heartbeat q (AId (cj_id j)) token lm ls s
     = translate rebuild_answer (heartbeat q (AJob j) None lm ls s)) /\
  (forall reason d b draw,
     fail q (AId (cj_id j)) reason (Some d) None (Some b) token None draw s
       = translate rebuild_fail (fail q (AJob j) reason (Some d) None (Some b) None None draw s)).
Proof.
  intros Hw token. unfold token, ack, heartbeat, fail. rewrite !(fence_of_token _ _ _ Hw). simpl.
  split_and!.
  - intros res. by destruct (invoke _ s) as [s' [o|e]].
  - intros lm ls. destruct (lease_of q lm ls); [|done]. by destruct (invoke _ s) as [s' [o|e]].
  - intros reason d b draw. unfold opt_true, or_empty. destruct (jitter_draw q draw) as [jt|]; [|done].
    assert (Hd : (if str_true d then d else EmptyString) = d) by (by destruct d).
    rewrite Hd. by destruct (invoke _ s) as [s' [[o bo]|e]].
Qed.

(** A submitted job can be polled: submitting a new id stores exactly the
    serialised payload under its digest, and an immediate lookup shows it
    pending, unattempted, with the payload as decoded from that text; the next
    submit of the id is reported as a duplicate. *)
Theorem submitted_job_pollable payload id uuid m s p2 u2 m2 :
  str_true id = true -> jobs (view s) !! id = None ->
  let '(s1, r1) := enqueue dumps sha256 q (Some payload) (Some id) uuid m s in
  r1 = Ok (mkEnqueueResult id true "pending" false) /\
  (exists j, get_job loads id s1 = Some j /\ jv_status j = Some "pending" /\ jv_attempts j = 0 /\
     jv_payload j = Some (loads_or_text loads (dumps payload)) /\ jv_error_trail j = rebuild_trail id s) /\
  snd (enqueue dumps sha256 q (Some p2) (Some id) u2 m2 s1) = Ok (mkEnqueueResult id false "pending" true).
Proof.
  intros Hid Hn. unfold enqueue at 1. unfold opt_true, or_empty. rewrite Hid.
  set (mx := match m with Some n => if n =? 0 then _ else n | None => _ end).
  pose proof (enqueue_idempotent s id (dumps payload) (sha256 (dumps payload)) mx) as Hq.
  rewrite Hn in Hq. cbv zeta in Hq. unfold invoke at 1.
  destruct (run call (enqueue_script id (dumps payload) (sha256 (dumps payload)) mx) s) as [r s1] eqn:E.
  simpl in Hq. destruct Hq as (-> & _ & _).
  assert (Hh : jobs (view s1) !! id = Some
    (hset ∅ [("id", FS id); ("payload", FS (dumps payload)); ("checksum", FS (sha256 (dumps payload)));
             ("status", FS "pending"); ("attempts", FI 0); ("max_attempts", FI mx);
             ("enqueued_at_ms", FI (clock (view s)))]) /\ errors (view s1) = errors (view s)).
  { pose proof (run_view (enqueue_script id (dumps payload) (sha256 (dumps payload)) mx) s) as Hv.
    rewrite E in Hv. unfold enqueue_script in Hv. cbn -[hset] in Hv.
    rewrite bool_decide_false in Hv by (rewrite Hn; by intros [? ?]). cbn -[hset] in Hv.
    injection Hv as ->. unfold put_hash. rewrite decide_False by apply insert_non_empty.
    simpl jobs. rewrite lookup_insert_eq. unfold hash_of. by rewrite Hn. }
  destruct Hh as [Hh He]. split; [done|]. split.
  - eexists. unfold get_job. rewrite Hh. split; [reflexivity|]. simpl. unfold fstr, fnum, rebuild_trail, error_trail.
    rewrite He. by simplify_map_eq.
  - unfold enqueue, opt_true, or_empty. rewrite Hid. unfold invoke.
    set (mx2 := match m2 with Some n => if n =? 0 then _ else n | None => _ end).
    pose proof (enqueue_idempotent s1 id (dumps p2) (sha256 (dumps p2)) mx2) as Hq.
    rewrite Hh in Hq. destruct Hq as [Hq _].
    destruct (run call (enqueue_script id (dumps p2) (sha256 (dumps p2)) mx2) s1) as [r s2].
    simpl in Hq. subst r. simpl. by simplify_map_eq.
Qed.
End ApiSpec.

(* ------------------------------------------------------------------ *)
(** ** Instances *)

Definition demo_queue : TransmissionQueue :=
  mkQueue Original "v12" "sq:v12" 5 30000 1000 60000 250 64 day 8.
Definition no_dumps (_ : dict pyval) : string := "{}".
Definition text_loads (s : string) : result pyexn pyval := Ok (VStr s).
Definition bad_digest (s : string) : string := s +:+ "!".

Example default_constructors :
  make_queue (mkArgs None None None None None None None None None None 64 None day) = Ok demo_queue /\
  make_queue (mkArgs None (Some "q") None None None None None None None None 64 None day)
    = Ok (mkQueue Rebuild "q" "q" 3 30000 500 30000 0 64 day 6) /\
  make_queue (mkArgs (Some "a") (Some "q") None None None None None None None None 64 None day)
    = Err ValueError.
Proof. by vm_compute. Qed.

Lemma claim_checks_payload_witness :
  snd (claim_once text_loads bad_digest demo_queue "w" "c" 30000 admitted) = Ok Drained /\
  exists id body stored, hash_of (view admitted) id !! "payload" = Some (FS body) /\
    hash_of (view admitted) id !! "checksum" = Some (FS stored) /\ bad_digest body <> stored.
Proof.
  assert (E : snd (claim_once text_loads bad_digest demo_queue "w" "c" 30000 admitted) = Ok Drained)
    by (by vm_compute).
  split; [exact E|].
  pose proof (claim_checks_payload text_loads bad_digest demo_queue admitted "w" "c" 30000
    reachable_admitted) as H.
  destruct (claim_once text_loads bad_digest demo_queue "w" "c" 30000 admitted) as [s' r].
  simpl in E. subst r. destruct H as (id & body & stored & H1 & H2 & H3 & _). by exists id, body, stored.
Defined.

Lemma dialects_agree_witness :
  ack no_dumps demo_queue (AId "a") (Some (claim_token "w1" "c1")) None claimed
    = translate rebuild_answer
        (ack no_dumps demo_queue (AJob (mkClaimedJob "a" VNone 1 "w1" "c1" 1000 31000)) None None claimed).
Proof.
  exact (proj1 (dialects_agree no_dumps demo_queue (mkClaimedJob "a" VNone 1 "w1" "c1" 1000 31000) claimed
    eq_refl) None).
Defined.

Lemma submitted_job_pollable_witness :
  exists j, get_job text_loads "z" (fst (enqueue no_dumps bad_digest demo_queue (Some []) (Some "z") "" None admitted))
    = Some j /\ jv_status j = Some "pending".
Proof.
  pose proof (submitted_job_pollable no_dumps text_loads bad_digest demo_queue [] "z" "" None admitted
    [] "" None eq_refl ltac:(by vm_compute)) as H.
  destruct (enqueue no_dumps bad_digest demo_queue (Some []) (Some "z") "" None admitted) as [s1 r1].
  destruct H as (_ & (j & Hj & Hs & _) & _). exists j. by split.
Defined.

(** Both demo jobs failed once and are due again; a claim promotes both and
    takes one. *)
Definition fail_once (id w c : string) (s : rstate) : rstate :=
  snd (run_model (fail_script id w c "network_latency" "" true 1000 60000 0 5)
    (snd (run_model (claim_script w c 30000 64 8) s))).
Definition promoted : rstate :=
  snd (run_model (claim_script "w1" "c3" 30000 64 8)
    (expire 5000 (fail_once "b" "w1" "c2" (fail_once "a" "w1" "c1" admitted)))).

(** Job "a" completed at second 1; seen half a second before and one
    millisecond after its retention ends, and resubmitted then. *)
Definition completed : rstate := snd (run_model (ack_script "a" "w1" "c1" "" day) claimed).
Definition nearly_forgotten : rstate := expire (day + 500) completed.
Definition resubmitted : rstate :=
  snd (run_model (enqueue_script "a" "{}" "sum" 2) (expire (day + 1001) completed)).

(** A job id with a colon in it. *)
Definition coloned : rstate := snd (run_model (enqueue_script "call:1" "{}" "sum" 2) empty_store).

Lemma reachable_tick keep t (s : rstate) : reachable keep s -> clock s <= t -> reachable keep (expire t s).
Proof. exact (reach_tick keep t s). Qed.

Lemma reachable_fail_once id w c s : reachable day s -> reachable day (fail_once id w c s).
Proof. intros Hs. apply reachable_run; [|constructor]. apply reachable_run; [done|constructor]. Qed.

(** The sweep reports healthy queues as broken: in states the queue's own
    scripts produce, the invariant sweep answers not-ok, because a claim
    promotes due retries without their status, because the sweep drops done
    entries a second before their records expire, and because it reads an id
    with a colon from its last segment; and after a completed id is forgotten
    and resubmitted, the id is in the pending list and the done set at once. *)
Theorem sweep_false_alarms :
  (reachable day promoted /\
   snd (verify_invariants demo_queue promoted)
     = (false, 2, [V_status "b" (Some (FS "scheduled")) In_pending])) /\
  (reachable day nearly_forgotten /\
   snd (verify_invariants demo_queue nearly_forgotten)
     = (false, 2, [V_places "a" [] (Some (FS "done"))])) /\
  (reachable day coloned /\
   snd (verify_invariants demo_queue coloned)
     = (false, 1, [V_places "1" [] (Some (FS "pending")); V_no_hash "call:1" In_pending])) /\
  (reachable day resubmitted /\ "a" ∈ pending resubmitted /\
   is_Some (zsets resubmitted Done !! "a")).
Proof.
  assert (Hc : reachable day completed) by (apply reachable_run; [exact reachable_claimed|constructor]).
  split_and!.
  - apply reachable_run; [|constructor]. apply reachable_tick; [|by vm_compute].
    do 2 apply reachable_fail_once. exact reachable_admitted.
  - by vm_compute.
  - apply reachable_tick; [exact Hc|by vm_compute].
  - by vm_compute.
  - apply reachable_run; [|constructor]. apply reach_fresh. by split_and!.
  - by vm_compute.
  - apply reachable_run; [|constructor]. apply reachable_tick; [exact Hc|by vm_compute].
  - apply (bool_decide_eq_true_1 _). by vm_compute.
  - apply (bool_decide_eq_true_1 _). by vm_compute.
Qed.
