(* ===== verification/Json.v ===== *)
(** * Json: the text that is hashed, signed and sealed

    Every digest of the system is taken over [json.dumps(obj, sort_keys=True)]:
    with the default separators in the ledger (governance/ledger_postgres.py,
    twin_custody._ledger_dumps), with compact ones in canonical_json and the
    attestation payloads.  [dumps] is that function on the values of PyValue;
    [norm] is what [sort_keys] does to a value.  The text determines the value
    up to the order of object keys, and nothing else. *)

From S2P Require Import Prelude PyFloat PyValue.
Local Open Scope Z_scope.
Local Open Scope string_scope.

(* ------------------------------------------------------------------ *)
(** ** Induction on values *)

Section PyvalInd.
Variable P : pyval -> Prop.
Hypothesis HN : P VNone.
Hypothesis HB : forall b, P (VBool b).
Hypothesis HI : forall z, P (VInt z).
Hypothesis HF : forall f, P (VFloat f).
Hypothesis HS : forall s, P (VStr s).
Hypothesis HL : forall l, Forall P l -> P (VList l).
Hypothesis HD : forall d, Forall (fun kv => P (snd kv)) d -> P (VDict d).

Fixpoint pyval_ind' (v : pyval) : P v :=
  match v with
  | VNone => HN
  | VBool b => HB b
  | VInt z => HI z
  | VFloat f => HF f
  | VStr s => HS s
  | VList l => HL l ((fix go l : Forall P l :=
      match l with
      | [] => List.Forall_nil P
      | x :: l => List.Forall_cons P x l (pyval_ind' x) (go l)
      end) l)
  | VDict d => HD d ((fix go d : Forall (fun kv => P (snd kv)) d :=
      match d with
      | [] => List.Forall_nil _
      | kv :: d => List.Forall_cons _ kv d (pyval_ind' (snd kv)) (go d)
      end) d)
  end.
End PyvalInd.

(* ------------------------------------------------------------------ *)
(** ** Encoding *)

(** Characters of an unquoted token: numbers, [true], [null], [Infinity]. *)
Definition is_tok (c : ascii) : bool :=
  is_digit c || is_alpha c || Ascii.eqb c "+" || Ascii.eqb c "-" || Ascii.eqb c ".".

(** [float.__repr__] on finite floats: the shortest decimal text that reads
    back as the same float.  Only these facts about it are used. *)
Class FloatRepr := {
  float_repr : float64 -> string;
  float_repr_tok : forall f, str_forallb is_tok (float_repr f) = true;
  float_repr_head : forall f, exists c s, float_repr f = String c s /\
    (is_digit c = true \/ c = "-"%char /\ exists d r, s = String d r /\ is_digit d = true);
  float_repr_not_int : forall f,
    str_forallb (fun c => is_digit c || Ascii.eqb c "-") (float_repr f) = false;
  float_repr_inj : forall f g, float_repr f = float_repr g -> f = g;
}.

Definition hex_digit (n : N) : ascii :=
  ascii_of_N (if (n <? 10)%N then 48 + n else 87 + n).

(** [json.encoder.ESCAPE_DCT] with [ensure_ascii], on Latin-1. *)
Definition escape_char (c : ascii) : string :=
  let n := N_of_ascii c in
  if (n =? 34)%N then "\" +:+ String c ""
  else if (n =? 92)%N then "\\"
  else if (n =? 10)%N then "\n"
  else if (n =? 13)%N then "\r"
  else if (n =? 9)%N then "\t"
  else if (n =? 12)%N then "\f"
  else if (n =? 8)%N then "\b"
  else if ((32 <=? n) && (n <=? 126))%N then String c ""
  else "\u00" +:+ String (hex_digit (n / 16)) (String (hex_digit (n mod 16)) "").

Definition DQUOTE : ascii := ascii_of_N 34.

Fixpoint escape (s : string) : string :=
  match s with
  | EmptyString => String DQUOTE ""
  | String c s => escape_char c +:+ escape s
  end.

Definition quote (s : string) : string := String DQUOTE (escape s).

Definition int_text (z : Z) : string :=
  if (z <? 0)%Z then String "-" (string_of_N (Z.to_N (- z)%Z)) else string_of_N (Z.to_N z).

(** [separators=(item, key)]; the item separator starts with a comma. *)
Record separators := mkSeps { sep_item : string; sep_key : string }.
Definition default_seps : separators := mkSeps " " ": ".
Definition compact_seps : separators := mkSeps "" ":".

Section Encode.
Context `{FloatRepr}.
Variable seps : separators.

Definition float_text (f : float64) : string :=
  match f with
  | S754_nan => "NaN"
  | S754_infinity false => "Infinity"
  | S754_infinity true => "-Infinity"
  | _ => float_repr f
  end.

(** The items after the first, each behind the separator. *)
Definition tails (l : list string) : string :=
  foldr (fun x r => String "," (sep_item seps +:+ x +:+ r)) "" l.

Definition join (l : list string) : string :=
  match l with [] => "" | x :: l => x +:+ tails l end.

Fixpoint emit (v : pyval) : string :=
  match v with
  | VNone => "null"
  | VBool true => "true"
  | VBool false => "false"
  | VInt z => int_text z
  | VFloat f => float_text f
  | VStr s => quote s
  | VList l => String "[" (join (map emit l) +:+ "]")
  | VDict d => String "{" (join (map (fun kv => quote (fst kv) +:+ sep_key seps +:+ emit (snd kv)) d) +:+ "}")
  end.

Definition key_leb {A} (a b : string * A) : bool := String.leb (fst a) (fst b).

(** [sort_keys=True]: the items of every object in key order. *)
Fixpoint norm (v : pyval) : pyval :=
  match v with
  | VList l => VList (map norm l)
  | VDict d => VDict (sort key_leb (map (fun kv => (fst kv, norm (snd kv))) d))
  | _ => v
  end.

Definition dumps (v : pyval) : string := emit (norm v).
End Encode.

(** [str(v)] and [repr(v)]. *)
Section Str.
Context `{FloatRepr}.

Definition repr_char (quote_char c : ascii) : string :=
  let n := N_of_ascii c in
  if Ascii.eqb c quote_char || (n =? 92)%N then "\" +:+ String c ""
  else if (n =? 10)%N then "\n"
  else if (n =? 13)%N then "\r"
  else if (n =? 9)%N then "\t"
  else if ((n <? 32) || (127 <=? n) && (n <=? 160) || (n =? 173))%N
  then "\x" +:+ String (hex_digit (n / 16)) (String (hex_digit (n mod 16)) "")
  else String c "".

Definition repr_str (s : string) : string :=
  let single := existsb (Ascii.eqb "'") (String.list_ascii_of_string s) in
  let double := existsb (Ascii.eqb DQUOTE) (String.list_ascii_of_string s) in
  let q := if single && negb double then DQUOTE else "'"%char in
  String q (String.concat "" (map (repr_char q) (String.list_ascii_of_string s)) +:+ String q "").

Fixpoint py_repr (v : pyval) : string :=
  match v with
  | VNone => "None"
  | VBool true => "True"
  | VBool false => "False"
  | VInt z => int_text z
  | VFloat S754_nan => "nan"
  | VFloat (S754_infinity false) => "inf"
  | VFloat (S754_infinity true) => "-inf"
  | VFloat f => float_repr f
  | VStr s => repr_str s
  | VList l => "[" +:+ String.concat ", " (map py_repr l) +:+ "]"
  | VDict d => "{" +:+ String.concat ", "
      (map (fun kv => repr_str (fst kv) +:+ ": " +:+ py_repr (snd kv)) d) +:+ "}"
  end.

Definition py_str (v : pyval) : string := match v with VStr s => s | _ => py_repr v end.
End Str.

(** Equal up to the order of object keys. *)
Definition json_equiv (v w : pyval) : Prop := norm v = norm w.

(* ------------------------------------------------------------------ *)
(** ** Strings as prefixes *)

Lemma app_nil_s (s : string) : s +:+ "" = s.
Proof. induction s as [|c s IH]; [done|]. by rewrite string_app_cons, IH. Qed.

Lemma app_inv_s (a s t : string) : a +:+ s = a +:+ t -> s = t.
Proof. induction a as [|c a IH]; [done|]. rewrite !string_app_cons. intros [=]. auto. Qed.

(** A token ends where a non-token character or the end of the text is. *)
Definition delim (s : string) : Prop :=
  match s with EmptyString => True | String c _ => is_tok c = false end.

Lemma token_split a b s t :
  str_forallb is_tok a = true -> str_forallb is_tok b = true -> delim s -> delim t ->
  a +:+ s = b +:+ t -> a = b /\ s = t.
Proof.
  revert b. induction a as [|c a IH]; intros [|d b] Ha Hb Hs Ht Heq; simpl in *; bool_hyps.
  - done.
  - change (s = String d (b +:+ t)) in Heq. subst s. simpl in Hs. congruence.
  - change (String c (a +:+ s) = t) in Heq. subst t. simpl in Ht. congruence.
  - rewrite !string_app_cons in Heq. injection Heq as -> Heq. destruct (IH b) as [-> ->]; auto.
Qed.

Definition all_ascii : list ascii := map (fun n => ascii_of_N (N.of_nat n)) (seq 0 256).

Lemma all_ascii_complete c : c ∈ all_ascii.
Proof.
  unfold all_ascii. apply list_elem_of_fmap. exists (N.to_nat (N_of_ascii c)). split.
  - by rewrite N2Nat.id, ascii_N_embedding.
  - apply elem_of_seq. pose proof (N_ascii_bounded c). lia.
Qed.

Lemma prefix_of_app a b s t : a +:+ s = b +:+ t -> String.prefix a b = true \/ String.prefix b a = true.
Proof.
  revert b. induction a as [|c a IH]; intros [|d b] Heq; simpl; auto.
  rewrite !string_app_cons in Heq. injection Heq as -> Heq.
  destruct (ascii_dec d d); [|done]. eauto.
Qed.

(** No escape sequence is a prefix of another, or of the closing quote. *)
Lemma escape_prefix_free c d : String.prefix (escape_char c) (escape_char d) = true -> c = d.
Proof.
  assert (Hall : forallb (fun c => forallb (fun d =>
    implb (String.prefix (escape_char c) (escape_char d)) (Ascii.eqb c d)) all_ascii) all_ascii = true)
    by (vm_compute; reflexivity).
  rewrite forallb_forall in Hall. specialize (Hall c). rewrite forallb_forall in Hall.
  specialize (Hall (proj1 (list_elem_of_In _ _) (all_ascii_complete c)) d
    (proj1 (list_elem_of_In _ _) (all_ascii_complete d))).
  intros Hp. rewrite Hp in Hall. by apply Ascii.eqb_eq.
Qed.

Lemma escape_head c s : exists d r, escape_char c +:+ s = String d r /\ d <> DQUOTE.
Proof.
  assert (Hall : forallb (fun c => match escape_char c with
    String d _ => negb (Ascii.eqb d DQUOTE) | _ => false end) all_ascii = true)
    by (vm_compute; reflexivity).
  rewrite forallb_forall in Hall. specialize (Hall c (proj1 (list_elem_of_In _ _) (all_ascii_complete c))).
  destruct (escape_char c) as [|d r]; [done|]. exists d, (r +:+ s). split; [done|].
  intros ->. by rewrite Ascii.eqb_refl in Hall.
Qed.

Lemma escape_split a b s t : escape a +:+ s = escape b +:+ t -> a = b /\ s = t.
Proof.
  revert b. induction a as [|c a IH]; intros [|d b] Heq; cbn [escape] in Heq.
  - split; [done|]. by apply (app_inv_s (String DQUOTE "")).
  - destruct (escape_head d (escape b +:+ t)) as (x & r & Hx & Hne).
    rewrite string_app_assoc, Hx, string_app_cons in Heq. by injection Heq as <- _.
  - destruct (escape_head c (escape a +:+ s)) as (x & r & Hx & Hne).
    rewrite string_app_assoc, Hx, string_app_cons in Heq. by injection Heq as -> _.
  - rewrite !string_app_assoc in Heq. assert (c = d) as ->.
    { destruct (prefix_of_app _ _ _ _ Heq) as [Hp|Hp]; [|symmetry]; by apply escape_prefix_free. }
    apply app_inv_s in Heq. by destruct (IH _ Heq) as [-> ->].
Qed.

Lemma quote_split a b s t : quote a +:+ s = quote b +:+ t -> a = b /\ s = t.
Proof. unfold quote. rewrite !string_app_cons. intros [= Heq]. by apply escape_split. Qed.

Lemma int_text_tok z : str_forallb (fun c => is_digit c || Ascii.eqb c "-") (int_text z) = true.
Proof.
  assert (forall n, str_forallb (fun c => is_digit c || Ascii.eqb c "-") (string_of_N n) = true).
  { intros n. apply str_forallb_impl with is_digit; [|apply string_of_N_all_digits].
    intros c ->. done. }
  unfold int_text. destruct (z <? 0)%Z; simpl; auto.
Qed.

Lemma string_of_N_inj n m : string_of_N n = string_of_N m -> n = m.
Proof. intros Heq. pose proof (string_of_N_digits n). rewrite Heq, string_of_N_digits in H. congruence. Qed.

Lemma string_of_N_head n : exists c s, string_of_N n = String c s /\ is_digit c = true.
Proof.
  pose proof (string_of_N_nonempty n) as Hne. pose proof (string_of_N_all_digits n) as Hd.
  destruct (string_of_N n) as [|c s]; [done|]. simpl in Hd. bool_hyps. eauto.
Qed.

Lemma int_text_inj z z' : int_text z = int_text z' -> z = z'.
Proof.
  unfold int_text. destruct (string_of_N_head (Z.to_N z)) as (c & s & Hc & Hd).
  destruct (string_of_N_head (Z.to_N z')) as (c' & s' & Hc' & Hd').
  destruct (Z.ltb_spec z 0), (Z.ltb_spec z' 0); intros Heq.
  - injection Heq as Heq. apply string_of_N_inj in Heq. lia.
  - rewrite Hc' in Heq. injection Heq as <- _. done.
  - rewrite Hc in Heq. injection Heq as -> _. done.
  - apply string_of_N_inj in Heq. lia.
Qed.

(* ------------------------------------------------------------------ *)
(** ** The text determines the value *)

Section Injective.
Context `{FloatRepr}.
Variable seps : separators.
Notation emit := (emit seps).

(** Values written as one unquoted token. *)
Definition atom (v : pyval) : bool :=
  match v with VNone | VBool _ | VInt _ | VFloat _ => true | _ => false end.

Lemma float_text_tok f : str_forallb is_tok (float_text f) = true.
Proof. destruct f as [|[]| |]; try apply float_repr_tok; done. Qed.

Lemma atom_tok v : atom v = true -> str_forallb is_tok (emit v) = true.
Proof.
  destruct v as [|[]|z|f|s|l|d]; intros Ha; try done; simpl.
  - eapply str_forallb_impl; [|apply int_text_tok]. intros c. unfold is_tok.
    destruct (is_digit c); [done|]. simpl. intros ->%Ascii.eqb_eq. done.
  - apply float_text_tok.
Qed.

Definition finite_text (f : float64) : bool :=
  match f with S754_nan | S754_infinity _ => false | _ => true end.

Lemma float_text_fin f : finite_text f = true -> float_text f = float_repr f.
Proof. by destruct f. Qed.

(** A finite float is never spelled like one of the constants. *)
Lemma float_repr_word f w :
  w ∈ ["null"; "true"; "false"; "NaN"; "Infinity"; "-Infinity"] -> float_repr f <> w.
Proof.
  intros Hw Heq. destruct (float_repr_head f) as (c & s & Hc & Hd).
  rewrite Heq in Hc. repeat (apply elem_of_cons in Hw as [->|Hw]; [|try by apply elem_of_nil in Hw]);
    injection Hc as <- <-; destruct Hd as [Hd|(Hm & d & r & Hr & Hd)]; try done;
    try (by injection Hr as <- <-).
  all: by apply elem_of_nil in Hw.
Qed.

Lemma float_text_inj f g : float_text f = float_text g -> f = g.
Proof.
  assert (Hw : forall f g, finite_text f = true -> finite_text g = false ->
    float_text f <> float_text g).
  { intros f0 g0 Hf Hg. rewrite (float_text_fin f0) by done. apply float_repr_word.
    destruct g0 as [|[]| |]; simpl; try done; set_solver. }
  destruct (finite_text f) eqn:Hf, (finite_text g) eqn:Hg; intros Heq.
  - rewrite !float_text_fin in Heq by done. by apply float_repr_inj.
  - by destruct (Hw f g).
  - by destruct (Hw g f).
  - destruct f as [|[]| |], g as [|[]| |]; try done.
Qed.

Lemma float_text_word f w : w ∈ ["null"; "true"; "false"] -> float_text f <> w.
Proof.
  intros Hw. destruct (finite_text f) eqn:Hf.
  - rewrite float_text_fin by done. apply float_repr_word. set_solver.
  - destruct f as [|[]| |]; simpl in *; try done; set_solver.
Qed.

Lemma float_text_not_int f z : float_text f <> int_text z.
Proof.
  intros Heq. pose proof (int_text_tok z) as Hz. rewrite <- Heq in Hz.
  destruct (finite_text f) eqn:Hf.
  - rewrite float_text_fin, float_repr_not_int in Hz; done.
  - destruct f as [|[]| |]; done.
Qed.

Lemma int_text_word z w : w ∈ ["null"; "true"; "false"] -> int_text z <> w.
Proof.
  intros Hw Heq. pose proof (int_text_tok z) as Hz. rewrite Heq in Hz.
  repeat (apply elem_of_cons in Hw as [->|Hw]; [done|]). by apply elem_of_nil in Hw.
Qed.

Lemma atom_inj v w : atom v = true -> atom w = true -> emit v = emit w -> v = w.
Proof.
  assert (Hn : "null" ∈ ["null"; "true"; "false"]) by set_solver.
  assert (Ht : "true" ∈ ["null"; "true"; "false"]) by set_solver.
  assert (Hf : "false" ∈ ["null"; "true"; "false"]) by set_solver.
  destruct v as [|[]|z|f|s|l|d], w as [|[]|z'|f'|s'|l'|d']; intros Hv Hw Heq; try done;
    cbn [Json.emit] in Heq;
    try (by destruct (int_text_word z _ Hn)); try (by destruct (int_text_word z _ Ht));
    try (by destruct (int_text_word z _ Hf)); try (by destruct (int_text_word z' _ Hn));
    try (by destruct (int_text_word z' _ Ht)); try (by destruct (int_text_word z' _ Hf));
    try (by destruct (float_text_word f _ Hn)); try (by destruct (float_text_word f _ Ht));
    try (by destruct (float_text_word f _ Hf)); try (by destruct (float_text_word f' _ Hn));
    try (by destruct (float_text_word f' _ Ht)); try (by destruct (float_text_word f' _ Hf)).
  - f_equal. by apply int_text_inj.
  - by destruct (float_text_not_int f' z).
  - by destruct (float_text_not_int f z').
  - f_equal. by apply float_text_inj.
Qed.

Definition splits {A} (enc : A -> string) (x : A) : Prop :=
  forall y s t, delim s -> delim t -> enc x +:+ s = enc y +:+ t -> x = y /\ s = t.

(** The first character of a value: never a closing bracket. *)
Definition opens {A} (enc : A -> string) : Prop :=
  forall x, exists c r, enc x = String c r /\ c <> "]"%char /\ c <> "}"%char.

Lemma tok_opens s : str_forallb is_tok s = true -> str_true s = true ->
  exists c r, s = String c r /\ is_tok c = true.
Proof. destruct s as [|c r]; [done|]. simpl. intros. bool_hyps. eauto. Qed.

Lemma atom_head v : atom v = true -> exists c r, emit v = String c r /\ is_tok c = true.
Proof.
  intros Ha. apply tok_opens; [by apply atom_tok|].
  destruct v as [|[]|z|f|s|l|d]; try done; simpl.
  - unfold int_text. destruct (z <? 0)%Z; [done|]. apply string_of_N_nonempty.
  - destruct f as [|[]| |]; try done; cbn [float_text];
      match goal with |- context [float_repr ?f] => by destruct (float_repr_head f) as (c0 & s0 & -> & _) end.
Qed.

Lemma emit_opens : opens emit.
Proof.
  intros v. destruct (atom v) eqn:Ha.
  - destruct (atom_head v Ha) as (c & r & -> & Hc). exists c, r. split; [done|].
    split; intros ->; done.
  - destruct v as [|[]|z|f|s|l|d]; try done; simpl; unfold quote; eauto.
Qed.

Lemma tails_split {A} (enc : A -> string) c l l' s t :
  is_tok c = false -> c <> ","%char -> Forall (splits enc) l ->
  tails seps (map enc l) +:+ String c s = tails seps (map enc l') +:+ String c t ->
  l = l' /\ s = t.
Proof.
  intros Hc Hne Hl. revert l'. induction Hl as [|x l Hx Hl IH]; intros [|y l'] Heq;
    cbn [map tails foldr] in Heq; fold (tails seps) in Heq.
  - by injection Heq as ->.
  - rewrite string_app_cons in Heq. by injection Heq as -> _.
  - rewrite string_app_cons in Heq. by injection Heq as <- _.
  - rewrite !string_app_cons in Heq. injection Heq as Heq. rewrite !string_app_assoc in Heq.
    apply app_inv_s in Heq.
    assert (Hd : forall k u, delim (tails seps k +:+ String c u)).
    { intros [|z k] u; simpl; done. }
    destruct (Hx y _ _ (Hd _ _) (Hd _ _) Heq) as [-> Heq']. by destruct (IH _ Heq') as [-> ->].
Qed.

Lemma join_split {A} (enc : A -> string) c l l' s t :
  c = "]"%char \/ c = "}"%char -> opens enc -> Forall (splits enc) l ->
  join seps (map enc l) +:+ String c s = join seps (map enc l') +:+ String c t ->
  l = l' /\ s = t.
Proof.
  intros Hc Ho Hl Heq. assert (is_tok c = false /\ c <> ","%char) as [Htok Hne].
  { destruct Hc as [-> | ->]; done. }
  destruct Hl as [|x l Hx Hl], l' as [|y l']; cbn [map join] in Heq.
  - by injection Heq as ->.
  - destruct (Ho y) as (d & r & Hy & H1 & H2). rewrite Hy, !string_app_cons in Heq.
    injection Heq as -> _. by destruct Hc.
  - destruct (Ho x) as (d & r & Hy & H1 & H2). rewrite Hy, !string_app_cons in Heq.
    injection Heq as <- _. by destruct Hc.
  - rewrite !string_app_assoc in Heq.
    assert (Hd : forall k u, delim (tails seps k +:+ String c u)).
    { intros [|z k] u; simpl; [|done]. done. }
    destruct (Hx y _ _ (Hd _ _) (Hd _ _) Heq) as [-> Heq'].
    destruct (tails_split enc c l l' s t) as [-> ->]; auto.
Qed.

Lemma emit_split v : splits emit v.
Proof.
  induction v as [| | | | |l IH|d IH] using pyval_ind'; intros w u t Hu Ht Heq.
  1-4: match goal with |- ?v = _ /\ _ => assert (Hv : atom v = true) by done;
         set (v0 := v) in * end;
       destruct (atom w) eqn:Hw;
       [ destruct (token_split (emit v0) (emit w) u t) as [He ->]; auto using atom_tok;
         split; [by apply atom_inj | done]
       | destruct (atom_head v0 Hv) as (c & r & Hc & Hk); rewrite Hc in Heq;
         destruct w; try done; injection Heq as -> _; done ].
  - destruct (atom w) eqn:Hw.
    + destruct (atom_head w Hw) as (c & r & Hc & Hk). rewrite Hc in Heq. injection Heq as <- _. done.
    + destruct w; try done. destruct (quote_split _ _ _ _ Heq) as [-> ->]. done.
  - destruct (atom w) eqn:Hw.
    + destruct (atom_head w Hw) as (c & r & Hc & Hk). rewrite Hc in Heq. injection Heq as <- _. done.
    + destruct w as [| | | | |l'|]; try done. cbn [Json.emit] in Heq. rewrite !string_app_cons in Heq.
      injection Heq as Heq. rewrite !string_app_assoc in Heq.
      destruct (join_split emit "]" l l' u t) as [-> ->]; auto using emit_opens.
  - destruct (atom w) eqn:Hw.
    + destruct (atom_head w Hw) as (c & r & Hc & Hk). rewrite Hc in Heq. injection Heq as <- _. done.
    + destruct w as [| | | | | |d']; try done. cbn [Json.emit] in Heq. rewrite !string_app_cons in Heq.
      injection Heq as Heq. rewrite !string_app_assoc in Heq.
      destruct (join_split (fun kv => quote (fst kv) +:+ sep_key seps +:+ emit (snd kv)) "}" d d' u t)
        as [-> ->]; auto.
      { intros [k x]. simpl. unfold quote. eauto. }
      eapply Forall_impl; [exact IH|]. intros [k x] Hx [k' x'] s' t' Hs' Ht' Heq'. cbn [fst snd] in *.
      rewrite !string_app_assoc in Heq'. apply quote_split in Heq' as [-> Heq'].
      apply app_inv_s in Heq'.
      by destruct (Hx _ _ _ Hs' Ht' Heq') as [-> ->].
Qed.

Lemma dumps_inj v w : dumps seps v = dumps seps w -> json_equiv v w.
Proof.
  unfold dumps, json_equiv. intros Heq.
  destruct (emit_split (norm v) (norm w) "" "") as [? _]; try done. by rewrite !app_nil_s.
Qed.
End Injective.

(* ------------------------------------------------------------------ *)
(** ** Objects up to key order *)

Lemma dget_perm {A} (d d' : dict A) k : NoDup (dkeys d) -> d ≡ₚ d' -> dget d k = dget d' k.
Proof.
  intros Hnd Hp. assert (Hnd' : NoDup (dkeys d')).
  { unfold dkeys in *. by rewrite <- Hp. }
  destruct (dget d k) as [v|] eqn:Hg; symmetry.
  - apply elem_dget; [done|]. rewrite <- Hp. by apply dget_Some_elem.
  - apply dget_None_keys. apply dget_None_keys in Hg. unfold dkeys in *. by rewrite <- Hp.
Qed.

Definition norm_items (d : dict pyval) : dict pyval := map (fun kv => (fst kv, norm (snd kv))) d.

Lemma norm_dict d : norm (VDict d) = VDict (sort key_leb (norm_items d)).
Proof. done. Qed.

Lemma dkeys_norm d : dkeys (norm_items d) = dkeys d.
Proof. unfold dkeys, norm_items. rewrite map_map. by apply map_ext. Qed.

Lemma dget_norm d k : dget (norm_items d) k = option_map norm (dget d k).
Proof. induction d as [|[k' v] d IH]; simpl; [done|]. by destruct (String.eqb k' k). Qed.

(** Objects of equal text have the same keys with equal values. *)
Lemma json_equiv_dget d d' k :
  NoDup (dkeys d) -> NoDup (dkeys d') -> json_equiv (VDict d) (VDict d') ->
  option_map norm (dget d k) = option_map norm (dget d' k).
Proof.
  intros Hd Hd'. unfold json_equiv. rewrite !norm_dict. intros [= Heq].
  rewrite <- !dget_norm.
  rewrite (dget_perm _ (sort key_leb (norm_items d))), Heq;
    [symmetry; apply dget_perm|..]; rewrite ?dkeys_norm; auto; by rewrite sort_perm.
Qed.

Lemma json_equiv_vget d d' k :
  NoDup (dkeys d) -> NoDup (dkeys d') -> json_equiv (VDict d) (VDict d') ->
  json_equiv (vget d k) (vget d' k).
Proof.
  intros Hd Hd' Heq. pose proof (json_equiv_dget d d' k Hd Hd' Heq) as Hk.
  unfold vget, json_equiv. destruct (dget d k), (dget d' k); simpl in Hk; congruence.
Qed.

(** Conversely, the keys and their values determine the text. *)
Lemma json_equiv_intro d d' :
  NoDup (dkeys d) -> NoDup (dkeys d') ->
  (forall k, option_map norm (dget d k) = option_map norm (dget d' k)) ->
  json_equiv (VDict d) (VDict d').
Proof.
  intros Hd Hd' Hk. unfold json_equiv. rewrite !norm_dict. f_equal.
  apply (sort_unique _ (fun _ => True)).
  - intros x y _ _ Hl. unfold key_leb in *. destruct (String.leb_total (fst x) (fst y)); congruence.
  - intros x y z _ _ _. apply string_leb_trans.
  - intros [k x] [k' y] Hx Hy H1 H2. unfold key_leb in *. simpl in *.
    assert (k = k') as -> by (by apply String.leb_antisym).
    apply elem_dget in Hx, Hy; rewrite ?dkeys_norm; auto. congruence.
  - apply Forall_true. done.
  - assert (Hnd : forall e, NoDup (dkeys e) -> NoDup (norm_items e)).
    { intros e He. apply (NoDup_fmap_1 fst). change (fmap fst (norm_items e)) with (dkeys (norm_items e)).
      by rewrite dkeys_norm. }
    apply NoDup_Permutation; auto. intros [k x].
    assert (Hin : forall e, NoDup (dkeys e) -> (k, x) ∈ norm_items e <-> dget (norm_items e) k = Some x).
    { intros e He. split; [intros; apply elem_dget|apply dget_Some_elem]; auto. by rewrite dkeys_norm. }
    by rewrite !Hin, !dget_norm, Hk.
Qed.

#[export] Instance json_equiv_equivalence : Equivalence json_equiv.
Proof. unfold json_equiv. split; [done|by intros ? ?|intros ? ? ? -> ->; done]. Qed.

#[export] Instance dumps_proper `{FloatRepr} seps : Proper (json_equiv ==> eq) (dumps seps).
Proof. intros v w Heq. unfold dumps. by rewrite Heq. Qed.

(* ------------------------------------------------------------------ *)
(** ** A model of [FloatRepr] *)

(** Sign, mantissa and exponent written out: a text with the properties the
    class asks of [float.__repr__]. *)
Definition float_parts (f : float64) : bool * N * Z :=
  match f with
  | S754_zero s => (s, 0%N, 0%Z)
  | S754_infinity s => (s, 0%N, 1%Z)
  | S754_nan => (false, 0%N, 2%Z)
  | S754_finite s m e => (s, Npos m, e)
  end.

Definition parts_text (p : bool * N * Z) : string :=
  let '(s, m, e) := p in (if s : bool then "-" else "") +:+ string_of_N m +:+ String "." (int_text e).

Lemma parts_text_inj p q : parts_text p = parts_text q -> p = q.
Proof.
  destruct p as [[s m] e], q as [[s' m'] e']. unfold parts_text. intros Heq.
  assert (Hd : forall n, str_forallb (fun d => negb (Ascii.eqb d ".")) (string_of_N n) = true).
  { intros n. apply str_forallb_impl with is_digit; [|apply string_of_N_all_digits].
    intros c Hc. destruct (Ascii.eqb_spec c "."%char) as [->|]; done. }
  assert (Hm : forall n k t, string_of_N n +:+ t <> String "-" k).
  { intros n k t. destruct (string_of_N_head n) as (c & r & -> & Hc).
    rewrite string_app_cons. intros [= -> _]. done. }
  assert (s = s') as <-.
  { destruct s, s'; try done.
    - symmetry in Heq. by apply Hm in Heq.
    - by apply Hm in Heq. }
  apply app_inv_s in Heq.
  pose proof (split_at_app "." _ (int_text e) (Hd m)) as H1.
  rewrite Heq, (split_at_app "." _ (int_text e') (Hd m')) in H1.
  injection H1 as Hn%string_of_N_inj He%int_text_inj. by subst.
Qed.

Definition text_float_repr (f : float64) : string := parts_text (float_parts f).

#[local] Instance sample_float_repr : FloatRepr.
Proof.
  refine {| float_repr := text_float_repr |}; unfold text_float_repr.
  - intros f. destruct (float_parts f) as [[s m] e]. unfold parts_text.
    rewrite !str_forallb_app. simpl.
    assert (Hi : forall z, str_forallb is_tok (int_text z) = true).
    { intros z. eapply str_forallb_impl; [|apply int_text_tok]. intros c. unfold is_tok.
      destruct (is_digit c); [done|]. simpl. intros ->%Ascii.eqb_eq. done. }
    rewrite Hi. rewrite (str_forallb_impl is_digit is_tok (string_of_N m)); [by destruct s| |apply string_of_N_all_digits].
    intros c Hc. unfold is_tok. by rewrite Hc.
  - intros f. destruct (float_parts f) as [[s m] e]. unfold parts_text.
    destruct (string_of_N_head m) as (c & r & -> & Hc). destruct s; rewrite ?string_app_cons; eauto 10.
  - intros f. destruct (float_parts f) as [[s m] e]. unfold parts_text.
    rewrite !str_forallb_app. simpl. by rewrite !andb_false_r.
  - intros f g Heq%parts_text_inj.
    destruct f as [[]|[]| |[] m e], g as [[]|[]| |[] m' e']; simpl in Heq; congruence.
Defined.

(* ------------------------------------------------------------------ *)
(** ** Property *)

(** Canonical text: two values have the same [json.dumps(..., sort_keys=True)]
    text, under any separators of the code, exactly when they are equal up to
    the order of the keys of their objects: no two different contents are ever
    hashed or signed as the same bytes, and key order never shifts a hash. *)
Theorem canonical_text_unique `{FloatRepr} seps (v w : pyval) :
  dumps seps v = dumps seps w <-> json_equiv v w.
Proof. split; [apply dumps_inj | by intros ->]. Qed.

Lemma canonical_text_unique_witness :
  json_equiv (VDict [("b", VInt 1); ("a", VStr "x")]) (VDict [("a", VStr "x"); ("b", VInt 1)]) /\
  ~ json_equiv (VDict [("a", VStr "1")]) (VDict [("a", VInt 1)]).
Proof.
  split.
  - apply (canonical_text_unique default_seps). vm_compute. reflexivity.
  - intros Heq. apply (canonical_text_unique default_seps) in Heq. vm_compute in Heq. discriminate.
Defined.
