(* ===== verification/Canonical.v ===== *)
(** * Canonical: which fields of a row are hashed

    Models src/sentinel_os/canonical_fields.py, the contract the ledger's
    writer, the ledger's verifier and the witness share.  An optional field
    joins the canonical form only when it is present and truthy, so a row
    written before the field existed keeps the bytes it was hashed to. *)

From S2P Require Import Prelude PyFloat PyValue Episode Event Json.

Definition OPTIONAL_HASHED_FIELDS : list string :=
  ["cassette_hash"; "cassette_code_hash"; "model_identity"; "authorized_by";
   "supersedes_hash"; "outcome_obligation"; "replaces_hash"; "ai_cost";
   "shadow_run_hash"; "decision_hash"; "authorized_by_sig"; "subject_digest";
   "shuffle_seed"].

Definition CONTRACT_CANONICAL_FIELDS : dict (list string) :=
  [("contract_ingest", ["counterparty"; "ingest_id"; "data_scope"; "received_at"]);
   ("contract_egress", ["counterparty"; "decision"; "data_scope"; "recipient";
     "recipient_class"; "purpose"; "approval_reference"; "occurred_at"]);
   ("contract_approval", ["counterparty"; "approval_id"; "state"; "recipient";
     "recipient_class"; "scope"; "granted_at"; "expires_at"; "revoked_at"]);
   ("contract_deletion", ["counterparty"; "ingest_id"; "deleted_at"; "scope";
     "method"; "stamp"])].

Definition CONTRACT_KINDS_WITH_FINDING : list string := ["contract_egress"].

Definition OBSERVED_EVENT_CANONICAL_FIELDS : list string :=
  ["episode_id"; "event_id"; "domain"; "kind"; "occurred_at"; "observed_at"; "source";
   "provenance"; "method"; "fields"; "detail"; "schema_version"; "reducer_version"].

(** [for key in keys: canonical[key] = body.get(key)] *)
Definition copy_keys (keys : list string) (body canonical : dict pyval) : dict pyval :=
  fold_left (fun c k => dset c k (vget body k)) keys canonical.

Definition observed_event_canonical (event_body : dict pyval) (previous_hash : pyval)
    : dict pyval :=
  let canonical := copy_keys OBSERVED_EVENT_CANONICAL_FIELDS event_body
                     [("record_kind", VStr "observed_event")] in
  dset canonical "previous_hash" previous_hash.

Definition ATTESTATION_POLICY_RECORD_KIND : string := "attestation_policy".
Definition ATTESTATION_POLICY_CANONICAL_FIELDS : list string := ["key_fingerprint"; "enforced_at"].

Definition attestation_policy_canonical (body : dict pyval) (reason previous_hash : pyval)
    : dict pyval :=
  let canonical := copy_keys ATTESTATION_POLICY_CANONICAL_FIELDS body
                     [("record_kind", VStr ATTESTATION_POLICY_RECORD_KIND)] in
  dset (dset canonical "reason" reason) "previous_hash" previous_hash.

Definition event_v1_to_body (e : EventV1) : result pyexn (dict pyval) :=
  occurred ← to_float (e_occurred_at e);
  observed ← to_float (e_observed_at e);
  fields ← as_dict (e_fields e);
  detail ← as_dict (e_detail e);
  schema_version ← py_int (e_schema_version e);
  Ok [("episode_id", VStr (e_episode_id e));
      ("event_id", VStr (e_event_id e));
      ("domain", VStr (e_domain e));
      ("kind", VStr (e_kind e));
      ("occurred_at", VFloat occurred);
      ("observed_at", VFloat observed);
      ("source", VStr (e_source e));
      ("provenance", VStr (e_provenance e));
      ("method", opt_str (e_method e));
      ("fields", VDict fields);
      ("detail", VDict detail);
      ("schema_version", VInt schema_version);
      ("reducer_version",
        VStr (match e_reducer_version e with Some s => s | None => "None" end))].

Definition apply_optional (fields : list string) (source canonical : dict pyval) : dict pyval :=
  fold_left (fun c field =>
    let value := vget source field in
    if py_true value then dset c field value else c) fields canonical.

Definition apply_optional_hashed_fields (canonical source : dict pyval) : dict pyval :=
  apply_optional OPTIONAL_HASHED_FIELDS source canonical.

(* ------------------------------------------------------------------ *)
(** ** Lemmas *)

Lemma dget_copy_keys keys body c k :
  dget (copy_keys keys body c) k = if str_mem k keys then Some (vget body k) else dget c k.
Proof.
  revert c. induction keys as [|x keys IH]; intros c; [done|]. unfold copy_keys in *. simpl.
  rewrite IH, dget_dset. rewrite (String.eqb_sym x k).
  destruct (str_mem k keys) eqn:Hm; [by rewrite orb_true_r|].
  destruct (String.eqb_spec k x) as [->|]; done.
Qed.

Lemma NoDup_copy_keys keys body c : NoDup (dkeys c) -> NoDup (dkeys (copy_keys keys body c)).
Proof.
  revert c. induction keys as [|x keys IH]; intros c Hc; [done|]. apply IH. by apply NoDup_dset.
Qed.

Lemma dget_apply_optional fs source c k :
  dget (apply_optional fs source c) k =
  if str_mem k fs && py_true (vget source k) then Some (vget source k) else dget c k.
Proof.
  revert c. induction fs as [|x fs IH]; intros c; [done|]. unfold apply_optional in *. simpl.
  rewrite IH. destruct (String.eqb_spec k x) as [->|Hne]; simpl.
  - destruct (py_true (vget source x)); [|by rewrite andb_false_r].
    rewrite dget_dset_eq. by destruct (str_mem x fs).
  - destruct (str_mem k fs && py_true (vget source k)); [done|].
    destruct (py_true (vget source x)); [|done]. by rewrite dget_dset_ne.
Qed.

Lemma NoDup_apply_optional fs source c :
  NoDup (dkeys c) -> NoDup (dkeys (apply_optional fs source c)).
Proof.
  revert c. induction fs as [|x fs IH]; intros c Hc; [done|]. apply IH.
  simpl. destruct (py_true (vget source x)); [by apply NoDup_dset|done].
Qed.

(** What a field of the source shows to the hash. *)
Definition visible (v : pyval) : pyval := if py_true v then v else VNone.

Lemma sort_nil_inv {A} (leb : A -> A -> bool) l : sort leb l = [] <-> l = [].
Proof.
  split; [|by intros ->]. intros Hs. pose proof (sort_perm leb l) as Hp. rewrite Hs in Hp.
  by apply Permutation_nil_l in Hp.
Qed.

Lemma py_true_norm v : py_true (norm v) = py_true v.
Proof.
  destruct v as [| | | | |l|d]; try done; simpl; [by destruct l|].
  destruct d as [|kv d]; [done|]. destruct (sort _ _) eqn:E; [|done].
  by apply sort_nil_inv in E.
Qed.

Lemma visible_norm v : norm (visible v) = visible (norm v).
Proof. unfold visible. rewrite py_true_norm. by destruct (py_true v). Qed.

(** No optional field is among the keys of a canonical form yet. *)
Definition no_optional (c : dict pyval) : Prop :=
  forall k, k ∈ OPTIONAL_HASHED_FIELDS -> dget c k = None.

Lemma no_optional_dec c :
  forallb (fun k => negb (dmem c k)) OPTIONAL_HASHED_FIELDS = true -> no_optional c.
Proof.
  rewrite forallb_forall. intros Hall k Hk. specialize (Hall k (proj1 (list_elem_of_In _ _) Hk)).
  unfold dmem in Hall. by destruct (dget c k).
Qed.

Lemma dget_apply_hashed c source k : no_optional c ->
  dget (apply_optional_hashed_fields c source) k =
  if str_mem k OPTIONAL_HASHED_FIELDS
  then (if py_true (vget source k) then Some (vget source k) else None)
  else dget c k.
Proof.
  intros Hc. unfold apply_optional_hashed_fields. rewrite dget_apply_optional.
  destruct (str_mem k OPTIONAL_HASHED_FIELDS) eqn:Hk; [|done].
  apply str_mem_spec in Hk. simpl. destruct (py_true (vget source k)); [done|]. by apply Hc.
Qed.

Lemma visible_eq v w :
  norm (visible v) = norm (visible w) <->
  option_map norm (if py_true v then Some v else None) =
  option_map norm (if py_true w then Some w else None).
Proof.
  unfold visible. destruct (py_true v) eqn:Hv, (py_true w) eqn:Hw; simpl; split; intros Heq;
    try congruence; exfalso; rewrite <- py_true_norm in Hv, Hw.
  - by rewrite Heq in Hv.
  - by rewrite <- Heq in Hw.
Qed.

(* ------------------------------------------------------------------ *)
(** ** Property *)

(** The optional-field contract: two canonical forms with optional fields
    applied have the same hashed text exactly when their fixed parts do and
    every optional field shows the same value, where an absent, null or falsy
    field shows nothing.  So a blank column never shifts a hash, wherever it
    comes from, and no visible optional value can change without changing the
    text. *)
Theorem optional_fields_contract `{FloatRepr} (seps : separators) (c c' s s' : dict pyval) :
  NoDup (dkeys c) -> NoDup (dkeys c') -> no_optional c -> no_optional c' ->
  dumps seps (VDict (apply_optional_hashed_fields c s)) =
  dumps seps (VDict (apply_optional_hashed_fields c' s')) <->
  json_equiv (VDict c) (VDict c') /\
  forall f, f ∈ OPTIONAL_HASHED_FIELDS ->
    json_equiv (visible (vget s f)) (visible (vget s' f)).
Proof.
  intros Hc Hc' Ho Ho'. split.
  - intros Heq%dumps_inj.
    assert (Hk : forall k, option_map norm (dget (apply_optional_hashed_fields c s) k) =
                      option_map norm (dget (apply_optional_hashed_fields c' s') k)).
    { intros k. apply json_equiv_dget; auto; by apply NoDup_apply_optional. }
    split.
    + apply json_equiv_intro; auto. intros k. specialize (Hk k).
      rewrite !dget_apply_hashed in Hk by done.
      destruct (str_mem k OPTIONAL_HASHED_FIELDS) eqn:Hm; [|done].
      apply str_mem_spec in Hm. by rewrite Ho, Ho'.
    + intros f Hf. apply visible_eq. specialize (Hk f). rewrite !dget_apply_hashed in Hk by done.
      apply str_mem_spec in Hf. by rewrite Hf in Hk.
  - intros [Hcc Hf]. apply dumps_proper. apply json_equiv_intro;
      [by apply NoDup_apply_optional..|]. intros k. rewrite !dget_apply_hashed by done.
    destruct (str_mem k OPTIONAL_HASHED_FIELDS) eqn:Hm.
    + apply visible_eq. apply Hf. by apply str_mem_spec.
    + by apply json_equiv_dget.
Qed.

#[local] Existing Instance sample_float_repr.

Lemma optional_fields_contract_witness :
  dumps default_seps (VDict (apply_optional_hashed_fields [("node", VStr "n")]
    [("authorized_by", VStr ""); ("ai_cost", VDict [])])) =
  dumps default_seps (VDict (apply_optional_hashed_fields [("node", VStr "n")] [])).
Proof.
  apply (optional_fields_contract default_seps [("node", VStr "n")] [("node", VStr "n")]
    [("authorized_by", VStr ""); ("ai_cost", VDict [])] []);
    [repeat constructor; set_solver..|by apply no_optional_dec|by apply no_optional_dec|].
  split; [reflexivity|]. intros f Hf.
  repeat (apply elem_of_cons in Hf as [->|Hf]; [reflexivity|]). by apply elem_of_nil in Hf.
Defined.
