(* ===== verification/Attestation.v ===== *)
(** * Attestation: keyed signatures over an accountable claim

    Models src/sentinel_os/governance/authorized_by_attestation.py: the key
    configuration, the signature envelopes (bare digest, abv2, abv3), their
    verification under a partitioned key set, and the shuffle seed.  Keys and
    HMAC messages are strings of bytes; SHA-256 and HMAC-SHA256 are functions
    of which only the shape of the digest is assumed. *)

From S2P Require Import Prelude PyFloat PyValue Json.
Local Open Scope string_scope.

Definition is_hex (c : ascii) : bool := is_digit c || ch_in 97 102 c.

(** [hashlib.sha256(b).hexdigest()] and [hmac.new(k, b, sha256).hexdigest()]:
    64 lower-case hex digits. *)
Class Hashes := {
  sha256 : string -> string;
  hmac_sha256 : string -> string -> string;
  sha256_hex : forall s, str_forallb is_hex (sha256 s) = true /\ String.length (sha256 s) = 64%nat;
  hmac_hex : forall k s,
    str_forallb is_hex (hmac_sha256 k s) = true /\ String.length (hmac_sha256 k s) = 64%nat;
}.

(** [os.environ] and the files a [_FILE] variable may name ([None] where
    opening the path raises [OSError]). *)
Record os_view := mkOs { environ : dict string; read_file : string -> option string }.

Definition getenv (os : os_view) (k : string) : option string := dget (environ os) k.

Definition ENV_KEY : string := "ICEBERG_LEDGER_ATTESTATION_KEY".
Definition ENV_KEY_FILE : string := "ICEBERG_LEDGER_ATTESTATION_KEY_FILE".
Definition ENV_KEYS_PREVIOUS : string := "ICEBERG_LEDGER_ATTESTATION_KEYS_PREVIOUS".
Definition ENV_KEYS_PREVIOUS_FILE : string := "ICEBERG_LEDGER_ATTESTATION_KEYS_PREVIOUS_FILE".
Definition ENV_KEYS_RETIRED : string := "ICEBERG_LEDGER_ATTESTATION_KEYS_RETIRED".
Definition ENV_KEYS_RETIRED_FILE : string := "ICEBERG_LEDGER_ATTESTATION_KEYS_RETIRED_FILE".
Definition ENV_DEV_OVERRIDE : string := "ICEBERG_LEDGER_ATTESTATION_DEV_OVERRIDE".

Definition NUL : string := String (ascii_of_N 0) "".
Definition DOMAIN_TAG : string := "sentinel_os.authorized_by.v1".
Definition KEYID_DOMAIN : string := "sentinel_os.authorized_by.keyid.v1".
Definition ENVELOPE_TAG : string := "abv2".
Definition KEYFP_LEN : nat := 16.
Definition DOMAIN_TAG_V3 : string := "sentinel_os.authorized_by.v3".
Definition ENVELOPE_TAG_V3 : string := "abv3".
Definition SIGNATURE_FIELD : string := "authorized_by_sig".
Definition TRUTHY : list string := ["1"; "true"; "yes"; "on"].

(* ------------------------------------------------------------------ *)
(** ** Key resolution *)

(** [os.environ.get(name)] used as a condition. *)
Definition env_value (os : os_view) (name : string) : option string :=
  match getenv os name with Some s => if str_true s then Some s else None | None => None end.

Definition attestation_key (os : os_view) : result pyexn (option string) :=
  match env_value os ENV_KEY with
  | Some raw => Ok (Some (utf8 raw))
  | None =>
      match env_value os ENV_KEY_FILE with
      | Some path =>
          match read_file os path with
          | None => Err RuntimeError
          | Some contents =>
              let contents := strip contents in
              if str_true contents then Ok (Some (utf8 contents)) else Err RuntimeError
          end
      | None => Ok None
      end
  end.

(** The line boundaries of [str.splitlines] on Latin-1. *)
Definition is_linebreak (c : ascii) : bool :=
  let n := N_of_ascii c in
  ((10 <=? n) && (n <=? 13) || (28 <=? n) && (n <=? 30) || (n =? 133))%N.

Definition keys_from (os : os_view) (env_name file_env_name : string)
    : result pyexn (list string) :=
  let listed := match env_value os env_name with
                | Some raw => split_by (Ascii.eqb ",") raw
                | None => []
                end in
  match env_value os file_env_name with
  | None => Ok listed
  | Some path => match read_file os path with
                 | None => Err RuntimeError
                 | Some text => Ok (listed ++ split_by is_linebreak text)%list
                 end
  end ≫= fun items =>
  Ok (map (fun s => utf8 (strip s)) (List.filter (fun s => str_true (strip s)) items)).

Section Keys.
Context `{Hashes}.

Definition key_fingerprint (key : string) : string :=
  str_take KEYFP_LEN (sha256 (KEYID_DOMAIN +:+ NUL +:+ key)).

Record KeySet := mkKeySet { ks_trusted : list string; ks_retired : list string }.

(** Appends the non-empty keys not yet seen, in order. *)
Definition add_keys (skip : list string) (keys acc : list string) : list string :=
  fold_left (fun acc k =>
    if str_true k && negb (str_mem k skip) && negb (str_mem k acc) then (acc ++ [k])%list else acc)
    keys acc.

Definition make_KeySet (current : option string) (previous retired : list string) : KeySet :=
  let first := match current with Some k => if str_true k then [k] else [] | None => [] end in
  let trusted := add_keys [] (first ++ previous)%list [] in
  mkKeySet trusted (add_keys trusted retired []).

Definition is_empty (ks : KeySet) : bool :=
  match ks_trusted ks, ks_retired ks with [], [] => true | _, _ => false end.

(** [{key_fingerprint(k): k for k in keys}.get(fp)] *)
Definition by_fingerprint (keys : list string) (fp : string) : option string :=
  dget (fold_left (fun d k => dset d (key_fingerprint k) k) keys []) fp.

Definition trusted_key (ks : KeySet) (fp : string) : option string :=
  by_fingerprint (ks_trusted ks) fp.
Definition retired_key (ks : KeySet) (fp : string) : option string :=
  by_fingerprint (ks_retired ks) fp.

Definition attestation_keyset (os : os_view) : result pyexn KeySet :=
  current ← attestation_key os;
  previous ← keys_from os ENV_KEYS_PREVIOUS ENV_KEYS_PREVIOUS_FILE;
  retired ← keys_from os ENV_KEYS_RETIRED ENV_KEYS_RETIRED_FILE;
  Ok (make_KeySet current previous retired).

(** The warnings printed once per process have no effect on the result. *)
Definition enforcement_required (os : os_view) : bool :=
  negb (str_mem (lower (strip (or_empty (getenv os ENV_DEV_OVERRIDE)))) TRUTHY).

(* ------------------------------------------------------------------ *)
(** ** Signing *)

Context `{FloatRepr}.

Definition payload (authorized_by previous_hash record_kind : pyval) : string :=
  DOMAIN_TAG +:+ NUL +:+ dumps compact_seps (VDict
    [("authorized_by", authorized_by); ("previous_hash", previous_hash);
     ("record_kind", record_kind)]).

(** The digest of a row's canonical entry without its signature field. *)
Definition content_prehash (canonical_entry : dict pyval) : string :=
  let entry := List.filter (fun kv => negb (String.eqb (fst kv) SIGNATURE_FIELD)) canonical_entry in
  sha256 (dumps default_seps (VDict entry)).

Definition payload_v3 (authorized_by previous_hash record_kind : pyval) (prehash : string)
    : string :=
  DOMAIN_TAG_V3 +:+ NUL +:+ dumps compact_seps (VDict
    [("authorized_by", authorized_by); ("content_prehash", VStr prehash);
     ("previous_hash", previous_hash); ("record_kind", record_kind)]).

Definition DOT : ascii -> bool := Ascii.eqb ".".

(** [(tag, keyfp, digest)]; no tag for a bare digest. *)
Definition split_envelope (sig : string) : option (string * string) * string :=
  match split_by DOT sig with
  | [tag; keyfp; digest] =>
      if str_mem tag [ENVELOPE_TAG; ENVELOPE_TAG_V3] then (Some (tag, keyfp), digest)
      else (None, sig)
  | _ => (None, sig)
  end.

Definition envelope (tag key digest : string) : string :=
  tag +:+ "." +:+ key_fingerprint key +:+ "." +:+ digest.

Definition sign_authorized_by (authorized_by previous_hash record_kind : pyval)
    (key content_prehash : option string) : option string :=
  match key with
  | None => None
  | Some key =>
      if negb (py_true authorized_by) || negb (str_true key) then None
      else if opt_true content_prehash then
        Some (envelope ENVELOPE_TAG_V3 key (hmac_sha256 key
          (payload_v3 authorized_by previous_hash record_kind (or_empty content_prehash))))
      else
        Some (envelope ENVELOPE_TAG key (hmac_sha256 key
          (payload authorized_by previous_hash record_kind)))
  end.

(* ------------------------------------------------------------------ *)
(** ** Verifying *)

Inductive att_status :=
| STATUS_OK
| STATUS_ABSENT
| STATUS_UNATTESTED
| STATUS_UNVERIFIABLE
| STATUS_INVALID
| STATUS_RETIRED_KEY
| STATUS_UNKNOWN_KEY.

#[export] Instance att_status_eq_dec : EqDecision att_status.
Proof. solve_decision. Defined.

Inductive keys_arg :=
| KSet (ks : KeySet)
| KNone
| KBytes (k : string)
| KList (ks : list string).

Definition as_keyset (keys : keys_arg) : KeySet :=
  match keys with
  | KSet ks => ks
  | KNone => make_KeySet None [] []
  | KBytes k => make_KeySet (Some k) [] []
  | KList ks => make_KeySet None ks []
  end.

(** [hmac.compare_digest] on two [str]: TypeError unless both are ASCII. *)
Definition compare_digest (a b : string) : result pyexn bool :=
  if is_ascii a && is_ascii b then Ok (String.eqb a b) else Err TypeError.

(** The first key of a list whose HMAC of [msg] is [digest]. *)
Fixpoint any_matches (keys : list string) (msg digest : string) : result pyexn bool :=
  match keys with
  | [] => Ok false
  | k :: keys =>
      b ← compare_digest (hmac_sha256 k msg) digest;
      if b : bool then Ok true else any_matches keys msg digest
  end.

(** Trusted keys first, then retired ones. *)
Definition match_any (ks : KeySet) (msg digest : string) : result pyexn att_status :=
  b ← any_matches (ks_trusted ks) msg digest;
  if b : bool then Ok STATUS_OK else
  b ← any_matches (ks_retired ks) msg digest;
  if b : bool then Ok STATUS_RETIRED_KEY else Ok STATUS_INVALID.

(** A digest against the one key it names. *)
Definition match_named (ks : KeySet) (fp msg digest : string) : result pyexn att_status :=
  match trusted_key ks fp with
  | Some k =>
      b ← compare_digest (hmac_sha256 k msg) digest;
      Ok (if b : bool then STATUS_OK else STATUS_INVALID)
  | None =>
      match retired_key ks fp with
      | Some k =>
          b ← compare_digest (hmac_sha256 k msg) digest;
          Ok (if b : bool then STATUS_RETIRED_KEY else STATUS_INVALID)
      | None => Ok STATUS_UNKNOWN_KEY
      end
  end.

(** [row] carries the four columns; [content_prehash] is the digest of the
    content the verifier has rebuilt. *)
Definition verify_authorized_by_signature (row : dict pyval) (keys : keys_arg)
    (content_prehash : option string) : result pyexn att_status :=
  let authorized_by := vget row "authorized_by" in
  let sig := vget row SIGNATURE_FIELD in
  if negb (py_true authorized_by) then Ok STATUS_ABSENT
  else if negb (py_true sig) then Ok STATUS_UNATTESTED
  else
    let ks := as_keyset keys in
    if is_empty ks then Ok STATUS_UNVERIFIABLE
    else
      let previous_hash := vget row "previous_hash" in
      let record_kind := vget row "record_kind" in
      match split_envelope (py_str sig) with
      | (Some (tag, keyfp), digest) =>
          if String.eqb tag ENVELOPE_TAG_V3 then
            if opt_true content_prehash then
              match_named ks keyfp
                (payload_v3 authorized_by previous_hash record_kind (or_empty content_prehash))
                digest
            else Ok STATUS_INVALID
          else match_named ks keyfp (payload authorized_by previous_hash record_kind) digest
      | (None, digest) => match_any ks (payload authorized_by previous_hash record_kind) digest
      end.

(* ------------------------------------------------------------------ *)
(** ** Shuffle seed *)

Definition SEED_DOMAIN_TAG : string := "sentinel_os.shuffle_seed.v1".

Definition seed_payload (previous_hash record_kind : pyval) : string :=
  SEED_DOMAIN_TAG +:+ NUL +:+ dumps compact_seps (VDict
    [("previous_hash", previous_hash); ("record_kind", record_kind)]).

Definition derive_shuffle_seed (previous_hash record_kind : string) (key : option string)
    : result pyexn string :=
  if negb (opt_true key) then Err ValueError
  else if negb (str_true previous_hash) || negb (str_true record_kind) then Err ValueError
  else Ok (hmac_sha256 (or_empty key) (seed_payload (VStr previous_hash) (VStr record_kind))).

Definition verify_shuffle_seed (seed previous_hash record_kind : pyval) (keys : keys_arg)
    : result pyexn att_status :=
  if negb (py_true seed) then Ok STATUS_ABSENT
  else
    let ks := as_keyset keys in
    if is_empty ks then Ok STATUS_UNVERIFIABLE
    else match_any ks (seed_payload previous_hash record_kind) (py_str seed).
End Keys.

(* ------------------------------------------------------------------ *)
(** ** Lemmas *)

Section AttestationLemmas.
Context `{Hashes} `{FloatRepr}.

Lemma hex_no_dot s : str_forallb is_hex s = true -> str_forallb (fun c => negb (DOT c)) s = true.
Proof.
  apply str_forallb_impl. intros c Hc. unfold DOT. destruct (Ascii.eqb_spec "." c) as [<-|]; done.
Qed.

Lemma hex_ascii s : str_forallb is_hex s = true -> is_ascii s = true.
Proof.
  apply str_forallb_impl. intros c Hc. unfold is_hex, is_digit, ch_in in Hc.
  apply N.ltb_lt. apply orb_true_iff in Hc as [Hc|Hc]; bool_hyps;
    repeat match goal with H : (_ <=? _)%N = true |- _ => apply N.leb_le in H end; lia.
Qed.

Lemma fingerprint_hex k : str_forallb is_hex (key_fingerprint k) = true.
Proof. apply str_take_forallb. apply sha256_hex. Qed.

Lemma split_envelope_named tag k d :
  tag ∈ [ENVELOPE_TAG; ENVELOPE_TAG_V3] -> str_forallb is_hex d = true ->
  split_envelope (envelope tag k d) = (Some (tag, key_fingerprint k), d).
Proof.
  intros Ht Hd. unfold split_envelope, envelope.
  assert (str_forallb (fun c => negb (DOT c)) tag = true).
  { repeat (apply elem_of_cons in Ht as [->|Ht]; [done|]). by apply elem_of_nil in Ht. }
  change (tag +:+ "." +:+ key_fingerprint k +:+ "." +:+ d)
    with (tag +:+ String "." (key_fingerprint k +:+ String "." d)).
  rewrite !split_by_app by (done || by apply hex_no_dot, fingerprint_hex).
  rewrite (split_by_none _ d) by (by apply hex_no_dot).
  apply str_mem_spec in Ht. by rewrite Ht.
Qed.

Lemma compare_digest_hmac k m d :
  is_ascii d = true -> compare_digest (hmac_sha256 k m) d = Ok (String.eqb (hmac_sha256 k m) d).
Proof. intros Hd. unfold compare_digest. by rewrite (hex_ascii _ (proj1 (hmac_hex k m))), Hd. Qed.

Lemma by_fingerprint_spec keys fp :
  match by_fingerprint keys fp with
  | Some k => k ∈ keys /\ key_fingerprint k = fp
  | None => forall k, k ∈ keys -> key_fingerprint k <> fp
  end.
Proof.
  unfold by_fingerprint.
  assert (Hgen : forall d, match dget (fold_left (fun d k => dset d (key_fingerprint k) k) keys d) fp with
    | Some k => (k ∈ keys /\ key_fingerprint k = fp) \/ dget d fp = Some k
    | None => dget d fp = None /\ forall k, k ∈ keys -> key_fingerprint k <> fp end).
  { induction keys as [|x keys IH]; intros d; simpl.
    - destruct (dget d fp); [by right|]. split; [done|]. set_solver.
    - specialize (IH (dset d (key_fingerprint x) x)).
      destruct (dget _ fp) as [k|] eqn:E; [|destruct IH as [IH1 IH2]].
      + destruct IH as [[Hk Hf]|IH]; [left; set_solver|]. rewrite dget_dset in IH.
        destruct (String.eqb_spec (key_fingerprint x) fp); [|by right]. simplify_eq. left. set_solver.
      + rewrite dget_dset in IH1. destruct (String.eqb_spec (key_fingerprint x) fp); [done|].
        split; [done|]. intros k [->|Hk]%elem_of_cons; auto. }
  specialize (Hgen []). destruct (dget _ fp); [destruct Hgen as [?|?]; done|]. by apply Hgen.
Qed.

Definition all_keys (ks : KeySet) : list string := (ks_trusted ks ++ ks_retired ks)%list.

(** No other key of the set has the fingerprint of [k]. *)
Definition fp_unique (keys : list string) (k : string) : Prop :=
  forall k', k' ∈ keys -> key_fingerprint k' = key_fingerprint k -> k' = k.

Lemma by_fingerprint_in keys k :
  fp_unique keys k -> by_fingerprint keys (key_fingerprint k) = if str_mem k keys then Some k else None.
Proof.
  intros Hu. pose proof (by_fingerprint_spec keys (key_fingerprint k)) as Hs.
  destruct (by_fingerprint keys (key_fingerprint k)) as [k'|].
  - destruct Hs as [Hin Hf]. pose proof (Hu k' Hin Hf) as ->. apply str_mem_spec in Hin. by rewrite Hin.
  - destruct (str_mem k keys) eqn:Hm; [|done]. apply str_mem_spec in Hm. by destruct (Hs k Hm).
Qed.

(** What a signature by [k] is worth to a verifier holding [ks]. *)
Definition key_status (ks : KeySet) (k : string) : att_status :=
  if str_mem k (ks_trusted ks) then STATUS_OK
  else if str_mem k (ks_retired ks) then STATUS_RETIRED_KEY
  else STATUS_UNKNOWN_KEY.

Lemma match_named_hmac ks k m :
  fp_unique (all_keys ks) k ->
  match_named ks (key_fingerprint k) m (hmac_sha256 k m) = Ok (key_status ks k).
Proof.
  intros Hu. unfold match_named, trusted_key, retired_key, key_status.
  rewrite !by_fingerprint_in by (intros k' Hk'; apply Hu; unfold all_keys; set_solver).
  destruct (str_mem k (ks_trusted ks)), (str_mem k (ks_retired ks)); try done;
    rewrite compare_digest_hmac by (by apply hex_ascii, hmac_hex); by rewrite String.eqb_refl.
Qed.

Lemma any_matches_true keys m d :
  any_matches keys m d = Ok true -> exists k, k ∈ keys /\ d = hmac_sha256 k m.
Proof.
  induction keys as [|k keys IH]; simpl; [done|]. unfold compare_digest.
  destruct (is_ascii (hmac_sha256 k m) && is_ascii d); simpl; [|done].
  destruct (String.eqb_spec (hmac_sha256 k m) d) as [<-|]; [|intros (k' & ? & ?)%IH];
    eexists; split; try done; set_solver.
Qed.

Definition accepted (st : att_status) : Prop := st = STATUS_OK \/ st = STATUS_RETIRED_KEY.

Lemma match_any_accepted ks m d st : match_any ks m d = Ok st -> accepted st ->
  exists k, k ∈ all_keys ks /\ d = hmac_sha256 k m.
Proof.
  unfold match_any. destruct (any_matches (ks_trusted ks) m d) as [[|]|] eqn:Ht; simpl; try done.
  - intros _ _. destruct (any_matches_true _ _ _ Ht) as (k & Hk & ->). exists k. unfold all_keys. set_solver.
  - destruct (any_matches (ks_retired ks) m d) as [[|]|] eqn:Hr; simpl; try done.
    + intros _ _. destruct (any_matches_true _ _ _ Hr) as (k & Hk & ->). exists k. unfold all_keys. set_solver.
    + intros [= <-] [|]; done.
Qed.

Lemma match_named_accepted ks fp m d st : match_named ks fp m d = Ok st -> accepted st ->
  exists k, k ∈ all_keys ks /\ d = hmac_sha256 k m.
Proof.
  unfold match_named, trusted_key, retired_key.
  assert (Hgood : forall keys k st0, by_fingerprint keys fp = Some k ->
    (b ← compare_digest (hmac_sha256 k m) d; Ok (if b : bool then st0 else STATUS_INVALID)) = Ok st ->
    accepted st -> k ∈ keys /\ d = hmac_sha256 k m).
  { intros keys k st0 Hk Hm Ha. pose proof (by_fingerprint_spec keys fp) as Hs. rewrite Hk in Hs.
    unfold compare_digest in Hm. destruct (_ && _); simpl in Hm; [|done].
    destruct (String.eqb_spec (hmac_sha256 k m) d) as [<-|]; [naive_solver|].
    injection Hm as <-. by destruct Ha. }
  destruct (by_fingerprint (ks_trusted ks) fp) as [k|] eqn:Ht.
  - intros Hm Ha. destruct (Hgood _ _ _ Ht Hm Ha). exists k. unfold all_keys. set_solver.
  - destruct (by_fingerprint (ks_retired ks) fp) as [k|] eqn:Hr.
    + intros Hm Ha. destruct (Hgood _ _ _ Hr Hm Ha). exists k. unfold all_keys. set_solver.
    + intros [= <-] [|]; done.
Qed.

(** The bytes a stored signature is checked against. *)
Definition signed_message (row : dict pyval) (content_prehash : option string) : string :=
  let ab := vget row "authorized_by" in
  let ph := vget row "previous_hash" in
  let rk := vget row "record_kind" in
  match fst (split_envelope (py_str (vget row SIGNATURE_FIELD))) with
  | Some (tag, _) => if String.eqb tag ENVELOPE_TAG_V3
                     then payload_v3 ab ph rk (or_empty content_prehash) else payload ab ph rk
  | None => payload ab ph rk
  end.

Lemma verify_accepted row keys pre st :
  verify_authorized_by_signature row keys pre = Ok st -> accepted st ->
  exists k, k ∈ all_keys (as_keyset keys) /\
    snd (split_envelope (py_str (vget row SIGNATURE_FIELD))) = hmac_sha256 k (signed_message row pre).
Proof.
  unfold verify_authorized_by_signature, signed_message.
  destruct (py_true (vget row "authorized_by")); simpl; [|intros [= <-] [|]; done].
  destruct (py_true (vget row SIGNATURE_FIELD)); simpl; [|intros [= <-] [|]; done].
  destruct (is_empty (as_keyset keys)); simpl; [intros [= <-] [|]; done|].
  destruct (split_envelope _) as [[[tag fp]|] d]; simpl.
  - destruct (String.eqb tag ENVELOPE_TAG_V3); [|apply match_named_accepted].
    destruct (opt_true pre); [apply match_named_accepted|intros [= <-] [|]; done].
  - apply match_any_accepted.
Qed.

Lemma dumps_get seps d d' k : NoDup (dkeys d) -> NoDup (dkeys d') ->
  dumps seps (VDict d) = dumps seps (VDict d') -> json_equiv (vget d k) (vget d' k).
Proof. intros Hd Hd' Heq%dumps_inj. by apply json_equiv_vget. Qed.

Lemma payload_inj a p r a' p' r' : payload a p r = payload a' p' r' ->
  json_equiv a a' /\ json_equiv p p' /\ json_equiv r r'.
Proof.
  unfold payload. intros Heq. do 2 apply app_inv_s in Heq.
  split_and!; [apply (dumps_get _ _ _ "authorized_by") in Heq
    |apply (dumps_get _ _ _ "previous_hash") in Heq|apply (dumps_get _ _ _ "record_kind") in Heq];
    try exact Heq; simpl; repeat constructor; set_solver.
Qed.

Lemma payload_v3_inj a p r c a' p' r' c' : payload_v3 a p r c = payload_v3 a' p' r' c' ->
  json_equiv a a' /\ json_equiv p p' /\ json_equiv r r' /\ c = c'.
Proof.
  unfold payload_v3. intros Heq. do 2 apply app_inv_s in Heq.
  split_and!; [apply (dumps_get _ _ _ "authorized_by") in Heq
    |apply (dumps_get _ _ _ "previous_hash") in Heq|apply (dumps_get _ _ _ "record_kind") in Heq
    |apply (dumps_get _ _ _ "content_prehash") in Heq];
    try exact Heq; try (simpl; repeat constructor; set_solver). by injection Heq.
Qed.

Lemma any_matches_ascii keys m d : is_ascii d = true ->
  any_matches keys m d = Ok (existsb (fun k => String.eqb (hmac_sha256 k m) d) keys).
Proof.
  intros Hd. induction keys as [|k keys IH]; simpl; [done|].
  rewrite compare_digest_hmac by done. simpl. by destruct (String.eqb _ d).
Qed.

Lemma match_any_complete ks m k : k ∈ all_keys ks ->
  exists st, match_any ks m (hmac_sha256 k m) = Ok st /\ accepted st.
Proof.
  intros Hk. unfold match_any. rewrite !any_matches_ascii by (by apply hex_ascii, hmac_hex). simpl.
  destruct (existsb _ (ks_trusted ks)) eqn:Ht; [eexists; split; [done|by left]|].
  destruct (existsb _ (ks_retired ks)) eqn:Hr; [eexists; split; [done|by right]|].
  assert (Hno : forall keys, k ∈ keys ->
    existsb (fun k' => String.eqb (hmac_sha256 k' m) (hmac_sha256 k m)) keys = false -> False).
  { intros keys Hin Hf. apply list_elem_of_In in Hin.
    assert (Ht' : existsb (fun k' => String.eqb (hmac_sha256 k' m) (hmac_sha256 k m)) keys = true);
      [|congruence]. apply existsb_exists. exists k. by rewrite String.eqb_refl. }
  apply elem_of_app in Hk as [Hk|Hk]; exfalso; eauto.
Qed.

(** The verifier needs the digest only where the signature covers it. *)
Lemma sign_verify_gen (ks : KeySet) (k : string) (row : dict pyval) (pre pre' : option string) :
  py_true (vget row "authorized_by") = true -> str_true k = true ->
  fp_unique (all_keys ks) k -> is_empty ks = false ->
  (opt_true pre = true -> pre' = pre) ->
  vget row SIGNATURE_FIELD =
    opt_str (sign_authorized_by (vget row "authorized_by") (vget row "previous_hash")
               (vget row "record_kind") (Some k) pre) ->
  verify_authorized_by_signature row (KSet ks) pre' = Ok (key_status ks k).
Proof.
  intros Hab Hk Hu He Hpre Hsig. unfold sign_authorized_by in Hsig. rewrite Hab, Hk in Hsig. simpl in Hsig.
  unfold verify_authorized_by_signature. rewrite Hab, Hsig. simpl.
  destruct (opt_true pre) eqn:Hp; cbn [opt_str py_true py_str];
    (replace (str_true (envelope _ _ _)) with true by done); simpl; rewrite He;
    rewrite split_envelope_named by (apply hmac_hex || (clear; set_solver)); simpl.
  - rewrite Hpre, Hp by done. by apply match_named_hmac.
  - by apply match_named_hmac.
Qed.

(** A signature is made exactly for a claim. *)
Lemma sign_none ab ph rk k pre : py_true ab = false -> sign_authorized_by ab ph rk k pre = None.
Proof. unfold sign_authorized_by. intros ->. by destruct k. Qed.

Lemma sign_some ab ph rk k pre : py_true ab = true -> str_true k = true ->
  exists s, sign_authorized_by ab ph rk (Some k) pre = Some s /\ str_true s = true.
Proof. unfold sign_authorized_by. intros -> ->. simpl. destruct (opt_true pre); eexists; by split. Qed.

(* ------------------------------------------------------------------ *)
(** ** Properties *)

(** Sign, then verify: a claim signed with key [k], in the abv3 form when a
    content digest is given and in the abv2 form otherwise, verifies against the
    same columns and digest as ok when [k] is the current or a previous key, as
    retired when the operator retired it, and as signed by an unknown key when
    the verifier holds [k] in no role.  The one assumption is that no other held
    key shares the 16-digit fingerprint of [k]. *)
Theorem sign_verify (ks : KeySet) (k : string) (row : dict pyval) (pre : option string) :
  py_true (vget row "authorized_by") = true -> str_true k = true ->
  fp_unique (all_keys ks) k -> is_empty ks = false ->
  vget row SIGNATURE_FIELD =
    opt_str (sign_authorized_by (vget row "authorized_by") (vget row "previous_hash")
               (vget row "record_kind") (Some k) pre) ->
  verify_authorized_by_signature row (KSet ks) pre = Ok (key_status ks k).
Proof. intros. by apply sign_verify_gen with pre. Qed.

(** C36 (a signature pins its claim): when the same stored signature is accepted
    on two rows, by whatever key sets, the rows name the same accountable party
    at the same chain position under the same record kind, and under abv3 their
    contents have the same digest; the only other possibility is that the two
    different messages have the same HMAC under held keys.  An edited claim, or
    a signature moved to another row, is therefore refused. *)
Theorem signature_pins_claim (ks ks' : keys_arg) (row row' : dict pyval) (pre pre' : option string) st st' :
  vget row SIGNATURE_FIELD = vget row' SIGNATURE_FIELD ->
  verify_authorized_by_signature row ks pre = Ok st -> accepted st ->
  verify_authorized_by_signature row' ks' pre' = Ok st' -> accepted st' ->
  (json_equiv (vget row "authorized_by") (vget row' "authorized_by") /\
   json_equiv (vget row "previous_hash") (vget row' "previous_hash") /\
   json_equiv (vget row "record_kind") (vget row' "record_kind") /\
   (forall fp d, split_envelope (py_str (vget row SIGNATURE_FIELD)) = (Some (ENVELOPE_TAG_V3, fp), d) ->
      or_empty pre = or_empty pre')) \/
  (exists k k', k ∈ all_keys (as_keyset ks) /\ k' ∈ all_keys (as_keyset ks') /\
     signed_message row pre <> signed_message row' pre' /\
     hmac_sha256 k (signed_message row pre) = hmac_sha256 k' (signed_message row' pre')).
Proof.
  intros Hsig Hv Ha Hv' Ha'.
  destruct (verify_accepted _ _ _ _ Hv Ha) as (k & Hk & Hd).
  destruct (verify_accepted _ _ _ _ Hv' Ha') as (k' & Hk' & Hd'). rewrite Hsig, Hd' in Hd.
  destruct (decide (signed_message row pre = signed_message row' pre')) as [Heq|Hne];
    [left|right; exists k, k'; by split_and!].
  unfold signed_message in Heq. rewrite Hsig in *.
  destruct (split_envelope (py_str (vget row' SIGNATURE_FIELD))) as [[[tag fp]|] d]; cbn [fst] in Heq.
  - destruct (String.eqb_spec tag ENVELOPE_TAG_V3) as [->|Ht].
    + apply payload_v3_inj in Heq as (? & ? & ? & ?). by split_and!.
    + apply payload_inj in Heq as (? & ? & ?). split_and!; try done. intros fp' d' [=]. done.
  - apply payload_inj in Heq as (? & ? & ?). by split_and!.
Qed.

(** The shuffle seed is the server's: over a non-empty key set an ASCII seed is
    accepted exactly when some held key derives it from the row's previous hash
    and record kind; a seed chosen by anyone else is reported as invalid. *)
Theorem shuffle_seed_accepted_iff (ks : KeySet) (seed ph rk : string) :
  is_empty ks = false -> (forall k, k ∈ all_keys ks -> str_true k = true) ->
  str_true ph = true -> str_true rk = true -> str_true seed = true -> is_ascii seed = true ->
  exists st, verify_shuffle_seed (VStr seed) (VStr ph) (VStr rk) (KSet ks) = Ok st /\
    (accepted st <-> exists k, k ∈ all_keys ks /\ derive_shuffle_seed ph rk (Some k) = Ok seed) /\
    (~ accepted st -> st = STATUS_INVALID).
Proof.
  intros He Hks Hph Hrk Hs Hascii. unfold verify_shuffle_seed, derive_shuffle_seed, opt_true. cbn [py_true py_str or_empty].
  rewrite Hs, Hph, Hrk. simpl. rewrite He.
  assert (Hst : exists st, match_any ks (seed_payload (VStr ph) (VStr rk)) seed = Ok st /\
    (~ accepted st -> st = STATUS_INVALID)).
  { unfold match_any. rewrite !any_matches_ascii by done. simpl.
    destruct (existsb _ (ks_trusted ks)); [eexists; split; [done|intros []; by left]|].
    destruct (existsb _ (ks_retired ks)); [eexists; split; [done|intros []; by right]|].
    by eexists. }
  destruct Hst as (st & Hst & Hinv). exists st. split_and!; [done| |done]. split.
  - intros Ha. destruct (match_any_accepted _ _ _ _ Hst Ha) as (k & Hk & ->). exists k.
    split; [done|]. by rewrite (Hks k Hk).
  - intros (k & Hk & Hd). rewrite (Hks k Hk) in Hd. simpl in Hd. injection Hd as Hd.
    destruct (match_any_complete ks (seed_payload (VStr ph) (VStr rk)) k Hk) as (st' & Hst' & Ha).
    rewrite Hd in Hst'. congruence.
Qed.
End AttestationLemmas.

(* ------------------------------------------------------------------ *)
(** ** A model of [Hashes], and the properties at concrete rows *)

Fixpoint hex_digits (n : nat) (x : N) : string :=
  match n with
  | O => ""
  | S n => String (hex_digit (N.land (N.shiftr x (4 * N.of_nat n)) 15)) (hex_digits n x)
  end.

Lemma hex_digits_ok n x :
  str_forallb is_hex (hex_digits n x) = true /\ String.length (hex_digits n x) = n.
Proof.
  induction n as [|n [IH1 IH2]]; cbn [hex_digits str_forallb String.length]; [done|].
  rewrite IH1, IH2. split; [|done]. rewrite andb_true_r.
  assert (Hall : forallb (fun d => is_hex (hex_digit (N.of_nat d))) (seq 0 16) = true) by done.
  rewrite forallb_forall in Hall.
  assert (Hd : (N.land (N.shiftr x (4 * N.of_nat n)) 15 < 16)%N).
  { change 15%N with (N.ones 4). rewrite N.land_ones. by apply N.mod_lt. }
  rewrite <- (N2Nat.id (N.land _ _)). apply Hall. apply in_seq. lia.
Qed.

Definition poly_hash (s : string) : string :=
  let h := hex_digits 16 (fold_left (fun acc c => N.land (acc * 33 + N_of_ascii c) (2 ^ 64 - 1))
    (String.list_ascii_of_string s) 5381%N) in
  h +:+ h +:+ h +:+ h.

Lemma str_length_app a b : String.length (a +:+ b) = (String.length a + String.length b)%nat.
Proof. induction a as [|c a IH]; simpl; [done|]. by rewrite IH. Qed.

Lemma poly_hash_ok s : str_forallb is_hex (poly_hash s) = true /\ String.length (poly_hash s) = 64%nat.
Proof.
  unfold poly_hash. destruct (hex_digits_ok 16 (fold_left (fun acc c => N.land (acc * 33 + N_of_ascii c)
    (2 ^ 64 - 1)) (String.list_ascii_of_string s) 5381%N)) as [Hx Hl].
  rewrite !str_forallb_app, !str_length_app, Hx, Hl. done.
Qed.

#[local] Instance sample_hashes : Hashes.
Proof.
  refine {| sha256 := poly_hash; hmac_sha256 k m := poly_hash (k +:+ NUL +:+ m) |}; intros; apply poly_hash_ok.
Defined.

#[local] Existing Instance sample_float_repr.

Definition sample_keys : KeySet := make_KeySet (Some "key-B") ["key-A"] ["key-0"].

Definition signed_row (key pre : option string) (who : string) : dict pyval :=
  [("authorized_by", VStr who); ("previous_hash", VStr "genesis");
   ("record_kind", VStr "governance_decision");
   (SIGNATURE_FIELD, opt_str (sign_authorized_by (VStr who) (VStr "genesis")
      (VStr "governance_decision") key pre))].

Lemma sample_fp k : k ∈ ["key-B"; "key-A"; "key-0"] -> fp_unique (all_keys sample_keys) k.
Proof.
  intros Hk k' Hk'. change (all_keys sample_keys) with ["key-B"; "key-A"; "key-0"] in Hk'.
  assert (Hall : forallb (fun a => forallb (fun b =>
    implb (String.eqb (key_fingerprint b) (key_fingerprint a)) (String.eqb b a))
    ["key-B"; "key-A"; "key-0"]) ["key-B"; "key-A"; "key-0"] = true) by (vm_compute; reflexivity).
  rewrite forallb_forall in Hall. specialize (Hall k (proj1 (list_elem_of_In _ _) Hk)).
  rewrite forallb_forall in Hall. specialize (Hall k' (proj1 (list_elem_of_In _ _) Hk')).
  intros Heq. rewrite Heq, String.eqb_refl in Hall. by apply String.eqb_eq.
Qed.

Lemma sign_verify_witness :
  verify_authorized_by_signature (signed_row (Some "key-A") (Some "digest") "ops") (KSet sample_keys)
    (Some "digest") = Ok STATUS_OK /\
  verify_authorized_by_signature (signed_row (Some "key-0") None "ops") (KSet sample_keys) None
    = Ok STATUS_RETIRED_KEY.
Proof.
  split.
  - apply (sign_verify sample_keys "key-A" (signed_row (Some "key-A") (Some "digest") "ops") (Some "digest"));
      try (vm_compute; reflexivity). apply sample_fp. set_solver.
  - apply (sign_verify sample_keys "key-0" (signed_row (Some "key-0") None "ops") None);
      try (vm_compute; reflexivity). apply sample_fp. set_solver.
Defined.

Lemma signature_pins_claim_witness :
  let row := signed_row (Some "key-A") (Some "digest") "ops" in
  json_equiv (vget row "authorized_by") (vget row "authorized_by").
Proof.
  set (row := signed_row (Some "key-A") (Some "digest") "ops"). cbv zeta.
  assert (Hv : verify_authorized_by_signature row (KSet sample_keys) (Some "digest") = Ok STATUS_OK)
    by (vm_compute; reflexivity).
  assert (Ha : accepted STATUS_OK) by (left; reflexivity).
  destruct (signature_pins_claim (KSet sample_keys) (KSet sample_keys) row row
    (Some "digest") (Some "digest") STATUS_OK STATUS_OK eq_refl Hv Ha Hv Ha)
    as [[Heq _]|(k & k' & _ & _ & Hne & _)]; [exact Heq|]. by destruct Hne.
Defined.

Lemma shuffle_seed_accepted_iff_witness :
  exists st, verify_shuffle_seed (VStr (hmac_sha256 "key-A" (seed_payload (VStr "genesis") (VStr "k"))))
      (VStr "genesis") (VStr "k") (KSet sample_keys) = Ok st /\ accepted st.
Proof.
  set (seed := hmac_sha256 "key-A" (seed_payload (VStr "genesis") (VStr "k"))).
  assert (Hin : "key-A" ∈ all_keys sample_keys).
  { change (all_keys sample_keys) with ["key-B"; "key-A"; "key-0"]. set_solver. }
  assert (Hks : forall k, k ∈ all_keys sample_keys -> str_true k = true).
  { intros k Hk. change (all_keys sample_keys) with ["key-B"; "key-A"; "key-0"] in Hk.
    repeat (apply elem_of_cons in Hk as [->|Hk]; [reflexivity|]). by apply elem_of_nil in Hk. }
  assert (Hs : str_true seed = true) by (vm_compute; reflexivity).
  assert (Ha : is_ascii seed = true) by (vm_compute; reflexivity).
  assert (He : is_empty sample_keys = false) by (vm_compute; reflexivity).
  destruct (shuffle_seed_accepted_iff sample_keys seed "genesis" "k" He Hks eq_refl eq_refl Hs Ha)
    as (st & Hst & Hiff & _).
  exists st. split; [exact Hst|]. apply Hiff. exists "key-A". split; [exact Hin|reflexivity].
Defined.
