(* ===== verification/HeadAnchor.v ===== *)
(** * HeadAnchor: the signed checkpoint of a chain's head

    Models the head-anchor functions of src/sentinel_os/twin_custody.py.  A
    chain truncated at its tail is internally perfect; the anchor, kept where
    the database's writer cannot reach and signed with the attestation key,
    records what the head was and how many rows led to it. *)

From S2P Require Import Prelude PyFloat PyValue Json Attestation.
Local Open Scope string_scope.

Definition HEAD_ANCHOR_ENV : string := "ICEBERG_LEDGER_ANCHOR_PATH".
Definition HEAD_ANCHOR_VERSION : Z := 1.
Definition ANCHOR_DOMAIN : string := "sentinel_os.head_anchor.v1".
Definition ANCHOR_FIELDS : list string := ["head"; "entries"; "sealed_at"; "key_fingerprint"].
Definition ANCHOR_NAME_MAX : nat := 64.

Inductive custody_exn :=
| CustodyError
| CustodyPyExn (e : pyexn).

Definition is_control (c : ascii) : bool :=
  let n := N_of_ascii c in ((n <? 32) || (n =? 127))%N.

Definition check_anchor_name (name : option string) : result custody_exn (option string) :=
  match name with
  | None => Ok None
  | Some s =>
      if blank s || (ANCHOR_NAME_MAX <? String.length s)%nat ||
         negb (str_forallb (fun c => negb (is_control c)) s)
      then Err CustodyError else Ok (Some s)
  end.

Section Anchor.
Context `{Hashes} `{FloatRepr}.

Definition head_anchor_payload (head : pyval) (entries : Z) (sealed_at key_fingerprint : pyval)
    (name : pyval) : string :=
  let fields := [("entries", VInt entries); ("head", head);
                 ("key_fingerprint", key_fingerprint); ("sealed_at", sealed_at)] in
  let fields := if py_true name then dset fields "name" name else fields in
  ANCHOR_DOMAIN +:+ NUL +:+ dumps compact_seps (VDict fields).

Definition build_head_anchor (head : string) (entries : Z) (key : option string)
    (sealed_at : string) (name : option string) : result custody_exn (dict pyval) :=
  if negb (opt_true key) then Err CustodyError else
  name ← check_anchor_name name;
  let fp := key_fingerprint (or_empty key) in
  let digest := hmac_sha256 (or_empty key)
    (head_anchor_payload (VStr head) entries (VStr sealed_at) (VStr fp) (opt_str name)) in
  let anchor := [("v", VInt HEAD_ANCHOR_VERSION); ("head", VStr head); ("entries", VInt entries);
                 ("sealed_at", VStr sealed_at); ("key_fingerprint", VStr fp);
                 ("hmac", VStr digest)] in
  Ok (if opt_true name then dset anchor "name" (opt_str name) else anchor).

(** [content] is the parsed file, [None] when it cannot be read or parsed. *)
Definition read_head_anchor (content : option pyval) : result custody_exn (dict pyval) :=
  match content with
  | Some (VDict anchor) =>
      if negb (py_eq (vget anchor "v") (VInt HEAD_ANCHOR_VERSION)) ||
         negb (forallb (dmem anchor) ((ANCHOR_FIELDS ++ ["hmac"])%list))
      then Err CustodyError else Ok anchor
  | _ => Err CustodyError
  end.

(** [int(anchor.get("entries") or 0)] *)
Definition anchor_entries (anchor : dict pyval) : result pyexn Z :=
  let v := vget anchor "entries" in if py_true v then py_int v else Ok 0%Z.

Definition verify_head_anchor (anchor : dict pyval) (keys : keys_arg) : result pyexn att_status :=
  let ks := as_keyset keys in
  if is_empty ks then Ok STATUS_UNVERIFIABLE
  else if dmem anchor "name" && negb (py_true (vget anchor "name")) then Ok STATUS_INVALID
  else
    let fp := py_str (vget anchor "key_fingerprint") in
    entries ← anchor_entries anchor;
    let name := if py_true (vget anchor "name") then vget anchor "name" else VNone in
    let msg := head_anchor_payload (VStr (py_str (vget anchor "head"))) entries
                 (VStr (py_str (vget anchor "sealed_at"))) (VStr fp) name in
    match_named ks fp msg (py_str (vget anchor "hmac")).

Inductive truncation :=
| AnchorUntrusted (st : att_status)
| TailMissing (rows entries : Z)
| HeadRebuilt.

(** [rows] is the list of (id, current_hash) in id order. *)
Definition check_head_anchor (rows : list (pyval * pyval)) (anchor : dict pyval) (keys : keys_arg)
    : result pyexn (option truncation) :=
  status ← verify_head_anchor anchor keys;
  if negb (bool_decide (status = STATUS_OK) || bool_decide (status = STATUS_RETIRED_KEY))
  then Ok (Some (AnchorUntrusted status))
  else
    entries ← anchor_entries anchor;
    if (entries <=? 0)%Z then Ok None
    else if (Z.of_nat (length rows) <? entries)%Z
    then Ok (Some (TailMissing (Z.of_nat (length rows)) entries))
    else
      match nth_error rows (Z.to_nat (entries - 1)) with
      | Some (_, current_hash) =>
          if py_eq current_hash (vget anchor "head") then Ok None else Ok (Some HeadRebuilt)
      | None => Ok (Some HeadRebuilt)
      end.

(* ------------------------------------------------------------------ *)
(** ** Lemmas *)

Lemma payload_dict_nodup head entries sealed fp name :
  NoDup (dkeys (let fields := [("entries", VInt entries); ("head", head);
     ("key_fingerprint", fp); ("sealed_at", sealed)] in
     if py_true name then dset fields "name" name else fields)).
Proof.
  cbv zeta. destruct (py_true name); [apply NoDup_dset|]; simpl; repeat constructor; set_solver.
Qed.

Lemma head_payload_inj h e s f n h' e' s' f' n' :
  head_anchor_payload h e s f n = head_anchor_payload h' e' s' f' n' ->
  json_equiv h h' /\ e = e' /\ json_equiv s s' /\ json_equiv f f'.
Proof.
  unfold head_anchor_payload. intros Heq. do 2 apply app_inv_s in Heq.
  assert (Hk : forall k, json_equiv (vget (if py_true n then _ else _) k) (vget (if py_true n' then _ else _) k))
    by (intros k; apply (dumps_get compact_seps _ _ k); [apply payload_dict_nodup..|exact Heq]).
  assert (Hg : forall k (b : pyval) d, k <> "name" ->
    vget (if py_true b then dset d "name" b else d) k = vget d k).
  { intros k b d Hne. destruct (py_true b); [|done]. unfold vget. by rewrite dget_dset_ne. }
  split_and!.
  - specialize (Hk "head"). by rewrite !Hg in Hk by done.
  - specialize (Hk "entries"). rewrite !Hg in Hk by done. by injection Hk.
  - specialize (Hk "sealed_at"). by rewrite !Hg in Hk by done.
  - specialize (Hk "key_fingerprint"). by rewrite !Hg in Hk by done.
Qed.

(** The anchor as [build_head_anchor] writes it. *)
Lemma build_head_anchor_shape head entries key sealed_at name anchor :
  build_head_anchor head entries key sealed_at name = Ok anchor ->
  exists k, key = Some k /\ str_true k = true /\
    vget anchor "head" = VStr head /\ anchor_entries anchor = Ok entries /\
    vget anchor "key_fingerprint" = VStr (key_fingerprint k) /\
    vget anchor "hmac" = VStr (hmac_sha256 k (head_anchor_payload (VStr head) entries
      (VStr sealed_at) (VStr (key_fingerprint k)) (opt_str name))) /\
    vget anchor "sealed_at" = VStr sealed_at /\
    vget anchor "name" = (if opt_true name then opt_str name else VNone) /\
    dmem anchor "name" = opt_true name.
Proof.
  unfold build_head_anchor. destruct key as [k|]; [|done]. unfold opt_true at 1. simpl.
  destruct (str_true k) eqn:Hk; [|done]. simpl.
  destruct (check_anchor_name name) as [n|] eqn:Hn; [|done]. simpl.
  assert (n = name) as ->.
  { destruct name as [s|]; simpl in Hn; [destruct (_ || _)|]; congruence. }
  intros [= <-]. exists k. unfold anchor_entries.
  destruct (opt_true name) eqn:Ho; split_and!; try done;
    unfold vget; simpl; (destruct entries; done).
Qed.

Lemma verify_built head entries k sealed_at name anchor ks :
  build_head_anchor head entries (Some k) sealed_at name = Ok anchor ->
  is_empty ks = false -> fp_unique (all_keys ks) k ->
  verify_head_anchor anchor (KSet ks) = Ok (key_status ks k).
Proof.
  intros Hb He Hu. apply build_head_anchor_shape in Hb
    as (k' & [= <-] & Hk & Hh & Hen & Hfp & Hm & Hs & Hn & Hd).
  unfold verify_head_anchor. cbn [as_keyset]. rewrite He, Hd, Hn, Hfp, Hen, Hh, Hs, Hm. cbn [py_str].
  assert (Ht : forall o, opt_true o = true -> py_true (opt_str o) = true) by (by intros [s|]).
  assert (Hp : forall h e s f o, head_anchor_payload h e s f
     (if py_true (if opt_true o then opt_str o else VNone) then (if opt_true o then opt_str o else VNone) else VNone)
     = head_anchor_payload h e s f (opt_str o)).
  { intros h e s f [[|c o]|]; done. }
  simpl. rewrite Hp.
  destruct (opt_true name) eqn:Ho; simpl; rewrite ?Ht by done; simpl; by apply match_named_hmac.
Qed.

Lemma check_trusted rows anchor ks st entries :
  verify_head_anchor anchor ks = Ok st -> accepted st ->
  anchor_entries anchor = Ok entries -> (0 < entries)%Z ->
  check_head_anchor rows anchor ks = Ok None <->
  exists id h, nth_error rows (Z.to_nat (entries - 1)) = Some (id, h) /\
    py_eq h (vget anchor "head") = true.
Proof.
  intros Hv Ha He Hpos. unfold check_head_anchor. rewrite Hv. simpl.
  replace (negb _) with false by (destruct Ha as [-> | ->]; done). rewrite He. simpl.
  rewrite (proj2 (Z.leb_gt _ _)) by done.
  destruct (Z.ltb_spec (Z.of_nat (length rows)) entries).
  - split; [done|]. intros (id & h & Hn & _).
    assert (Z.to_nat (entries - 1) < length rows)%nat by (apply nth_error_Some; congruence). lia.
  - destruct (nth_error rows (Z.to_nat (entries - 1))) as [[id h]|] eqn:Hn.
    + destruct (py_eq h (vget anchor "head")) eqn:Hq; split; try done; [by eauto|].
      intros (? & ? & [= <- <-] & ?). congruence.
    + apply nth_error_None in Hn. lia.
Qed.

(* ------------------------------------------------------------------ *)
(** ** Property *)

(** The head anchor: an anchor sealed over [entries > 0] rows with head [head]
    under a key the verifier still holds passes a chain exactly when that many
    rows are there and the row at the sealed position carries the sealed hash.
    Every extension of the sealed chain passes; a chain cut at the tail, or
    rebuilt with another hash there, is reported; and under a key held in no
    role the anchor vouches for nothing. *)
Theorem head_anchor_check head entries k sealed_at name anchor ks rows :
  build_head_anchor head entries (Some k) sealed_at name = Ok anchor ->
  is_empty ks = false -> fp_unique (all_keys ks) k -> (0 < entries)%Z ->
  (k ∈ all_keys ks ->
    (check_head_anchor rows anchor (KSet ks) = Ok None <->
     exists id h, nth_error rows (Z.to_nat (entries - 1)) = Some (id, h) /\
       py_eq h (VStr head) = true)) /\
  (k ∉ all_keys ks ->
     check_head_anchor rows anchor (KSet ks) = Ok (Some (AnchorUntrusted STATUS_UNKNOWN_KEY))).
Proof.
  intros Hb He Hu Hpos. pose proof (verify_built _ _ _ _ _ _ _ Hb He Hu) as Hv.
  apply build_head_anchor_shape in Hb as (k' & [= <-] & Hk & Hh & Hen & _). unfold key_status in Hv.
  split; intros Hin.
  - rewrite <- Hh. eapply check_trusted; [exact Hv| |done|done].
    apply elem_of_app in Hin as [Hin|Hin]; apply str_mem_spec in Hin; rewrite Hin; [by left|].
    destruct (str_mem k (ks_trusted ks)); [by left|by right].
  - assert (Hno : str_mem k (ks_trusted ks) = false /\ str_mem k (ks_retired ks) = false).
    { unfold all_keys in Hin. split; apply not_true_is_false; rewrite str_mem_spec; set_solver. }
    destruct Hno as [H1 H2]. rewrite H1, H2 in Hv. unfold check_head_anchor. by rewrite Hv.
Qed.
End Anchor.

#[local] Existing Instance sample_hashes.
#[local] Existing Instance sample_float_repr.

Lemma head_anchor_check_witness :
  match build_head_anchor "h2" 2 (Some "key-A") "now" None with
  | Ok anchor =>
      check_head_anchor [(VInt 1, VStr "h1"); (VInt 2, VStr "h2"); (VInt 3, VStr "h3")] anchor
        (KSet sample_keys) = Ok None /\
      check_head_anchor [(VInt 1, VStr "h1")] anchor (KSet sample_keys) <> Ok None
  | Err _ => False
  end.
Proof.
  destruct (build_head_anchor "h2" 2 (Some "key-A") "now" None) as [anchor|] eqn:Hb;
    [|vm_compute in Hb; discriminate].
  assert (Hu : fp_unique (all_keys sample_keys) "key-A") by (apply sample_fp; set_solver).
  assert (Hin : "key-A" ∈ all_keys sample_keys).
  { change (all_keys sample_keys) with ["key-B"; "key-A"; "key-0"]. set_solver. }
  assert (He : is_empty sample_keys = false) by reflexivity.
  split.
  - apply (head_anchor_check "h2" 2 "key-A" "now" None anchor sample_keys
      [(VInt 1, VStr "h1"); (VInt 2, VStr "h2"); (VInt 3, VStr "h3")] Hb He Hu eq_refl); [exact Hin|].
    exists (VInt 2), (VStr "h2"). split; reflexivity.
  - intros Hc. apply (head_anchor_check "h2" 2 "key-A" "now" None anchor sample_keys
      [(VInt 1, VStr "h1")] Hb He Hu eq_refl) in Hc; [|exact Hin].
    destruct Hc as (id & h & Hn & _). discriminate.
Defined.
