(* ===== verification/LedgerDb.v ===== *)
(** * LedgerDb: the table the ledger lives in

    The [ledger_entries] table of src/sentinel_os/governance/ledger_postgres.py
    (the DDL of _initialize_schema) and the transaction every writer runs: the
    INSERTs commit together or roll back, and the head is anchored after the
    commit.  A row is a dictionary over the columns, [None] for NULL; the
    server's own clock column is left out, since nothing hashes it.  PostgreSQL
    itself is a parameter with the documented behaviour of its column types. *)

From S2P Require Import Prelude PyFloat PyValue Event Json Attestation HeadAnchor.

Inductive coltype := C_VARCHAR (n : nat) | C_TEXT | C_FLOAT | C_JSONB | C_INTEGER | C_BIGINT | C_BOOLEAN.

Definition LEDGER_COLUMNS : list (string * coltype) :=
  [("action_type", C_VARCHAR 50); ("node", C_VARCHAR 100);
   ("previous_value", C_FLOAT); ("applied_value", C_FLOAT); ("reason", C_TEXT);
   ("previous_hash", C_VARCHAR 64); ("current_hash", C_VARCHAR 64); ("data", C_JSONB);
   ("record_kind", C_VARCHAR 40); ("cassette_version", C_VARCHAR 200);
   ("input_data", C_JSONB); ("policy_parameters", C_JSONB); ("decision_output", C_JSONB);
   ("cassette_snapshot", C_JSONB); ("cassette_hash", C_VARCHAR 64);
   ("cassette_code_hash", C_VARCHAR 64); ("model_identity", C_VARCHAR 120);
   ("authorized_by", C_VARCHAR 120); ("supersedes_id", C_INTEGER);
   ("supersedes_hash", C_VARCHAR 64); ("outcome_obligation", C_VARCHAR 120);
   ("call_sid", C_VARCHAR 100); ("replaces_hash", C_VARCHAR 64); ("ai_cost", C_JSONB);
   ("shadow_run_hash", C_VARCHAR 64); ("decision_hash", C_VARCHAR 64);
   ("authorized_by_sig", C_VARCHAR 96); ("subject_digest", C_VARCHAR 64);
   ("shuffle_seed", C_VARCHAR 64)].

(* ------------------------------------------------------------------ *)
(** ** What PostgreSQL keeps unchanged *)

Definition no_nul (s : string) : bool := str_forallb (fun c => negb (N_of_ascii c =? 0)%N) s.

Section Storable.
Context `{FloatRepr}.

(** A float JSONB gives back as the same float: its JSON text is plain
    decimal.  (A text in exponent form comes back as an integer, a negative
    zero loses its sign, NaN and the infinities are not JSON.) *)
Definition float_plain (f : float64) : bool :=
  match f with
  | S754_zero s => negb s
  | S754_finite _ _ _ => str_forallb (fun c => negb (Ascii.eqb c "e")) (float_repr f)
  | _ => false
  end.

Fixpoint distinct (l : list string) : bool :=
  match l with [] => true | x :: l => negb (str_mem x l) && distinct l end.

Fixpoint jsonb_plain (v : pyval) : bool :=
  match v with
  | VNone | VBool _ => true
  | VInt z => (Z.log2 (Z.abs z) <? 4096)%Z
  | VFloat f => float_plain f
  | VStr s => no_nul s
  | VList l => forallb jsonb_plain l
  | VDict d => distinct (map fst d) && forallb (fun kv => no_nul (fst kv) && jsonb_plain (snd kv)) d
  end.

Definition storable (t : coltype) (v : pyval) : bool :=
  match t, v with
  | _, VNone => true
  | C_VARCHAR n, VStr s => no_nul s && (String.length s <=? n)%nat
  | C_TEXT, VStr s => no_nul s
  | C_FLOAT, VFloat f => negb (f_is_nan f)
  | C_JSONB, v => jsonb_plain v
  | C_INTEGER, VInt z => ((- 2 ^ 31 <=? z) && (z <? 2 ^ 31))%Z
  | C_BIGINT, VInt z => ((- 2 ^ 63 <=? z) && (z <? 2 ^ 63))%Z
  | C_BOOLEAN, VBool _ => true
  | _, _ => false
  end.

(** A value of the column's own type: it is kept as it is or refused (out of
    range, too long, a NUL in a text), never converted. *)
Definition native (t : coltype) (v : pyval) : bool :=
  match t, v with
  | C_JSONB, _ => false
  | _, VNone => true
  | (C_VARCHAR _ | C_TEXT), VStr _ => true
  | (C_INTEGER | C_BIGINT), VInt _ => true
  | C_FLOAT, VFloat _ => true
  | C_BOOLEAN, VBool _ => true
  | _, _ => false
  end.

(** A value a column of type [t] can read back as. *)
Definition cell_typed (t : coltype) (v : pyval) : bool := match t with C_JSONB => true | _ => native t v end.

(** What a SELECT through psycopg2 reads back from a column of type [t] after
    [v] was written to it (a JSONB parameter is [json.dumps(v)]); [None] when
    the INSERT raises.  JSONB does not keep the order of object keys. *)
Class Postgres := {
  pg_store : coltype -> pyval -> option pyval;
  pg_store_ok : forall t v, storable t v = true ->
    exists w, pg_store t v = Some w /\ json_equiv v w;
  pg_store_native : forall t v w, native t v = true -> pg_store t v = Some w -> w = v;
  pg_store_typed : forall t v w, pg_store t v = Some w -> cell_typed t w = true;
}.
End Storable.

(* ------------------------------------------------------------------ *)
(** ** Statements, rows and constraints *)

(** The VALUES of one INSERT, by column. *)
Definition stmt : Type := dict pyval.
Definition row : Type := dict pyval.

Inductive ledger_exn :=
| LPy (e : pyexn)
| LDb
| LBoundary
| LCustody
| LOs
| LEvent (e : event_exn).

Definition lift_ledger {A} (r : result pyexn A) : result ledger_exn A := map_err LPy r.

Record ledger := mkLedger {
  l_rows : list row;            (* in id order *)
  l_next : Z;                   (* the id sequence *)
  l_anchor : option pyval;      (* the anchor file *)
}.

Definition empty_ledger : ledger := mkLedger [] 1 None.

(** [DEFAULT 'legacy'] on record_kind. *)
Definition column_value (vals : stmt) (c : string) : pyval :=
  match dget vals c with
  | Some v => v
  | None => if String.eqb c "record_kind" then VStr "legacy" else VNone
  end.

(** UNIQUE(current_hash), idx_unique_call_sid, idx_unique_observed_event_id;
    NULLs never clash. *)
Definition event_key (r : row) : pyval :=
  if py_eq (vget r "record_kind") (VStr "observed_event")
  then match vget r "input_data" with VDict d => vget d "event_id" | _ => VNone end
  else VNone.

Definition clash (f : row -> pyval) (a b : row) : bool := negb (is_None (f a)) && py_eq (f a) (f b).

Definition violates_unique (rows : list row) (r : row) : bool :=
  existsb (fun r' => clash (fun r => vget r "current_hash") r r' ||
                     clash (fun r => vget r "call_sid") r r' ||
                     clash event_key r r') rows.

(** [_as_json]: a JSONB column as psycopg2 gives it, or JSON text. *)
Definition as_json (loads : string -> result pyexn pyval) (raw : pyval) : result pyexn pyval :=
  match raw with
  | VNone | VDict _ | VList _ => Ok raw
  | _ => if py_true raw then match raw with VStr s => loads s | _ => Err TypeError end
         else Ok (VDict [])
  end.

Section Table.
Context `{FloatRepr} `{!Postgres}.

Fixpoint store_columns (cols : list (string * coltype)) (vals : stmt) : option row :=
  match cols with
  | [] => Some []
  | (c, t) :: cols =>
      match pg_store t (column_value vals c), store_columns cols vals with
      | Some w, Some r => Some ((c, w) :: r)
      | _, _ => None
      end
  end.

Definition store_row (id : Z) (vals : stmt) : option row :=
  match store_columns LEDGER_COLUMNS vals with
  | Some r => Some (("id", VInt id) :: r)
  | None => None
  end.

(** The INSERTs of one transaction; an id taken from the sequence is never
    given back. *)
Fixpoint insert_all (stmts : list stmt) (rows : list row) (next : Z)
    : option (list row) * Z :=
  match stmts with
  | [] => (Some rows, next)
  | s :: stmts =>
      match store_row next s with
      | Some r =>
          if violates_unique rows r then (None, next + 1)%Z
          else insert_all stmts (rows ++ [r]) (next + 1)%Z
      | None => (None, next + 1)%Z
      end
  end.

Context `{!Hashes}.
Variable os : os_view.
Variable now : string.        (* the clock, as the anchor stamps it *)
Variable anchor_io : bool.    (* writing the anchor file succeeds *)

Definition head_anchor_path : option string := env_value os HEAD_ANCHOR_ENV.

Definition last_row (rows : list row) : option row := last rows.

Definition lift_custody {A} (r : result custody_exn A) : result ledger_exn A :=
  map_err (fun e => match e with CustodyError => LCustody | CustodyPyExn e => LPy e end) r.

(** [_anchor_head] *)
Definition anchor_head (l : ledger) : result ledger_exn ledger :=
  match head_anchor_path with
  | None => Ok l
  | Some _ =>
      match last_row (l_rows l) with
      | None => Ok l
      | Some r =>
          key ← lift_ledger (attestation_key os);
          anchor ← lift_custody (build_head_anchor (py_str (vget r "current_hash"))
                     (Z.of_nat (length (l_rows l))) key now None);
          if anchor_io then Ok (mkLedger (l_rows l) (l_next l) (Some (VDict anchor))) else Err LOs
      end
  end.

(** One writer: the reads and checks give the statements and the value to
    return, or raise before anything is written; the INSERTs roll back
    together; [_anchor_head] runs after the commit.  The advisory lock makes
    the whole of it one step. *)
Definition transact {A} (plan : list row -> result ledger_exn (list stmt * A)) (l : ledger)
    : result ledger_exn A * ledger :=
  match plan (l_rows l) with
  | Err e => (Err e, l)
  | Ok ([], ret) => (Ok ret, l)
  | Ok (stmts, ret) =>
      match insert_all stmts (l_rows l) (l_next l) with
      | (None, next) => (Err LDb, mkLedger (l_rows l) next (l_anchor l))
      | (Some rows, next) =>
          let l' := mkLedger rows next (l_anchor l) in
          match anchor_head l' with
          | Ok l'' => (Ok ret, l'')
          | Err e => (Err e, l')
          end
      end
  end.

(** The previous hash a new row links to. *)
Definition previous_hash_of (rows : list row) : pyval :=
  match last_row rows with Some r => vget r "current_hash" | None => VStr "genesis" end.
End Table.

(* ------------------------------------------------------------------ *)
(** ** Lemmas *)

Section TableLemmas.
Context `{FloatRepr} `{!Postgres} `{!Hashes}.

Lemma vget_store_columns cols vals r c t :
  NoDup (map fst cols) -> store_columns cols vals = Some r -> (c, t) ∈ cols ->
  pg_store t (column_value vals c) = Some (vget r c).
Proof.
  revert r. induction cols as [|[c' t'] cols IH]; intros r Hnd Hs Hin; [by apply elem_of_nil in Hin|].
  simpl in Hs, Hnd. apply NoDup_cons in Hnd as [Hnc Hnd].
  destruct (pg_store t' (column_value vals c')) as [w|] eqn:Hw; [|done].
  destruct (store_columns cols vals) as [r'|] eqn:Hr; [|done]. injection Hs as <-.
  unfold vget. simpl. apply elem_of_cons in Hin as [[= -> ->]|Hin].
  - by rewrite String.eqb_refl.
  - destruct (String.eqb_spec c' c) as [->|]; [|by apply IH].
    destruct Hnc. by apply (list_elem_of_fmap_2 fst) in Hin.
Qed.

Lemma columns_nodup : NoDup (map fst LEDGER_COLUMNS).
Proof. apply (bool_decide_unpack _). vm_compute. done. Qed.

(** Every column of the statement is one PostgreSQL keeps. *)
Definition storable_stmt (s : stmt) : bool :=
  forallb (fun '(c, t) => storable t (column_value s c)) LEDGER_COLUMNS.

Definition is_column (c : string) : bool := str_mem c (map fst LEDGER_COLUMNS).

Lemma stored_column s r id c : storable_stmt s = true -> store_row id s = Some r ->
  is_column c = true -> json_equiv (column_value s c) (vget r c).
Proof.
  unfold store_row. intros Hs Hr Hc. destruct (store_columns LEDGER_COLUMNS s) as [r'|] eqn:E; [|done].
  injection Hr as <-. apply str_mem_spec in Hc. apply list_elem_of_fmap in Hc as ([c' t] & -> & Hin).
  cbn [fst] in *. pose proof (vget_store_columns _ _ _ _ _ columns_nodup E Hin) as Hst.
  unfold storable_stmt in Hs. rewrite forallb_forall in Hs.
  specialize (Hs _ (proj1 (list_elem_of_In _ _) Hin)). simpl in Hs.
  destruct (pg_store_ok _ _ Hs) as (w & Hw & Heq). rewrite Hst in Hw. injection Hw as <-.
  replace (vget (("id", VInt id) :: r') c') with (vget r' c'); [done|].
  assert (Hne : "id" <> c').
  { intros <-. apply (list_elem_of_fmap_2 fst) in Hin. vm_compute in Hin.
    repeat (apply elem_of_cons in Hin as [Hin|Hin]; [discriminate|]). by apply elem_of_nil in Hin. }
  unfold vget. cbn [dget]. by rewrite (proj2 (String.eqb_neq _ _) Hne).
Qed.

Lemma stored_id s r id : store_row id s = Some r -> vget r "id" = VInt id.
Proof. unfold store_row. destruct (store_columns _ _); [|done]. by intros [= <-]. Qed.

(** A stored string is read back as it was written. *)
Lemma json_equiv_str s v : json_equiv (VStr s) v -> v = VStr s.
Proof. unfold json_equiv. destruct v; simpl; congruence. Qed.

Lemma json_equiv_none v : json_equiv VNone v -> v = VNone.
Proof. unfold json_equiv. destruct v; simpl; congruence. Qed.

Lemma json_equiv_bool b v : json_equiv (VBool b) v -> v = VBool b.
Proof. unfold json_equiv. destruct v; simpl; congruence. Qed.

(** The rows an INSERT batch adds. *)
Inductive inserted : list stmt -> list row -> Z -> list row -> Prop :=
| inserted_nil rows next : inserted [] rows next rows
| inserted_cons s stmts rows next r rows' :
    store_row next s = Some r -> violates_unique rows r = false ->
    inserted stmts (rows ++ [r]) (next + 1) rows' ->
    inserted (s :: stmts) rows next rows'.

Lemma insert_all_inserted stmts rows next rows' next' :
  insert_all stmts rows next = (Some rows', next') -> inserted stmts rows next rows'.
Proof.
  revert rows next. induction stmts as [|s stmts IH]; intros rows next; simpl.
  - intros [= <- <-]. constructor.
  - destruct (store_row next s) as [r|] eqn:Hr; [|done].
    destruct (violates_unique rows r) eqn:Hu; [done|]. intros Hi. econstructor; eauto.
Qed.

Lemma inserted_length stmts rows next rows' : inserted stmts rows next rows' ->
  exists new, rows' = rows ++ new /\ length new = length stmts.
Proof.
  induction 1 as [|s stmts rows next r rows' Hr Hu Hi (new & -> & Hl)].
  - exists []. by rewrite app_nil_r.
  - exists (r :: new). rewrite <- app_assoc. simpl. by rewrite Hl.
Qed.

(** [anchor_head] never touches a row. *)
Lemma anchor_head_rows os now io l l' :
  anchor_head os now io l = Ok l' -> l_rows l' = l_rows l /\ l_next l' = l_next l.
Proof.
  unfold anchor_head. destruct (head_anchor_path os); [|by intros [= <-]].
  destruct (last_row (l_rows l)); [|by intros [= <-]].
  destruct (lift_ledger (attestation_key os)); simpl; [|done].
  destruct (lift_custody _); simpl; [|done]. destruct io; [|done]. by intros [= <-].
Qed.

(** A writer leaves the table as it was, or adds all the rows it planned. *)
Lemma transact_cases {A} os now io (plan : list row -> result ledger_exn (list stmt * A)) l r l' :
  transact os now io plan l = (r, l') ->
  (l_rows l' = l_rows l /\ forall ret, r = Ok ret -> plan (l_rows l) = Ok ([], ret)) \/
  exists stmts ret, plan (l_rows l) = Ok (stmts, ret) /\ stmts <> [] /\
    inserted stmts (l_rows l) (l_next l) (l_rows l') /\
    (r = Ok ret \/ exists e, r = Err e).
Proof.
  unfold transact. destruct (plan (l_rows l)) as [[stmts ret]|e] eqn:Hp; [|].
  - destruct stmts as [|s stmts]; [intros [= <- <-]; left; naive_solver|].
    destruct (insert_all _ _ _) as [[rows|] next] eqn:Hi; [|intros [= <- <-]; left; naive_solver].
    apply insert_all_inserted in Hi. intros Ht. right. exists (s :: stmts), ret.
    destruct (anchor_head _ _ _ _) as [l''|e] eqn:Ha.
    + apply anchor_head_rows in Ha as [Hr _]. injection Ht as <- <-. rewrite Hr. naive_solver.
    + injection Ht as <- <-. naive_solver.
  - intros [= <- <-]. left. naive_solver.
Qed.

(** A writer that planned one row and returned wrote it, as its columns keep it. *)
Lemma transact_one {A} os now io (plan : list row -> result ledger_exn (list stmt * A)) l s ret r l' :
  plan (l_rows l) = Ok ([s], ret) -> transact os now io plan l = (Ok r, l') ->
  exists id row, store_row id s = Some row /\ l_rows l' = (l_rows l ++ [row])%list.
Proof.
  intros Hp Ht. destruct (transact_cases _ _ _ _ _ _ _ Ht) as [[_ Hr]|(stmts & ret' & Hp' & _ & Hi & _)].
  - specialize (Hr r eq_refl). congruence.
  - rewrite Hp in Hp'. injection Hp' as <- <-. inversion Hi as [|s' ss rows next row rows' Hrow _ Hi' E1 E2]; subst.
    inversion Hi'; subst. by exists (l_next l), row.
Qed.

Lemma stored_cell id s row c t : store_row id s = Some row -> dget LEDGER_COLUMNS c = Some t ->
  pg_store t (column_value s c) = Some (vget row c).
Proof.
  intros Hs Hc%dget_Some_elem. revert Hs. unfold store_row. destruct (store_columns LEDGER_COLUMNS s) as [r'|] eqn:E; [|done]. intros [= <-].
  rewrite (vget_store_columns _ _ _ _ _ columns_nodup E Hc). f_equal. unfold vget. cbn [dget].
  destruct (String.eqb_spec "id" c) as [<-|]; [|done]. apply (list_elem_of_fmap_2 fst), str_mem_spec in Hc. discriminate Hc.
Qed.

Lemma stored_native id s row c t : store_row id s = Some row -> dget LEDGER_COLUMNS c = Some t ->
  native t (column_value s c) = true -> vget row c = column_value s c.
Proof.
  intros Hs Hc Hn. pose proof (stored_cell _ _ _ _ _ Hs Hc) as Hp. by apply (pg_store_native _ _ _ Hn).
Qed.
End TableLemmas.
