(* ===== verification/Ledger.v ===== *)
(** * Ledger: the writers of the hash chain

    Models the write path of src/sentinel_os/governance/ledger_postgres.py:
    [append], [append_decision] with its observed-event stream, and every
    [record_*], [bind_*] and [supersede_*] writer.  Each writer is a plan (its
    checks and reads, giving the INSERT statements or an exception) run by
    LedgerDb.transact.  The CNS library, the conservation kernel and the cassette
    snapshot are interfaces. *)

From S2P Require Import Prelude PyFloat PyValue Episode Event Json Canonical Attestation HeadAnchor LedgerDb.
Local Open Scope string_scope.

(** The CNS package: a digest of a JSON value that does not depend on key
    order, refusing what it cannot encode, and its gate vocabulary. *)
Class Cns := {
  cns_subject_digest : pyval -> result pyexn string;
  cns_subject_digest_equiv : forall v w, json_equiv v w -> cns_subject_digest v = cns_subject_digest w;
  cns_subject_digest_hex : forall v s, cns_subject_digest v = Ok s ->
    str_forallb is_hex s = true /\ String.length s = 64%nat;
  GATE_PASS : string;
  GATE_TERMINAL_BREACH : string;
  GATE_OMEGA : string;
}.

Record GovernanceDecisionRecord := mkDecision {
  d_action_type : string;
  d_node : string;
  d_cassette_version : pyval;
  d_input_data : pyval;
  d_policy_parameters : pyval;
  d_reasoning : string;
  d_output : pyval;
  d_previous_value : float64;
  d_applied_value : float64;
  d_parameter_changed : bool;
  d_cassette_code_hash : option string;
  d_model_identity : option string;
  d_authorized_by : option string;
  d_supersedes_hash : option string;
  d_replaces_hash : option string;
  d_outcome_obligation : option string;
  d_ai_cost : pyval;
}.

(** What conservation.boundary says of an episode and the decision made from
    it: accepted, rejected by the kernel, or the check itself failed. *)
Inductive boundary_verdict := BoundaryOk | BoundaryRejected | BoundaryFailed.

Definition ledger_raise {A} (e : pyexn) : result ledger_exn A := Err (LPy e).

(** [if cond: raise e] *)
Definition refuse_if (cond : bool) (e : pyexn) : result ledger_exn unit :=
  if cond then ledger_raise e else Ok tt.

Lemma refuse_if_ok {A} b e (k : unit -> result ledger_exn A) x : (refuse_if b e ≫= k) = Ok x -> b = false /\ k tt = Ok x.
Proof. by destruct b. Qed.

(** [str(x or "")] *)
Definition text_or_empty (o : option string) : pyval := VStr (or_empty o).

Definition GENESIS : pyval := VStr "genesis".

(** The first row satisfying a test, in id order. *)
Definition select (p : row -> bool) (rows : list row) : option row := find p rows.

Definition col_is (c : string) (v : pyval) (r : row) : bool := py_eq (vget r c) v.

(** [sum] of the columns every writer but the decision writer sets. *)
Definition zero : pyval := VFloat fzero.

Definition ENV_CONSERVATION_DEV_OVERRIDE : string := "ICEBERG_LEDGER_CONSERVATION_DEV_OVERRIDE".

Section Writers.
Context `{FloatRepr} `{!Postgres} `{!Hashes} `{!Cns}.
Variable os : os_view.
Variable now : string.        (* [datetime.now(timezone.utc).isoformat()] *)
Variable loads : string -> result pyexn pyval.   (* [json.loads] *)
Variable verify_governed_decision :
  Episode -> GovernanceDecisionRecord -> list EventV1 -> boundary_verdict.

Definition conservation_boundary_waived : bool :=
  str_mem (lower (strip (or_empty (getenv os ENV_CONSERVATION_DEV_OVERRIDE)))) TRUTHY.

Definition gate_outcome_of (output : dict pyval) : string :=
  let outcome v := match v with VBool true => GATE_PASS | _ => GATE_TERMINAL_BREACH end in
  match dget output "approved" with
  | Some v => outcome v
  | None =>
      match dget output "safe" with
      | Some v => outcome v
      | None => GATE_TERMINAL_BREACH
      end
  end.

(** [_authorized_by_sig] *)
Definition authorized_by_sig (authorized_by previous_hash : pyval) (record_kind : string)
    (content_prehash : option string) : result ledger_exn (option string) :=
  key ← lift_ledger (attestation_key os);
  let sig := sign_authorized_by authorized_by previous_hash (VStr record_kind) key content_prehash in
  if py_true authorized_by && enforcement_required os && negb (opt_true sig)
  then ledger_raise RuntimeError else Ok sig.

Definition hash_entry (canonical_entry : dict pyval) : string :=
  sha256 (dumps default_seps (VDict canonical_entry)).

(** The tail the writers other than [append_decision] share: read the head,
    sign the claim (abv2), apply the optional fields, hash, INSERT.
    [canonical] is the fixed part of the entry without [previous_hash],
    [optional] the optional hashed fields it sets, [columns] the remaining
    columns of the INSERT. *)
Definition chain_row (rows : list row) (record_kind : string) (authorized_by : pyval)
    (canonical optional columns : dict pyval) : result ledger_exn (stmt * string) :=
  let previous_hash := previous_hash_of rows in
  sig ← authorized_by_sig authorized_by previous_hash record_kind None;
  let canonical_entry := apply_optional_hashed_fields
    ((canonical ++ [("previous_hash", previous_hash)])%list)
    ((optional ++ [("authorized_by", authorized_by); (SIGNATURE_FIELD, opt_str sig)])%list) in
  let current_hash := hash_entry canonical_entry in
  Ok ((columns ++ [("previous_value", zero); ("applied_value", zero);
        ("previous_hash", previous_hash); ("current_hash", VStr current_hash);
        ("record_kind", VStr record_kind); ("authorized_by", authorized_by);
        (SIGNATURE_FIELD, opt_str sig)])%list, current_hash).

(* ------------------------------------------------------------------ *)
(** ** The enforcement marker and the unstructured entry *)

(** [record_attestation_policy]; the row it writes has no accountable party. *)
Definition record_attestation_policy (key_fingerprint : string) (enforced_at : option string)
    (rows : list row) : result ledger_exn (list stmt * bool) :=
  let enforced_at := match enforced_at with Some t => t | None => now end in
  let latest := last (List.filter (col_is "record_kind" (VStr ATTESTATION_POLICY_RECORD_KIND)) rows) in
  let named := match latest with
               | Some r => match vget r "data" with VDict d => vget d "key_fingerprint" | _ => VNone end
               | None => VNone
               end in
  if py_eq named (VStr key_fingerprint) then Ok ([], false) else
  let previous_hash := previous_hash_of rows in
  let body := [("record_kind", VStr ATTESTATION_POLICY_RECORD_KIND);
               ("parameter_changed", VBool false);
               ("key_fingerprint", VStr key_fingerprint);
               ("enforced_at", VStr enforced_at)] in
  let reason := VStr ("authorized_by attestation enforced from this row under key "
                      +:+ key_fingerprint) in
  let canonical_entry := attestation_policy_canonical body reason previous_hash in
  Ok ([[("action_type", VStr ATTESTATION_POLICY_RECORD_KIND); ("node", VStr "ledger");
        ("reason", reason); ("previous_hash", previous_hash);
        ("current_hash", VStr (hash_entry canonical_entry)); ("data", VDict body);
        ("record_kind", VStr ATTESTATION_POLICY_RECORD_KIND)]], true).

(** [_ensure_attestation_policy_marker], run when the ledger is opened. *)
Definition ensure_attestation_policy_marker (rows : list row)
    : result ledger_exn (list stmt * bool) :=
  if negb (enforcement_required os) then Ok ([], false) else
  key ← lift_ledger (attestation_key os);
  match key with
  | None => Ok ([], false)
  | Some k => record_attestation_policy (key_fingerprint k) None rows
  end.

(** The plan of [append]; see [append] below for what it returns. *)
Definition append_plan (action_type node : string) (previous_value applied_value : float64)
    (reason : string) (data : pyval) (rows : list row) : result ledger_exn (list stmt * unit) :=
  let previous_hash := previous_hash_of rows in
  let canonical_entry :=
    [("action_type", VStr action_type); ("node", VStr node);
     ("previous_value", VFloat previous_value); ("applied_value", VFloat applied_value);
     ("reason", VStr reason); ("data", data); ("previous_hash", previous_hash)] in
  Ok ([[("action_type", VStr action_type); ("node", VStr node);
        ("previous_value", VFloat previous_value); ("applied_value", VFloat applied_value);
        ("reason", VStr reason); ("previous_hash", previous_hash);
        ("current_hash", VStr (hash_entry canonical_entry)); ("data", data)]], tt).

(* ------------------------------------------------------------------ *)
(** ** Bindings, lens events and disclosures *)

(** The answer of a writer, as the dictionary it returns. *)
Definition created (fields : dict pyval) (current_hash : string) : dict pyval :=
  (("status", VStr "created") :: fields ++ [("current_hash", VStr current_hash)])%list.

Definition bind_cassette_version (cassette_version cassette_hash : string)
    (cassette_code_hash authorized_by : option string) (rows : list row)
    : result ledger_exn (list stmt * dict pyval) :=
  _ ← refuse_if (negb (str_true cassette_version)) ValueError;
  _ ← refuse_if (negb (str_true cassette_hash)) ValueError;
  match select (fun r => col_is "record_kind" (VStr "cassette_binding") r &&
                         col_is "cassette_version" (VStr cassette_version) r) rows with
  | Some r =>
      let ex_hash := vget r "cassette_hash" in
      let ex_code_hash := vget r "cassette_code_hash" in
      let code_hash := opt_str cassette_code_hash in
      if negb (py_eq ex_hash (VStr cassette_hash)) ||
         (negb (is_None ex_code_hash) && negb (is_None code_hash) &&
          negb (py_eq ex_code_hash code_hash))
      then ledger_raise ValueError
      else Ok ([], [("status", VStr "exists"); ("cassette_version", VStr cassette_version);
                    ("cassette_hash", ex_hash); ("cassette_code_hash", ex_code_hash);
                    ("existing_hash", vget r "current_hash")])
  | None =>
      '(s, current_hash) ← chain_row rows "cassette_binding" (opt_str authorized_by)
        [("record_kind", VStr "cassette_binding"); ("cassette_version", VStr cassette_version)]
        [("cassette_hash", VStr cassette_hash); ("cassette_code_hash", opt_str cassette_code_hash)]
        [("action_type", VStr "cassette_binding"); ("node", VStr cassette_version);
         ("reason", VStr "cassette version->content binding");
         ("data", VDict [("record_kind", VStr "cassette_binding");
                         ("parameter_changed", VBool false)]);
         ("cassette_version", VStr cassette_version); ("cassette_hash", VStr cassette_hash);
         ("cassette_code_hash", opt_str cassette_code_hash)];
      Ok ([s], created [("cassette_version", VStr cassette_version);
                        ("cassette_hash", VStr cassette_hash);
                        ("cassette_code_hash", opt_str cassette_code_hash)] current_hash)
  end.

Definition REGULATORY_CASSETTE_EVENTS : list string :=
  ["regulatory_cassette_inserted"; "regulatory_cassette_removed"].

(** [event.endswith("inserted")] for the two events. *)
Definition lens_verb (event : string) : string :=
  if String.eqb event "regulatory_cassette_inserted" then "inserted" else "removed".

Definition record_regulatory_cassette_event (event cassette_version cassette_hash : string)
    (cassette_code_hash : option string) (mode regulation authorized_by : string)
    (rows : list row) : result ledger_exn (list stmt * dict pyval) :=
  _ ← refuse_if (negb (str_mem event REGULATORY_CASSETTE_EVENTS)) ValueError;
  _ ← refuse_if (negb (str_true cassette_version)) ValueError;
  _ ← refuse_if (negb (str_true cassette_hash)) ValueError;
  _ ← refuse_if (negb (str_mem mode ["observer"; "live"])) ValueError;
  _ ← refuse_if (blank regulation) ValueError;
  _ ← refuse_if (blank authorized_by) ValueError;
  '(s, current_hash) ← chain_row rows event (VStr authorized_by)
    [("record_kind", VStr event); ("cassette_version", VStr cassette_version);
     ("mode", VStr mode); ("regulation", VStr regulation)]
    [("cassette_hash", VStr cassette_hash); ("cassette_code_hash", opt_str cassette_code_hash)]
    [("action_type", VStr event); ("node", VStr (str_take 100 regulation));
     ("reason", VStr ("regulatory lens " +:+ lens_verb event +:+ " (" +:+ mode +:+ " mode)"));
     ("data", VDict [("record_kind", VStr event); ("mode", VStr mode);
                     ("regulation", VStr regulation); ("parameter_changed", VBool false)]);
     ("cassette_version", VStr cassette_version); ("cassette_hash", VStr cassette_hash);
     ("cassette_code_hash", opt_str cassette_code_hash)];
  Ok ([s], created [("event", VStr event); ("cassette_version", VStr cassette_version);
                    ("mode", VStr mode); ("regulation", VStr regulation);
                    ("cassette_hash", VStr cassette_hash)] current_hash).

Definition record_regulatory_disclosure (cassette_version regulation check action subject_id : string)
    (finding : pyval) (cassette_hash authorized_by : option string) (rows : list row)
    : result ledger_exn (list stmt * dict pyval) :=
  _ ← refuse_if (negb (str_true cassette_version)) ValueError;
  _ ← refuse_if (blank regulation) ValueError;
  _ ← refuse_if (blank check) ValueError;
  _ ← refuse_if (negb (str_mem action ["flag"; "block"; "adjust"])) ValueError;
  _ ← refuse_if (blank subject_id) ValueError;
  _ ← refuse_if (negb (is_dict finding)) ValueError;
  let finding := norm finding in
  let fields := [("regulation", VStr regulation); ("check", VStr check);
                 ("action", VStr action); ("subject", VStr subject_id)] in
  '(s, current_hash) ← chain_row rows "regulatory_disclosure" (opt_str authorized_by)
    ((("record_kind", VStr "regulatory_disclosure") ::
      ("cassette_version", VStr cassette_version) :: fields ++ [("finding", finding)])%list)
    [("cassette_hash", opt_str cassette_hash)]
    [("action_type", VStr "regulatory_disclosure"); ("node", VStr (str_take 100 check));
     ("reason", VStr ("regulatory lens " +:+ action +:+ ": " +:+ check +:+ " (" +:+
        str_take 120 regulation +:+ ")"));
     ("data", VDict ((("record_kind", VStr "regulatory_disclosure") :: fields ++
        [("parameter_changed", VBool false)])%list));
     ("cassette_version", VStr cassette_version); ("decision_output", finding);
     ("cassette_hash", opt_str cassette_hash)];
  Ok ([s], created (("cassette_version", VStr cassette_version) :: fields) current_hash).

(* ------------------------------------------------------------------ *)
(** ** Shadow recommendations and human selections *)

Definition record_recommendation_shadow_run (recommendation_kind subject cassette_version : string)
    (inputs recommendation : pyval) (authorized_by : option string) (rows : list row)
    : result ledger_exn (list stmt * dict pyval) :=
  _ ← refuse_if (blank recommendation_kind) ValueError;
  _ ← refuse_if (blank subject) ValueError;
  _ ← refuse_if (negb (str_true cassette_version)) ValueError;
  _ ← refuse_if (negb (is_dict inputs) || negb (is_dict recommendation)) ValueError;
  let inputs := norm inputs in
  let recommendation := norm recommendation in
  let kind_subject := [("recommendation_kind", VStr recommendation_kind);
                       ("subject", VStr subject)] in
  '(s, current_hash) ← chain_row rows "recommendation_shadow_run" (opt_str authorized_by)
    ((("record_kind", VStr "recommendation_shadow_run") ::
      ("cassette_version", VStr cassette_version) :: kind_subject ++
      [("inputs", inputs); ("recommendation", recommendation)])%list)
    []
    [("action_type", VStr "recommendation_shadow_run"); ("node", VStr (str_take 100 subject));
     ("reason", VStr ("shadow recommendation (" +:+ recommendation_kind +:+ ") for " +:+ subject
        +:+ ", never acted on -- predictive-accuracy measurement only"));
     ("data", VDict ((("record_kind", VStr "recommendation_shadow_run") :: kind_subject ++
        [("parameter_changed", VBool false)])%list));
     ("cassette_version", VStr cassette_version); ("input_data", inputs);
     ("decision_output", recommendation)];
  Ok ([s], created kind_subject current_hash).

Definition record_recommendation_shadow_score (shadow_run_hash : string) (actual score : pyval)
    (authorized_by : option string) (rows : list row)
    : result ledger_exn (list stmt * dict pyval) :=
  _ ← refuse_if (blank shadow_run_hash) ValueError;
  _ ← refuse_if (negb (is_dict actual) || negb (is_dict score)) ValueError;
  let actual := norm actual in
  let score := norm score in
  match select (fun r => col_is "current_hash" (VStr shadow_run_hash) r &&
                         col_is "record_kind" (VStr "recommendation_shadow_run") r) rows with
  | None => ledger_raise ValueError
  | Some _ =>
      '(s, current_hash) ← chain_row rows "recommendation_shadow_score" (opt_str authorized_by)
        [("record_kind", VStr "recommendation_shadow_score"); ("actual", actual); ("score", score)]
        [("shadow_run_hash", VStr shadow_run_hash)]
        [("action_type", VStr "recommendation_shadow_score");
         ("node", VStr (str_take 100 shadow_run_hash));
         ("reason", VStr ("scored shadow recommendation " +:+ str_take 12 shadow_run_hash));
         ("data", VDict [("record_kind", VStr "recommendation_shadow_score");
                         ("shadow_run_hash", VStr shadow_run_hash);
                         ("parameter_changed", VBool false)]);
         ("shadow_run_hash", VStr shadow_run_hash); ("input_data", actual);
         ("decision_output", score)];
      Ok ([s], created [("shadow_run_hash", VStr shadow_run_hash)] current_hash)
  end.

Definition HUMAN_SELECTIONS : list string := ["concur"; "override"; "escalate"].

(** [rationale] is stored as given; the recommendation shown is read from the
    decision row, never taken from the caller. *)
Definition record_human_selection (decision_hash human_selection selected_by : string)
    (rationale : option string) (rows : list row)
    : result ledger_exn (list stmt * dict pyval) :=
  _ ← refuse_if (blank decision_hash) ValueError;
  _ ← refuse_if (negb (str_mem human_selection HUMAN_SELECTIONS)) ValueError;
  _ ← refuse_if (blank selected_by) ValueError;
  match select (col_is "current_hash" (VStr decision_hash)) rows with
  | None => ledger_raise ValueError
  | Some parent =>
      if negb (col_is "record_kind" (VStr "governance_decision") parent)
      then ledger_raise ValueError
      else
        let cassette_version := vget parent "cassette_version" in
        output ← lift_ledger (as_json loads (vget parent "decision_output"));
        let shown := VDict [("reasoning", vget parent "reason"); ("output", output)] in
        '(s, current_hash) ← chain_row rows "human_selection" (VStr selected_by)
          [("record_kind", VStr "human_selection"); ("cassette_version", cassette_version);
           ("human_selection", VStr human_selection); ("rationale", opt_str rationale);
           ("recommendation_shown", shown)]
          [("decision_hash", VStr decision_hash)]
          [("action_type", VStr "human_selection"); ("node", VStr (str_take 100 decision_hash));
           ("reason", VStr ("human selection (" +:+ human_selection +:+ ") on decision " +:+
              str_take 12 decision_hash));
           ("data", VDict [("record_kind", VStr "human_selection");
                           ("human_selection", VStr human_selection);
                           ("rationale", opt_str rationale);
                           ("parameter_changed", VBool false)]);
           ("cassette_version", cassette_version); ("decision_hash", VStr decision_hash);
           ("decision_output", shown)];
        Ok ([s], created [("human_selection", VStr human_selection);
                          ("decision_hash", VStr decision_hash)] current_hash)
  end.

(* ------------------------------------------------------------------ *)
(** ** Harm events and supersessions *)

Definition record_outcome_harm_event (cassette_version decision_hash harm_kind subject_id : string)
    (finding : pyval) (discovered_at authorized_by cassette_hash : option string)
    (rows : list row) : result ledger_exn (list stmt * dict pyval) :=
  _ ← refuse_if (negb (str_true cassette_version)) ValueError;
  _ ← refuse_if (blank decision_hash) ValueError;
  _ ← refuse_if (blank harm_kind) ValueError;
  _ ← refuse_if (blank subject_id) ValueError;
  _ ← refuse_if (negb (is_dict finding) || negb (py_true finding)) ValueError;
  let finding := norm finding in
  let fields := [("harmed_decision", VStr decision_hash); ("harm_kind", VStr harm_kind);
                 ("subject", VStr subject_id)] in
  let discovered := [("discovered_at", text_or_empty discovered_at)] in
  '(s, current_hash) ← chain_row rows "outcome_harm_event" (opt_str authorized_by)
    ((("record_kind", VStr "outcome_harm_event") ::
      ("cassette_version", VStr cassette_version) :: fields ++ discovered ++
      [("finding", finding)])%list)
    [("cassette_hash", opt_str cassette_hash)]
    [("action_type", VStr "outcome_harm_event"); ("node", VStr (str_take 100 harm_kind));
     ("reason", VStr ("outcome harm event: " +:+ str_take 80 harm_kind +:+ " on decision " +:+
        str_take 16 decision_hash));
     ("data", VDict ((("record_kind", VStr "outcome_harm_event") :: fields ++ discovered ++
        [("parameter_changed", VBool false)])%list));
     ("cassette_version", VStr cassette_version); ("decision_output", finding);
     ("cassette_hash", opt_str cassette_hash)];
  Ok ([s], created (("cassette_version", VStr cassette_version) :: fields) current_hash).

(** [cassette_version or orig_version or "supersession:none:0"] *)
Definition superseding_version (cassette_version : option string) (orig_version : pyval) : pyval :=
  if opt_true cassette_version then opt_str cassette_version
  else if py_true orig_version then orig_version else VStr "supersession:none:0".

Definition supersede_decision (supersedes_id : Z) (authority reason : string)
    (corrected_output : pyval) (cassette_version : option string) (rows : list row)
    : result ledger_exn (list stmt * dict pyval) :=
  _ ← refuse_if (negb (str_true authority)) ValueError;
  _ ← refuse_if (negb (is_dict corrected_output) || negb (py_true corrected_output)) ValueError;
  match select (col_is "id" (VInt supersedes_id)) rows with
  | None => ledger_raise ValueError
  | Some orig =>
      if negb (col_is "record_kind" (VStr "governance_decision") orig)
      then ledger_raise ValueError
      else
        let orig_hash := vget orig "current_hash" in
        let version := superseding_version cassette_version (vget orig "cassette_version") in
        '(s, current_hash) ← chain_row rows "decision_supersession" (VStr authority)
          [("record_kind", VStr "decision_supersession"); ("supersedes_id", VInt supersedes_id);
           ("cassette_version", version); ("authority", VStr authority);
           ("reason", VStr reason); ("corrected_output", corrected_output)]
          [("supersedes_hash", orig_hash)]
          [("action_type", VStr "decision_supersession"); ("node", VStr "supersession");
           ("reason", VStr reason);
           ("data", VDict [("record_kind", VStr "decision_supersession");
                           ("parameter_changed", VBool false)]);
           ("cassette_version", version); ("decision_output", corrected_output);
           ("supersedes_id", VInt supersedes_id); ("supersedes_hash", orig_hash)];
        Ok ([s], [("status", VStr "superseded"); ("supersedes_id", VInt supersedes_id);
                  ("supersedes_hash", orig_hash); ("authority", VStr authority);
                  ("current_hash", VStr current_hash)])
  end.

(* ------------------------------------------------------------------ *)
(** ** Contract rows *)

(** [_append_contract_row] *)
Definition append_contract_row (record_kind cassette_version : string)
    (canonical_extra : dict pyval) (finding : option pyval) (node reason : string)
    (cassette_hash authorized_by : option string) (rows : list row)
    : result ledger_exn (list stmt * dict pyval) :=
  let finding_item := match finding with Some f => [("finding", f)] | None => [] end in
  '(s, current_hash) ← chain_row rows record_kind (opt_str authorized_by)
    ((("record_kind", VStr record_kind) :: ("cassette_version", VStr cassette_version) ::
      canonical_extra ++ finding_item)%list)
    [("cassette_hash", opt_str cassette_hash)]
    [("action_type", VStr record_kind); ("node", VStr node); ("reason", VStr reason);
     ("data", VDict ((("record_kind", VStr record_kind) ::
        ("parameter_changed", VBool false) :: canonical_extra)%list));
     ("cassette_version", VStr cassette_version);
     ("decision_output", match finding with Some f => f | None => VNone end);
     ("cassette_hash", opt_str cassette_hash)];
  Ok ([s], (("status", VStr "created") :: ("record_kind", VStr record_kind) ::
            ("cassette_version", VStr cassette_version) ::
            ("current_hash", VStr current_hash) :: canonical_extra)%list).

(** [for name, value in ...: if not value or not str(value).strip(): raise] *)
Definition require_all (values : list string) : result ledger_exn unit :=
  refuse_if (existsb blank values) ValueError.

Definition record_contract_ingest (contract_version counterparty ingest_id data_scope received_at : string)
    (cassette_hash authorized_by : option string) (rows : list row)
    : result ledger_exn (list stmt * dict pyval) :=
  _ ← refuse_if (negb (str_true contract_version)) ValueError;
  _ ← require_all [counterparty; ingest_id; data_scope; received_at];
  append_contract_row "contract_ingest" contract_version
    [("counterparty", VStr counterparty); ("ingest_id", VStr ingest_id);
     ("data_scope", VStr data_scope); ("received_at", VStr received_at)]
    None (str_take 100 counterparty) ("contract ingest " +:+ str_take 60 ingest_id)
    cassette_hash authorized_by rows.

Definition record_contract_egress (contract_version counterparty decision data_scope recipient
      recipient_class purpose occurred_at : string) (finding : pyval)
    (approval_reference cassette_hash authorized_by : option string) (rows : list row)
    : result ledger_exn (list stmt * dict pyval) :=
  _ ← refuse_if (negb (str_true contract_version)) ValueError;
  _ ← refuse_if (negb (str_mem decision ["authorized"; "refused"])) ValueError;
  _ ← require_all [counterparty; data_scope; recipient; recipient_class; purpose; occurred_at];
  _ ← refuse_if (negb (is_dict finding) || negb (py_true finding)) ValueError;
  append_contract_row "contract_egress" contract_version
    [("counterparty", VStr counterparty); ("decision", VStr decision);
     ("data_scope", VStr data_scope); ("recipient", VStr recipient);
     ("recipient_class", VStr recipient_class); ("purpose", VStr purpose);
     ("approval_reference", text_or_empty approval_reference);
     ("occurred_at", VStr occurred_at)]
    (Some (norm finding)) (str_take 100 recipient_class)
    ("contract egress " +:+ decision +:+ ": " +:+ str_take 40 purpose +:+ " -> " +:+
     str_take 40 recipient)
    cassette_hash authorized_by rows.

Definition record_contract_approval (contract_version counterparty approval_id state approver
      recipient recipient_class scope granted_at : string)
    (expires_at revoked_at cassette_hash : option string) (rows : list row)
    : result ledger_exn (list stmt * dict pyval) :=
  _ ← refuse_if (negb (str_true contract_version)) ValueError;
  _ ← refuse_if (negb (str_mem state ["granted"; "revoked"])) ValueError;
  _ ← require_all [counterparty; approval_id; approver; recipient; recipient_class; scope; granted_at];
  _ ← refuse_if (String.eqb state "revoked" && blank (or_empty revoked_at)) ValueError;
  append_contract_row "contract_approval" contract_version
    [("counterparty", VStr counterparty); ("approval_id", VStr approval_id);
     ("state", VStr state); ("recipient", VStr recipient);
     ("recipient_class", VStr recipient_class); ("scope", VStr scope);
     ("granted_at", VStr granted_at); ("expires_at", text_or_empty expires_at);
     ("revoked_at", text_or_empty revoked_at)]
    None (str_take 100 recipient_class)
    ("contract approval " +:+ state +:+ ": " +:+ str_take 60 approval_id)
    cassette_hash (Some approver) rows.

Definition record_contract_deletion (contract_version counterparty ingest_id deleted_at scope
      method : string) (cassette_hash authorized_by : option string) (rows : list row)
    : result ledger_exn (list stmt * dict pyval) :=
  _ ← refuse_if (negb (str_true contract_version)) ValueError;
  _ ← refuse_if (negb (str_mem scope ["active"; "backup"])) ValueError;
  _ ← require_all [counterparty; ingest_id; deleted_at; method];
  append_contract_row "contract_deletion" contract_version
    [("counterparty", VStr counterparty); ("ingest_id", VStr ingest_id);
     ("deleted_at", VStr deleted_at); ("scope", VStr scope); ("method", VStr method);
     ("stamp", VStr "attested")]
    None (str_take 100 scope)
    ("contract deletion (" +:+ scope +:+ ") of " +:+ str_take 50 ingest_id)
    cassette_hash authorized_by rows.

(* ------------------------------------------------------------------ *)
(** ** Governance decisions *)

(** The checks of [append_decision] on the record itself; gives the output
    mapping with the gate's identity, and the subject digest. *)
Definition check_decision (d : GovernanceDecisionRecord)
    : result ledger_exn (dict pyval * dict pyval * string) :=
  _ ← refuse_if (negb (py_true (d_cassette_version d)) || negb (is_str (d_cassette_version d))) ValueError;
  _ ← refuse_if (negb (is_dict (d_policy_parameters d)) || negb (py_true (d_policy_parameters d))) ValueError;
  match d_input_data d with
  | VDict input_data =>
      match d_output d with
      | VDict output =>
          _ ← refuse_if (negb (py_true (VDict output))) ValueError;
          match cns_subject_digest (d_input_data d) with
          | Err (TypeError | ValueError) => ledger_raise ValueError
          | Err e => ledger_raise e
          | Ok subject_digest =>
              if dmem output "gate" then ledger_raise ValueError
              else Ok (input_data,
                       dset output "gate" (VDict [("name", d_cassette_version d);
                         ("position", VStr GATE_OMEGA);
                         ("outcome", VStr (gate_outcome_of output))]),
                       subject_digest)
          end
      | _ => ledger_raise ValueError
      end
  | _ => ledger_raise ValueError
  end.

Definition lift_event_exn {A} (r : result event_exn A) : result ledger_exn A :=
  map_err (fun e => match e with EventPyExn e => LPy e | e => LEvent e end) r.

(** One observed event of the batch: valid, and not seen before. *)
Definition check_event (st : list string * list string * list (dict pyval)) (ev : EventV1)
    : result ledger_exn (list string * list string * list (dict pyval)) :=
  let '(seen_ids, episode_ids, bodies) := st in
  _ ← lift_event_exn (validate_event ev);
  if str_mem (e_event_id ev) seen_ids then ledger_raise ValueError
  else
    body ← lift_ledger (event_v1_to_body ev);
    Ok (e_event_id ev :: seen_ids,
        (if str_mem (e_episode_id ev) episode_ids then episode_ids
         else e_episode_id ev :: episode_ids),
        (bodies ++ [body])%list).

Definition check_events (observed_events : list EventV1) : result ledger_exn (list (dict pyval)) :=
  '(_, episode_ids, bodies) ← foldM check_event ([], [], []) observed_events;
  _ ← refuse_if (1 <? length episode_ids)%nat ValueError;
  Ok bodies.

(** The mandatory conservation boundary. *)
Definition check_boundary (episode : option Episode) (d : GovernanceDecisionRecord)
    (observed_events : list EventV1) : result ledger_exn unit :=
  match episode with
  | Some ep =>
      match verify_governed_decision ep d observed_events with
      | BoundaryOk => Ok tt
      | BoundaryRejected => Err LBoundary
      | BoundaryFailed => ledger_raise RuntimeError
      end
  | None => refuse_if (negb conservation_boundary_waived) ValueError
  end.

(** [serialize_cassette_for_ledger] is [GovernanceParameters.snapshot()]:
    the snapshot is given, its hash is computed. *)
Definition compute_cassette_hash (cassette_snapshot : pyval) : string :=
  sha256 (dumps default_seps cassette_snapshot).

(** The fixed part of a decision's canonical entry. *)
Definition decision_canonical (d : GovernanceDecisionRecord) (output : dict pyval)
    (previous_hash : pyval) : dict pyval :=
  [("record_kind", VStr "governance_decision"); ("action_type", VStr (d_action_type d));
   ("node", VStr (d_node d)); ("cassette_version", d_cassette_version d);
   ("input_data", d_input_data d); ("policy_parameters", d_policy_parameters d);
   ("reasoning", VStr (d_reasoning d)); ("output", VDict output);
   ("previous_value", VFloat (d_previous_value d)); ("applied_value", VFloat (d_applied_value d));
   ("parameter_changed", VBool (d_parameter_changed d)); ("previous_hash", previous_hash)].

Definition decision_optional (d : GovernanceDecisionRecord) (cassette_hash : option string)
    (subject_digest : string) : dict pyval :=
  [("cassette_hash", opt_str cassette_hash);
   ("cassette_code_hash", opt_str (d_cassette_code_hash d));
   ("model_identity", opt_str (d_model_identity d));
   ("authorized_by", opt_str (d_authorized_by d));
   ("supersedes_hash", opt_str (d_supersedes_hash d));
   ("outcome_obligation", opt_str (d_outcome_obligation d));
   ("replaces_hash", opt_str (d_replaces_hash d)); ("ai_cost", d_ai_cost d);
   ("subject_digest", VStr subject_digest); ("shuffle_seed", VNone)].

(** The INSERT of a decision; signed last (abv3), over everything else. *)
Definition decision_stmt (d : GovernanceDecisionRecord) (input_data output : dict pyval)
    (subject_digest : string) (cassette_snapshot : option pyval) (previous_hash : pyval)
    : result ledger_exn (stmt * string) :=
  let cassette_hash := option_map compute_cassette_hash cassette_snapshot in
  let canonical_entry := apply_optional_hashed_fields (decision_canonical d output previous_hash)
    (decision_optional d cassette_hash subject_digest) in
  sig ← authorized_by_sig (opt_str (d_authorized_by d)) previous_hash "governance_decision"
    (Some (content_prehash canonical_entry));
  let canonical_entry := apply_optional_hashed_fields canonical_entry
    [(SIGNATURE_FIELD, opt_str sig)] in
  let current_hash := hash_entry canonical_entry in
  Ok ([("action_type", VStr (d_action_type d)); ("node", VStr (d_node d));
       ("previous_value", VFloat (d_previous_value d));
       ("applied_value", VFloat (d_applied_value d)); ("reason", VStr (d_reasoning d));
       ("previous_hash", previous_hash); ("current_hash", VStr current_hash);
       ("data", VDict [("record_kind", VStr "governance_decision");
                       ("parameter_changed", VBool (d_parameter_changed d))]);
       ("record_kind", VStr "governance_decision"); ("cassette_version", d_cassette_version d);
       ("input_data", d_input_data d); ("policy_parameters", d_policy_parameters d);
       ("decision_output", VDict output);
       ("cassette_snapshot", match cassette_snapshot with
                             | Some v => if py_true v then v else VNone | None => VNone end);
       ("cassette_hash", opt_str cassette_hash); ("call_sid", vget input_data "call_sid");
       ("cassette_code_hash", opt_str (d_cassette_code_hash d));
       ("model_identity", opt_str (d_model_identity d));
       ("authorized_by", opt_str (d_authorized_by d)); ("supersedes_id", VNone);
       ("supersedes_hash", opt_str (d_supersedes_hash d));
       ("outcome_obligation", opt_str (d_outcome_obligation d));
       ("replaces_hash", opt_str (d_replaces_hash d));
       ("ai_cost", if py_true (d_ai_cost d) then d_ai_cost d else VNone);
       (SIGNATURE_FIELD, opt_str sig); ("subject_digest", VStr subject_digest);
       ("shuffle_seed", VNone)], current_hash).

(** One observed_event row behind [event_prev]. *)
Definition event_stmt (body : dict pyval) (event_prev : pyval) : stmt * string :=
  let ev_hash := hash_entry (observed_event_canonical body event_prev) in
  ([("action_type", vget body "kind"); ("node", vget body "episode_id");
    ("reason", VStr ("observed_event " +:+ py_str (vget body "event_id") +:+ " (" +:+
       py_str (vget body "provenance") +:+ ") for episode " +:+ py_str (vget body "episode_id")));
    ("previous_hash", event_prev); ("current_hash", VStr ev_hash);
    ("data", VDict [("record_kind", VStr "observed_event"); ("parameter_changed", VBool false)]);
    ("record_kind", VStr "observed_event"); ("input_data", VDict body)], ev_hash).

Fixpoint event_stmts (bodies : list (dict pyval)) (event_prev : pyval) : list stmt :=
  match bodies with
  | [] => []
  | body :: bodies =>
      let '(s, h) := event_stmt body event_prev in s :: event_stmts bodies (VStr h)
  end.

(** [replaces_hash] must name a decision already on the chain. *)
Definition check_replaces (d : GovernanceDecisionRecord) (rows : list row) : result ledger_exn unit :=
  if opt_true (d_replaces_hash d) then
    match select (fun r => col_is "current_hash" (opt_str (d_replaces_hash d)) r &&
                           col_is "record_kind" (VStr "governance_decision") r) rows with
    | Some _ => Ok tt
    | None => ledger_raise ValueError
    end
  else Ok tt.

Definition append_decision (d : GovernanceDecisionRecord) (cassette_snapshot : option pyval)
    (observed_events : list EventV1) (episode : option Episode) (rows : list row)
    : result ledger_exn (list stmt * bool) :=
  '(input_data, output, subject_digest) ← check_decision d;
  bodies ← check_events observed_events;
  _ ← check_boundary episode d observed_events;
  _ ← check_replaces d rows;
  '(s, current_hash) ← decision_stmt d input_data output subject_digest cassette_snapshot
    (previous_hash_of rows);
  Ok (s :: event_stmts bodies (VStr current_hash), true).
End Writers.

(** [append] reports every exception as [False]. *)
Definition append `{FloatRepr} `{!Postgres} `{!Hashes} (os : os_view) (now : string) (anchor_io : bool)
    (action_type node : string) (previous_value applied_value : float64) (reason : string)
    (data : pyval) (l : ledger) : bool * ledger :=
  let '(r, l') := transact os now anchor_io
    (append_plan action_type node previous_value applied_value reason data) l in
  (is_ok r, l').

(* ------------------------------------------------------------------ *)
(** ** Concrete interfaces *)

(** A table that keeps what it can keep and refuses the rest. *)
#[local] Instance sample_postgres `{FloatRepr} : Postgres.
Proof.
  refine {| pg_store := fun t v => if storable t v then Some v else None |}.
  - intros t v Hs. exists v. by rewrite Hs.
  - intros t v w _. destruct (storable t v); [by intros [= <-]|done].
  - intros t v w. destruct (storable t v) eqn:E; [intros [= <-]|done].
    destruct t, v; try done; unfold storable in E; done.
Defined.

#[local] Existing Instance sample_hashes.
#[local] Existing Instance sample_float_repr.

#[local] Instance sample_cns : Cns.
Proof.
  refine {| cns_subject_digest := fun v => Ok (sha256 (dumps compact_seps v));
            GATE_PASS := "pass"; GATE_TERMINAL_BREACH := "terminal_breach"; GATE_OMEGA := "omega" |}.
  - intros v w Heq. by rewrite Heq.
  - intros v s [= <-]. apply poly_hash_ok.
Defined.
