(* ===== verification/LedgerVerify.v ===== *)
(** * LedgerVerify: the primary verifier

    Models verify_chain of src/sentinel_os/governance/ledger_postgres.py: for
    every row, in id order, the link to the previous row, the hash recomputed
    from the columns, and the receipt checks; then the chain against its head
    anchor.  A row's checks run inside one [try]: what was reported before an
    exception stays reported. *)

From S2P Require Import Prelude PyFloat PyValue Event Json Canonical Attestation HeadAnchor LedgerDb Ledger.
Local Open Scope string_scope.

Inductive violation :=
| V_chain_broken
| V_hash_mismatch
| V_transplanted
| V_seed_forged (st : att_status)
| V_att_invalid
| V_att_unknown_key
| V_att_retired_key
| V_unattested (since : pyval)
| V_recompute_failed (e : pyexn)
| V_truncated (t : option truncation).

(** [.get(k)] on a value that must be a mapping. *)
Definition get_of (v : pyval) (k : string) : result pyexn pyval :=
  match v with VDict d => Ok (vget d k) | _ => Err AttributeError end.

(** [v or {}], then used as a mapping. *)
Definition or_dict (v : pyval) : result pyexn (dict pyval) :=
  if py_true v then match v with VDict d => Ok d | _ => Err AttributeError end else Ok [].

Section Verify.
Context `{FloatRepr} `{!Hashes} `{!Cns}.
Variable loads : string -> result pyexn pyval.

(** The fields [keys] of [d], under their own names. *)
Definition fields_of (d : dict pyval) (keys : list string) : dict pyval :=
  map (fun k => (k, vget d k)) keys.

(** [d = self._as_json(data)] and the [d.get(...)] calls after it. *)
Definition data_fields (r : row) (keys : list string) : result pyexn (dict pyval) :=
  d ← as_json loads (vget r "data");
  match keys, d with
  | [], _ => Ok []
  | _, VDict d => Ok (fields_of d keys)
  | _, _ => Err AttributeError
  end.

Definition kind_in (r : row) (kinds : list string) : bool :=
  match vget r "record_kind" with VStr k => str_mem k kinds | _ => false end.

(** The canonical entry rebuilt from a row, before its signature. *)
Definition canonical_of_row (r : row) : result pyexn (dict pyval) :=
  let c := vget r in
  let stored_prev := [("previous_hash", c "previous_hash")] in
  if kind_in r ["governance_decision"] then
    input_data ← as_json loads (c "input_data");
    policy_parameters ← as_json loads (c "policy_parameters");
    output ← as_json loads (c "decision_output");
    data ← as_json loads (c "data");
    parameter_changed ← (match data with
      | VDict d => Ok (match dget d "parameter_changed" with Some v => v | None => VBool false end)
      | _ => Err AttributeError end);
    ai_cost ← as_json loads (c "ai_cost");
    Ok (apply_optional_hashed_fields
      [("record_kind", VStr "governance_decision"); ("action_type", c "action_type");
       ("node", c "node"); ("cassette_version", c "cassette_version");
       ("input_data", input_data); ("policy_parameters", policy_parameters);
       ("reasoning", c "reason"); ("output", output);
       ("previous_value", c "previous_value"); ("applied_value", c "applied_value");
       ("parameter_changed", parameter_changed); ("previous_hash", c "previous_hash")]
      ((fields_of r ["cassette_hash"; "cassette_code_hash"; "model_identity"; "authorized_by";
         "supersedes_hash"; "outcome_obligation"; "replaces_hash"; "subject_digest";
         "shuffle_seed"] ++ [("ai_cost", ai_cost)])%list))
  else if kind_in r ["cassette_binding"] then
    Ok (apply_optional_hashed_fields
      ([("record_kind", VStr "cassette_binding"); ("cassette_version", c "cassette_version")]
       ++ stored_prev)%list
      (fields_of r ["cassette_hash"; "cassette_code_hash"; "authorized_by"]))
  else if kind_in r ["regulatory_cassette_inserted"; "regulatory_cassette_removed"] then
    d ← data_fields r ["mode"; "regulation"];
    Ok (apply_optional_hashed_fields
      ([("record_kind", c "record_kind"); ("cassette_version", c "cassette_version")]
       ++ d ++ stored_prev)%list
      (fields_of r ["cassette_hash"; "cassette_code_hash"; "authorized_by"]))
  else if kind_in r ["regulatory_disclosure"] then
    d ← data_fields r ["regulation"; "check"; "action"; "subject"];
    finding ← as_json loads (c "decision_output");
    Ok (apply_optional_hashed_fields
      ([("record_kind", VStr "regulatory_disclosure"); ("cassette_version", c "cassette_version")]
       ++ d ++ [("finding", finding)] ++ stored_prev)%list
      (fields_of r ["cassette_hash"; "authorized_by"]))
  else if kind_in r ["outcome_harm_event"] then
    d ← data_fields r ["harmed_decision"; "harm_kind"; "subject"; "discovered_at"];
    finding ← as_json loads (c "decision_output");
    Ok (apply_optional_hashed_fields
      ([("record_kind", VStr "outcome_harm_event"); ("cassette_version", c "cassette_version")]
       ++ d ++ [("finding", finding)] ++ stored_prev)%list
      (fields_of r ["cassette_hash"; "authorized_by"]))
  else if kind_in r (dkeys CONTRACT_CANONICAL_FIELDS) then
    data ← as_json loads (c "data");
    d ← or_dict data;
    let kind := py_str (c "record_kind") in
    let keys := match dget CONTRACT_CANONICAL_FIELDS kind with Some ks => ks | None => [] end in
    finding ← (if str_mem kind CONTRACT_KINDS_WITH_FINDING
               then f ← as_json loads (c "decision_output"); Ok [("finding", f)] else Ok []);
    Ok (apply_optional_hashed_fields
      ([("record_kind", c "record_kind"); ("cassette_version", c "cassette_version")]
       ++ fields_of d keys ++ finding ++ stored_prev)%list
      (fields_of r ["cassette_hash"; "authorized_by"]))
  else if kind_in r ["decision_supersession"] then
    corrected_output ← as_json loads (c "decision_output");
    Ok (apply_optional_hashed_fields
      ([("record_kind", VStr "decision_supersession"); ("supersedes_id", c "supersedes_id");
        ("cassette_version", c "cassette_version"); ("authority", c "authorized_by");
        ("reason", c "reason"); ("corrected_output", corrected_output)] ++ stored_prev)%list
      (fields_of r ["supersedes_hash"; "authorized_by"]))
  else if kind_in r ["recommendation_shadow_run"] then
    d ← data_fields r ["recommendation_kind"; "subject"];
    inputs ← as_json loads (c "input_data");
    recommendation ← as_json loads (c "decision_output");
    Ok (apply_optional_hashed_fields
      ([("record_kind", VStr "recommendation_shadow_run"); ("cassette_version", c "cassette_version")]
       ++ d ++ [("inputs", inputs); ("recommendation", recommendation)] ++ stored_prev)%list
      (fields_of r ["authorized_by"]))
  else if kind_in r ["recommendation_shadow_score"] then
    actual ← as_json loads (c "input_data");
    score ← as_json loads (c "decision_output");
    Ok (apply_optional_hashed_fields
      ([("record_kind", VStr "recommendation_shadow_score"); ("actual", actual); ("score", score)]
       ++ stored_prev)%list
      (fields_of r ["authorized_by"; "shadow_run_hash"]))
  else if kind_in r ["human_selection"] then
    d ← data_fields r ["human_selection"; "rationale"];
    shown ← as_json loads (c "decision_output");
    Ok (apply_optional_hashed_fields
      ([("record_kind", VStr "human_selection"); ("cassette_version", c "cassette_version")]
       ++ d ++ [("recommendation_shown", shown)] ++ stored_prev)%list
      (fields_of r ["authorized_by"; "decision_hash"]))
  else if kind_in r ["observed_event"] then
    input_data ← as_json loads (c "input_data");
    body ← or_dict input_data;
    Ok (observed_event_canonical body (c "previous_hash"))
  else if kind_in r [ATTESTATION_POLICY_RECORD_KIND] then
    data ← as_json loads (c "data");
    body ← or_dict data;
    Ok (attestation_policy_canonical body (c "reason") (c "previous_hash"))
  else
    data ← as_json loads (c "data");
    Ok ([("action_type", c "action_type"); ("node", c "node");
         ("previous_value", c "previous_value"); ("applied_value", c "applied_value");
         ("reason", c "reason"); ("data", data)] ++ stored_prev)%list.

(** The canonical entry with the signature of the row. *)
Definition signed_entry (canonical_entry : dict pyval) (r : row) : dict pyval :=
  apply_optional_hashed_fields canonical_entry (fields_of r [SIGNATURE_FIELD]).

(* ------------------------------------------------------------------ *)
(** ** The checks of one row *)

(** Violations reported so far, and the exception that ended the [try]. *)
Definition checks : Type := list violation * result pyexn unit.

Definition report (cond : bool) (v : violation) : checks := (if cond then [v] else [], Ok tt).

Definition then_ (a : checks) (b : checks) : checks :=
  match a with
  | (vs, Ok _) => ((vs ++ fst b)%list, snd b)
  | (vs, Err e) => (vs, Err e)
  end.

Definition with_ {A} (r : result pyexn A) (k : A -> checks) : checks :=
  match r with Ok a => k a | Err e => ([], Err e) end.

Section Row.
Variable att_keys : KeySet.
Variable att_enforced : bool.

(** TRANSPLANTED: a [TypeError] of the digest is itself a mismatch. *)
Definition check_subject (r : row) : checks :=
  if kind_in r ["governance_decision"] && py_true (vget r "subject_digest") then
    with_ (as_json loads (vget r "input_data")) (fun input_data =>
    let arg := if py_true input_data then input_data else VDict [] in
    match cns_subject_digest arg with
    | Ok expected => report (negb (py_eq (VStr expected) (vget r "subject_digest"))) V_transplanted
    | Err TypeError => report true V_transplanted
    | Err e => ([], Err e)
    end)
  else report false V_transplanted.

Definition check_seed (r : row) : checks :=
  if py_true (vget r "shuffle_seed") then
    with_ (verify_shuffle_seed (vget r "shuffle_seed") (vget r "previous_hash")
             (vget r "record_kind") (KSet att_keys)) (fun st =>
    report (negb (bool_decide (st = STATUS_OK) ||
                  (bool_decide (st = STATUS_RETIRED_KEY) && negb att_enforced)))
      (V_seed_forged st))
  else report false V_chain_broken.

Definition check_signature (r : row) (row_prehash : string) : checks :=
  if is_empty att_keys then report false V_att_invalid
  else
    with_ (verify_authorized_by_signature
             (fields_of r ["authorized_by"; SIGNATURE_FIELD; "previous_hash"; "record_kind"])
             (KSet att_keys) (Some row_prehash)) (fun st =>
    match st with
    | STATUS_INVALID => report true V_att_invalid
    | STATUS_UNKNOWN_KEY => report true V_att_unknown_key
    | STATUS_RETIRED_KEY => report att_enforced V_att_retired_key
    | _ => report false V_att_invalid
    end).

Definition check_attested (r : row) (policy_from_row : option pyval) : checks :=
  match policy_from_row with
  | Some since => report (py_true (vget r "authorized_by") && negb (py_true (vget r SIGNATURE_FIELD)))
                    (V_unattested since)
  | None => report false V_att_invalid
  end.

(** The body of the [try], up to the marker. *)
Definition check_row (r : row) (policy_from_row : option pyval) : checks :=
  with_ (canonical_of_row r) (fun canonical_entry =>
  let row_prehash := content_prehash canonical_entry in
  let recomputed_hash := hash_entry (signed_entry canonical_entry r) in
  then_ (report (negb (py_eq (VStr recomputed_hash) (vget r "current_hash"))) V_hash_mismatch)
 (then_ (check_subject r)
 (then_ (check_seed r)
 (then_ (check_signature r row_prehash)
        (check_attested r policy_from_row))))).

(** State of the walk: violations, [prev_hash], [policy_from_row]. *)
Record walk := mkWalk {
  w_violations : list (pyval * violation);
  w_prev_hash : pyval;
  w_policy : option pyval;
}.

Definition verify_step (w : walk) (r : row) : walk :=
  let id := vget r "id" in
  let '(vs, res) := then_ (report (negb (py_eq (vget r "previous_hash") (w_prev_hash w))) V_chain_broken)
                          (check_row r (w_policy w)) in
  let failed := match res with Err e => [V_recompute_failed e] | Ok _ => [] end in
  let policy := match res, w_policy w with
                | Ok _, None => if kind_in r [ATTESTATION_POLICY_RECORD_KIND] then Some id else None
                | _, p => p
                end in
  mkWalk (w_violations w ++ map (pair id) (vs ++ failed)%list) (vget r "current_hash") policy.

Definition verify_walk (rows : list row) : walk :=
  fold_left verify_step rows (mkWalk [] GENESIS None).
End Row.

(** The chain against its anchor; [CustodyError] and a failed check both
    report TRUNCATED. *)
Definition check_anchor (rows : list row) (anchor_file : option pyval) (ks : KeySet)
    : result pyexn (list (pyval * violation)) :=
  match read_head_anchor anchor_file with
  | Err CustodyError => Ok [(VNone, V_truncated None)]
  | Err (CustodyPyExn e) => Err e
  | Ok anchor =>
      failing ← check_head_anchor (map (fun r => (vget r "id", vget r "current_hash")) rows)
                  anchor (KSet ks);
      Ok (match failing with Some t => [(VNone, V_truncated (Some t))] | None => [] end)
  end.

(** [verify_chain(mode="report")]: the violations, empty when [ok]. *)
Definition verify_chain (os : os_view) (rows : list row) (anchor_file : option pyval)
    : result pyexn (list (pyval * violation)) :=
  ks ← attestation_keyset os;
  match rows with
  | [] => Ok []
  | _ =>
      let w := verify_walk ks (enforcement_required os) rows in
      truncated ← (match head_anchor_path os with
                   | Some _ => check_anchor rows anchor_file ks
                   | None => Ok []
                   end);
      Ok ((w_violations w ++ truncated)%list)
  end.

(** [mode="strict"] raises when there is a violation. *)
Definition verify_chain_strict (os : os_view) (rows : list row) (anchor_file : option pyval)
    : result pyexn (option nat) :=
  vs ← verify_chain os rows anchor_file;
  Ok (match vs with [] => Some (length rows) | _ => None end).
End Verify.
