(* ===== verification/Witness.v ===== *)
(** * Witness: the customer's own verifier

    Models the row-verification half of src/sentinel_os/twin_custody.py: the
    canonical form a shipped row must hash to, the receipt checks, and the walk
    over a chain that stops at the first failing row.  A shipped row is a
    dictionary; a missing column raises [KeyError]. *)

From S2P Require Import Prelude PyFloat PyValue Event Json Canonical Attestation HeadAnchor LedgerDb Ledger LedgerVerify.
Local Open Scope string_scope.

Definition SHIPPED_COLUMNS : list string :=
  ["id"; "timestamp"; "action_type"; "node"; "previous_value"; "applied_value"; "reason";
   "previous_hash"; "current_hash"; "data"; "record_kind"; "cassette_version"; "input_data";
   "policy_parameters"; "decision_output"; "cassette_snapshot"; "cassette_hash"; "call_sid";
   "cassette_code_hash"; "model_identity"; "authorized_by"; "supersedes_id"; "supersedes_hash";
   "replaces_hash"; "outcome_obligation"; "ai_cost"; "shadow_run_hash"; "decision_hash";
   "authorized_by_sig"; "subject_digest"; "shuffle_seed"].

(** [domain_from_cassette_version] *)
Definition domain_from_cassette_version (cassette_version : option string) : option string :=
  if opt_true cassette_version then
    let domain := match split_at ":" (or_empty cassette_version) with
                  | Some (a, _) => a | None => or_empty cassette_version end in
    if str_true domain then Some domain else None
  else None.

(** [row[k]] *)
Definition item (r : dict pyval) (k : string) : result pyexn pyval :=
  match dget r k with Some v => Ok v | None => Err KeyError end.

Fixpoint items (r : dict pyval) (ks : list (string * string)) : result pyexn (dict pyval) :=
  match ks with
  | [] => Ok []
  | (name, column) :: ks =>
      v ← item r column;
      rest ← items r ks;
      Ok ((name, v) :: rest)
  end.

Inductive witness_violation :=
| W_TAMPERED
| W_TRANSPLANTED
| W_SEED_FORGED
| W_TRUNCATED
| W_UNATTESTED.

Section Witness.
Context `{FloatRepr} `{!Hashes} `{!Cns}.

(** [(row.get("data") or {}).get(k)] for each key *)
Definition data_get (r : dict pyval) (keys : list string) : result pyexn (dict pyval) :=
  d ← or_dict (vget r "data");
  Ok (fields_of d keys).

Definition canonical_form (r : dict pyval) : result pyexn (dict pyval) :=
  let prev := items r [("previous_hash", "previous_hash")] in
  if kind_in r ["governance_decision"] then
    head ← items r [("action_type", "action_type"); ("node", "node");
       ("cassette_version", "cassette_version"); ("input_data", "input_data");
       ("policy_parameters", "policy_parameters"); ("reasoning", "reason");
       ("output", "decision_output"); ("previous_value", "previous_value");
       ("applied_value", "applied_value")];
    d ← or_dict (vget r "data");
    prev ← prev;
    Ok (apply_optional_hashed_fields
      ((("record_kind", VStr "governance_decision") :: head ++
        [("parameter_changed", VBool (py_true (vget d "parameter_changed")))] ++ prev)%list) r)
  else if kind_in r ["cassette_binding"] then
    version ← items r [("cassette_version", "cassette_version")];
    prev ← prev;
    Ok (apply_optional_hashed_fields
      ((("record_kind", VStr "cassette_binding") :: version ++ prev)%list) r)
  else if kind_in r ["regulatory_cassette_inserted"; "regulatory_cassette_removed"] then
    version ← items r [("record_kind", "record_kind"); ("cassette_version", "cassette_version")];
    d ← data_get r ["mode"; "regulation"];
    prev ← prev;
    Ok (apply_optional_hashed_fields ((version ++ d ++ prev)%list) r)
  else if kind_in r ["regulatory_disclosure"] then
    version ← items r [("cassette_version", "cassette_version")];
    d ← data_get r ["regulation"; "check"; "action"; "subject"];
    finding ← items r [("finding", "decision_output")];
    prev ← prev;
    Ok (apply_optional_hashed_fields
      ((("record_kind", VStr "regulatory_disclosure") :: version ++ d ++ finding ++ prev)%list) r)
  else if kind_in r ["outcome_harm_event"] then
    version ← items r [("cassette_version", "cassette_version")];
    d ← data_get r ["harmed_decision"; "harm_kind"; "subject"; "discovered_at"];
    finding ← items r [("finding", "decision_output")];
    prev ← prev;
    Ok (apply_optional_hashed_fields
      ((("record_kind", VStr "outcome_harm_event") :: version ++ d ++ finding ++ prev)%list) r)
  else if kind_in r (dkeys CONTRACT_CANONICAL_FIELDS) then
    let kind := py_str (vget r "record_kind") in
    let keys := match dget CONTRACT_CANONICAL_FIELDS kind with Some ks => ks | None => [] end in
    version ← items r [("cassette_version", "cassette_version")];
    d ← or_dict (vget r "data");
    finding ← (if str_mem kind CONTRACT_KINDS_WITH_FINDING
               then items r [("finding", "decision_output")] else Ok []);
    prev ← prev;
    Ok (apply_optional_hashed_fields
      ((("record_kind", VStr kind) :: version ++ fields_of d keys ++ finding ++ prev)%list) r)
  else if kind_in r ["decision_supersession"] then
    body ← items r [("supersedes_id", "supersedes_id"); ("cassette_version", "cassette_version");
       ("authority", "authorized_by"); ("reason", "reason");
       ("corrected_output", "decision_output"); ("previous_hash", "previous_hash")];
    Ok (apply_optional_hashed_fields (("record_kind", VStr "decision_supersession") :: body) r)
  else if kind_in r ["recommendation_shadow_run"] then
    version ← items r [("cassette_version", "cassette_version")];
    d ← data_get r ["recommendation_kind"; "subject"];
    body ← items r [("inputs", "input_data"); ("recommendation", "decision_output")];
    prev ← prev;
    Ok (apply_optional_hashed_fields
      ((("record_kind", VStr "recommendation_shadow_run") :: version ++ d ++ body ++ prev)%list) r)
  else if kind_in r ["recommendation_shadow_score"] then
    body ← items r [("actual", "input_data"); ("score", "decision_output");
                    ("previous_hash", "previous_hash")];
    Ok (apply_optional_hashed_fields (("record_kind", VStr "recommendation_shadow_score") :: body) r)
  else if kind_in r ["human_selection"] then
    version ← items r [("cassette_version", "cassette_version")];
    d ← data_get r ["human_selection"; "rationale"];
    shown ← items r [("recommendation_shown", "decision_output")];
    prev ← prev;
    Ok (apply_optional_hashed_fields
      ((("record_kind", VStr "human_selection") :: version ++ d ++ shown ++ prev)%list) r)
  else if kind_in r ["observed_event"] then
    previous_hash ← item r "previous_hash";
    body ← or_dict (vget r "input_data");
    Ok (observed_event_canonical body previous_hash)
  else if kind_in r [ATTESTATION_POLICY_RECORD_KIND] then
    previous_hash ← item r "previous_hash";
    body ← or_dict (vget r "data");
    Ok (attestation_policy_canonical body (vget r "reason") previous_hash)
  else
    items r [("action_type", "action_type"); ("node", "node");
      ("previous_value", "previous_value"); ("applied_value", "applied_value");
      ("reason", "reason"); ("data", "data"); ("previous_hash", "previous_hash")].

Definition recompute_current_hash (r : dict pyval) : result pyexn string :=
  canonical ← canonical_form r;
  Ok (hash_entry canonical).

Definition content_prehash_of (r : dict pyval) : result pyexn string :=
  canonical ← canonical_form r;
  Ok (content_prehash canonical).

Definition verify_row_attestation (r : dict pyval) (keys : keys_arg) : result pyexn att_status :=
  prehash ← content_prehash_of r;
  verify_authorized_by_signature r keys (Some prehash).

(** [None] when the binding holds. *)
Definition verify_subject_binding (r : dict pyval) : result pyexn (option witness_violation) :=
  let stored := vget r "subject_digest" in
  if negb (py_true stored) then Ok None
  else
    let input_data := vget r "input_data" in
    match cns_subject_digest (if py_true input_data then input_data else VDict []) with
    | Ok expected => Ok (if py_eq (VStr expected) stored then None else Some W_TRANSPLANTED)
    | Err TypeError => Ok (Some W_TRANSPLANTED)
    | Err e => Err e
    end.

Definition verify_shuffle_seed_row (r : dict pyval) (keys : keys_arg)
    : result pyexn (option witness_violation) :=
  status ← verify_shuffle_seed (vget r "shuffle_seed") (vget r "previous_hash")
             (vget r "record_kind") keys;
  Ok (if bool_decide (status = STATUS_ABSENT) || bool_decide (status = STATUS_OK)
      then None else Some W_SEED_FORGED).

Definition keys_given (keys : keys_arg) : bool := match keys with KNone => false | _ => true end.

(** The first failing check; a [KeyError] or [TypeError] of the recomputation
    is reported by the walk as TAMPERED. *)
Definition deep_verify_row (r : dict pyval) (keys : keys_arg)
    : result pyexn (option witness_violation) :=
  match recompute_current_hash r with
  | Err (KeyError | TypeError) => Ok (Some W_TAMPERED)
  | Err e => Err e
  | Ok recomputed =>
      if negb (py_eq (VStr recomputed) (vget r "current_hash")) then Ok (Some W_TAMPERED) else
      bad ← verify_subject_binding r;
      match bad with Some v => Ok (Some v) | None =>
      bad ← verify_shuffle_seed_row r keys;
      match bad with Some v => Ok (Some v) | None =>
      if keys_given keys && py_true (vget r SIGNATURE_FIELD) then
        status ← verify_row_attestation r keys;
        Ok (match status with
            | STATUS_INVALID => Some W_TAMPERED
            | STATUS_UNKNOWN_KEY | STATUS_UNVERIFIABLE => Some W_UNATTESTED
            | _ => None
            end)
      else Ok None
      end end
  end.

(** [verify_rows]: the first failing (row id, violation). *)
Fixpoint verify_rows_from (rows : list (dict pyval)) (keys : keys_arg) (prev : pyval)
    (policy_from : bool) : result pyexn (option (pyval * witness_violation)) :=
  match rows with
  | [] => Ok None
  | r :: rows =>
      let row_id := vget r "id" in
      if negb (py_eq (vget r "previous_hash") prev) then Ok (Some (row_id, W_TAMPERED)) else
      bad ← deep_verify_row r keys;
      match bad with
      | Some v => Ok (Some (row_id, v))
      | None =>
          if policy_from && py_true (vget r "authorized_by") && negb (py_true (vget r SIGNATURE_FIELD))
          then Ok (Some (row_id, W_UNATTESTED))
          else verify_rows_from rows keys (vget r "current_hash")
                 (policy_from || kind_in r [ATTESTATION_POLICY_RECORD_KIND])
      end
  end.

Definition verify_rows (rows : list (dict pyval)) (keys : keys_arg)
    : result pyexn (option (pyval * witness_violation)) :=
  verify_rows_from rows keys GENESIS false.
End Witness.

(** The columns of a row as the shipper sends them. *)
Definition ship_row (r : row) : dict pyval := fields_of r SHIPPED_COLUMNS.
