(* ===== verification/LedgerForms.v ===== *)
(** * LedgerForms: the three recompute sites

    The writer, verify_chain and the witness each build the canonical entry of
    a row.  Lemmas on these forms: they depend on the columns only up to the
    order of JSON keys, and the primary's form and the witness's hash to the
    same digest. *)

From S2P Require Import Prelude PyFloat PyValue Event Json Canonical Attestation HeadAnchor LedgerDb Ledger LedgerVerify Witness.
Local Open Scope string_scope.

(* ------------------------------------------------------------------ *)
(** ** Item-wise equality *)

Definition item_equiv (a b : string * pyval) : Prop := fst a = fst b /\ json_equiv (snd a) (snd b).
Definition items_equiv : dict pyval -> dict pyval -> Prop := Forall2 item_equiv.
Infix "≈" := items_equiv (at level 70).

#[export] Instance items_equiv_refl : Reflexive items_equiv.
Proof. intros d. induction d; constructor; [by split|done]. Qed.

Lemma items_equiv_keys d d' : d ≈ d' -> dkeys d = dkeys d'.
Proof. induction 1 as [|[k v] [k' v'] d d' [Hk _] _ IH]; simpl in *; congruence. Qed.

Lemma items_equiv_json d d' : d ≈ d' -> json_equiv (VDict d) (VDict d').
Proof.
  intros Hd. unfold json_equiv. rewrite !norm_dict. do 2 f_equal.
  induction Hd as [|[k v] [k' v'] d d' [Hk Hv] _ IH]; simpl in *; [done|]. subst.
  unfold json_equiv in Hv. congruence.
Qed.

Lemma items_equiv_get d d' k : d ≈ d' -> json_equiv (vget d k) (vget d' k).
Proof.
  unfold vget. induction 1 as [|[a v] [b w] d d' [Hk Hv] _ IH]; simpl in *; [done|]. subst.
  by destruct (String.eqb b k).
Qed.

Lemma items_equiv_dget d d' k : d ≈ d' ->
  match dget d k, dget d' k with Some v, Some w => json_equiv v w | None, None => True | _, _ => False end.
Proof.
  induction 1 as [|[a v] [b w] d d' [Hk Hv] _ IH]; simpl in *; [done|]. subst.
  by destruct (String.eqb b k).
Qed.

Lemma items_equiv_dset d d' k v w : d ≈ d' -> json_equiv v w -> dset d k v ≈ dset d' k w.
Proof.
  intros Hd Hv. induction Hd as [|[a x] [b y] d d' [Hk Hx] Hd IH]; simpl in *.
  - by repeat constructor.
  - subst. destruct (String.eqb b k); constructor; by try split.
Qed.

Lemma items_equiv_app a a' b b' : a ≈ a' -> b ≈ b' -> (a ++ b)%list ≈ (a' ++ b')%list.
Proof. apply Forall2_app. Qed.

Lemma items_equiv_cons k v w d d' : json_equiv v w -> d ≈ d' -> ((k, v) :: d) ≈ ((k, w) :: d').
Proof. intros. by constructor. Qed.

Lemma json_equiv_true v w : json_equiv v w -> py_true v = py_true w.
Proof. intros Heq. rewrite <- (py_true_norm v), <- (py_true_norm w). by rewrite Heq. Qed.

Lemma apply_optional_equiv fs src src' c c' :
  (forall f, json_equiv (vget src f) (vget src' f)) -> c ≈ c' ->
  apply_optional fs src c ≈ apply_optional fs src' c'.
Proof.
  intros Hs. revert c c'. induction fs as [|f fs IH]; intros c c' Hc; [done|]. apply IH. simpl.
  rewrite (json_equiv_true _ _ (Hs f)). destruct (py_true _); [|done]. by apply items_equiv_dset.
Qed.

Lemma copy_keys_equiv keys b b' c c' :
  (forall f, json_equiv (vget b f) (vget b' f)) -> c ≈ c' ->
  copy_keys keys b c ≈ copy_keys keys b' c'.
Proof.
  intros Hb. revert c c'. induction keys as [|k keys IH]; intros c c' Hc; [done|].
  apply IH. by apply items_equiv_dset.
Qed.

Lemma fields_of_equiv keys d d' :
  (forall f, json_equiv (vget d f) (vget d' f)) -> fields_of d keys ≈ fields_of d' keys.
Proof. intros Hd. unfold fields_of. induction keys; simpl; [constructor|]. by apply items_equiv_cons. Qed.

Section Hash.
Context `{FloatRepr} `{!Hashes}.

Lemma hash_entry_equiv d d' : json_equiv (VDict d) (VDict d') -> hash_entry d = hash_entry d'.
Proof. intros Heq. unfold hash_entry. by rewrite Heq. Qed.

Lemma content_prehash_equiv d d' : d ≈ d' -> content_prehash d = content_prehash d'.
Proof.
  intros Hd. unfold content_prehash. f_equal. apply dumps_proper. apply items_equiv_json.
  induction Hd as [|[a x] [b y] d d' [Hk Hx] Hd IH]; simpl in *; [constructor|]. subst.
  destruct (negb _); [by constructor|done].
Qed.
End Hash.

(* ------------------------------------------------------------------ *)
(** ** Optional fields in two steps *)

Lemma vget_fields_of r keys k :
  vget (fields_of r keys) k = if str_mem k keys then vget r k else VNone.
Proof.
  unfold vget. induction keys as [|x keys IH]; simpl; [done|]. rewrite String.eqb_sym.
  destruct (String.eqb_spec k x) as [->|]; [done|]. exact IH.
Qed.

(** A canonical form [e] whose fixed part is [c] and whose optional fields are
    read from [f]. *)
Definition form_of (c : dict pyval) (f : string -> pyval) (e : dict pyval) : Prop :=
  NoDup (dkeys e) /\
  forall k, dget e k = if str_mem k OPTIONAL_HASHED_FIELDS
                       then (if py_true (f k) then Some (f k) else None) else dget c k.

Lemma form_unique c c' f f' e e' :
  form_of c f e -> form_of c' f' e' -> NoDup (dkeys c) -> NoDup (dkeys c') ->
  json_equiv (VDict c) (VDict c') ->
  (forall k, k ∈ OPTIONAL_HASHED_FIELDS -> json_equiv (visible (f k)) (visible (f' k))) ->
  json_equiv (VDict e) (VDict e').
Proof.
  intros [Hn He] [Hn' He'] Hc Hc' Heq Hf. apply json_equiv_intro; [done..|]. intros k.
  rewrite He, He'. destruct (str_mem k OPTIONAL_HASHED_FIELDS) eqn:Hk.
  - apply visible_eq. apply Hf. by apply str_mem_spec.
  - by apply json_equiv_dget.
Qed.

Lemma form_one_step c src : NoDup (dkeys c) -> no_optional c ->
  form_of c (vget src) (apply_optional_hashed_fields c src).
Proof.
  intros Hn Ho. split; [by apply NoDup_apply_optional|]. intros k. by apply dget_apply_hashed.
Qed.

(** The signature applied last, over a source that does not carry it. *)
Lemma form_two_steps c src sig : NoDup (dkeys c) -> no_optional c ->
  py_true (vget src SIGNATURE_FIELD) = false ->
  form_of c (fun k => if String.eqb k SIGNATURE_FIELD then sig else vget src k)
    (apply_optional_hashed_fields (apply_optional_hashed_fields c src) [(SIGNATURE_FIELD, sig)]).
Proof.
  intros Hn Ho Hs. split; [by do 2 apply NoDup_apply_optional|]. intros k.
  unfold apply_optional_hashed_fields at 1. rewrite dget_apply_optional.
  rewrite dget_apply_hashed by done. unfold vget at 1 2. cbn [dget].
  rewrite (String.eqb_sym SIGNATURE_FIELD k).
  destruct (str_mem k OPTIONAL_HASHED_FIELDS); simpl; [|done].
  destruct (String.eqb_spec k SIGNATURE_FIELD) as [->|]; simpl; [|done].
  destruct (py_true sig); [done|]. by rewrite Hs.
Qed.

(** Dropping the signature field, as [content_prehash] does. *)
Definition unsigned (d : dict pyval) : dict pyval :=
  List.filter (fun kv => negb (String.eqb (fst kv) SIGNATURE_FIELD)) d.

Lemma dget_unsigned d k : dget (unsigned d) k = if String.eqb k SIGNATURE_FIELD then None else dget d k.
Proof.
  unfold unsigned. generalize SIGNATURE_FIELD as g. intros g.
  induction d as [|[a v] d IH]; simpl; [by destruct (String.eqb _ _)|].
  destruct (String.eqb_spec a g) as [->|Hne]; simpl; rewrite IH.
  - rewrite (String.eqb_sym g k). by destruct (String.eqb k g).
  - destruct (String.eqb_spec a k) as [->|]; [|done]. by rewrite (proj2 (String.eqb_neq _ _) Hne).
Qed.

Lemma NoDup_unsigned d : NoDup (dkeys d) -> NoDup (dkeys (unsigned d)).
Proof.
  unfold unsigned, dkeys. induction d as [|[a v] d IH]; simpl; [done|]. intros Hn.
  apply NoDup_cons in Hn as [Ha Hn]. destruct (negb _); [|auto]. simpl. apply NoDup_cons. split; [|auto].
  intros Hin. apply Ha. apply list_elem_of_fmap in Hin as ([b w] & -> & Hin).
  apply list_elem_of_In, filter_In in Hin as [Hin _]. apply list_elem_of_In in Hin.
  by apply (list_elem_of_fmap_2 fst) in Hin.
Qed.

(** Forms that differ in the signature alone have one content digest. *)
Lemma prehash_unique `{FloatRepr, Hashes} c f f' e e' : form_of c f e -> form_of c f' e' ->
  (forall k, k ∈ OPTIONAL_HASHED_FIELDS -> k <> SIGNATURE_FIELD -> visible (f k) = visible (f' k)) ->
  content_prehash e = content_prehash e'.
Proof.
  intros [Hn He] [Hn' He'] Hf. unfold content_prehash. f_equal. apply dumps_proper.
  change (json_equiv (VDict (unsigned e)) (VDict (unsigned e'))).
  apply json_equiv_intro; [by apply NoDup_unsigned..|]. intros k. rewrite !dget_unsigned.
  destruct (String.eqb_spec k SIGNATURE_FIELD); [done|]. rewrite He, He'.
  destruct (str_mem k OPTIONAL_HASHED_FIELDS) eqn:Hk; [|done].
  apply visible_eq. rewrite Hf; [done|by apply str_mem_spec|done].
Qed.

(** No canonical form before signing carries the signature field. *)
Lemma form_no_sig c src : no_optional c -> py_true (vget src SIGNATURE_FIELD) = false ->
  dget (apply_optional_hashed_fields c src) SIGNATURE_FIELD = None.
Proof. intros Ho Hs. rewrite dget_apply_hashed by done. by rewrite Hs. Qed.

(* ------------------------------------------------------------------ *)
(** ** A shipped row *)

Lemma vget_ship r k : str_mem k SHIPPED_COLUMNS = true -> vget (ship_row r) k = vget r k.
Proof. intros Hk. unfold ship_row. by rewrite vget_fields_of, Hk. Qed.

Lemma dget_fields_of r keys k : str_mem k keys = true -> dget (fields_of r keys) k = Some (vget r k).
Proof.
  induction keys as [|x keys IH]; simpl; [done|]. rewrite String.eqb_sym.
  destruct (String.eqb_spec x k) as [->|]; [done|]. exact IH.
Qed.

Lemma item_ship r k : str_mem k SHIPPED_COLUMNS = true -> item (ship_row r) k = Ok (vget r k).
Proof. intros Hk. unfold item, ship_row. by rewrite dget_fields_of. Qed.

Lemma items_ship r ks : forallb (fun nc => str_mem (snd nc) SHIPPED_COLUMNS) ks = true ->
  items (ship_row r) ks = Ok (map (fun nc => (fst nc, vget r (snd nc))) ks).
Proof.
  induction ks as [|[n c] ks IH]; simpl; [done|]. intros. bool_hyps.
  rewrite item_ship by done. simpl. by rewrite IH.
Qed.

Lemma kind_in_ship r ks : kind_in (ship_row r) ks = kind_in r ks.
Proof. unfold kind_in. by rewrite vget_ship. Qed.

Lemma kind_in_cases r ks : kind_in r ks = true -> exists k, vget r "record_kind" = VStr k /\ k ∈ ks.
Proof. unfold kind_in. destruct (vget r "record_kind"); try done. intros Hm. apply str_mem_spec in Hm. eauto. Qed.

Lemma or_dict_ship r k : str_mem k SHIPPED_COLUMNS = true ->
  or_dict (vget (ship_row r) k) = or_dict (vget r k).
Proof. intros. by rewrite vget_ship. Qed.

(** The JSONB columns hold JSON documents (or NULL), as every writer leaves
    them; a decision's [parameter_changed] is a boolean. *)
Definition json_doc (v : pyval) : bool :=
  match v with VNone | VDict _ | VList _ => true | _ => false end.

Definition JSONB_COLUMNS : list string :=
  ["data"; "input_data"; "policy_parameters"; "decision_output"; "ai_cost"].

Definition row_shaped (r : row) : bool :=
  forallb (fun c => json_doc (vget r c)) JSONB_COLUMNS &&
  (negb (kind_in r ["governance_decision"]) ||
   match vget r "data" with
   | VDict d => match dget d "parameter_changed" with Some v => is_bool v | None => true end
   | _ => true
   end).

(** The optional columns verify_chain does not hash for a kind. *)
Definition uncovered (r : row) : list string :=
  let all_but ks := List.filter (fun f => negb (str_mem f (SIGNATURE_FIELD :: ks))) OPTIONAL_HASHED_FIELDS in
  if kind_in r ["governance_decision"] then ["shadow_run_hash"; "decision_hash"]
  else if kind_in r ["cassette_binding"]
  then all_but ["cassette_hash"; "cassette_code_hash"; "authorized_by"]
  else if kind_in r ["regulatory_cassette_inserted"; "regulatory_cassette_removed"]
  then all_but ["cassette_hash"; "cassette_code_hash"; "authorized_by"]
  else if kind_in r ["regulatory_disclosure"] then all_but ["cassette_hash"; "authorized_by"]
  else if kind_in r ["outcome_harm_event"] then all_but ["cassette_hash"; "authorized_by"]
  else if kind_in r (dkeys CONTRACT_CANONICAL_FIELDS) then all_but ["cassette_hash"; "authorized_by"]
  else if kind_in r ["decision_supersession"] then all_but ["supersedes_hash"; "authorized_by"]
  else if kind_in r ["recommendation_shadow_run"] then all_but ["authorized_by"]
  else if kind_in r ["recommendation_shadow_score"] then all_but ["authorized_by"; "shadow_run_hash"]
  else if kind_in r ["human_selection"] then all_but ["authorized_by"; "decision_hash"]
  else if kind_in r ["observed_event"] then [SIGNATURE_FIELD]
  else if kind_in r [ATTESTATION_POLICY_RECORD_KIND] then [SIGNATURE_FIELD]
  else [SIGNATURE_FIELD].

Definition uncovered_blank (r : row) : bool :=
  forallb (fun f => negb (py_true (vget r f))) (uncovered r).

Lemma as_json_doc loads v : json_doc v = true -> as_json loads v = Ok v.
Proof. by destruct v. Qed.

Section Agree.
Context `{FloatRepr} `{!Hashes} `{!Cns}.
Variable loads : string -> result pyexn pyval.

Lemma data_fields_doc r keys d : json_doc (vget r "data") = true ->
  data_fields loads r keys = Ok d -> keys <> [] ->
  exists dd, vget r "data" = VDict dd /\ d = fields_of dd keys.
Proof.
  intros Hd. unfold data_fields. rewrite as_json_doc by done. simpl.
  destruct keys as [|k keys]; [done|]. destruct (vget r "data"); try done.
  intros [= <-] _. eauto.
Qed.

Lemma or_dict_dict v d : v = VDict d -> or_dict v = Ok d.
Proof. intros ->. unfold or_dict. by destruct d. Qed.

(** What two forms of one row share: the content they hash, and the digest a
    signature over the content is made for. *)
Definition same_entry (w c : dict pyval) (r : row) : Prop :=
  json_equiv (VDict w) (VDict (signed_entry c r)) /\ content_prehash w = content_prehash c.

(** Primary and witness add the same optional fields to the same fixed part. *)
Lemma agree_forms c src r :
  NoDup (dkeys c) -> no_optional c -> vget src SIGNATURE_FIELD = VNone ->
  (forall k, k ∈ OPTIONAL_HASHED_FIELDS -> k <> SIGNATURE_FIELD ->
     visible (vget src k) = visible (vget r k)) ->
  same_entry (apply_optional_hashed_fields c (ship_row r)) (apply_optional_hashed_fields c src) r.
Proof.
  intros Hn Ho Hs Hv.
  assert (Hship : forall k, k ∈ OPTIONAL_HASHED_FIELDS -> vget (ship_row r) k = vget r k).
  { intros k Hk. apply vget_ship. clear -Hk.
    repeat (apply elem_of_cons in Hk as [->|Hk]; [done|]). by apply elem_of_nil in Hk. }
  split.
  - unfold signed_entry.
    change (fields_of r [SIGNATURE_FIELD]) with [(SIGNATURE_FIELD, vget r SIGNATURE_FIELD)].
    eapply form_unique; [by apply form_one_step|apply form_two_steps; [done..|by rewrite Hs]|done|done|done|].
    intros k Hk. cbv beta. rewrite Hship by done.
    destruct (String.eqb_spec k SIGNATURE_FIELD) as [->|]; [done|]. by rewrite Hv.
  - eapply prehash_unique; [by apply form_one_step..|]. intros k Hk Hne. by rewrite Hship, Hv.
Qed.

Lemma agree_fields c ks unc r :
  NoDup (dkeys c) -> forallb (fun k => negb (dmem c k)) OPTIONAL_HASHED_FIELDS = true ->
  str_mem SIGNATURE_FIELD ks = false ->
  forallb (fun f => str_mem f ks || str_mem f unc || String.eqb f SIGNATURE_FIELD)
    OPTIONAL_HASHED_FIELDS = true ->
  forallb (fun f => negb (py_true (vget r f))) unc = true ->
  same_entry (apply_optional_hashed_fields c (ship_row r))
    (apply_optional_hashed_fields c (fields_of r ks)) r.
Proof.
  intros Hn Ho Hs Hcov Hblank. apply agree_forms; [done|by apply no_optional_dec| |].
  - by rewrite vget_fields_of, Hs.
  - intros k Hk Hne. rewrite vget_fields_of.
    rewrite forallb_forall in Hcov. specialize (Hcov k (proj1 (list_elem_of_In _ _) Hk)).
    destruct (str_mem k ks); [done|]. simpl in Hcov.
    apply String.eqb_neq in Hne. rewrite Hne, orb_false_r in Hcov. apply str_mem_spec in Hcov.
    rewrite forallb_forall in Hblank. specialize (Hblank k (proj1 (list_elem_of_In _ _) Hcov)).
    apply negb_true_iff in Hblank. unfold visible. by rewrite Hblank.
Qed.

Lemma shaped_json r c : row_shaped r = true -> c ∈ JSONB_COLUMNS -> json_doc (vget r c) = true.
Proof.
  unfold row_shaped. intros Hs Hc. apply andb_true_iff in Hs as [Hs _].
  rewrite forallb_forall in Hs. apply Hs. by apply list_elem_of_In.
Qed.

Lemma shaped_doc r c : row_shaped r = true -> c ∈ JSONB_COLUMNS -> as_json loads (vget r c) = Ok (vget r c).
Proof. intros Hs Hc. by apply as_json_doc, shaped_json. Qed.
End Agree.

Ltac nodup_keys := simpl; repeat constructor; set_solver.

Section Sites.
Context `{FloatRepr} `{!Hashes} `{!Cns}.
Variable loads : string -> result pyexn pyval.

Ltac docs Hs Hc :=
  rewrite ?(shaped_doc loads _ "input_data" Hs), ?(shaped_doc loads _ "policy_parameters" Hs),
    ?(shaped_doc loads _ "decision_output" Hs), ?(shaped_doc loads _ "data" Hs),
    ?(shaped_doc loads _ "ai_cost" Hs) in Hc by (unfold JSONB_COLUMNS; set_solver);
  cbn [mbind result_bind] in Hc |- *.

(** The witness's form of the shipped row, next to the primary's [c]. *)
Definition sites_form (r : row) (c : dict pyval) : Prop :=
  exists w, canonical_form (ship_row r) = Ok w /\ same_entry w c r.

Ltac same_fields Hb Hc ks_ :=
  injection Hc as <-; eexists; split; [reflexivity|];
  eapply (agree_fields _ ks_); [nodup_keys|reflexivity|reflexivity| |exact Hb]; reflexivity.

(** A signature-free form that takes no optional field is its own signed form. *)
Lemma unsigned_form c r : py_true (vget r SIGNATURE_FIELD) = false -> signed_entry c r = c.
Proof.
  intros Hs. unfold signed_entry, apply_optional_hashed_fields.
  assert (Hz : forall f, py_true (vget (fields_of r [SIGNATURE_FIELD]) f) = false).
  { intros f. rewrite vget_fields_of. destruct (str_mem f [SIGNATURE_FIELD]) eqn:Hf; [|done].
    apply str_mem_spec, list_elem_of_singleton in Hf as ->. done. }
  induction OPTIONAL_HASHED_FIELDS as [|f fs IH]; [done|]. unfold apply_optional in *.
  cbn [fold_left]. cbv zeta. by rewrite Hz.
Qed.

Lemma own_entry c r : py_true (vget r SIGNATURE_FIELD) = false -> same_entry c c r.
Proof. intros Hs. unfold same_entry. by rewrite unsigned_form. Qed.

Lemma sites_decision r c : row_shaped r = true -> uncovered_blank r = true ->
  kind_in r ["governance_decision"] = true -> canonical_of_row loads r = Ok c ->
  sites_form r c.
Proof.
  intros Hs Hb Hk Hc. unfold sites_form, canonical_form.
  unfold canonical_of_row in Hc. unfold uncovered_blank, uncovered in Hb. rewrite Hk in Hb, Hc.
  rewrite kind_in_ship, Hk, !items_ship, or_dict_ship by reflexivity. docs Hs Hc.
  destruct (vget r "data") as [| | | | | |data] eqn:Hd; try done.
  assert (Hpc : VBool (py_true (vget data "parameter_changed")) =
      match dget data "parameter_changed" with Some v => v | None => VBool false end).
  { unfold row_shaped in Hs. rewrite Hd, Hk in Hs. apply andb_true_iff in Hs as [_ Hs].
    unfold vget. destruct (dget data "parameter_changed") as [[]|]; done. }
  rewrite (or_dict_dict _ data) by done. cbn [mbind result_bind] in *. rewrite Hpc.
  same_fields Hb Hc ["cassette_hash"; "cassette_code_hash"; "model_identity"; "authorized_by";
    "supersedes_hash"; "outcome_obligation"; "replaces_hash"; "subject_digest";
    "shuffle_seed"; "ai_cost"].
Qed.

(** The kinds whose own fields ride in the data column. *)
Ltac data_kind Hs Hc :=
  match type of Hc with
  | (data_fields _ ?r _ ≫= _) = _ =>
      let d := fresh "d" in let E := fresh "E" in
      destruct (data_fields loads r _) as [d|] eqn:E; [|discriminate];
      apply data_fields_doc in E as (? & ? & ->);
        [|by apply (forallb_forall (fun c => json_doc (vget r c)) JSONB_COLUMNS);
            [apply andb_true_iff in Hs as [? _]|simpl; auto]|done];
      cbn [mbind result_bind] in Hc;
      rewrite (or_dict_dict (vget r "data") _) by eassumption
  end.

Lemma sites_contract r c : row_shaped r = true ->
  kind_in r (dkeys CONTRACT_CANONICAL_FIELDS) = true ->
  forallb (fun f => negb (py_true (vget r f)))
    (List.filter (fun f => negb (str_mem f [SIGNATURE_FIELD; "cassette_hash"; "authorized_by"]))
       OPTIONAL_HASHED_FIELDS) = true ->
  canonical_of_row loads r = Ok c ->
  sites_form r c.
Proof.
  intros Hs Hk Hb Hc. unfold sites_form, canonical_form.
  unfold canonical_of_row, kind_in in *. rewrite vget_ship by reflexivity.
  unfold kind_in in Hk. destruct (vget r "record_kind") as [| | | |k| |] eqn:Hr; try done.
  apply str_mem_spec in Hk. rewrite !items_ship, or_dict_ship by reflexivity.
  docs Hs Hc. simpl in Hk.
  repeat (apply elem_of_cons in Hk as [->|Hk]; [simpl in Hc |- *;
    (destruct (or_dict (vget r "data")) as [d|]; [|discriminate]);
    cbn [mbind result_bind py_str] in Hc |- *; docs Hs Hc;
    same_fields Hb Hc ["cassette_hash"; "authorized_by"]|]).
  by apply elem_of_nil in Hk.
Qed.

Ltac own_form Hc := injection Hc as <-; eexists; split; [reflexivity|]; by apply own_entry.

Lemma forms_agree (r : row) (c : dict pyval) :
  row_shaped r = true -> uncovered_blank r = true -> canonical_of_row loads r = Ok c ->
  sites_form r c.
Proof.
  intros Hs Hb Hc. destruct (kind_in r ["governance_decision"]) eqn:K1; [by apply sites_decision|].
  destruct (kind_in r (dkeys CONTRACT_CANONICAL_FIELDS)) eqn:K6.
  { apply sites_contract; auto. revert Hb. unfold uncovered_blank, uncovered.
    apply kind_in_cases in K6 as (k & Hr & Hk). unfold kind_in. rewrite Hr.
    repeat (apply elem_of_cons in Hk as [->|Hk]; [exact id|]). by apply elem_of_nil in Hk. }
  unfold sites_form, canonical_form. unfold canonical_of_row in Hc.
  unfold uncovered_blank, uncovered in Hb. rewrite K1, K6 in Hb, Hc.
  rewrite !kind_in_ship, K1, K6, !items_ship, !item_ship, !vget_ship by reflexivity.
  unfold data_get. rewrite ?or_dict_ship by reflexivity.
  destruct (kind_in r ["cassette_binding"]).
  { cbn [mbind result_bind]. same_fields Hb Hc ["cassette_hash"; "cassette_code_hash"; "authorized_by"]. }
  destruct (kind_in r ["regulatory_cassette_inserted"; "regulatory_cassette_removed"]).
  { data_kind Hs Hc. cbn [mbind result_bind].
    same_fields Hb Hc ["cassette_hash"; "cassette_code_hash"; "authorized_by"]. }
  destruct (kind_in r ["regulatory_disclosure"]).
  { data_kind Hs Hc. docs Hs Hc. same_fields Hb Hc ["cassette_hash"; "authorized_by"]. }
  destruct (kind_in r ["outcome_harm_event"]).
  { data_kind Hs Hc. docs Hs Hc. same_fields Hb Hc ["cassette_hash"; "authorized_by"]. }
  destruct (kind_in r ["decision_supersession"]).
  { docs Hs Hc. same_fields Hb Hc ["supersedes_hash"; "authorized_by"]. }
  destruct (kind_in r ["recommendation_shadow_run"]).
  { data_kind Hs Hc. docs Hs Hc. same_fields Hb Hc ["authorized_by"]. }
  destruct (kind_in r ["recommendation_shadow_score"]).
  { docs Hs Hc. same_fields Hb Hc ["authorized_by"; "shadow_run_hash"]. }
  destruct (kind_in r ["human_selection"]).
  { data_kind Hs Hc. docs Hs Hc. same_fields Hb Hc ["authorized_by"; "decision_hash"]. }
  assert (Hsig : forallb (fun f => negb (py_true (vget r f))) [SIGNATURE_FIELD] = true)
    by (by destruct (kind_in r ["observed_event"]), (kind_in r [ATTESTATION_POLICY_RECORD_KIND])).
  simpl in Hsig. rewrite andb_true_r in Hsig. apply negb_true_iff in Hsig.
  destruct (kind_in r ["observed_event"]).
  { docs Hs Hc. destruct (or_dict _) as [d|]; [|discriminate]. cbn [mbind result_bind] in *. own_form Hc. }
  destruct (kind_in r [ATTESTATION_POLICY_RECORD_KIND]).
  { docs Hs Hc. destruct (or_dict _) as [d|]; [|discriminate]. cbn [mbind result_bind] in *. own_form Hc. }
  docs Hs Hc. own_form Hc.
Qed.
Lemma recompute_agree (r : row) (c : dict pyval) :
  row_shaped r = true -> uncovered_blank r = true -> canonical_of_row loads r = Ok c ->
  recompute_current_hash (ship_row r) = Ok (hash_entry (signed_entry c r)).
Proof.
  intros Hs Hb Hc. destruct (forms_agree r c Hs Hb Hc) as (w & Hw & Heq & _).
  unfold recompute_current_hash. rewrite Hw. cbn [mbind result_bind]. f_equal. by apply hash_entry_equiv.
Qed.

(** C31 (the three recompute sites agree): on every row whose JSONB columns hold
    documents and whose optional columns outside its kind's contract are
    blank, the hash verify_chain recomputes (signature included) is the hash
    the witness recomputes from the shipped row, for every record kind and for
    the legacy form. *)
Theorem sites_agree (r : row) (c : dict pyval) :
  row_shaped r = true -> uncovered_blank r = true -> canonical_of_row loads r = Ok c ->
  recompute_current_hash (ship_row r) = Ok (hash_entry (signed_entry c r)).
Proof. apply recompute_agree. Qed.
End Sites.

#[local] Existing Instance sample_hashes.
#[local] Existing Instance sample_float_repr.
#[local] Existing Instance sample_cns.

Definition sample_egress_row : row :=
  [("id", VInt 4); ("previous_hash", VStr "p"); ("record_kind", VStr "contract_egress");
   ("cassette_version", VStr "contracts:acme:1"); ("authorized_by", VStr "ops");
   ("decision_output", VDict [("basis", VStr "approved scope")]);
   ("data", VDict [("counterparty", VStr "acme"); ("decision", VStr "authorized");
                   ("recipient", VStr "auditor")])].

Lemma sites_agree_witness :
  match canonical_of_row (fun _ => Err ValueError) sample_egress_row with
  | Ok c => recompute_current_hash (ship_row sample_egress_row) =
            Ok (hash_entry (signed_entry c sample_egress_row))
  | Err _ => False
  end.
Proof.
  destruct (canonical_of_row (fun _ => Err ValueError) sample_egress_row) as [c|] eqn:Hc;
    [|vm_compute in Hc; discriminate].
  apply (sites_agree (fun _ => Err ValueError) sample_egress_row c); [reflexivity|reflexivity|exact Hc].
Defined.
