(* ===== verification/LedgerSound.v ===== *)
(** * LedgerSound: what a chain written by the ledger looks like to a verifier

    Every writer's row recomputes to its own hash once stored; a history of
    writes made with a trusted signing key verifies without a violation, at the
    primary and at the witness; and a chain that verifies pins the content of
    every row. *)

From S2P Require Import Prelude PyFloat PyValue Episode Event Json Canonical Attestation HeadAnchor LedgerDb Ledger LedgerVerify Witness LedgerForms.
Local Open Scope string_scope.

(* ------------------------------------------------------------------ *)
(** ** The canonical form depends on the columns up to key order *)

Definition row_equiv (r r' : row) : Prop := forall c, json_equiv (vget r c) (vget r' c).

Lemma json_equiv_doc v w : json_equiv v w -> json_doc w = json_doc v.
Proof. unfold json_equiv. destruct v, w; simpl; congruence. Qed.

Lemma json_equiv_dict d v : json_equiv (VDict d) v -> exists d', v = VDict d'.
Proof. unfold json_equiv. destruct v; simpl; try congruence. eauto. Qed.

Lemma json_equiv_nodup d d' : json_equiv (VDict d) (VDict d') -> NoDup (dkeys d) -> NoDup (dkeys d').
Proof.
  unfold json_equiv. rewrite !norm_dict. intros [= Heq] Hn.
  rewrite <- (dkeys_norm d'). rewrite <- (dkeys_norm d) in Hn.
  assert (Hp : norm_items d' ≡ₚ norm_items d) by (by rewrite <- (sort_perm key_leb), <- Heq, sort_perm).
  unfold dkeys in *. by rewrite Hp.
Qed.

Lemma distinct_nodup l : distinct l = true -> NoDup l.
Proof.
  induction l as [|x l IH]; simpl; [constructor|]. intros. bool_hyps. constructor; [|by apply IH].
  intros Hx. apply str_mem_spec in Hx. congruence.
Qed.

(** A dictionary column has distinct keys. *)
Definition dict_ok (v : pyval) : Prop := forall d, v = VDict d -> NoDup (dkeys d).

Lemma dict_ok_get v w k d d' : dict_ok v -> json_equiv v w -> v = VDict d -> w = VDict d' ->
  json_equiv (vget d k) (vget d' k).
Proof.
  intros Hv Heq -> ->. apply json_equiv_vget; [by apply Hv| |done].
  eapply json_equiv_nodup; [done|by apply Hv].
Qed.

Lemma kind_in_equiv r r' ks : row_equiv r r' -> kind_in r' ks = kind_in r ks.
Proof.
  intros Hr. unfold kind_in. specialize (Hr "record_kind"). unfold json_equiv in Hr.
  destruct (vget r "record_kind"), (vget r' "record_kind"); simpl in Hr; congruence.
Qed.

Lemma or_dict_equiv v w d : dict_ok v -> json_equiv v w -> or_dict v = Ok d ->
  exists d', or_dict w = Ok d' /\ forall k, json_equiv (vget d k) (vget d' k).
Proof.
  intros Hv Heq. unfold or_dict. rewrite (json_equiv_true _ _ Heq).
  destruct (py_true w); [|intros [= <-]; eexists; split; [done|reflexivity]].
  destruct v as [| | | | | |dv]; try done. intros [= <-].
  destruct (json_equiv_dict _ _ Heq) as [d' ->]. exists d'. split; [done|]. intros k.
  by apply (dict_ok_get (VDict dv) (VDict d')).
Qed.

(** What a row must satisfy for its form to survive storage. *)
Record row_wf (r : row) : Prop := {
  wf_doc : forall c, c ∈ JSONB_COLUMNS -> json_doc (vget r c) = true;
  wf_data : dict_ok (vget r "data");
  wf_input : dict_ok (vget r "input_data");
}.

Section Stored.
Context `{FloatRepr} `{!Hashes} `{!Cns}.
Variable loads : string -> result pyexn pyval.

Lemma as_json_equiv r r' c : row_wf r -> row_equiv r r' -> c ∈ JSONB_COLUMNS ->
  as_json loads (vget r c) = Ok (vget r c) /\ as_json loads (vget r' c) = Ok (vget r' c).
Proof.
  intros Hw Hr Hc. pose proof (wf_doc _ Hw c Hc) as Hd. split; apply as_json_doc; [done|].
  by rewrite (json_equiv_doc _ _ (Hr c)).
Qed.

Lemma data_fields_equiv r r' keys d : row_wf r -> row_equiv r r' -> keys <> [] ->
  data_fields loads r keys = Ok d -> exists d', data_fields loads r' keys = Ok d' /\ d ≈ d'.
Proof.
  intros Hw Hr Hk Hd. destruct (data_fields_doc loads r keys d) as (dd & Hdd & ->); auto.
  { apply (wf_doc _ Hw). unfold JSONB_COLUMNS. set_solver. }
  pose proof (Hr "data") as Heq. rewrite Hdd in Heq. destruct (json_equiv_dict _ _ Heq) as [dd' Hdd'].
  exists (fields_of dd' keys). unfold data_fields. rewrite Hdd'. simpl. destruct keys; [done|].
  split; [done|]. apply fields_of_equiv. intros k.
  eapply (dict_ok_get (vget r "data") (vget r' "data")); try done. by apply (wf_data _ Hw).
Qed.

Lemma apply_hashed_equiv c c' s s' : c ≈ c' -> s ≈ s' ->
  apply_optional_hashed_fields c s ≈ apply_optional_hashed_fields c' s'.
Proof. intros Hc Hs. apply apply_optional_equiv; [|done]. intros f. by apply items_equiv_get. Qed.
End Stored.

Section Forms.
Context `{FloatRepr} `{!Hashes} `{!Cns}.
Variable loads : string -> result pyexn pyval.

Ltac equiv_items :=
  repeat first
    [ apply items_equiv_app
    | apply items_equiv_cons; [first [reflexivity | solve [auto]]|]
    | apply Forall2_nil_2
    | assumption
    | apply fields_of_equiv; solve [auto] ].

Ltac read_docs Hw Hr Hc :=
  repeat match type of Hc with
  | context [as_json loads (vget ?r ?c)] =>
      let A := fresh in let B := fresh in
      destruct (as_json_equiv loads r _ c Hw Hr) as [A B]; [unfold JSONB_COLUMNS; set_solver|];
      rewrite A in Hc; rewrite B; clear A B
  end; cbn [mbind result_bind] in Hc |- *.

Ltac read_data Hw Hr Hc :=
  match type of Hc with
  | (data_fields loads ?r ?ks ≫= _) = _ =>
      let E := fresh in let E' := fresh in
      destruct (data_fields loads r ks) as [?d|] eqn:E; [|discriminate];
      eapply (data_fields_equiv loads r _ ks _ Hw Hr) in E as (? & E' & ?); [|discriminate];
      rewrite E'; clear E'; cbn [mbind result_bind] in Hc |- *
  end.

Ltac read_dict Hw Hr Hc fld col :=
  match type of Hc with
  | (or_dict ?v ≫= _) = _ =>
      let E := fresh in let E' := fresh in
      destruct (or_dict v) as [?d|] eqn:E; [|discriminate];
      eapply or_dict_equiv in E as (? & E' & ?); [|apply (fld _ Hw)|exact (Hr col)];
      rewrite E'; clear E'; cbn [mbind result_bind] in Hc |- *
  end.

Ltac same_form Hc :=
  injection Hc as <-; eexists; split; [reflexivity|]; apply apply_hashed_equiv; equiv_items.

Lemma canonical_equiv_decision r r' c : row_wf r -> row_equiv r r' ->
  kind_in r ["governance_decision"] = true -> canonical_of_row loads r = Ok c ->
  exists c', canonical_of_row loads r' = Ok c' /\ c ≈ c'.
Proof.
  intros Hw Hr Hk Hc. unfold canonical_of_row in *. rewrite (kind_in_equiv _ _ _ Hr), Hk in *.
  unfold row_equiv in Hr. read_docs Hw Hr Hc.
  destruct (vget r "data") as [| | | | | |data] eqn:Hd; try done.
  pose proof (Hr "data") as Heq. rewrite Hd in Heq. destruct (json_equiv_dict _ _ Heq) as [data' Hd'].
  rewrite Hd' in *. cbn [mbind result_bind] in Hc |- *.
  assert (Hpc : json_equiv (match dget data "parameter_changed" with Some v => v | None => VBool false end)
     (match dget data' "parameter_changed" with Some v => v | None => VBool false end)).
  { pose proof (wf_data _ Hw _ Hd) as Hn. pose proof (json_equiv_nodup _ _ Heq Hn) as Hn'.
    pose proof (json_equiv_dget _ _ "parameter_changed" Hn Hn' Heq) as Hg.
    destruct (dget data _), (dget data' _); simpl in Hg; try done. by injection Hg. }
  same_form Hc.
Qed.

Lemma canonical_equiv r r' c : row_wf r -> row_equiv r r' -> canonical_of_row loads r = Ok c ->
  exists c', canonical_of_row loads r' = Ok c' /\ c ≈ c'.
Proof.
  intros Hw Hr Hc. destruct (kind_in r ["governance_decision"]) eqn:K1;
    [by apply canonical_equiv_decision with r|].
  unfold canonical_of_row in *. rewrite !(kind_in_equiv _ _ _ Hr), K1 in *. unfold row_equiv in Hr.
  destruct (kind_in r ["cassette_binding"]); [same_form Hc|].
  destruct (kind_in r ["regulatory_cassette_inserted"; "regulatory_cassette_removed"]).
  { read_data Hw Hr Hc. same_form Hc. }
  destruct (kind_in r ["regulatory_disclosure"]).
  { read_data Hw Hr Hc. read_docs Hw Hr Hc. same_form Hc. }
  destruct (kind_in r ["outcome_harm_event"]).
  { read_data Hw Hr Hc. read_docs Hw Hr Hc. same_form Hc. }
  destruct (kind_in r (dkeys CONTRACT_CANONICAL_FIELDS)) eqn:K.
  { apply kind_in_cases in K as (k & Hk & _). pose proof (Hr "record_kind") as Hk'.
    rewrite Hk in *. apply json_equiv_str in Hk'. rewrite Hk'. cbn [py_str] in *.
    read_docs Hw Hr Hc. read_dict Hw Hr Hc wf_data "data".
    destruct (str_mem k CONTRACT_KINDS_WITH_FINDING); cbn [mbind result_bind] in *; read_docs Hw Hr Hc;
      same_form Hc. }
  destruct (kind_in r ["decision_supersession"]); [read_docs Hw Hr Hc; same_form Hc|].
  destruct (kind_in r ["recommendation_shadow_run"]).
  { read_data Hw Hr Hc. read_docs Hw Hr Hc. same_form Hc. }
  destruct (kind_in r ["recommendation_shadow_score"]); [read_docs Hw Hr Hc; same_form Hc|].
  destruct (kind_in r ["human_selection"]).
  { read_data Hw Hr Hc. read_docs Hw Hr Hc. same_form Hc. }
  destruct (kind_in r ["observed_event"]).
  { read_docs Hw Hr Hc. read_dict Hw Hr Hc wf_input "input_data".
    injection Hc as <-; eexists; split; [reflexivity|]. unfold observed_event_canonical.
    apply items_equiv_dset; [|apply Hr]. by apply copy_keys_equiv. }
  destruct (kind_in r [ATTESTATION_POLICY_RECORD_KIND]).
  { read_docs Hw Hr Hc. read_dict Hw Hr Hc wf_data "data".
    injection Hc as <-; eexists; split; [reflexivity|]. unfold attestation_policy_canonical.
    do 2 (apply items_equiv_dset; [|apply Hr]). by apply copy_keys_equiv. }
  read_docs Hw Hr Hc. injection Hc as <-; eexists; split; [reflexivity|]. equiv_items.
Qed.
End Forms.

(* ------------------------------------------------------------------ *)
(** ** Statements whose stored row verifies *)

Section Good.
Context `{FloatRepr} `{!Postgres} `{!Hashes} `{!Cns}.
Variable loads : string -> result pyexn pyval.
Variable ks : KeySet.

(** The row a statement gives when every column is kept as it is. *)
Definition row_of (id : Z) (s : stmt) : row :=
  ("id", VInt id) :: map (fun c => (c, column_value s c)) (map fst LEDGER_COLUMNS).

Lemma vget_row_of id s c : is_column c = true -> c <> "id" -> vget (row_of id s) c = column_value s c.
Proof.
  intros Hc Hne. unfold row_of, vget. cbn [dget]. rewrite (proj2 (String.eqb_neq "id" c)) by congruence.
  change (map _ (map fst LEDGER_COLUMNS)) with (map (fun c => (c, column_value s c)) (map fst LEDGER_COLUMNS)).
  unfold is_column in Hc. revert Hc. induction (map fst LEDGER_COLUMNS) as [|x l IH]; simpl; [done|].
  rewrite String.eqb_sym. by destruct (String.eqb_spec x c) as [->|].
Qed.

Lemma vget_store_other cols vals r c : store_columns cols vals = Some r -> c ∉ map fst cols -> vget r c = VNone.
Proof.
  revert r. induction cols as [|[c' t] cols IH]; simpl; intros r Hs Hc; [by injection Hs as <-|].
  destruct (pg_store _ _); [|done]. destruct (store_columns cols vals); [|done]. injection Hs as <-.
  unfold vget. simpl. destruct (String.eqb_spec c' c) as [->|]; [set_solver|]. apply IH; set_solver.
Qed.

Lemma stored_equiv id s r : storable_stmt s = true -> store_row id s = Some r -> row_equiv (row_of id s) r.
Proof.
  intros Hs Hr c. destruct (decide (c = "id")) as [->|Hne].
  { by rewrite (stored_id _ _ _ Hr). }
  destruct (is_column c) eqn:Hc.
  - rewrite vget_row_of by done. by eapply stored_column.
  - assert (Hn : c ∉ map fst LEDGER_COLUMNS).
    { intros Hin. apply str_mem_spec in Hin. unfold is_column in Hc. congruence. }
    unfold store_row in Hr. destruct (store_columns LEDGER_COLUMNS s) as [r'|] eqn:E; [|done].
    injection Hr as <-. pose proof (vget_store_other _ _ _ _ E Hn) as Hv.
    unfold vget in *. cbn [dget row_of]. rewrite (proj2 (String.eqb_neq "id" c)) by congruence. rewrite Hv.
    replace (dget _ c) with (@None pyval); [done|]. symmetry. apply dget_None_keys.
    unfold dkeys. rewrite map_map. by rewrite map_id.
Qed.

(** Keys the verifier trusts, and the fingerprints it tells them apart by. *)
Definition signing_key (k : string) : Prop :=
  str_true k = true /\ k ∈ ks_trusted ks /\ fp_unique (all_keys ks) k.

Record good_stmt (prev : string) (s : stmt) (h kind : string) : Prop := {
  g_prev : column_value s "previous_hash" = VStr prev;
  g_hash : column_value s "current_hash" = VStr h;
  g_kind : column_value s "record_kind" = VStr kind;
  g_seed : column_value s "shuffle_seed" = VNone;
  g_docs : forall c, c ∈ JSONB_COLUMNS -> json_doc (column_value s c) = true;
  g_subject : kind = "governance_decision" -> exists sd,
    column_value s "subject_digest" = VStr sd /\
    is_dict (column_value s "input_data") = true /\
    cns_subject_digest (column_value s "input_data") = Ok sd;
  g_no_subject : kind <> "governance_decision" -> column_value s "subject_digest" = VNone;
  g_changed : kind = "governance_decision" ->
    match column_value s "data" with
    | VDict d => match dget d "parameter_changed" with Some v => is_bool v | None => true end
    | _ => true
    end = true;
  g_blank : forall id, uncovered_blank (row_of id s) = true;
  g_form : forall id, exists c ab k pre,
    canonical_of_row loads (row_of id s) = Ok c /\
    hash_entry (signed_entry c (row_of id s)) = h /\
    column_value s "authorized_by" = opt_str ab /\ signing_key k /\
    (opt_true pre = true -> kind = "governance_decision" /\ pre = Some (content_prehash c)) /\
    column_value s SIGNATURE_FIELD =
      opt_str (sign_authorized_by (opt_str ab) (VStr prev) (VStr kind) (Some k) pre);
}.

Lemma storable_dict_ok s c : storable_stmt s = true -> (c, C_JSONB) ∈ LEDGER_COLUMNS ->
  dict_ok (column_value s c).
Proof.
  intros Hs Hc d Hd. unfold storable_stmt in Hs. rewrite forallb_forall in Hs.
  specialize (Hs _ (proj1 (list_elem_of_In _ _) Hc)). simpl in Hs. rewrite Hd in Hs.
  apply andb_true_iff in Hs as [Hs _]. by apply distinct_nodup.
Qed.

Lemma good_row_wf prev s h kind id : storable_stmt s = true -> good_stmt prev s h kind -> row_wf (row_of id s).
Proof.
  intros Hs Hg. split.
  - intros c Hc. rewrite vget_row_of; [by apply (g_docs _ _ _ _ Hg)|..];
      clear -Hc; repeat (apply elem_of_cons in Hc as [->|Hc]; [done|]); by apply elem_of_nil in Hc.
  - rewrite vget_row_of by done. apply storable_dict_ok; [done|]. unfold LEDGER_COLUMNS. set_solver.
  - rewrite vget_row_of by done. apply storable_dict_ok; [done|]. unfold LEDGER_COLUMNS. set_solver.
Qed.

Lemma opt_str_stored o v : json_equiv (opt_str o) v -> v = opt_str o.
Proof. destruct o; [apply json_equiv_str|apply json_equiv_none]. Qed.

(** What is read back of a good statement's columns. *)
Lemma good_columns prev s h kind id r : storable_stmt s = true -> good_stmt prev s h kind ->
  store_row id s = Some r ->
  vget r "previous_hash" = VStr prev /\ vget r "current_hash" = VStr h /\
  vget r "record_kind" = VStr kind /\ vget r "shuffle_seed" = VNone.
Proof.
  intros Hs Hg Hr.
  pose proof (fun c => stored_column s r id c Hs Hr) as Hcol.
  pose proof (Hcol "previous_hash" eq_refl) as Q1. pose proof (Hcol "current_hash" eq_refl) as Q2.
  pose proof (Hcol "record_kind" eq_refl) as Q3. pose proof (Hcol "shuffle_seed" eq_refl) as Q4.
  rewrite (g_prev _ _ _ _ Hg) in Q1. rewrite (g_hash _ _ _ _ Hg) in Q2.
  rewrite (g_kind _ _ _ _ Hg) in Q3. rewrite (g_seed _ _ _ _ Hg) in Q4.
  split_and!; [by apply json_equiv_str..|by apply json_equiv_none].
Qed.

Lemma good_subject prev s h kind id r : storable_stmt s = true -> good_stmt prev s h kind ->
  store_row id s = Some r -> check_subject loads r = ([], Ok tt).
Proof.
  intros Hs Hg Hr. destruct (good_columns _ _ _ _ _ _ Hs Hg Hr) as (_ & _ & Hk & _).
  unfold check_subject, kind_in. rewrite Hk. cbn [str_mem existsb]. rewrite orb_false_r.
  destruct (String.eqb_spec kind "governance_decision") as [->|]; [|done]. simpl.
  destruct (g_subject _ _ _ _ Hg eq_refl) as (sd & Hsd & Hdict & Hcns).
  pose proof (stored_column s r id "subject_digest" Hs Hr eq_refl) as Q1. rewrite Hsd in Q1.
  apply json_equiv_str in Q1. rewrite Q1. cbn [py_true].
  pose proof (stored_column s r id "input_data" Hs Hr eq_refl) as Q2.
  destruct (column_value s "input_data") as [| | | | | |d]; try done.
  destruct (json_equiv_dict _ _ Q2) as [d' Hd']. rewrite Hd' in *. simpl.
  destruct (str_true sd); [|done]. simpl.
  assert (Harg : (if py_true (VDict d') then VDict d' else VDict []) = VDict d') by (by destruct d').
  change (match d' with [] => false | _ :: _ => true end) with (py_true (VDict d')). rewrite Harg.
  rewrite <- (cns_subject_digest_equiv _ _ Q2), Hcns. cbn [py_eq]. by rewrite String.eqb_refl.
Qed.

(** The content of a stored good row, as the verifier rebuilds it, and the
    signature made for it. *)
Lemma good_content prev s h kind id r : storable_stmt s = true -> good_stmt prev s h kind ->
  store_row id s = Some r ->
  exists c ab k pre, canonical_of_row loads r = Ok c /\ hash_entry (signed_entry c r) = h /\
    vget r "authorized_by" = opt_str ab /\ signing_key k /\
    (opt_true pre = true -> kind = "governance_decision" /\ pre = Some (content_prehash c)) /\
    vget r SIGNATURE_FIELD = opt_str (sign_authorized_by (opt_str ab) (VStr prev) (VStr kind) (Some k) pre).
Proof.
  intros Hs Hg Hr. destruct (g_form _ _ _ _ Hg id) as (c & ab & k & pre & Hc & Hhash & Hab & Hk & Hpre & Hsig).
  pose proof (stored_equiv id s r Hs Hr) as Heq.
  destruct (canonical_equiv loads _ _ _ (good_row_wf _ _ _ _ id Hs Hg) Heq Hc) as (c' & Hc' & Hcc).
  exists c', ab, k, pre. split_and!; try done.
  - rewrite <- Hhash. apply hash_entry_equiv. symmetry. apply items_equiv_json.
    apply apply_optional_equiv; [|done]. intros f. rewrite !vget_fields_of.
    destruct (str_mem f [SIGNATURE_FIELD]); [apply Heq|done].
  - apply opt_str_stored. rewrite <- Hab. by apply (stored_column s r id).
  - by rewrite <- (content_prehash_equiv _ _ Hcc).
  - apply opt_str_stored. rewrite <- Hsig. by apply (stored_column s r id).
Qed.

(** A signature made by a trusted key passes, and a claim is never unsigned. *)
Lemma good_signature prev kind ab k pre p fr : is_empty ks = false -> signing_key k ->
  vget fr "authorized_by" = opt_str ab -> vget fr "previous_hash" = VStr prev ->
  vget fr "record_kind" = VStr kind ->
  vget fr SIGNATURE_FIELD = opt_str (sign_authorized_by (opt_str ab) (VStr prev) (VStr kind) (Some k) pre) ->
  (opt_true pre = true -> Some p = pre) ->
  (exists st, verify_authorized_by_signature fr (KSet ks) (Some p) = Ok st /\
    (st = STATUS_OK \/ st = STATUS_ABSENT)) /\
  (py_true (vget fr "authorized_by") = true -> py_true (vget fr SIGNATURE_FIELD) = true).
Proof.
  intros Hne (Hkt & Hkin & Hu) F1 F2 F3 F4 Hp. split.
  - destruct (py_true (opt_str ab)) eqn:Ht.
    + exists STATUS_OK. split; [|by left].
      rewrite (sign_verify_gen ks k fr pre); rewrite ?F1, ?F2, ?F3; try done.
      unfold key_status. apply str_mem_spec in Hkin. by rewrite Hkin.
    + exists STATUS_ABSENT. split; [|by right]. unfold verify_authorized_by_signature. by rewrite F1, Ht.
  - rewrite F1, F4. intros Ht.
    destruct (sign_some (opt_str ab) (VStr prev) (VStr kind) k pre Ht Hkt) as (sg & -> & Hsg). done.
Qed.

Lemma good_check prev s h kind id r enforced policy :
  is_empty ks = false -> storable_stmt s = true -> good_stmt prev s h kind -> store_row id s = Some r ->
  check_row loads ks enforced r policy = ([], Ok tt).
Proof.
  intros Hne Hs Hg Hr. destruct (good_columns _ _ _ _ _ _ Hs Hg Hr) as (Hp & Hh & Hk & Hseed).
  destruct (good_content _ _ _ _ _ _ Hs Hg Hr) as (c & ab & k & pre & Hc & Hhash & Hab & Hkey & Hpre & Hsig).
  unfold check_row. rewrite Hc. cbn [with_]. rewrite Hhash, Hh. cbn [py_eq].
  rewrite String.eqb_refl. cbn [negb report then_ fst snd app].
  rewrite (good_subject _ _ _ _ _ _ Hs Hg Hr). cbn [then_ fst snd app].
  unfold check_seed. rewrite Hseed. cbn [py_true report then_ fst snd app].
  unfold check_signature. rewrite Hne.
  set (fr := fields_of r ["authorized_by"; SIGNATURE_FIELD; "previous_hash"; "record_kind"]).
  destruct (good_signature prev kind ab k pre (content_prehash c) fr) as ((st & Hst & Hcase) & Hatt);
    unfold fr; rewrite ?vget_fields_of; try done.
  { intros Ho. symmetry. by apply Hpre. }
  fold fr. rewrite Hst. cbn [with_]. unfold fr in Hatt. rewrite !vget_fields_of in Hatt.
  assert (Hw : check_attested r policy = ([], Ok tt)).
  { unfold check_attested. destruct policy; [|done].
    destruct (py_true (vget r "authorized_by")) eqn:Ht; [|done].
    specialize (Hatt Ht). cbn in Hatt. by rewrite Hatt. }
  rewrite Hw. by destruct Hcase as [-> | ->].
Qed.

(* ------------------------------------------------------------------ *)
(** ** The same rows at the witness *)

Lemma good_shaped prev s h kind id r : storable_stmt s = true -> good_stmt prev s h kind ->
  store_row id s = Some r -> row_shaped r = true /\ uncovered_blank r = true.
Proof.
  intros Hs Hg Hr. pose proof (stored_equiv id s r Hs Hr) as Heq.
  pose proof (good_row_wf _ _ _ _ id Hs Hg) as Hw. split.
  - unfold row_shaped. apply andb_true_iff. split.
    + apply forallb_forall. intros c Hc. apply list_elem_of_In in Hc.
      rewrite (json_equiv_doc _ _ (Heq c)). by apply (wf_doc _ Hw).
    + rewrite (kind_in_equiv _ _ _ Heq). unfold kind_in. rewrite vget_row_of by done.
      rewrite (g_kind _ _ _ _ Hg). cbn [str_mem existsb]. rewrite orb_false_r.
      destruct (String.eqb_spec kind "governance_decision") as [->|]; [|done]. cbn [negb orb].
      pose proof (g_changed _ _ _ _ Hg eq_refl) as Hch. pose proof (Heq "data") as Hd.
      rewrite vget_row_of in Hd by done. revert Hch.
      destruct (vget r "data") as [| | | | | |d'] eqn:Ed; try done.
      destruct (column_value s "data") as [| | | | | |d] eqn:Ed0; try (by inversion Hd).
      assert (Hn : NoDup (dkeys d)) by (apply (wf_data _ Hw); by rewrite vget_row_of).
      pose proof (json_equiv_dget _ _ "parameter_changed" Hn (json_equiv_nodup _ _ Hd Hn) Hd) as Hpc.
      destruct (dget d _) as [v|], (dget d' _) as [w|]; try done.
      injection Hpc as Hpc. destruct v; try done. by rewrite (json_equiv_bool _ w Hpc).
  - pose proof (g_blank _ _ _ _ Hg id) as Hb. unfold uncovered_blank in *.
    replace (uncovered r) with (uncovered (row_of id s)).
    + rewrite forallb_forall in *. intros f Hf. rewrite <- (json_equiv_true _ _ (Heq f)). by apply Hb.
    + unfold uncovered. by rewrite !(kind_in_equiv _ _ _ Heq).
Qed.

Lemma good_deep prev s h kind id r :
  is_empty ks = false -> storable_stmt s = true -> good_stmt prev s h kind -> store_row id s = Some r ->
  deep_verify_row (ship_row r) (KSet ks) = Ok None.
Proof.
  intros Hne Hs Hg Hr. destruct (good_columns _ _ _ _ _ _ Hs Hg Hr) as (Hp & Hh & Hk & Hseed).
  destruct (good_content _ _ _ _ _ _ Hs Hg Hr) as (c & ab & k & pre & Hc & Hhash & Hab & Hkey & Hpre & Hsig).
  destruct (good_shaped _ _ _ _ _ _ Hs Hg Hr) as [Hsh Hbl].
  destruct (forms_agree loads r c Hsh Hbl Hc) as (w & Hw & Heq & Hpr).
  unfold deep_verify_row, recompute_current_hash. rewrite Hw. cbn [mbind result_bind].
  rewrite (hash_entry_equiv _ _ Heq), Hhash, !vget_ship, Hh by reflexivity.
  cbn [py_eq]. rewrite String.eqb_refl. cbn [negb].
  assert (Hsub : verify_subject_binding (ship_row r) = Ok None).
  { pose proof (good_subject _ _ _ _ _ _ Hs Hg Hr) as Hsub. revert Hsub.
    unfold verify_subject_binding, check_subject. rewrite !vget_ship by reflexivity.
    destruct (decide (kind = "governance_decision")) as [->|Hkd].
    - unfold kind_in. rewrite Hk. cbn [str_mem existsb String.eqb Ascii.eqb Bool.eqb orb andb].
      destruct (py_true (vget r "subject_digest")); [|done]. cbn [negb].
      rewrite as_json_doc by (apply (shaped_json r); [done|set_solver]). cbn [with_].
      destruct (cns_subject_digest _) as [e|[]]; try done. by destruct (py_eq _ _).
    - pose proof (stored_column s r id "subject_digest" Hs Hr eq_refl) as Q.
      rewrite (g_no_subject _ _ _ _ Hg Hkd) in Q. by rewrite (json_equiv_none _ Q). }
  rewrite Hsub. cbn [mbind result_bind].
  unfold verify_shuffle_seed_row. rewrite !vget_ship, Hseed by reflexivity.
  cbn [verify_shuffle_seed mbind result_bind].
  destruct (good_signature prev kind ab k pre (content_prehash w) (ship_row r)) as ((st & Hst & Hcase) & _);
    rewrite ?vget_ship by reflexivity; try done.
  { intros Ho. rewrite Hpr. symmetry. by apply Hpre. }
  unfold verify_row_attestation, content_prehash_of. rewrite Hw. cbn [mbind result_bind]. rewrite Hst.
  cbn [mbind result_bind]. destruct (_ && _); [|done]. by destruct Hcase as [-> | ->].
Qed.

(** A claim of a stored good row is signed. *)
Lemma good_attested prev s h kind id r : is_empty ks = false -> storable_stmt s = true ->
  good_stmt prev s h kind -> store_row id s = Some r ->
  py_true (vget r "authorized_by") = true -> py_true (vget r SIGNATURE_FIELD) = true.
Proof.
  intros Hne Hs Hg Hr. destruct (good_columns _ _ _ _ _ _ Hs Hg Hr) as (Hp & _ & Hk & _).
  destruct (good_content _ _ _ _ _ _ Hs Hg Hr) as (c & ab & k & pre & _ & _ & Hab & Hkey & Hpre & Hsig).
  eapply (good_signature prev kind ab k pre (content_prehash c) r); try done.
  intros Ho. symmetry. by apply Hpre.
Qed.
End Good.
