(* ===== verification/LedgerWrites.v ===== *)
(** * LedgerWrites: every writer writes rows that verify

    For each writer of Ledger: the statements of its plan are good in the sense
    of LedgerSound, whatever the chain they are planned against.  Then the
    histories of a ledger, and what its verifiers report on them. *)

From S2P Require Import Prelude PyFloat PyValue Episode Event Json Canonical Attestation HeadAnchor LedgerDb Ledger LedgerVerify Witness LedgerForms LedgerSound.
Local Open Scope string_scope.

Section Writes.
Context `{FloatRepr} `{!Postgres} `{!Hashes} `{!Cns}.
Variable loads : string -> result pyexn pyval.
Variable ks : KeySet.
Variable os : os_view.

(** The process signs with a key the verifier trusts. *)
Definition production : Prop :=
  exists k, attestation_key os = Ok (Some k) /\ signing_key ks k.

Definition chain_tail (kind : string) (ab : option string) (prev : pyval) (h : string)
    (sig : option string) : stmt :=
  [("previous_value", zero); ("applied_value", zero); ("previous_hash", prev);
   ("current_hash", VStr h); ("record_kind", VStr kind); ("authorized_by", opt_str ab);
   (SIGNATURE_FIELD, opt_str sig)].

(** The statements one writer adds to a chain whose head is [prev]. *)
Inductive good_chain : string -> list stmt -> Prop :=
| good_chain_nil prev : good_chain prev []
| good_chain_cons prev s h kind stmts :
    good_stmt loads ks prev s h kind -> good_chain h stmts -> good_chain prev (s :: stmts).

Lemma authorized_by_sig_ok ab prev kind pre sig : production ->
  authorized_by_sig os ab prev kind pre = Ok sig ->
  exists k, signing_key ks k /\ sig = sign_authorized_by ab prev (VStr kind) (Some k) pre.
Proof.
  intros (k & Hk & Hs). unfold authorized_by_sig, lift_ledger, map_err. rewrite Hk.
  cbn [mbind result_bind]. destruct (_ && _ && _); [done|]. intros [= <-]. eauto.
Qed.

Lemma chain_row_inv rows kind ab canonical optional columns s h prev :
  production -> previous_hash_of rows = VStr prev ->
  chain_row os rows kind (opt_str ab) canonical optional columns = Ok (s, h) ->
  exists k sig, signing_key ks k /\
    sig = sign_authorized_by (opt_str ab) (VStr prev) (VStr kind) (Some k) None /\
    s = (columns ++ chain_tail kind ab (VStr prev) h sig)%list /\
    h = hash_entry (apply_optional_hashed_fields
          ((canonical ++ [("previous_hash", VStr prev)])%list)
          ((optional ++ [("authorized_by", opt_str ab); (SIGNATURE_FIELD, opt_str sig)])%list)).
Proof.
  intros Hp Hprev. unfold chain_row. rewrite Hprev.
  destruct (authorized_by_sig _ _ _ _ _) as [sig|] eqn:Hsig; [|done]. cbn [mbind result_bind].
  destruct (authorized_by_sig_ok _ _ _ _ _ Hp Hsig) as (k & Hk & Hs). intros [= <- <-].
  exists k, sig. by split_and!.
Qed.

(** A one-row writer is good when its columns rebuild its canonical form and
    its optional fields. *)
Lemma chain_row_good rows kind ab canonical optional columns s h prev ks_ :
  production -> previous_hash_of rows = VStr prev ->
  chain_row os rows kind (opt_str ab) canonical optional columns = Ok (s, h) ->
  kind <> "governance_decision" ->
  NoDup (dkeys (canonical ++ [("previous_hash", VStr prev)])%list) ->
  forallb (fun k => negb (dmem ((canonical ++ [("previous_hash", VStr prev)])%list) k))
    OPTIONAL_HASHED_FIELDS = true ->
  str_mem SIGNATURE_FIELD ks_ = false ->
  forallb (fun c => negb (dmem columns c))
    ["previous_hash"; "current_hash"; "record_kind"; "authorized_by"; SIGNATURE_FIELD;
     "shuffle_seed"; "subject_digest"] = true ->
  (forall id h sig, let r := row_of id (columns ++ chain_tail kind ab (VStr prev) h sig)%list in
     forallb (fun c => json_doc (vget r c)) JSONB_COLUMNS = true /\
     uncovered_blank r = true /\
     canonical_of_row loads r =
       Ok (apply_optional_hashed_fields ((canonical ++ [("previous_hash", VStr prev)])%list)
             (fields_of r ks_)) /\
     forall f, f ∈ OPTIONAL_HASHED_FIELDS -> f <> SIGNATURE_FIELD ->
       vget ((optional ++ [("authorized_by", opt_str ab); (SIGNATURE_FIELD, opt_str sig)])%list) f =
       vget (fields_of r ks_) f) ->
  dmem optional SIGNATURE_FIELD = false ->
  good_stmt loads ks prev s h kind.
Proof.
  intros Hp Hprev Hc Hkind Hn Ho Hns Hcols Hrow Hopt.
  destruct (chain_row_inv _ _ _ _ _ _ _ _ _ Hp Hprev Hc) as (k & sig & Hk & Hsig & -> & Hh).
  set (s := (columns ++ chain_tail kind ab (VStr prev) h sig)%list) in *.
  assert (Hcol : forall c, dmem columns c = false -> dget s c = dget (chain_tail kind ab (VStr prev) h sig) c).
  { intros c Hm. unfold s. clear -Hm. unfold dmem in Hm.
    induction columns as [|[c' v] l IH]; [done|]. simpl in *. destruct (String.eqb c' c); [done|]. by apply IH. }
  simpl in Hcols. rewrite andb_true_r in Hcols. bool_hyps.
  assert (Hsc : forall c, dmem columns c = false -> column_value s c =
     match dget (chain_tail kind ab (VStr prev) h sig) c with Some v => v
     | None => if String.eqb c "record_kind" then VStr "legacy" else VNone end).
  { intros c Hm. unfold column_value. by rewrite Hcol. }
  assert (Hab : column_value s "authorized_by" = opt_str ab) by (rewrite Hsc by assumption; reflexivity).
  assert (Hsg : column_value s SIGNATURE_FIELD = opt_str sig) by (rewrite Hsc by assumption; reflexivity).
  assert (Hrs : forall id, vget (row_of id s) SIGNATURE_FIELD = opt_str sig)
    by (intros id; rewrite vget_row_of by done; exact Hsg).
  destruct (Hrow 0%Z h sig) as (Hdocs & _ & _ & _).
  split; try (rewrite Hsc by assumption; reflexivity).
  - intros c Hin. rewrite forallb_forall in Hdocs. specialize (Hdocs c (proj1 (list_elem_of_In _ _) Hin)).
    rewrite <- (vget_row_of 0%Z s c); [exact Hdocs|..];
      clear -Hin; repeat (apply elem_of_cons in Hin as [->|Hin]; [done|]); by apply elem_of_nil in Hin.
  - done.
  - done.
  - intros id. by destruct (Hrow id h sig) as (_ & Hb & _).
  - intros id. destruct (Hrow id h sig) as (_ & _ & Hform & Hf). eexists _, ab, k, None.
    split; [exact Hform|]. split_and!; [|exact Hab|exact Hk|done|by rewrite Hsg, Hsig].
    etransitivity; [|symmetry; exact Hh]. apply hash_entry_equiv. unfold signed_entry.
      change (fields_of (row_of id s) [SIGNATURE_FIELD]) with [(SIGNATURE_FIELD, vget (row_of id s) SIGNATURE_FIELD)].
      rewrite (Hrs id). apply no_optional_dec in Ho.
      eapply form_unique; [apply form_two_steps|apply form_one_step|..]; try done.
      { rewrite vget_fields_of. by rewrite Hns. }
      intros f Hin. cbv beta. destruct (String.eqb_spec f SIGNATURE_FIELD) as [->|Hne].
      + assert (Hv : vget ((optional ++ [("authorized_by", opt_str ab); (SIGNATURE_FIELD, opt_str sig)])%list)
            SIGNATURE_FIELD = opt_str sig).
        { unfold vget. clear -Hopt. unfold dmem in Hopt. induction optional as [|[a v] l IH]; [done|].
          simpl in *. destruct (String.eqb a SIGNATURE_FIELD); [done|]. by apply IH. }
        by rewrite Hv.
      + by rewrite (Hf f Hin Hne).
Qed.
End Writes.

(* ------------------------------------------------------------------ *)
(** ** One lemma per writer *)

Section PerWriter.
Context `{FloatRepr} `{!Postgres} `{!Hashes} `{!Cns}.
Variable loads : string -> result pyexn pyval.
Variable ks : KeySet.
Variable os : os_view.
Hypothesis Hprod : production ks os.

Notation good_chain := (good_chain loads ks).

Lemma refuse_ok {A} b e (k : unit -> result ledger_exn A) x :
  (refuse_if b e ≫= k) = Ok x -> b = false /\ k tt = Ok x.
Proof. by destruct b. Qed.

(** Through the guards of a writer that returned. *)
Ltac guards Hw :=
  unfold require_all in Hw;
  repeat (let E := fresh "Eg" in apply refuse_ok in Hw as [E Hw]).

Ltac is_dict_case x :=
  match goal with E : context [is_dict x] |- _ =>
    destruct x; try discriminate E; clear E end.

Ltac in_cases Hf :=
  repeat (apply elem_of_cons in Hf as [->|Hf]; [done|]); by apply elem_of_nil in Hf.

Ltac one_row Hw ks_ :=
  match type of Hw with
  | (chain_row ?os ?rows ?kind ?ab ?c ?o ?cols ≫= _) = Ok _ =>
      let E := fresh "Ec" in
      destruct (chain_row os rows kind ab c o cols) as [[?s ?h]|] eqn:E; [|discriminate];
      cbn [mbind result_bind] in Hw; injection Hw as <- <-;
      eapply good_chain_cons; [|apply good_chain_nil];
      eapply (chain_row_good loads ks os _ _ _ _ _ _ _ _ _ ks_ Hprod); [eassumption|exact E|..]
  end.

Ltac row_goal :=
  let id := fresh "id" in let h := fresh "h" in let sig := fresh "sig" in let r := fresh "r" in
  intros id h sig r; split_and!; [reflexivity|reflexivity|reflexivity|];
  let f := fresh "f" in let Hf := fresh "Hf" in let Hne := fresh "Hne" in
  intros f Hf Hne; in_cases Hf.

Ltac writes_row Hw ks_ :=
  one_row Hw ks_; [done|nodup_keys|reflexivity|reflexivity|reflexivity|row_goal|reflexivity].

Lemma dict_guard v : negb (is_dict v) = false -> exists d, v = VDict d.
Proof. destruct v; try done. eauto. Qed.

Lemma dict_guard_or v b : negb (is_dict v) || b = false -> exists d, v = VDict d.
Proof. intros E. apply orb_false_iff in E as [E _]. by apply dict_guard. Qed.

Lemma dict_guard_two v w : negb (is_dict v) || negb (is_dict w) = false ->
  exists d e, v = VDict d /\ w = VDict e.
Proof. intros E. apply orb_false_iff in E as [E F]. apply dict_guard in E as [], F as []. eauto. Qed.

Section OneWriter.
Variables (rows : list row) (prev : string) (stmts : list stmt).
Hypothesis Hprev : previous_hash_of rows = VStr prev.

Lemma bind_good cv ch cch ab ret :
  bind_cassette_version os cv ch cch ab rows = Ok (stmts, ret) -> good_chain prev stmts.
Proof.
  intros Hw. unfold bind_cassette_version in Hw. guards Hw.
  destruct (select _ rows) as [r|]; [destruct (_ || _); [discriminate|]; injection Hw as <- <-; constructor|].
  writes_row Hw ["cassette_hash"; "cassette_code_hash"; "authorized_by"].
Qed.

Lemma cassette_event_good ev cv ch cch mode reg ab ret :
  record_regulatory_cassette_event os ev cv ch cch mode reg ab rows = Ok (stmts, ret) ->
  good_chain prev stmts.
Proof.
  intros Hw. unfold record_regulatory_cassette_event in Hw. guards Hw.
  apply negb_false_iff, str_mem_spec in Eg.
  change (VStr ab) with (opt_str (Some ab)) in Hw.
  repeat (apply elem_of_cons in Eg as [->|Eg];
    [writes_row Hw ["cassette_hash"; "cassette_code_hash"; "authorized_by"]|]).
  by apply elem_of_nil in Eg.
Qed.

Lemma disclosure_good cv reg check action subject finding ch ab ret :
  record_regulatory_disclosure os cv reg check action subject finding ch ab rows = Ok (stmts, ret) ->
  good_chain prev stmts.
Proof.
  intros Hw. unfold record_regulatory_disclosure in Hw. guards Hw.
  apply dict_guard in Eg4 as [d ->]. writes_row Hw ["cassette_hash"; "authorized_by"].
Qed.

Lemma shadow_run_good kind subject cv inputs rec ab ret :
  record_recommendation_shadow_run os kind subject cv inputs rec ab rows = Ok (stmts, ret) ->
  good_chain prev stmts.
Proof.
  intros Hw. unfold record_recommendation_shadow_run in Hw. guards Hw.
  apply dict_guard_two in Eg2 as (d & e & -> & ->). writes_row Hw ["authorized_by"].
Qed.

Lemma shadow_score_good h actual score ab ret :
  record_recommendation_shadow_score os h actual score ab rows = Ok (stmts, ret) ->
  good_chain prev stmts.
Proof.
  intros Hw. unfold record_recommendation_shadow_score in Hw. guards Hw.
  apply dict_guard_two in Eg0 as (d & e & -> & ->). destruct (select _ rows); [|discriminate].
  writes_row Hw ["authorized_by"; "shadow_run_hash"].
Qed.

Lemma selection_good h sel by_ rationale ret :
  record_human_selection os loads h sel by_ rationale rows = Ok (stmts, ret) ->
  good_chain prev stmts.
Proof.
  intros Hw. unfold record_human_selection in Hw. guards Hw.
  destruct (select _ rows); [|discriminate]. destruct (negb (col_is _ _ _)); [discriminate|].
  destruct (lift_ledger _) as [output|]; [|discriminate]. cbn [mbind result_bind] in Hw.
  change (VStr by_) with (opt_str (Some by_)) in Hw.
  writes_row Hw ["authorized_by"; "decision_hash"].
Qed.

Lemma harm_good cv dh kind subject finding at_ ab ch ret :
  record_outcome_harm_event os cv dh kind subject finding at_ ab ch rows = Ok (stmts, ret) ->
  good_chain prev stmts.
Proof.
  intros Hw. unfold record_outcome_harm_event in Hw. guards Hw.
  apply dict_guard_or in Eg3 as [d ->]. writes_row Hw ["cassette_hash"; "authorized_by"].
Qed.

Lemma supersede_good sid auth reason out cv ret :
  supersede_decision os sid auth reason out cv rows = Ok (stmts, ret) -> good_chain prev stmts.
Proof.
  intros Hw. unfold supersede_decision in Hw. guards Hw.
  apply dict_guard_or in Eg0 as [d ->]. destruct (select _ rows); [|discriminate].
  destruct (negb (col_is _ _ _)); [discriminate|]. change (VStr auth) with (opt_str (Some auth)) in Hw.
  writes_row Hw ["supersedes_hash"; "authorized_by"].
Qed.
(** *** Contract rows *)

Ltac contract_row Hw := unfold append_contract_row in Hw; writes_row Hw ["cassette_hash"; "authorized_by"].

Lemma ingest_good cv cp iid scope at_ ch ab ret :
  record_contract_ingest os cv cp iid scope at_ ch ab rows = Ok (stmts, ret) -> good_chain prev stmts.
Proof. intros Hw. unfold record_contract_ingest in Hw. guards Hw. contract_row Hw. Qed.

Lemma egress_good cv cp dec scope rcp rcl purpose at_ finding ref ch ab ret :
  record_contract_egress os cv cp dec scope rcp rcl purpose at_ finding ref ch ab rows = Ok (stmts, ret) ->
  good_chain prev stmts.
Proof.
  intros Hw. unfold record_contract_egress in Hw. guards Hw. apply dict_guard_or in Eg2 as [d ->].
  contract_row Hw.
Qed.

Lemma approval_good cv cp aid state apr rcp rcl scope at_ exp rev ch ret :
  record_contract_approval os cv cp aid state apr rcp rcl scope at_ exp rev ch rows = Ok (stmts, ret) ->
  good_chain prev stmts.
Proof. intros Hw. unfold record_contract_approval in Hw. guards Hw. contract_row Hw. Qed.

Lemma deletion_good cv cp iid at_ scope method ch ab ret :
  record_contract_deletion os cv cp iid at_ scope method ch ab rows = Ok (stmts, ret) ->
  good_chain prev stmts.
Proof. intros Hw. unfold record_contract_deletion in Hw. guards Hw. contract_row Hw. Qed.
End OneWriter.

(** *** Rows no party signs *)

Lemma unsigned_good prev s h kind :
  column_value s "previous_hash" = VStr prev -> column_value s "current_hash" = VStr h ->
  column_value s "record_kind" = VStr kind -> kind <> "governance_decision" ->
  forallb (fun c => is_None (column_value s c))
    ["shuffle_seed"; "authorized_by"; SIGNATURE_FIELD; "subject_digest"] = true ->
  forallb (fun c => json_doc (column_value s c)) JSONB_COLUMNS = true ->
  (forall id, uncovered_blank (row_of id s) = true) ->
  (forall id, exists c, canonical_of_row loads (row_of id s) = Ok c /\ hash_entry c = h) ->
  good_stmt loads ks prev s h kind.
Proof.
  intros Hp Hh Hk Hne Hnone Hdocs Hblank Hc. simpl in Hnone. rewrite andb_true_r in Hnone.
  apply andb_true_iff in Hnone as [N1 Hnone]. apply andb_true_iff in Hnone as [N2 Hnone].
  apply andb_true_iff in Hnone as [N3 N4].
  assert (Hz : forall v, is_None v = true -> v = VNone) by (by destruct v).
  destruct Hprod as (k & _ & Hk'). split; auto.
  - intros c Hin. rewrite forallb_forall in Hdocs. by apply Hdocs, list_elem_of_In.
  - intros E. by destruct Hne.
  - intros id. destruct (Hc id) as (c & Hform & Hhash). exists c, None, k, None. split; [done|].
    assert (Hs : vget (row_of id s) SIGNATURE_FIELD = VNone) by (rewrite vget_row_of by done; auto).
    split_and!; [rewrite unsigned_form; [done|by rewrite Hs]|auto|done|done|].
    rewrite sign_none by done. auto.
Qed.

Lemma event_good body prev : good_stmt loads ks prev (fst (event_stmt body (VStr prev)))
  (snd (event_stmt body (VStr prev))) "observed_event".
Proof.
  apply unsigned_good; try reflexivity; [done|].
  intros id. exists (observed_event_canonical body (VStr prev)). split; [by destruct body|reflexivity].
Qed.

Lemma events_good bodies prev : good_chain prev (event_stmts bodies (VStr prev)).
Proof.
  revert prev. induction bodies as [|body bodies IH]; intros prev; [constructor|].
  econstructor; [apply (event_good body prev)|apply IH].
Qed.

Lemma policy_good now fp at_ rows prev stmts ret : previous_hash_of rows = VStr prev ->
  record_attestation_policy now fp at_ rows = Ok (stmts, ret) -> good_chain prev stmts.
Proof.
  intros Hprev. unfold record_attestation_policy. rewrite Hprev.
  destruct (py_eq _ _); intros [= <- <-]; [constructor|]. eapply good_chain_cons; [|constructor].
  eapply (unsigned_good _ _ _ ATTESTATION_POLICY_RECORD_KIND); try reflexivity; [done|].
  intros id. eexists. split; [|reflexivity]. reflexivity.
Qed.

Lemma marker_good now rows prev stmts ret : previous_hash_of rows = VStr prev ->
  ensure_attestation_policy_marker os now rows = Ok (stmts, ret) -> good_chain prev stmts.
Proof.
  intros Hprev. unfold ensure_attestation_policy_marker. destruct (negb _); [intros [= <- <-]; constructor|].
  destruct (lift_ledger _) as [[k|]|]; cbn [mbind result_bind]; [|intros [= <- <-]; constructor|done].
  by apply policy_good.
Qed.

Lemma append_good at_ node pv av reason data rows prev stmts ret : previous_hash_of rows = VStr prev ->
  json_doc data = true ->
  append_plan at_ node pv av reason data rows = Ok (stmts, ret) -> good_chain prev stmts.
Proof.
  intros Hprev Hd. unfold append_plan. rewrite Hprev. intros [= <- <-].
  eapply good_chain_cons; [|constructor].
  destruct data; try discriminate Hd; (eapply (unsigned_good _ _ _ "legacy");
    try reflexivity; [done|intros id; eexists; split; reflexivity]).
Qed.
End PerWriter.

(* ------------------------------------------------------------------ *)
(** ** Decisions *)

Lemma apply_optional_visible fs src src' c :
  (forall f, f ∈ fs -> visible (vget src f) = visible (vget src' f)) ->
  apply_optional fs src c = apply_optional fs src' c.
Proof.
  unfold apply_optional. revert c. induction fs as [|f fs IH]; intros c Hv; [done|]. cbn [fold_left].
  assert (Hf := Hv f (list_elem_of_here _ _)). unfold visible in Hf.
  rewrite IH by (intros; apply Hv; by right). f_equal. cbv zeta.
  destruct (py_true (vget src f)) eqn:E, (py_true (vget src' f)) eqn:E'; [by rewrite Hf|..|done].
  - rewrite Hf in E. discriminate E.
  - rewrite <- Hf in E'. discriminate E'.
Qed.

Lemma visible_twice v : visible (if py_true v then v else VNone) = visible v.
Proof. unfold visible. destruct (py_true v) eqn:E; [by rewrite E|done]. Qed.

Section Decisions.
Context `{FloatRepr} `{!Postgres} `{!Hashes} `{!Cns}.
Variable loads : string -> result pyexn pyval.
Variable ks : KeySet.
Variable os : os_view.
Hypothesis Hprod : production ks os.

Lemma check_decision_inv d input output sd : check_decision d = Ok (input, output, sd) ->
  (exists v, d_cassette_version d = VStr v) /\ is_dict (d_policy_parameters d) = true /\
  d_input_data d = VDict input /\ cns_subject_digest (d_input_data d) = Ok sd /\
  exists out, d_output d = VDict out /\ dmem out "gate" = false.
Proof.
  unfold check_decision. intros Hd.
  apply refuse_ok in Hd as [E1 Hd]. apply refuse_ok in Hd as [E2 Hd].
  destruct (d_input_data d) as [| | | | | |i] eqn:Ei; try discriminate Hd.
  destruct (d_output d) as [| | | | | |out] eqn:Eo; try discriminate Hd.
  apply refuse_ok in Hd as [E3 Hd].
  destruct (cns_subject_digest _) as [sd'|[]] eqn:Es; try discriminate Hd.
  destruct (dmem out "gate") eqn:Eg; [discriminate Hd|]. injection Hd as <- <- <-.
  apply orb_false_iff in E1 as [_ E1], E2 as [E2 _]. apply negb_false_iff in E1, E2.
  split_and!; try done; [destruct (d_cassette_version d); try done|]; eauto.
Qed.

(** The statement of a decision is rebuilt by the verifier as it was signed. *)
Lemma decision_good d input output sd snap prev s h :
  json_doc (d_ai_cost d) = true -> check_decision d = Ok (input, output, sd) ->
  decision_stmt os d input output sd snap (VStr prev) = Ok (s, h) ->
  good_stmt loads ks prev s h "governance_decision".
Proof.
  intros Hai Hd Hs. destruct (check_decision_inv _ _ _ _ Hd) as ((v & Hv) & Hpol & Hi & Hsd & _).
  unfold decision_stmt in Hs. set (ch := option_map compute_cassette_hash snap) in *.
  set (c := apply_optional_hashed_fields _ _) in *.
  destruct (authorized_by_sig _ _ _ _ _) as [sig|] eqn:Hsig; [|discriminate Hs].
  destruct (authorized_by_sig_ok _ _ _ _ _ _ _ Hprod Hsig) as (k & Hk & ->).
  cbn [mbind result_bind] in Hs. injection Hs as <- <-.
  match goal with |- good_stmt _ _ _ ?st _ _ => set (s := st) end.
  split; try reflexivity.
  - intros col Hc. repeat (apply elem_of_cons in Hc as [->|Hc]; [|]); [..|by apply elem_of_nil in Hc];
      unfold column_value; subst s; simpl; rewrite ?Hi; try done; [by destruct (d_policy_parameters d)|].
    by destruct (py_true (d_ai_cost d)).
  - intros _. exists sd. change (column_value s "input_data") with (d_input_data d).
    split_and!; [reflexivity|by rewrite Hi|done].
  - done.
  - intros id. exists c, (d_authorized_by d), k, (Some (content_prehash c)).
    split_and!; [|reflexivity|reflexivity|done|done|reflexivity].
    set (r := row_of id s). unfold canonical_of_row. change (kind_in r ["governance_decision"]) with true. cbv iota.
    change (vget r "input_data") with (d_input_data d).
    change (vget r "policy_parameters") with (d_policy_parameters d).
    change (vget r "decision_output") with (VDict output).
    change (vget r "ai_cost") with (if py_true (d_ai_cost d) then d_ai_cost d else VNone).
    rewrite (as_json_doc loads (d_policy_parameters d)) by (by destruct (d_policy_parameters d)).
    rewrite (as_json_doc loads (if py_true (d_ai_cost d) then d_ai_cost d else VNone)) by (by destruct (py_true (d_ai_cost d))).
    rewrite Hi. cbn [as_json mbind result_bind]. apply (f_equal Ok). unfold c.
    transitivity (apply_optional_hashed_fields (decision_canonical d output (VStr prev))
      ((fields_of r ["cassette_hash"; "cassette_code_hash"; "model_identity"; "authorized_by";
         "supersedes_hash"; "outcome_obligation"; "replaces_hash"; "subject_digest";
         "shuffle_seed"] ++ [("ai_cost", if py_true (d_ai_cost d) then d_ai_cost d else VNone)])%list)).
    + unfold decision_canonical. rewrite Hi. reflexivity.
    + apply apply_optional_visible. intros f Hf.
      repeat (apply elem_of_cons in Hf as [->|Hf]; [first [reflexivity|exact (visible_twice (d_ai_cost d))]|]).
      by apply elem_of_nil in Hf.
Qed.

Lemma append_decision_good verify d snap events episode rows prev stmts ret :
  json_doc (d_ai_cost d) = true -> previous_hash_of rows = VStr prev ->
  append_decision os verify d snap events episode rows = Ok (stmts, ret) ->
  good_chain loads ks prev stmts.
Proof.
  intros Hai Hprev. unfold append_decision. rewrite Hprev.
  destruct (check_decision d) as [[[input output] sd]|] eqn:Hd; [|done]. cbn [mbind result_bind].
  destruct (check_events events) as [bodies|]; [|done]. cbn [mbind result_bind].
  destruct (check_boundary _ _ _ _ _) as [[]|]; [|done]. cbn [mbind result_bind].
  destruct (check_replaces d rows) as [[]|]; [|done]. cbn [mbind result_bind].
  destruct (decision_stmt _ _ _ _ _ _ _) as [[s h]|] eqn:Hs; [|done]. cbn [mbind result_bind].
  intros [= <- <-]. econstructor; [by eapply decision_good|by eapply events_good].
Qed.
End Decisions.
