(* ===== verification/LedgerHistory.v ===== *)
(** * LedgerHistory: ledgers as the program makes them

    The writers of Ledger run one after another, each in its own transaction,
    with whatever environment, clock and anchor storage; the invariant of the
    rows they leave; and what both verifiers report on every ledger so made. *)

From S2P Require Import Prelude PyFloat PyValue Episode Event Json Canonical Attestation HeadAnchor LedgerDb Ledger LedgerVerify Witness LedgerForms LedgerSound LedgerWrites.
Local Open Scope string_scope.

Lemma nth_error_lookup {A} (l : list A) i : nth_error l i = l !! i.
Proof. revert i. induction l as [|x l IH]; intros [|i]; simpl; auto. Qed.

(** The calls a program makes on its ledger. *)
Inductive write :=
| w_marker
| w_append (action_type node : string) (previous_value applied_value : float64) (reason : string)
    (data : pyval)
| w_bind (cassette_version cassette_hash : string) (cassette_code_hash authorized_by : option string)
| w_cassette_event (event cassette_version cassette_hash : string) (cassette_code_hash : option string)
    (mode regulation authorized_by : string)
| w_disclosure (cassette_version regulation check action subject_id : string) (finding : pyval)
    (cassette_hash authorized_by : option string)
| w_shadow_run (kind subject cassette_version : string) (inputs recommendation : pyval)
    (authorized_by : option string)
| w_shadow_score (shadow_run_hash : string) (actual score : pyval) (authorized_by : option string)
| w_selection (decision_hash human_selection selected_by : string) (rationale : option string)
| w_harm (cassette_version decision_hash harm_kind subject_id : string) (finding : pyval)
    (discovered_at authorized_by cassette_hash : option string)
| w_supersede (supersedes_id : Z) (authority reason : string) (corrected_output : pyval)
    (cassette_version : option string)
| w_ingest (contract_version counterparty ingest_id data_scope received_at : string)
    (cassette_hash authorized_by : option string)
| w_egress (contract_version counterparty decision data_scope recipient recipient_class purpose
    occurred_at : string) (finding : pyval) (approval_reference cassette_hash authorized_by : option string)
| w_approval (contract_version counterparty approval_id state approver recipient recipient_class scope
    granted_at : string) (expires_at revoked_at cassette_hash : option string)
| w_deletion (contract_version counterparty ingest_id deleted_at scope method : string)
    (cassette_hash authorized_by : option string)
| w_decision (d : GovernanceDecisionRecord) (cassette_snapshot : option pyval)
    (observed_events : list EventV1) (episode : option Episode).

Section Histories.
Context `{FloatRepr} `{!Postgres} `{!Hashes} `{!Cns}.
Variable loads : string -> result pyexn pyval.
Variable verify_governed_decision :
  Episode -> GovernanceDecisionRecord -> list EventV1 -> boundary_verdict.
Variable ks : KeySet.

Definition only_stmts {A} (r : result ledger_exn (list stmt * A)) : result ledger_exn (list stmt * unit) :=
  '(stmts, _) ← r; Ok (stmts, tt).

(** The plan of a call. *)
Definition planned (os : os_view) (now : string) (w : write) (rows : list row)
    : result ledger_exn (list stmt * unit) :=
  match w with
  | w_marker => only_stmts (ensure_attestation_policy_marker os now rows)
  | w_append a n p v r d => only_stmts (append_plan a n p v r d rows)
  | w_bind v h c ab => only_stmts (bind_cassette_version os v h c ab rows)
  | w_cassette_event e v h c m r ab => only_stmts (record_regulatory_cassette_event os e v h c m r ab rows)
  | w_disclosure v r c a s f h ab => only_stmts (record_regulatory_disclosure os v r c a s f h ab rows)
  | w_shadow_run k s v i r ab => only_stmts (record_recommendation_shadow_run os k s v i r ab rows)
  | w_shadow_score h a s ab => only_stmts (record_recommendation_shadow_score os h a s ab rows)
  | w_selection h s b r => only_stmts (record_human_selection os loads h s b r rows)
  | w_harm v h k s f t ab ch => only_stmts (record_outcome_harm_event os v h k s f t ab ch rows)
  | w_supersede i a r o v => only_stmts (supersede_decision os i a r o v rows)
  | w_ingest v c i s t h ab => only_stmts (record_contract_ingest os v c i s t h ab rows)
  | w_egress v c d s r rc p t f a h ab => only_stmts (record_contract_egress os v c d s r rc p t f a h ab rows)
  | w_approval v c i s a r rc sc g e rv h =>
      only_stmts (record_contract_approval os v c i s a r rc sc g e rv h rows)
  | w_deletion v c i t s m h ab => only_stmts (record_contract_deletion os v c i t s m h ab rows)
  | w_decision d snap evs ep =>
      only_stmts (append_decision os verify_governed_decision d snap evs ep rows)
  end.

Definition run (os : os_view) (now : string) (anchor_io : bool) (w : write) (l : ledger) : ledger :=
  snd (transact os now anchor_io (planned os now w) l).

(** The arguments are what their annotations say: an [append]ed [data] and an
    [ai_cost] are mappings, lists or None. *)
Definition typed (w : write) : Prop :=
  match w with
  | w_append _ _ _ _ _ data => json_doc data = true
  | w_decision d _ _ _ => json_doc (d_ai_cost d) = true
  | _ => True
  end.

(** Ledgers made by calls of the writers: every call signs with a key the
    verifier trusts, and writes values PostgreSQL keeps as they are.  The source
    takes any value; [forallb storable_stmt] leaves out floats JSONB changes
    (an exponent in their text, negative zero) and values a column refuses. *)
Inductive history : ledger -> Prop :=
| history_empty : history empty_ledger
| history_write l os now io w : history l -> production ks os -> typed w ->
    (forall stmts, planned os now w (l_rows l) = Ok (stmts, tt) -> forallb storable_stmt stmts = true) ->
    history (run os now io w l).

(** The executable form of the last condition. *)
Definition storable_write (os : os_view) (now : string) (w : write) (l : ledger) : bool :=
  match planned os now w (l_rows l) with Ok (stmts, _) => forallb storable_stmt stmts | Err _ => true end.

Lemma history_storable l os now io w : history l -> production ks os -> typed w ->
  storable_write os now w l = true -> history (run os now io w l).
Proof.
  intros Hl Hp Ht Hs. apply history_write; [done..|]. intros stmts Hw. unfold storable_write in Hs.
  by rewrite Hw in Hs.
Qed.

(* ------------------------------------------------------------------ *)
(** ** The invariant of the rows *)

Inductive sound_rows : string -> list row -> Prop :=
| sound_nil prev : sound_rows prev []
| sound_cons prev s h kind id r rows :
    storable_stmt s = true -> good_stmt loads ks prev s h kind -> store_row id s = Some r ->
    sound_rows h rows -> sound_rows prev (r :: rows).

Lemma only_stmts_ok {A} (r : result ledger_exn (list stmt * A)) stmts :
  only_stmts r = Ok (stmts, tt) -> exists a, r = Ok (stmts, a).
Proof. destruct r as [[s a]|]; simpl; [|done]. intros [= ->]. eauto. Qed.

Lemma planned_good os now w rows prev stmts : production ks os -> typed w ->
  previous_hash_of rows = VStr prev -> planned os now w rows = Ok (stmts, tt) ->
  good_chain loads ks prev stmts.
Proof.
  intros Hp Hty Hprev Hw. destruct w; apply only_stmts_ok in Hw as [a Hw]; simpl in Hty.
  - by eapply marker_good.
  - by eapply append_good.
  - by eapply bind_good.
  - by eapply cassette_event_good.
  - by eapply disclosure_good.
  - by eapply shadow_run_good.
  - by eapply shadow_score_good.
  - by eapply selection_good.
  - by eapply harm_good.
  - by eapply supersede_good.
  - by eapply ingest_good.
  - by eapply egress_good.
  - by eapply approval_good.
  - by eapply deletion_good.
  - by eapply append_decision_good.
Qed.

Lemma good_sound stmts rows next rows' prev : inserted stmts rows next rows' ->
  forallb storable_stmt stmts = true -> good_chain loads ks prev stmts ->
  exists new, rows' = (rows ++ new)%list /\ sound_rows prev new.
Proof.
  intros Hi. revert prev. induction Hi as [|s stmts rows next r rows' Hr Hu Hi IH]; intros prev Hs Hg.
  - exists []. split; [by rewrite app_nil_r|constructor].
  - simpl in Hs. apply andb_true_iff in Hs as [Hs Hss]. inversion Hg; subst.
    destruct (IH _ Hss ltac:(eassumption)) as (new & -> & Hn). exists (r :: new).
    split; [by rewrite <- app_assoc|]. econstructor; eauto.
Qed.

(** The head a chain ends with, from the head it starts after. *)
Definition head_after (prev : pyval) (rows : list row) : pyval :=
  match last_row rows with Some r => vget r "current_hash" | None => prev end.

Lemma head_after_cons prev r rows :
  head_after prev (r :: rows) = head_after (vget r "current_hash") rows.
Proof.
  unfold head_after, last_row. destruct rows as [|r' rows]; [done|].
  rewrite last_cons. destruct (last (r' :: rows)) eqn:E; [done|]. by apply last_None in E.
Qed.

Lemma sound_head prev rows : sound_rows prev rows -> exists h, head_after (VStr prev) rows = VStr h.
Proof.
  induction 1 as [|prev s h kind id r rows Hs Hg Hr _ IH]; [by eexists|]. rewrite head_after_cons.
  destruct (good_columns _ _ _ _ _ _ _ _ Hs Hg Hr) as (_ & -> & _). exact IH.
Qed.

Lemma sound_app prev rows h new : sound_rows prev rows -> head_after (VStr prev) rows = VStr h ->
  sound_rows h new -> sound_rows prev (rows ++ new).
Proof.
  induction 1 as [|prev s h' kind id r rows Hs Hg Hr _ IH].
  - by intros [= ->].
  - rewrite head_after_cons. destruct (good_columns _ _ _ _ _ _ _ _ Hs Hg Hr) as (_ & -> & _).
    intros Hh Hn. simpl. econstructor; eauto.
Qed.

(** A transaction under a trusted key adds rows and seals an anchor over them. *)
Definition sealed (rows : list row) (anchor : option pyval) : Prop :=
  exists a k h now n, anchor = Some (VDict a) /\ signing_key ks k /\ (0 < n)%nat /\
    build_head_anchor h (Z.of_nat n) (Some k) now None = Ok a /\
    exists r, rows !! (n - 1)%nat = Some r /\ vget r "current_hash" = VStr h.

Lemma sealed_app rows new a : sealed rows a -> sealed (rows ++ new) a.
Proof.
  intros (d & k & h & now & n & Ha & Hk & Hn & Hb & r & Hr & Hh).
  exists d, k, h, now, n. split_and!; try done. exists r. split; [by apply lookup_app_l_Some|done].
Qed.

Lemma anchor_head_sealed os now io l l' : production ks os ->
  (exists prev, sound_rows prev (l_rows l)) -> anchor_head os now io l = Ok l' ->
  l_rows l' = l_rows l /\ (l_anchor l' = l_anchor l \/ sealed (l_rows l') (l_anchor l')).
Proof.
  intros (k & Hk & Hsk) (prev & Hs) Ha. destruct (anchor_head_rows _ _ _ _ _ Ha) as [Hr _].
  split; [done|]. revert Ha. unfold anchor_head.
  destruct (head_anchor_path os); [|intros [= <-]; by left].
  destruct (last_row (l_rows l)) as [r|] eqn:Hl; [|intros [= <-]; by left].
  rewrite Hk. cbn [lift_ledger map_err mbind result_bind].
  destruct (sound_head _ _ Hs) as [h Hh]. unfold head_after in Hh. rewrite Hl in Hh. rewrite Hh. cbn [py_str].
  destruct (build_head_anchor h _ _ _ _) as [a|] eqn:Hb; [|done]. cbn [lift_custody map_err mbind result_bind].
  destruct io; [|done]. intros [= <-]. right. cbn [l_rows l_anchor] in *.
  unfold last_row in Hl. rewrite last_lookup in Hl.
  exists a, k, h, now, (length (l_rows l)). split_and!; try done.
  - destruct (l_rows l); [done|simpl; lia].
  - exists r. split; [|done]. by rewrite <- Nat.sub_1_r in Hl.
Qed.

Record sound (l : ledger) : Prop := {
  s_rows : sound_rows "genesis" (l_rows l);
  s_anchor : l_anchor l = None \/ sealed (l_rows l) (l_anchor l);
}.

Lemma history_sound l : history l -> sound l.
Proof.
  induction 1 as [|l os now io w _ [Hrows Hanchor] Hp Hty Hst]; [split; [constructor|by left]|].
  unfold run, transact. destruct (planned os now w (l_rows l)) as [[[|s stmts] []]|e] eqn:Hw; [by split| |by split].
  destruct (sound_head _ _ Hrows) as [h Hh].
  assert (Hprev : previous_hash_of (l_rows l) = VStr h) by exact Hh.
  pose proof (planned_good _ _ _ _ _ _ Hp Hty Hprev Hw) as Hg. specialize (Hst _ eq_refl).
  destruct (insert_all _ _ _) as [[rows|] next] eqn:Hi; [|by split].
  apply insert_all_inserted in Hi. destruct (good_sound _ _ _ _ _ Hi Hst Hg) as (new & -> & Hn).
  assert (Hs' : sound_rows "genesis" (l_rows l ++ new)) by (by eapply sound_app).
  assert (Ha' : l_anchor l = None \/ sealed (l_rows l ++ new) (l_anchor l)).
  { destruct Hanchor as [?|?]; [by left|right; by apply sealed_app]. }
  destruct (anchor_head _ _ _ _) as [l''|e] eqn:Ha; [|by split].
  apply anchor_head_sealed in Ha as [Hr Hcase]; [|done|by eexists].
  cbn [l_rows l_anchor] in *. cbn [snd]. split; [by rewrite Hr|]. destruct Hcase as [->|?]; [|by right].
  rewrite Hr. exact Ha'.
Qed.

(* ------------------------------------------------------------------ *)
(** ** What the verifiers report *)

Lemma walk_sound enforced rows prev w : is_empty ks = false -> sound_rows prev rows ->
  w_prev_hash w = VStr prev -> w_violations w = [] ->
  w_violations (fold_left (verify_step loads ks enforced) rows w) = [].
Proof.
  intros Hne Hs. revert w. induction Hs as [|prev s h kind id r rows Hs Hg Hr _ IH]; intros w Hp Hv; [done|].
  cbn [fold_left]. destruct (good_columns _ _ _ _ _ _ _ _ Hs Hg Hr) as (Hpr & Hh & _).
  unfold verify_step at 2. rewrite Hpr, Hp, Hh, (good_check loads ks _ _ _ _ _ _ _ _ Hne Hs Hg Hr), Hv.
  cbn [py_eq]. rewrite String.eqb_refl. by apply IH.
Qed.

Lemma witness_sound rows prev from : is_empty ks = false -> sound_rows prev rows ->
  verify_rows_from (map ship_row rows) (KSet ks) (VStr prev) from = Ok None.
Proof.
  intros Hne Hs. revert from. induction Hs as [|prev s h kind id r rows Hs Hg Hr _ IH]; intros from; [done|].
  cbn [map verify_rows_from]. rewrite (good_deep loads ks _ _ _ _ _ _ Hne Hs Hg Hr).
  destruct (good_columns _ _ _ _ _ _ _ _ Hs Hg Hr) as (Hpr & Hh & _).
  rewrite !vget_ship, Hpr, Hh by reflexivity. cbn [py_eq mbind result_bind]. rewrite String.eqb_refl. cbn [negb].
  pose proof (good_attested loads ks _ _ _ _ _ _ Hne Hs Hg Hr) as Hatt.
  destruct (py_true (vget r "authorized_by")); [rewrite Hatt by done|]; rewrite ?andb_false_r; apply IH.
Qed.

Lemma read_built h n k now name a : build_head_anchor h n (Some k) now name = Ok a ->
  read_head_anchor (Some (VDict a)) = Ok a.
Proof.
  unfold build_head_anchor. destruct (negb _); [done|]. destruct (check_anchor_name name); [|done].
  cbn [mbind result_bind]. intros [= <-]. by destruct (opt_true _).
Qed.

Lemma anchor_sound rows a : is_empty ks = false -> sealed rows a -> check_anchor rows a ks = Ok [].
Proof.
  intros Hne (d & k & h & now & n & -> & (Hkt & Hin & Hu) & Hn & Hb & r & Hr & Hh).
  unfold check_anchor. rewrite (read_built _ _ _ _ _ _ Hb).
  replace (check_head_anchor _ _ _) with (@Ok pyexn _ (@None truncation)); [done|]. symmetry.
  destruct (build_head_anchor_shape _ _ _ _ _ _ Hb) as (k' & [= <-] & _ & Hhd & Hen & _).
  eapply check_trusted; [by eapply verify_built| |exact Hen|lia|].
  - unfold key_status. apply str_mem_spec in Hin. rewrite Hin. by left.
  - exists (vget r "id"), (vget r "current_hash"). rewrite Hhd, Hh. split; [|simpl; apply String.eqb_refl].
    rewrite nth_error_map, nth_error_lookup. replace (Z.to_nat _) with (n - 1)%nat by lia.
    etransitivity; [exact (f_equal (option_map _) Hr)|]. simpl. by rewrite Hh.
Qed.

Lemma verified_history os l : history l -> attestation_keyset os = Ok ks -> is_empty ks = false ->
  (head_anchor_path os = None \/ l_anchor l <> None) ->
  verify_chain loads os (l_rows l) (l_anchor l) = Ok [] /\
  verify_rows (map ship_row (l_rows l)) (KSet ks) = Ok None.
Proof.
  intros Hl Hks Hne Ha. destruct (history_sound _ Hl) as [Hrows Hanchor]. split.
  - unfold verify_chain. rewrite Hks. cbn [mbind result_bind].
    destruct (l_rows l) as [|r rows] eqn:E; [done|]. rewrite <- E in *. unfold verify_walk.
    rewrite (walk_sound _ _ _ _ Hne Hrows) by done. destruct (head_anchor_path os) as [p|]; [|done].
    destruct Hanchor as [Hn|Hs]; [by destruct Ha|]. by rewrite anchor_sound.
  - by apply witness_sound.
Qed.

(** C1 (honest ledgers verify): whatever calls of the writers made a ledger,
    under whichever of the trusted keys each call signed with, and whether or
    not its anchor could be written, the primary reports no violation (the
    anchor included, where one is kept) and the witness accepts the shipped
    rows.  The calls of a history write values the table gives back as they
    were (storable: JSON floats without exponent or negative zero, integers and
    texts in the range of their columns; an appended data and an ai_cost are
    mappings, lists or None); without that an honest append can fail to verify
    (LedgerTamper.negative_zero_breaks_chain). *)
Theorem honest_history_verifies os l : history l -> attestation_keyset os = Ok ks -> is_empty ks = false ->
  (head_anchor_path os = None \/ l_anchor l <> None) ->
  verify_chain loads os (l_rows l) (l_anchor l) = Ok [] /\
  verify_rows (map ship_row (l_rows l)) (KSet ks) = Ok None.
Proof. apply verified_history. Qed.
End Histories.

#[local] Existing Instance sample_hashes.
#[local] Existing Instance sample_float_repr.
#[local] Existing Instance sample_cns.
#[local] Existing Instance sample_postgres.

(** A process signing with key-A, and after a rotation with key-B. *)
Definition sample_os (env : dict string) : os_view := mkOs env (fun _ => None).
Definition os_before : os_view := sample_os [(ENV_KEY, "key-A"); (HEAD_ANCHOR_ENV, "/anchor")].
Definition os_after : os_view :=
  sample_os [(ENV_KEY, "key-B"); (ENV_KEYS_PREVIOUS, "key-A"); (ENV_KEYS_RETIRED, "key-0");
             (HEAD_ANCHOR_ENV, "/anchor"); (ENV_CONSERVATION_DEV_OVERRIDE, "1")].

Definition sample_decision : GovernanceDecisionRecord :=
  mkDecision "route" "n1" (VStr "sales:v1") (VDict [("call_sid", VStr "CA1")])
    (VDict [("threshold", VInt 3)]) "because" (VDict [("approved", VBool true)]) fzero fzero false
    None None (Some "ops") None None None VNone.

Definition no_loads : string -> result pyexn pyval := fun _ => Err ValueError.
Definition no_boundary : Episode -> GovernanceDecisionRecord -> list EventV1 -> boundary_verdict :=
  fun _ _ _ => BoundaryRejected.

Definition run_sample := run no_loads no_boundary.
Definition ledger_1 : ledger := run_sample os_before "t1" true w_marker empty_ledger.
Definition ledger_2 : ledger :=
  run_sample os_before "t2" true (w_bind "sales:v1" "c0de" None (Some "ops")) ledger_1.
Definition ledger_3 : ledger :=
  run_sample os_after "t3" true (w_decision sample_decision None [ev_start; ev_claim] None) ledger_2.

Lemma sample_production os : attestation_key os = Ok (Some "key-A") \/ attestation_key os = Ok (Some "key-B") ->
  production sample_keys os.
Proof.
  intros [Hk|Hk]; [exists "key-A"|exists "key-B"]; (split; [exact Hk|]);
    (split; [reflexivity|split; [|apply sample_fp; set_solver]]);
    change (ks_trusted sample_keys) with ["key-B"; "key-A"]; set_solver.
Qed.

Lemma sample_history : history no_loads no_boundary sample_keys ledger_3.
Proof.
  assert (Ha : production sample_keys os_before) by (apply sample_production; left; vm_compute; reflexivity).
  assert (Hb : production sample_keys os_after) by (apply sample_production; right; vm_compute; reflexivity).
  apply history_storable; [|exact Hb|reflexivity|vm_compute; reflexivity].
  apply history_storable; [|exact Ha|exact I|vm_compute; reflexivity].
  apply history_storable; [|exact Ha|exact I|vm_compute; reflexivity].
  apply history_empty.
Qed.

Lemma honest_history_verifies_witness :
  length (l_rows ledger_3) = 5%nat /\
  verify_chain no_loads os_after (l_rows ledger_3) (l_anchor ledger_3) = Ok [] /\
  verify_rows (map ship_row (l_rows ledger_3)) (KSet sample_keys) = Ok None.
Proof.
  split; [vm_compute; reflexivity|].
  apply (honest_history_verifies no_loads no_boundary sample_keys os_after ledger_3 sample_history);
    [vm_compute; reflexivity..|].
  right. vm_compute. discriminate.
Defined.
