(* ===== verification/LedgerTamper.v ===== *)
(** * LedgerTamper: what a verified chain commits to

    Two chains that verify, have the same length and end in the same head
    record the same content in every row, unless SHA-256 collides; rows after
    the enforcement marker must be signed; and what verify_chain does not see:
    an emptied table, and optional columns a record kind does not hash. *)

From S2P Require Import Prelude PyFloat PyValue Episode Event Json Canonical Attestation HeadAnchor LedgerDb Ledger LedgerVerify Witness LedgerForms LedgerSound LedgerWrites LedgerHistory.
Local Open Scope string_scope.

Section Tamper.
Context `{FloatRepr} `{!Hashes} `{!Cns}.
Variable loads : string -> result pyexn pyval.

Lemma data_fields_inv r keys d : keys <> [] -> data_fields loads r keys = Ok d ->
  exists dd, d = fields_of dd keys.
Proof.
  intros Hk. unfold data_fields. destruct (as_json loads _) as [v|]; [|done]. cbn [mbind result_bind].
  destruct keys as [|k keys]; [done|]. destruct v; try done. intros [= <-]. eauto.
Qed.

Definition linked (r : row) (c : dict pyval) : Prop :=
  NoDup (dkeys c) /\ vget c "previous_hash" = vget r "previous_hash".

Lemma linked_apply r c s : linked r c -> linked r (apply_optional_hashed_fields c s).
Proof.
  intros [Hn Hp]. split; [by apply NoDup_apply_optional|]. rewrite <- Hp. unfold vget, apply_optional_hashed_fields.
  by rewrite dget_apply_optional.
Qed.

Lemma linked_dset r c : NoDup (dkeys c) -> linked r (dset c "previous_hash" (vget r "previous_hash")).
Proof. intros Hn. split; [by apply NoDup_dset|]. unfold vget at 1. by rewrite dget_dset_eq. Qed.

Ltac take_docs Hc :=
  repeat match type of Hc with
  | context [as_json loads ?v ≫= _] => destruct (as_json loads v); [|discriminate Hc]; cbn [mbind result_bind] in Hc
  end.
Ltac take_data Hc :=
  match type of Hc with
  | (data_fields loads ?r ?ks ≫= _) = _ =>
      let d := fresh "d" in let E := fresh "E" in
      destruct (data_fields loads r ks) as [d|] eqn:E; [|discriminate Hc];
      apply data_fields_inv in E as [? ->]; [|discriminate]; cbn [mbind result_bind] in Hc
  end.
Ltac take_dict Hc :=
  match type of Hc with
  | (or_dict ?v ≫= _) = _ => destruct (or_dict v); [|discriminate Hc]; cbn [mbind result_bind] in Hc
  end.
Ltac entry Hc := injection Hc as <-; apply linked_apply; split; [nodup_keys|reflexivity].

Lemma contract_linked r c : kind_in r (dkeys CONTRACT_CANONICAL_FIELDS) = true ->
  canonical_of_row loads r = Ok c -> linked r c.
Proof.
  intros Hk Hc. apply kind_in_cases in Hk as (k & Hr & Hk). unfold canonical_of_row, kind_in in Hc.
  rewrite Hr in Hc. simpl in Hk.
  repeat (apply elem_of_cons in Hk as [->|Hk]; [simpl in Hc; take_docs Hc; take_dict Hc; take_docs Hc; entry Hc|]).
  by apply elem_of_nil in Hk.
Qed.

Lemma decision_linked r c : kind_in r ["governance_decision"] = true ->
  canonical_of_row loads r = Ok c -> linked r c.
Proof.
  intros Hk Hc. unfold canonical_of_row in Hc. rewrite Hk in Hc. take_docs Hc.
  match type of Hc with context [match ?v with VDict _ => _ | _ => _ end] => destruct v; try discriminate Hc end. cbn [mbind result_bind] in Hc. take_docs Hc. entry Hc.
Qed.

Lemma canonical_linked r c : canonical_of_row loads r = Ok c -> linked r c.
Proof.
  intros Hc. destruct (kind_in r ["governance_decision"]) eqn:K1; [by apply decision_linked|].
  destruct (kind_in r (dkeys CONTRACT_CANONICAL_FIELDS)) eqn:K6; [by apply contract_linked|].
  unfold canonical_of_row in Hc. rewrite K1, K6 in Hc.
  destruct (kind_in r ["cassette_binding"]); [entry Hc|].
  destruct (kind_in r ["regulatory_cassette_inserted"; "regulatory_cassette_removed"]).
  { take_data Hc. entry Hc. }
  destruct (kind_in r ["regulatory_disclosure"]); [take_data Hc; take_docs Hc; entry Hc|].
  destruct (kind_in r ["outcome_harm_event"]); [take_data Hc; take_docs Hc; entry Hc|].
  destruct (kind_in r ["decision_supersession"]); [take_docs Hc; entry Hc|].
  destruct (kind_in r ["recommendation_shadow_run"]); [take_data Hc; take_docs Hc; entry Hc|].
  destruct (kind_in r ["recommendation_shadow_score"]); [take_docs Hc; entry Hc|].
  destruct (kind_in r ["human_selection"]); [take_data Hc; take_docs Hc; entry Hc|].
  destruct (kind_in r ["observed_event"]).
  { take_docs Hc. take_dict Hc. injection Hc as <-. apply linked_dset, NoDup_copy_keys. nodup_keys. }
  destruct (kind_in r [ATTESTATION_POLICY_RECORD_KIND]).
  { take_docs Hc. take_dict Hc. injection Hc as <-. apply linked_dset, NoDup_dset, NoDup_copy_keys. nodup_keys. }
  take_docs Hc. injection Hc as <-. split; [nodup_keys|reflexivity].
Qed.

Lemma signed_linked r c : linked r c -> linked r (signed_entry c r).
Proof. apply linked_apply. Qed.

(* ------------------------------------------------------------------ *)
(** ** What no violation means *)

(** Rows linked and hashed as their columns say. *)
Inductive chained : pyval -> list row -> Prop :=
| chained_nil prev : chained prev []
| chained_cons prev r c rows :
    vget r "previous_hash" = prev -> canonical_of_row loads r = Ok c ->
    vget r "current_hash" = VStr (hash_entry (signed_entry c r)) ->
    chained (vget r "current_hash") rows -> chained prev (r :: rows).

Lemma then_nil a b : fst (then_ a b) = [] -> fst a = [] /\ (snd a = Ok tt -> fst b = []).
Proof.
  destruct a as [vs [[]|e]]; simpl; [|done]. intros E. apply app_eq_nil in E as [-> ->]. done.
Qed.

Lemma then_silent a b : then_ a b = ([], Ok tt) -> a = ([], Ok tt) /\ b = ([], Ok tt).
Proof.
  destruct a as [vs [[]|e]], b as [vs' res]; simpl; [|done]. intros [= E ->].
  apply app_eq_nil in E as [-> ->]. done.
Qed.

Lemma check_row_hashed ks enforced r policy : check_row loads ks enforced r policy = ([], Ok tt) ->
  exists c, canonical_of_row loads r = Ok c /\ vget r "current_hash" = VStr (hash_entry (signed_entry c r)).
Proof.
  unfold check_row. destruct (canonical_of_row loads r) as [c|]; [|done]. cbn [with_]. intros Hc.
  exists c. split; [done|]. apply (f_equal fst) in Hc. apply then_nil in Hc as [Hc _].
  unfold report in Hc. cbn [fst] in Hc. destruct (negb _) eqn:E; [done|]. apply negb_false_iff in E.
  by apply py_eq_str_l.
Qed.

(** A step that reports nothing: linked, checked, and the walk moves on. *)
Lemma step_silent ks enforced w r : w_violations (verify_step loads ks enforced w r) = [] ->
  w_violations w = [] /\ py_eq (vget r "previous_hash") (w_prev_hash w) = true /\
  check_row loads ks enforced r (w_policy w) = ([], Ok tt) /\
  w_prev_hash (verify_step loads ks enforced w r) = vget r "current_hash" /\
  w_policy (verify_step loads ks enforced w r) =
    (match w_policy w with
     | None => if kind_in r [ATTESTATION_POLICY_RECORD_KIND] then Some (vget r "id") else None
     | p => p
     end).
Proof.
  unfold verify_step. destruct (then_ _ _) as [vs res] eqn:E. cbn [w_violations w_prev_hash w_policy].
  intros Hw. apply app_eq_nil in Hw as [Hw Hv]. apply map_eq_nil in Hv. apply app_eq_nil in Hv as [-> Hres].
  destruct res as [[]|e]; [|done]. split; [done|]. pose proof E as E'. apply (f_equal fst) in E'.
  apply then_nil in E' as [Hl _]. unfold report in Hl, E. cbn [fst] in Hl.
  destruct (py_eq _ _); [|done]. split; [done|]. cbn [negb then_ fst snd app] in E.
  destruct (check_row loads ks enforced r (w_policy w)) as [vs' res']. cbn in E. injection E as -> ->.
  by destruct (w_policy w).
Qed.

Lemma fold_silent ks enforced rows w :
  w_violations (fold_left (verify_step loads ks enforced) rows w) = [] -> w_violations w = [].
Proof.
  revert w. induction rows as [|r rows IH]; intros w; simpl; [done|]. intros Hv. apply IH in Hv.
  by apply step_silent in Hv as [? _].
Qed.

Lemma walk_chained ks enforced rows w prev : w_prev_hash w = VStr prev ->
  w_violations (fold_left (verify_step loads ks enforced) rows w) = [] ->
  w_violations w = [] /\ chained (VStr prev) rows.
Proof.
  revert w prev. induction rows as [|r rows IH]; intros w prev Hp Hv; [by split; [|constructor]|].
  cbn [fold_left] in Hv.
  pose proof (fold_silent _ _ _ _ Hv) as Hs.
  apply step_silent in Hs as (Hw & Hl & Hc & Hn & _). split; [done|].
  rewrite Hp in Hl. apply py_eq_str_r in Hl.
  destruct (check_row_hashed _ _ _ _ Hc) as (c & Hform & Hh). econstructor; [done..|].
  rewrite Hh in Hn |- *. by apply (IH _ _ Hn).
Qed.

(** What a verified chain holds in each row. *)
Definition same_content (r r' : row) : Prop :=
  exists c c', canonical_of_row loads r = Ok c /\ canonical_of_row loads r' = Ok c' /\
    json_equiv (VDict (signed_entry c r)) (VDict (signed_entry c' r')).

(** The text whose digest is the hash of a row: its canonical entry, signature
    included. *)
Definition hashed_text (r : row) : string :=
  match canonical_of_row loads r with Ok c => dumps default_seps (VDict (signed_entry c r)) | Err _ => "" end.

(** A row of one chain and a row of the other whose hashed texts differ and have
    one digest. *)
Definition collision (rows rows' : list row) : Prop :=
  exists r r', r ∈ rows /\ r' ∈ rows' /\ hashed_text r <> hashed_text r' /\ sha256 (hashed_text r) = sha256 (hashed_text r').

Lemma collision_within rows rows' all all' : (forall r, r ∈ rows -> r ∈ all) -> (forall r, r ∈ rows' -> r ∈ all') ->
  collision rows rows' -> collision all all'.
Proof. intros Ha Ha' (r & r' & Hr & Hr' & Hd & Hs). exists r, r'. auto. Qed.

Lemma collision_sym rows rows' : collision rows rows' -> collision rows' rows.
Proof. intros (r & r' & Hr & Hr' & Hd & Hs). exists r', r. auto. Qed.

Lemma chained_commits rows rows' prev prev' : chained prev rows -> chained prev' rows' ->
  length rows = length rows' -> head_after prev rows = head_after prev' rows' ->
  collision rows rows' \/ json_equiv prev prev' /\ Forall2 same_content rows rows'.
Proof.
  intros Hc. revert prev' rows'. induction Hc as [|prev r c rows Hp Hf Hh Hc IH];
    intros prev' rows' Hc' Hl Hhd; destruct Hc' as [|prev' r' c' rows' Hp' Hf' Hh' Hc']; try done.
  { right. split; [|constructor]. cbn in Hhd. by subst. }
  rewrite !head_after_cons in Hhd. injection Hl as Hl.
  destruct (IH _ _ Hc' Hl Hhd) as [?|[He Hrows]]; [left; eapply collision_within; [..|done]; set_solver|].
  rewrite Hh, Hh' in He. apply json_equiv_str in He. injection He as He. unfold hash_entry in He.
  destruct (String.string_dec (dumps default_seps (VDict (signed_entry c r)))
              (dumps default_seps (VDict (signed_entry c' r')))) as [Hd|Hd].
  2:{ left. exists r, r'. unfold hashed_text. rewrite Hf, Hf'. split_and!; [by left|by left|exact Hd|by symmetry]. }
  apply dumps_inj in Hd. right.
  destruct (signed_linked _ _ (canonical_linked _ _ Hf)) as [Hn Hv].
  destruct (signed_linked _ _ (canonical_linked _ _ Hf')) as [Hn' Hv'].
  split; [|constructor; [by eexists _, _|done]].
  rewrite <- Hp, <- Hp', <- Hv, <- Hv'. by apply json_equiv_vget.
Qed.
Lemma verified_chained os rows anchor : rows <> [] -> verify_chain loads os rows anchor = Ok [] ->
  exists ks, attestation_keyset os = Ok ks /\ chained GENESIS rows /\
    w_violations (verify_walk loads ks (enforcement_required os) rows) = [].
Proof.
  intros Hne. unfold verify_chain. destruct (attestation_keyset os) as [ks|]; [|done].
  cbn [mbind result_bind]. destruct rows as [|r rows]; [done|]. intros Hv. exists ks. split; [done|].
  assert (Hw : w_violations (verify_walk loads ks (enforcement_required os) (r :: rows)) = []).
  { revert Hv. generalize (w_violations (verify_walk loads ks (enforcement_required os) (r :: rows))).
    intros vs. destruct (match head_anchor_path os with Some _ => _ | None => _ end); simpl; [|done].
    intros Hv. injection Hv as Hv. by apply app_eq_nil in Hv as [? _]. }
  split; [|done]. unfold verify_walk in Hw. by apply walk_chained with (prev := "genesis") in Hw as [_ ?].
Qed.

Lemma fold_checked ks enforced rows w :
  w_violations (fold_left (verify_step loads ks enforced) rows w) = [] ->
  Forall (fun r => exists policy, check_row loads ks enforced r policy = ([], Ok tt)) rows.
Proof.
  revert w. induction rows as [|r rows IH]; intros w Hv; [constructor|]. cbn [fold_left] in Hv.
  constructor; [|by eapply IH]. pose proof (fold_silent _ _ _ _ Hv) as Hs.
  apply step_silent in Hs as (_ & _ & Hc & _). eauto.
Qed.

Lemma signed_status ks fr p st : is_empty ks = false ->
  py_true (vget fr "authorized_by") = true -> py_true (vget fr SIGNATURE_FIELD) = true ->
  verify_authorized_by_signature fr (KSet ks) p = Ok st ->
  st = STATUS_OK \/ st = STATUS_RETIRED_KEY \/ st = STATUS_INVALID \/ st = STATUS_UNKNOWN_KEY.
Proof.
  intros Hne Hab Hsig. unfold verify_authorized_by_signature. rewrite Hab, Hsig. cbn [negb as_keyset].
  rewrite Hne.
  assert (Hn : forall fp m d, match_named ks fp m d = Ok st ->
    st = STATUS_OK \/ st = STATUS_RETIRED_KEY \/ st = STATUS_INVALID \/ st = STATUS_UNKNOWN_KEY).
  { intros fp m d. unfold match_named. destruct (trusted_key ks fp); [|destruct (retired_key ks fp)];
      try (destruct (compare_digest _ _) as [[]|]; simpl); try done; intros [= <-]; auto. }
  assert (Ha : forall m d, match_any ks m d = Ok st ->
    st = STATUS_OK \/ st = STATUS_RETIRED_KEY \/ st = STATUS_INVALID \/ st = STATUS_UNKNOWN_KEY).
  { intros m d. unfold match_any. destruct (any_matches (ks_trusted ks) m d) as [[]|]; simpl; [by intros [= <-]; auto| |done].
    destruct (any_matches (ks_retired ks) m d) as [[]|]; simpl; [..|done]; intros [= <-]; auto. }
  destruct (split_envelope _) as [[[tag fp]|] d]; [|apply Ha].
  destruct (String.eqb tag ENVELOPE_TAG_V3); [|apply Hn]. destruct (opt_true p); [apply Hn|].
  intros [= <-]. auto.
Qed.

(** A checked row whose claim is signed has an accepted signature. *)
Lemma check_row_signed ks enforced r policy : is_empty ks = false ->
  check_row loads ks enforced r policy = ([], Ok tt) ->
  py_true (vget r "authorized_by") = true -> py_true (vget r SIGNATURE_FIELD) = true ->
  exists c st, canonical_of_row loads r = Ok c /\ accepted st /\
    verify_authorized_by_signature
      (fields_of r ["authorized_by"; SIGNATURE_FIELD; "previous_hash"; "record_kind"]) (KSet ks)
      (Some (content_prehash c)) = Ok st.
Proof.
  intros Hne Hc Hab Hsig. unfold check_row in Hc. destruct (canonical_of_row loads r) as [c|]; [|done].
  cbn [with_] in Hc. do 3 apply then_silent in Hc as [_ Hc]. apply then_silent in Hc as [Hc _].
  unfold check_signature in Hc. rewrite Hne in Hc.
  destruct (verify_authorized_by_signature _ _ _) as [st|] eqn:E; [|done]. cbn [with_] in Hc.
  exists c, st. split; [done|]. split; [|exact E].
  apply signed_status in E as [->|[->|[->| ->]]]; rewrite ?vget_fields_of; try done; [by left|by right].
Qed.

(** C2 (the head commits to every row): when two non-empty chains of one length
    both verify, under any keys and anchors, and end in the same current_hash,
    then row by row the canonical entries the two recompute (signature
    included) are the same JSON value, or a row of the one and a row of the
    other have different hashed texts with one SHA-256 digest.  Editing any hashed field of any row of a verified chain
    therefore changes the head. *)
Theorem head_commits_to_rows os os' rows rows' anchor anchor' :
  rows <> [] -> length rows = length rows' ->
  verify_chain loads os rows anchor = Ok [] -> verify_chain loads os' rows' anchor' = Ok [] ->
  head_after GENESIS rows = head_after GENESIS rows' ->
  Forall2 same_content rows rows' \/ collision rows rows'.
Proof.
  intros Hne Hl Hv Hv' Hh.
  assert (Hne' : rows' <> []) by (intros ->; by destruct rows).
  destruct (verified_chained _ _ _ Hne Hv) as (_ & _ & Hc & _).
  destruct (verified_chained _ _ _ Hne' Hv') as (_ & _ & Hc' & _).
  destruct (chained_commits _ _ _ _ Hc Hc' Hl Hh) as [?|[_ ?]]; [by right|by left].
Qed.

(* ------------------------------------------------------------------ *)
(** ** Rows after the enforcement marker *)

Definition unsigned_claim (r : row) : bool :=
  py_true (vget r "authorized_by") && negb (py_true (vget r SIGNATURE_FIELD)).

Lemma policy_kept ks enforced rows w : w_policy w <> None ->
  w_violations (fold_left (verify_step loads ks enforced) rows w) = [] ->
  forallb (fun r => negb (unsigned_claim r)) rows = true.
Proof.
  revert w. induction rows as [|r rows IH]; intros w Hp Hv; [done|]. cbn [fold_left] in Hv.
  pose proof (fold_silent _ _ _ _ Hv) as Hs. apply step_silent in Hs as (_ & _ & Hc & _ & Hpol).
  destruct (w_policy w) as [since|] eqn:E; [|done]. cbn [forallb].
  rewrite (IH (verify_step loads ks enforced w r)) by (by rewrite ?Hpol). rewrite andb_true_r.
  unfold check_row in Hc. destruct (canonical_of_row loads r) as [c|]; [|done]. cbn [with_] in Hc.
  do 4 apply then_silent in Hc as [_ Hc]. unfold check_attested, report in Hc. injection Hc as Hc.
  unfold unsigned_claim. by destruct (_ && _).
Qed.

Lemma walk_policy ks enforced before marker after w :
  kind_in marker [ATTESTATION_POLICY_RECORD_KIND] = true ->
  w_violations (fold_left (verify_step loads ks enforced) (before ++ marker :: after) w) = [] ->
  forallb (fun r => negb (unsigned_claim r)) after = true.
Proof.
  intros Hk. rewrite fold_left_app. cbn [fold_left].
  generalize (fold_left (verify_step loads ks enforced) before w). intros w' Hv.
  eapply policy_kept; [|exact Hv]. pose proof (fold_silent _ _ _ _ Hv) as Hs.
  apply step_silent in Hs as (_ & _ & _ & _ & ->). rewrite Hk. by destruct (w_policy w').
Qed.

(** C37 (enforcement starts at the marker): in a chain that verifies, every row
    after an attestation_policy row whose authorized_by names a party carries a
    signature, whether or not keys are configured; with keys configured, that
    signature is one they accept over the row's own party, link, kind and (for a
    v3 signature) content. *)
Theorem marker_enforces_signatures os before marker after anchor ks :
  kind_in marker [ATTESTATION_POLICY_RECORD_KIND] = true ->
  attestation_keyset os = Ok ks ->
  verify_chain loads os (before ++ marker :: after) anchor = Ok [] ->
  Forall (fun r => py_true (vget r "authorized_by") = true ->
    py_true (vget r SIGNATURE_FIELD) = true /\
    (is_empty ks = false -> exists c st, canonical_of_row loads r = Ok c /\ accepted st /\
      verify_authorized_by_signature
        (fields_of r ["authorized_by"; SIGNATURE_FIELD; "previous_hash"; "record_kind"]) (KSet ks)
        (Some (content_prehash c)) = Ok st)) after.
Proof.
  intros Hk Hks Hv. destruct (verified_chained os (before ++ marker :: after) anchor) as (ks' & Hks' & _ & Hw);
    [by destruct before|done|]. rewrite Hks in Hks'. injection Hks' as <-.
  unfold verify_walk in Hw. pose proof (walk_policy _ _ _ _ _ _ Hk Hw) as Hs.
  rewrite fold_left_app in Hw. cbn [fold_left] in Hw.
  assert (Hc := fold_checked _ _ _ _ Hw). apply Forall_forall. intros r Hr Hab.
  rewrite Forall_forall in Hc. destruct (Hc r Hr) as [policy Hrow].
  rewrite forallb_forall in Hs. specialize (Hs r (proj1 (list_elem_of_In _ _) Hr)).
  unfold unsigned_claim in Hs. rewrite Hab in Hs. cbn [andb] in Hs. rewrite negb_involutive in Hs.
  split; [done|]. intros Hne. by eapply check_row_signed.
Qed.

(* ------------------------------------------------------------------ *)
(** ** Cutting the tail *)

(** A cut tail is reported, an emptied table is not: against an anchor
    sealed over [n] entries by a key the verifier trusts, a shorter but
    non-empty chain is reported as truncated, whatever its rows hold; a chain
    with no row left is reported as sound. *)
Theorem cut_tail_reported_unless_emptied os ks p h n k now a rows vs :
  attestation_keyset os = Ok ks -> is_empty ks = false -> head_anchor_path os = Some p ->
  build_head_anchor h (Z.of_nat n) (Some k) now None = Ok a -> signing_key ks k ->
  (length rows < n)%nat -> verify_chain loads os rows (Some (VDict a)) = Ok vs ->
  if (length rows =? 0)%nat then vs = []
  else (VNone, V_truncated (Some (TailMissing (Z.of_nat (length rows)) (Z.of_nat n)))) ∈ vs.
Proof.
  intros Hks Hne Hpath Hb (Hkt & Hin & Hu) Hl. unfold verify_chain. rewrite Hks, Hpath. cbn [mbind result_bind].
  destruct rows as [|r rows]; [by intros [= <-]|]. cbn [length Nat.eqb]. unfold check_anchor.
  rewrite (read_built _ _ _ _ _ _ Hb). unfold check_head_anchor.
  rewrite (verify_built _ _ _ _ _ _ _ Hb Hne Hu). unfold key_status. apply str_mem_spec in Hin. rewrite Hin.
  destruct (build_head_anchor_shape _ _ _ _ _ _ Hb) as (k' & [= <-] & _ & _ & Hen & _).
  cbn [mbind result_bind bool_decide]. rewrite Hen. cbn [mbind result_bind].
  change (negb _) with false. cbv iota. rewrite map_length. cbn [length] in *.
  assert (E1 : (Z.of_nat n <=? 0)%Z = false) by (apply Z.leb_gt; lia).
  assert (E2 : (Z.of_nat (S (length rows)) <? Z.of_nat n)%Z = true) by (apply Z.ltb_lt; lia).
  rewrite E1. unfold row in *. rewrite E2. cbn [mbind result_bind].
  intros [= <-]. apply elem_of_app. right. by apply list_elem_of_singleton.
Qed.
End Tamper.

#[local] Existing Instance sample_hashes.
#[local] Existing Instance sample_float_repr.
#[local] Existing Instance sample_cns.
#[local] Existing Instance sample_postgres.

(** The rows of the sample ledger, computed once. *)
Definition sample_marker : row := Eval vm_compute in List.hd [] (l_rows ledger_3).
Definition sample_after : list row := Eval vm_compute in List.tl (l_rows ledger_3).
Definition sample_anchor : option pyval := Eval vm_compute in l_anchor ledger_3.

Lemma sample_verified :
  verify_chain no_loads os_after (([] ++ sample_marker :: sample_after)%list) sample_anchor = Ok [].
Proof. vm_compute. reflexivity. Qed.

Lemma head_commits_to_rows_witness :
  Forall2 (same_content no_loads) (([] ++ sample_marker :: sample_after)%list) (([] ++ sample_marker :: sample_after)%list)
  \/ collision no_loads (([] ++ sample_marker :: sample_after)%list) (([] ++ sample_marker :: sample_after)%list).
Proof.
  apply (head_commits_to_rows no_loads os_after os_after _ _ sample_anchor sample_anchor);
    [discriminate|reflexivity|exact sample_verified|exact sample_verified|reflexivity].
Defined.

Lemma marker_enforces_signatures_witness :
  Forall (fun r => py_true (vget r "authorized_by") = true ->
    py_true (vget r SIGNATURE_FIELD) = true /\
    (is_empty sample_keys = false -> exists c st, canonical_of_row no_loads r = Ok c /\ accepted st /\
      verify_authorized_by_signature
        (fields_of r ["authorized_by"; SIGNATURE_FIELD; "previous_hash"; "record_kind"]) (KSet sample_keys)
        (Some (content_prehash c)) = Ok st)) sample_after.
Proof.
  apply (marker_enforces_signatures no_loads os_after [] sample_marker sample_after sample_anchor sample_keys);
    [vm_compute; reflexivity..|exact sample_verified].
Defined.

Lemma cut_tail_reported_unless_emptied_witness :
  match build_head_anchor "h" 3 (Some "key-A") "t" None with
  | Ok a => verify_chain no_loads os_after [] (Some (VDict a)) = Ok []
  | Err _ => False
  end.
Proof.
  destruct (build_head_anchor "h" 3 (Some "key-A") "t" None) as [a|] eqn:Hb; [|vm_compute in Hb; discriminate].
  assert (Hk : signing_key sample_keys "key-A").
  { split; [reflexivity|split; [|apply sample_fp; set_solver]].
    change (ks_trusted sample_keys) with ["key-B"; "key-A"]. set_solver. }
  assert (Hks : attestation_keyset os_after = Ok sample_keys) by (vm_compute; reflexivity).
  exact (f_equal Ok (cut_tail_reported_unless_emptied no_loads os_after sample_keys "/anchor" "h" 3 "key-A" "t" a
    [] [] Hks eq_refl eq_refl Hb Hk ltac:(simpl; lia) ltac:(vm_compute; reflexivity))).
Defined.

(* ------------------------------------------------------------------ *)
(** ** What verify_chain does not see *)

Definition ledger_disclosed : ledger :=
  run_sample os_after "t4" true
    (w_disclosure "sales:v1" "GDPR" "retention" "flag" "u1" (VDict [("basis", VStr "x")]) None (Some "ops"))
    ledger_3.

Definition tampered_rows : list row :=
  map (fun r => if kind_in r ["regulatory_disclosure"] then dset r "model_identity" (VStr "other-model") else r)
    (l_rows ledger_disclosed).

(** Uncovered optional columns: a regulatory_disclosure row the program
    wrote, then given a model_identity in the database, still passes
    verify_chain, while the witness reports it as tampered. *)
Theorem uncovered_column_edit_passes :
  tampered_rows <> l_rows ledger_disclosed /\
  verify_chain no_loads os_after tampered_rows (l_anchor ledger_disclosed) = Ok [] /\
  verify_rows (map ship_row tampered_rows) (KSet sample_keys) = Ok (Some (VInt 6, W_TAMPERED)).
Proof. split_and!; [vm_compute; discriminate|vm_compute; reflexivity..]. Qed.

(** A failed anchor write loses the commit's report: with the anchor file
    unwritable, append answers False and append_decision raises although their
    rows are committed; the rows verify. *)
Theorem failed_anchor_hides_commit :
  let '(ok, l) := append os_before "t" false "note" "n" fzero fzero "r" (VDict []) empty_ledger in
  let '(r, l') := transact os_after "t" false
      (append_decision os_after no_boundary sample_decision None [] None) l in
  ok = false /\ length (l_rows l) = 1%nat /\
  r = Err LOs /\ length (l_rows l') = 2%nat /\
  verify_chain no_loads (sample_os [(ENV_KEY, "key-B")]) (l_rows l') None = Ok [].
Proof. vm_compute. split_and!; reflexivity. Qed.

(** PostgreSQL's numeric has no negative zero, so JSONB gives 0.0 back for it. *)
Fixpoint unsigned (v : pyval) : pyval :=
  match v with
  | VFloat (S754_zero _) => VFloat (S754_zero false)
  | VList l => VList (map unsigned l)
  | VDict d => VDict (map (fun kv => (fst kv, unsigned (snd kv))) d)
  | v => v
  end.

#[local] Instance numeric_postgres : Postgres.
Proof.
  refine {| pg_store := fun t v => if storable t v then Some v else
              match t with C_JSONB => if storable t (unsigned v) then Some (unsigned v) else None | _ => None end |}.
  - intros t v Hs. exists v. by rewrite Hs.
  - intros t v w Hn. destruct (storable t v); [by intros [= <-]|]. by destruct t.
  - intros t v w. destruct (storable t v) eqn:E; [intros [= <-]|by destruct t].
    destruct t, v; try done; unfold storable in E; done.
Defined.

(** A value JSONB does not give back as it was breaks an honest chain: the
    append succeeds, and the row it wrote no longer hashes to its own digest. *)
Theorem negative_zero_breaks_chain :
  let '(ok, l) := append (H0 := numeric_postgres) os_after "t" true "note" "n" fzero fzero "r"
                    (VDict [("delta", VFloat (S754_zero true))]) empty_ledger in
  ok = true /\ verify_chain no_loads os_after (l_rows l) (l_anchor l) = Ok [(VInt 1, V_hash_mismatch)].
Proof. vm_compute. split; reflexivity. Qed.
