(* ===== verification/LedgerRefs.v ===== *)
(** * LedgerRefs: the references the writers check

    Some rows name earlier rows, and the writer looks the name up before it
    inserts: a supersession, a human selection and a score name what they are
    about, a decision may name the one it replaces, and a cassette version is
    bound to one content.  That holds of every ledger the writers make.  The
    decision an outcome harm event names is not looked up, as shown at the end. *)

From S2P Require Import Prelude PyFloat PyValue Episode Event Json Canonical Attestation HeadAnchor LedgerDb Ledger LedgerVerify Witness LedgerForms LedgerSound LedgerWrites LedgerHistory LedgerTamper.
Local Open Scope string_scope.

(** Columns are read through [get]: a statement's before the insert, a row's
    after it. *)
Definition names (rows : list row) (kind : string) (hash : pyval) : Prop :=
  exists r, r ∈ rows /\ vget r "record_kind" = VStr kind /\ vget r "current_hash" = hash.

(** What the writers look up.  Columns only: the decision hash an
    outcome_harm_event carries in its data is not among them. *)
Record resolved (rows : list row) (get : string -> pyval) : Prop := {
  rs_binding : get "record_kind" = VStr "cassette_binding" -> forall r, r ∈ rows ->
    vget r "record_kind" = VStr "cassette_binding" ->
    vget r "cassette_version" <> get "cassette_version";
  rs_supersession : get "record_kind" = VStr "decision_supersession" ->
    exists r, r ∈ rows /\ vget r "record_kind" = VStr "governance_decision" /\
      col_is "id" (get "supersedes_id") r = true /\ vget r "current_hash" = get "supersedes_hash";
  rs_selection : get "record_kind" = VStr "human_selection" ->
    names rows "governance_decision" (get "decision_hash");
  rs_score : get "record_kind" = VStr "recommendation_shadow_score" ->
    names rows "recommendation_shadow_run" (get "shadow_run_hash");
  rs_replaces : get "record_kind" = VStr "governance_decision" -> py_true (get "replaces_hash") = true ->
    names rows "governance_decision" (get "replaces_hash");
}.

Definition REFERENCE_COLUMNS : list string :=
  ["record_kind"; "cassette_version"; "supersedes_id"; "supersedes_hash"; "decision_hash";
   "shadow_run_hash"; "replaces_hash"].

Lemma resolved_ext rows get get' : (forall c, c ∈ REFERENCE_COLUMNS -> get c = get' c) ->
  resolved rows get -> resolved rows get'.
Proof.
  intros He [B S L C R].
  assert (Hc : forall c, str_mem c REFERENCE_COLUMNS = true -> get' c = get c)
    by (intros c Hm; symmetry; by apply He, str_mem_spec).
  split; rewrite !Hc by reflexivity; assumption.
Qed.

(** No reference of any other kind of row is looked up. *)
Lemma resolved_other rows get k : get "record_kind" = VStr k ->
  str_mem k ["cassette_binding"; "decision_supersession"; "human_selection";
             "recommendation_shadow_score"; "governance_decision"] = false -> resolved rows get.
Proof. intros Hk Hm. split; rewrite Hk; intros [= ->]; discriminate Hm. Qed.

(** The statements of one plan: only the first may refer to rows. *)
Definition plan_resolved (rows : list row) (stmts : list stmt) : Prop :=
  match stmts with
  | [] => True
  | s :: rest => resolved rows (column_value s) /\
      Forall (fun s => column_value s "record_kind" = VStr "observed_event") rest
  end.

Lemma select_some p rows r : select p rows = Some r -> r ∈ rows /\ p r = true.
Proof. unfold select. intros Hs. apply find_some in Hs as [Hin Hp]. by apply list_elem_of_In in Hin. Qed.

Lemma select_none p rows : select p rows = None -> forall r, r ∈ rows -> p r = false.
Proof. unfold select. intros Hs r Hr. apply (find_none _ _ Hs). by apply list_elem_of_In. Qed.

Lemma col_is_str c s r : col_is c (VStr s) r = true -> vget r c = VStr s.
Proof. apply py_eq_str_r. Qed.

Ltac guards Hw :=
  unfold require_all in Hw;
  repeat (let E := fresh "Eg" in apply refuse_ok in Hw as [E Hw]).

(** The one statement of a chain_row writer. *)
Ltac the_row Hw :=
  match type of Hw with
  | (chain_row ?os ?rows ?kind ?ab ?c ?o ?cols ≫= _) = Ok _ =>
      let E := fresh "Ec" in
      destruct (chain_row os rows kind ab c o cols) as [[?s ?h]|] eqn:E; [|discriminate];
      match goal with Hp : production ?ks os, Hprev : previous_hash_of rows = VStr _ |- _ =>
        apply (chain_row_inv ks os _ _ _ _ _ _ _ _ _ Hp Hprev) in E as (? & ? & _ & _ & -> & _) end;
      cbn [mbind result_bind] in Hw; injection Hw as <- <-; split; [|constructor]
  end.
Ltac other_row Hw k := the_row Hw; apply (resolved_other _ _ k); reflexivity.

Section Refs.
Context `{FloatRepr} `{!Postgres} `{!Hashes} `{!Cns}.
Variable loads : string -> result pyexn pyval.
Variable verify_governed_decision :
  Episode -> GovernanceDecisionRecord -> list EventV1 -> boundary_verdict.
Variable ks : KeySet.

Section Plans.
Variable os : os_view.
Hypothesis Hprod : production ks os.
Variables (rows : list row) (prev : string) (stmts : list stmt).
Hypothesis Hprev : previous_hash_of rows = VStr prev.

Lemma bind_resolved cv ch cch ab ret :
  bind_cassette_version os cv ch cch ab rows = Ok (stmts, ret) -> plan_resolved rows stmts.
Proof.
  intros Hw. unfold bind_cassette_version in Hw. guards Hw.
  destruct (select _ rows) as [r|] eqn:Es; [destruct (_ || _); [discriminate|]; by injection Hw as <- <-|].
  the_row Hw. split; try discriminate. intros _ r Hr Hk Hv.
  pose proof (select_none _ _ Es r Hr) as Hn. unfold col_is in Hn. rewrite Hk, Hv in Hn. cbn in Hn.
  by rewrite String.eqb_refl in Hn.
Qed.

Lemma cassette_event_resolved ev cv ch cch mode reg ab ret :
  record_regulatory_cassette_event os ev cv ch cch mode reg ab rows = Ok (stmts, ret) ->
  plan_resolved rows stmts.
Proof.
  intros Hw. unfold record_regulatory_cassette_event in Hw. guards Hw.
  apply negb_false_iff, str_mem_spec in Eg. change (VStr ab) with (opt_str (Some ab)) in Hw.
  the_row Hw. apply (resolved_other _ _ ev); [reflexivity|].
  repeat (apply elem_of_cons in Eg as [->|Eg]; [reflexivity|]). by apply elem_of_nil in Eg.
Qed.

Lemma score_resolved h actual score ab ret :
  record_recommendation_shadow_score os h actual score ab rows = Ok (stmts, ret) ->
  plan_resolved rows stmts.
Proof.
  intros Hw. unfold record_recommendation_shadow_score in Hw. guards Hw.
  destruct (select _ rows) as [r|] eqn:Es; [|discriminate]. the_row Hw.
  apply select_some in Es as [Hr Es]. apply andb_true_iff in Es as [Eh Ek].
  split; try discriminate. intros _. exists r. split; [done|]. by split; apply col_is_str.
Qed.

Lemma selection_resolved h sel by_ rationale ret :
  record_human_selection os loads h sel by_ rationale rows = Ok (stmts, ret) ->
  plan_resolved rows stmts.
Proof.
  intros Hw. unfold record_human_selection in Hw. guards Hw.
  destruct (select _ rows) as [r|] eqn:Es; [|discriminate].
  destruct (col_is "record_kind" _ r) eqn:Ek; [|discriminate]. cbn [negb] in Hw.
  destruct (lift_ledger _) as [output|]; [|discriminate]. cbn [mbind result_bind] in Hw.
  change (VStr by_) with (opt_str (Some by_)) in Hw. the_row Hw.
  apply select_some in Es as [Hr Eh]. split; try discriminate.
  intros _. exists r. split; [done|]. by split; apply col_is_str.
Qed.

Lemma supersede_resolved sid auth reason out cv ret :
  supersede_decision os sid auth reason out cv rows = Ok (stmts, ret) -> plan_resolved rows stmts.
Proof.
  intros Hw. unfold supersede_decision in Hw. guards Hw.
  destruct (select _ rows) as [r|] eqn:Es; [|discriminate].
  destruct (col_is "record_kind" _ r) eqn:Ek; [|discriminate]. cbn [negb] in Hw.
  change (VStr auth) with (opt_str (Some auth)) in Hw. the_row Hw.
  apply select_some in Es as [Hr Ei]. split; try discriminate.
  intros _. exists r. split_and!; [done|by apply col_is_str|exact Ei|reflexivity].
Qed.

Lemma events_observed bodies h :
  Forall (fun s => column_value s "record_kind" = VStr "observed_event") (event_stmts bodies h).
Proof. revert h. induction bodies as [|b bodies IH]; intros h; constructor; [reflexivity|apply IH]. Qed.

Lemma decision_resolved d snap events episode ret :
  append_decision os verify_governed_decision d snap events episode rows = Ok (stmts, ret) ->
  plan_resolved rows stmts.
Proof.
  unfold append_decision. rewrite Hprev.
  destruct (check_decision d) as [[[input output] sd]|]; [|done]. cbn [mbind result_bind].
  destruct (check_events events) as [bodies|]; [|done]. cbn [mbind result_bind].
  destruct (check_boundary _ _ _ _ _) as [[]|]; [|done]. cbn [mbind result_bind].
  destruct (check_replaces d rows) as [[]|] eqn:Hr; [|done]. cbn [mbind result_bind].
  unfold decision_stmt. destruct (authorized_by_sig _ _ _ _ _) as [sig|]; [|done]. cbn [mbind result_bind].
  intros [= <- <-]. split; [|apply events_observed]. split; try discriminate. intros _.
  match goal with |- py_true (column_value ?s "replaces_hash") = true -> _ =>
    change (column_value s "replaces_hash") with (opt_str (d_replaces_hash d)) end.
  unfold check_replaces in Hr. destruct (d_replaces_hash d) as [h|]; [|done].
  change (py_true (opt_str (Some h))) with (opt_true (Some h)). intros Ht. rewrite Ht in Hr.
  cbn [opt_str] in *. destruct (select _ rows) as [r|] eqn:Es; [|done].
  apply select_some in Es as [Hin Es]. apply andb_true_iff in Es as [Eh Ek].
  exists r. split; [done|]. by split; apply col_is_str.
Qed.
End Plans.
Lemma planned_resolved os now w rows prev stmts : production ks os -> previous_hash_of rows = VStr prev ->
  planned loads verify_governed_decision os now w rows = Ok (stmts, tt) -> plan_resolved rows stmts.
Proof.
  intros Hp Hprev Hw.
  destruct w; apply only_stmts_ok in Hw as [ret Hw];
    try (by eapply bind_resolved); try (by eapply cassette_event_resolved);
    try (by eapply score_resolved); try (by eapply selection_resolved);
    try (by eapply supersede_resolved); try (by eapply decision_resolved).
  - revert Hw. unfold ensure_attestation_policy_marker. destruct (negb _); [by intros [= <- <-]|].
    destruct (lift_ledger _) as [[k|]|]; cbn [mbind result_bind]; [|by intros [= <- <-]|done].
    unfold record_attestation_policy. destruct (py_eq _ _); intros [= <- <-]; [done|].
    split; [by apply (resolved_other _ _ ATTESTATION_POLICY_RECORD_KIND)|constructor].
  - injection Hw as <- <-. split; [by apply (resolved_other _ _ "legacy")|constructor].
  - unfold record_regulatory_disclosure in Hw. guards Hw. other_row Hw "regulatory_disclosure".
  - unfold record_recommendation_shadow_run in Hw. guards Hw. other_row Hw "recommendation_shadow_run".
  - unfold record_outcome_harm_event in Hw. guards Hw. other_row Hw "outcome_harm_event".
  - unfold record_contract_ingest, append_contract_row in Hw. guards Hw. other_row Hw "contract_ingest".
  - unfold record_contract_egress, append_contract_row in Hw. guards Hw. other_row Hw "contract_egress".
  - unfold record_contract_approval, append_contract_row in Hw. guards Hw. other_row Hw "contract_approval".
  - unfold record_contract_deletion, append_contract_row in Hw. guards Hw. other_row Hw "contract_deletion".
Qed.

(* ------------------------------------------------------------------ *)
(** ** The invariant of the table *)

Definition referenced (rows : list row) : Prop :=
  forall before r after, rows = (before ++ r :: after)%list -> resolved before (vget r).

Lemma referenced_snoc rows r : referenced rows -> resolved rows (vget r) -> referenced (rows ++ [r]).
Proof.
  intros Hrows Hr before x after Heq. destruct after as [|y after] using rev_ind.
  - apply app_inj_tail in Heq as [-> ->]. done.
  - rewrite app_comm_cons, app_assoc in Heq. apply app_inj_tail in Heq as [-> _]. by eapply Hrows.
Qed.

Definition scalar_type (t : coltype) : bool :=
  match t with C_VARCHAR _ | C_INTEGER => true | _ => false end.

(** A varchar or integer column is read back as it was written. *)
Lemma stored_reference s id r c : storable_stmt s = true -> store_row id s = Some r ->
  c ∈ REFERENCE_COLUMNS -> column_value s c = vget r c.
Proof.
  intros Hs Hr Hc. assert (Hcol : is_column c = true /\ exists t, (c, t) ∈ LEDGER_COLUMNS /\ scalar_type t = true).
  { assert (Hall : forallb (fun c => is_column c && existsb (fun ct => String.eqb (fst ct) c && scalar_type (snd ct))
      LEDGER_COLUMNS) REFERENCE_COLUMNS = true) by reflexivity.
    rewrite forallb_forall in Hall. specialize (Hall c (proj1 (list_elem_of_In _ _) Hc)).
    apply andb_true_iff in Hall as [Hi Hall]. split; [done|].
    apply existsb_exists in Hall as ([c' t] & Hin & Ht). apply andb_true_iff in Ht as [He Ht].
    apply String.eqb_eq in He. cbn in He, Ht. subst c'. exists t. split; [by apply list_elem_of_In|done]. }
  destruct Hcol as (Hcol & t & Hin & Ht). pose proof (stored_column _ _ _ _ Hs Hr Hcol) as Heq.
  unfold storable_stmt in Hs. rewrite forallb_forall in Hs. specialize (Hs _ (proj1 (list_elem_of_In _ _) Hin)).
  cbn in Hs. destruct (column_value s c) as [| |z| |x| |]; destruct t; try done;
    [symmetry; by apply json_equiv_none..| |symmetry; by apply json_equiv_str].
  unfold json_equiv in Heq. destruct (vget r c); simpl in Heq; congruence.
Qed.

Lemma inserted_referenced stmts rows next rows' : inserted stmts rows next rows' ->
  forallb storable_stmt stmts = true -> plan_resolved rows stmts -> referenced rows -> referenced rows'.
Proof.
  intros Hi. induction Hi as [|s stmts rows next r rows' Hr Hu Hi IH]; intros Hs Hp Hrows; [done|].
  simpl in Hs. apply andb_true_iff in Hs as [Hs Hss]. destruct Hp as [Hp Hrest]. apply IH; [done| |].
  - destruct stmts as [|s' stmts]; [done|]. apply Forall_cons in Hrest as [Hk Hrest]. split; [|done].
    by apply (resolved_other _ _ "observed_event").
  - apply referenced_snoc; [done|]. eapply resolved_ext; [|exact Hp]. intros c. by eapply stored_reference.
Qed.

Lemma history_referenced l : history loads verify_governed_decision ks l -> referenced (l_rows l).
Proof.
  intros Hl. induction Hl as [|l os now io w Hl IH Hp Hty Hst]; [by intros [|]|].
  destruct (sound_head _ _ _ _ (s_rows _ _ _ (history_sound _ _ _ _ Hl))) as [h Hh].
  unfold run. destruct (transact os now io _ l) as [res l'] eqn:Ht. cbn [snd].
  destruct (transact_cases _ _ _ _ _ _ _ Ht) as [[-> _]|(stmts & [] & Hw & _ & Hi & _)]; [done|].
  eapply inserted_referenced; [exact Hi|by apply Hst| |exact IH]. by eapply planned_resolved.
Qed.

(** C5 (checked references resolve): in every ledger made by calls of the
    writers that write values the table gives back as they were, the references
    the writers look up name an earlier row of the right kind: a supersession
    the decision with that id and hash, a human selection and a decision's
    replacement the hash of a decision, a score the hash of a shadow run; and
    no cassette version is bound twice.  The decision an outcome harm event
    names is not among them. *)
Theorem references_resolve l before r after :
  history loads verify_governed_decision ks l -> l_rows l = (before ++ r :: after)%list ->
  resolved before (vget r).
Proof. intros Hl. by apply history_referenced. Qed.
End Refs.

#[local] Existing Instance sample_hashes.
#[local] Existing Instance sample_float_repr.
#[local] Existing Instance sample_cns.
#[local] Existing Instance sample_postgres.

Definition sample_supersession : write :=
  w_supersede 3 "chief" "wrong threshold" (VDict [("approved", VBool false)]) None.

Definition ledger_4 : ledger := run_sample os_after "t4" true sample_supersession ledger_3.

Definition before_supersession : list row := Eval vm_compute in take 5 (l_rows ledger_4).
Definition supersession_row : row := Eval vm_compute in List.last (l_rows ledger_4) [].

Lemma ledger_4_rows : l_rows ledger_4 = (before_supersession ++ supersession_row :: [])%list.
Proof. vm_compute. reflexivity. Qed.

Lemma ledger_4_history : history no_loads no_boundary sample_keys ledger_4.
Proof.
  apply history_storable; [exact sample_history| |exact I|vm_compute; reflexivity].
  apply sample_production. right. vm_compute. reflexivity.
Qed.

Lemma references_resolve_witness :
  resolved before_supersession (vget supersession_row) /\
  vget supersession_row "supersedes_id" = VInt 3.
Proof.
  split; [|reflexivity].
  exact (references_resolve no_loads no_boundary sample_keys ledger_4 before_supersession supersession_row []
    ledger_4_history ledger_4_rows).
Defined.

(** The decision an outcome harm event names is not looked up: on an empty ledger
    the event of a decision that was never recorded is written. *)
Definition harm_of_nothing : ledger :=
  run_sample os_after "t1" true
    (w_harm "sales:v1" "no-such-decision" "denial_reversed_on_appeal" "applicant-1" (VDict [("note", VStr "x")]) None (Some "ops") None)
    empty_ledger.

Theorem harm_points_nowhere :
  map (fun r => (vget r "record_kind", match vget r "data" with VDict d => vget d "harmed_decision" | _ => VNone end))
    (l_rows harm_of_nothing) = [(VStr "outcome_harm_event", VStr "no-such-decision")].
Proof. vm_compute. reflexivity. Qed.
