(* ===== verification/LedgerDecision.v ===== *)
(** * LedgerDecision: recording a governance decision

    What append_decision demands of a decision before anything is written, and
    that the decision row and its observed-event rows are written together. *)

From S2P Require Import Prelude PyFloat PyValue Episode Event Json Canonical Attestation HeadAnchor LedgerDb Ledger LedgerVerify Witness LedgerForms LedgerSound LedgerWrites LedgerHistory LedgerTamper LedgerRefs.
Local Open Scope string_scope.







Section Decision.
Context `{FloatRepr} `{!Postgres} `{!Hashes} `{!Cns}.
Variable verify_governed_decision :
  Episode -> GovernanceDecisionRecord -> list EventV1 -> boundary_verdict.














End Decision.
