(* ===== verification/TwinReceiver.v ===== *)
(** * TwinReceiver: the customer's replica service

    Models src/sentinel_os/twin_receiver.py: registration, the append-only store
    of shipped entries, the custody log, the obligations the twin derives and
    closes, and the cohort reviews.  A handler runs in one database transaction:
    it answers and commits, or raises and rolls back.  Timestamps the server
    stamps on its rows are left out; nothing hashes or compares them. *)

From S2P Require Import Prelude PyFloat PyValue Episode Event Outcome Json Canonical Attestation HeadAnchor LedgerDb Ledger LedgerVerify.
Local Open Scope string_scope.

(** [HTTPException] with its status, or any other exception (answered 500). *)
Inductive http_exn := HTTPException (status : Z) | Unhandled.

Definition lift_http {E A} (r : result E A) : result http_exn A := map_err (fun _ => Unhandled) r.
Definition refuse_http (cond : bool) (status : Z) : result http_exn unit :=
  if cond then Err (HTTPException status) else Ok tt.

(* ------------------------------------------------------------------ *)
(** ** Tables *)

Definition META_COLUMNS : list (string * coltype) :=
  [("site", C_TEXT); ("custody_model", C_TEXT); ("recipient_pub", C_TEXT); ("recipient_fp", C_TEXT);
   ("customer_sign_pub", C_TEXT); ("max_lag_seconds", C_INTEGER); ("retention_days", C_INTEGER);
   ("is_primary_evidence", C_BOOLEAN); ("ship_token", C_TEXT); ("read_token", C_TEXT)].

Definition ENTRY_COLUMNS : list (string * coltype) :=
  [("primary_id", C_BIGINT); ("call_sid", C_TEXT); ("previous_hash", C_TEXT); ("current_hash", C_TEXT);
   ("envelope", C_JSONB); ("outcome_obligation", C_TEXT); ("decided_at", C_FLOAT); ("domain", C_TEXT)].

Definition OBLIGATION_COLUMNS : list (string * coltype) :=
  [("seq", C_INTEGER); ("obligation_id", C_TEXT); ("primary_id", C_BIGINT); ("decision_hash", C_TEXT);
   ("declaration", C_TEXT); ("domain", C_TEXT); ("obligation_kind", C_TEXT); ("opened_at", C_FLOAT);
   ("expected_by", C_FLOAT); ("state", C_TEXT); ("reason_code", C_TEXT); ("resolved_at", C_FLOAT);
   ("resolved_value", C_JSONB); ("resolution_provenance", C_TEXT); ("resolution_method", C_TEXT);
   ("favorable", C_BOOLEAN); ("detail", C_JSONB); ("prev_hash", C_TEXT); ("curr_hash", C_TEXT);
   ("signature", C_TEXT); ("signer_pub", C_TEXT)].

Definition CUSTODY_COLUMNS : list (string * coltype) :=
  [("seq", C_INTEGER); ("event", C_TEXT); ("detail", C_JSONB); ("actor", C_TEXT); ("prev_hash", C_TEXT);
   ("curr_hash", C_TEXT); ("signature", C_TEXT); ("signer_pub", C_TEXT)].

Definition REVIEW_COLUMNS : list (string * coltype) :=
  [("seq", C_INTEGER); ("domain", C_TEXT); ("obligation_kind", C_TEXT); ("total_resolved", C_INTEGER);
   ("dimension_4_cohort_size", C_INTEGER); ("dimension_5_cohort_size", C_INTEGER);
   ("dimension_6_cohort_size", C_INTEGER); ("dimension_4_findings", C_JSONB);
   ("dimension_5_findings", C_JSONB); ("dimension_6_findings", C_JSONB); ("skipped", C_JSONB);
   ("swept_at", C_FLOAT); ("prev_hash", C_TEXT); ("curr_hash", C_TEXT)].

(** The [NOT NULL] columns an INSERT does not leave to their default. *)
Definition META_NOT_NULL : list string :=
  ["site"; "custody_model"; "recipient_pub"; "recipient_fp"; "customer_sign_pub"; "ship_token"].
Definition ENTRY_NOT_NULL : list string := ["primary_id"; "previous_hash"; "current_hash"; "envelope"].
Definition OBLIGATION_NOT_NULL : list string :=
  ["seq"; "obligation_id"; "decision_hash"; "declaration"; "domain"; "obligation_kind"; "opened_at";
   "expected_by"; "state"; "prev_hash"; "curr_hash"].
Definition CUSTODY_NOT_NULL : list string :=
  ["seq"; "event"; "actor"; "prev_hash"; "curr_hash"; "signature"; "signer_pub"].
Definition REVIEW_NOT_NULL : list string :=
  ["seq"; "domain"; "obligation_kind"; "total_resolved"; "dimension_4_cohort_size";
   "dimension_5_cohort_size"; "dimension_6_cohort_size"; "swept_at"; "prev_hash"; "curr_hash"].

(** What one replica holds, each table in the order of its inserts. *)
Record replica := mkReplica {
  r_meta : row;
  r_entries : list row;
  r_obligations : list row;
  r_custody : list row;
  r_reviews : list row;
}.

Abbreviation db := (gmap string replica).

Definition set_entries (r : replica) (l : list row) : replica :=
  mkReplica (r_meta r) l (r_obligations r) (r_custody r) (r_reviews r).
Definition set_obligations (r : replica) (l : list row) : replica :=
  mkReplica (r_meta r) (r_entries r) l (r_custody r) (r_reviews r).
Definition set_custody (r : replica) (l : list row) : replica :=
  mkReplica (r_meta r) (r_entries r) (r_obligations r) l (r_reviews r).
Definition set_reviews (r : replica) (l : list row) : replica :=
  mkReplica (r_meta r) (r_entries r) (r_obligations r) (r_custody r) l.

(** [s.removeprefix(p)] *)
Fixpoint removeprefix (p s : string) : option string :=
  match p, s with
  | EmptyString, _ => Some s
  | String a p, String b s => if Ascii.eqb a b then removeprefix p s else None
  | _, _ => None
  end.

Definition bearer (authorization : option string) : string :=
  let a := or_empty authorization in
  strip (match removeprefix "Bearer " a with Some s => s | None => a end).

(* ------------------------------------------------------------------ *)
(** ** The envelope's shape *)

Definition ENVELOPE_FIELDS : list string := ["v"; "alg"; "epk"; "nonce"; "ct"; "recipient_fp"].

Definition is_b64 (c : ascii) : bool := is_alpha c || is_digit c || Ascii.eqb c "+" || Ascii.eqb c "/".

(** [len(base64.b64decode(s, validate=True))]: the characters are read in
    groups of four; padding closes a group of two or three and must end the
    text; [None] where it raises. *)
Fixpoint b64_scan (s : string) (quad pads : nat) (padding : bool) (n : nat) : option nat :=
  match s with
  | EmptyString => if (quad =? 0)%nat then Some n else None
  | String c s =>
      if Ascii.eqb c "=" then
        if (2 <=? quad)%nat then
          if (4 <=? quad + S pads)%nat then (if str_true s then None else Some n)
          else b64_scan s quad (S pads) true n
        else b64_scan s quad pads true n
      else if negb (is_b64 c) || padding then None
      else match quad with
           | O => b64_scan s 1 0 padding n
           | S O => b64_scan s 2 0 padding (S n)
           | S (S O) => b64_scan s 3 0 padding (S n)
           | _ => b64_scan s 0 0 padding (S n)
           end
  end.

Definition b64_len (s : string) : option nat :=
  match s with
  | String c _ => if Ascii.eqb c "=" then None else b64_scan s 0 0 false 0
  | EmptyString => Some 0%nat
  end.

Section Receiver.
Context `{FloatRepr} `{!Postgres} `{!Hashes}.

Definition b64_field_ok (env : dict pyval) (f : string) : bool :=
  match b64_len (py_str (vget env f)) with
  | None => false
  | Some n =>
      if String.eqb f "epk" then (n =? 32)%nat
      else if String.eqb f "nonce" then (n =? 12)%nat
      else (17 <=? n)%nat
  end.

(** [_structurally_valid_envelope] gave no complaint. *)
Definition structurally_valid_envelope (env : pyval) : bool :=
  match env with
  | VDict env => forallb (dmem env) ENVELOPE_FIELDS && forallb (b64_field_ok env) ["epk"; "nonce"; "ct"]
  | _ => false
  end.

Definition canonical_json (v : pyval) : string := dumps compact_seps v.

(** The columns of an INSERT, [NOT NULL] where listed. *)
Definition insert_row (cols : list (string * coltype)) (not_null : list string) (vals : dict pyval)
    : result http_exn row :=
  match store_columns cols vals with
  | None => Err Unhandled
  | Some r => if forallb (fun c => negb (is_None (vget r c))) not_null then Ok r else Err Unhandled
  end.

(** A request: its answer and the database it commits, or an exception and a
    rollback. *)
Definition in_transaction {A} (h : db -> result http_exn (A * db)) (d : db) : result http_exn A * db :=
  match h d with Ok (a, d') => (Ok a, d') | Err e => (Err e, d) end.

Definition meta_of (d : db) (replica_id : string) : result http_exn replica :=
  match d !! replica_id with Some r => Ok r | None => Err (HTTPException 404) end.

(** Gate of the write routes and of the obligation and review reads. *)
Definition require_ship_token (d : db) (replica_id : string) (authorization : option string)
    : result http_exn replica :=
  r ← meta_of d replica_id;
  _ ← refuse_http (negb (py_eq (VStr (bearer authorization)) (vget (r_meta r) "ship_token"))) 401;
  Ok r.

(** Gate of the other reads; [hmac.compare_digest] raises on text that is not
    ASCII. *)
Definition require_read_token (d : db) (replica_id : string) (authorization : option string)
    : result http_exn replica :=
  r ← meta_of d replica_id;
  let token := bearer authorization in
  let stored := vget (r_meta r) "read_token" in
  if negb (py_true stored) || negb (str_true token) then Err (HTTPException 401)
  else match stored with
       | VStr s => if negb (is_ascii s && is_ascii token) then Err Unhandled
                   else if String.eqb token s then Ok r else Err (HTTPException 401)
       | _ => Err Unhandled
       end.

(* ------------------------------------------------------------------ *)
(** ** Registration *)

Variable site : string.
(** [current_pins()] *)
Variable pins : dict string.
(** The Ed25519 check of a base64 signature under a base64 key; [None] where
    it raises anything but an invalid signature. *)
Variable ed25519_verify : string -> string -> string -> option bool.

Definition REGISTRATION_SIGNED_FIELDS : list string :=
  ["custody_model"; "recipient_pub"; "recipient_fp"; "customer_sign_pub"; "max_lag_seconds";
   "retention_days"; "is_primary_evidence"; "ship_token"; "read_token"].

Definition registration_payload (replica_id : string) (body : dict pyval) : dict pyval :=
  copy_keys REGISTRATION_SIGNED_FIELDS body [("replica_id", VStr replica_id)].

Definition verify_signature (payload : dict pyval) (signature_b64 signer_pub_b64 : string) : option bool :=
  ed25519_verify signer_pub_b64 signature_b64 (canonical_json (VDict payload)).

Definition signed_ok (replica_id : string) (body : dict pyval) (pinned_key : string) : bool :=
  let sig := vget body "registration_signature" in
  match (if py_true sig then sig else VStr "") with
  | VStr s => match verify_signature (registration_payload replica_id body) s pinned_key with
              | Some b => b | None => false end
  | _ => false
  end.

(** [body.get(k, default)] *)
Definition get_or (body : dict pyval) (k : string) (default : pyval) : pyval :=
  match dget body k with Some v => v | None => default end.

(** The answer says whether a replica was created. *)
Definition register (replica_id : string) (body : dict pyval) : db -> result http_exn bool * db :=
  in_transaction (fun d =>
    _ ← refuse_http (existsb (fun f => negb (py_true (vget body f)))
          ["custody_model"; "recipient_pub"; "recipient_fp"; "customer_sign_pub"; "ship_token"]) 422;
    let pinned_key := or_empty (dget pins replica_id) in
    _ ← refuse_http (negb (str_true pinned_key)) 403;
    _ ← refuse_http (negb (py_eq (vget body "customer_sign_pub") (VStr pinned_key))) 403;
    _ ← refuse_http (negb (signed_ok replica_id body pinned_key)) 401;
    max_lag ← lift_http (py_int (get_or body "max_lag_seconds" (VInt 30)));
    retention ← lift_http (py_int (get_or body "retention_days" (VInt 2557)));
    m ← insert_row META_COLUMNS META_NOT_NULL
      [("site", VStr site); ("custody_model", vget body "custody_model");
       ("recipient_pub", vget body "recipient_pub"); ("recipient_fp", vget body "recipient_fp");
       ("customer_sign_pub", vget body "customer_sign_pub"); ("max_lag_seconds", VInt max_lag);
       ("retention_days", VInt retention);
       ("is_primary_evidence", VBool (py_true (get_or body "is_primary_evidence" (VBool false))));
       ("ship_token", vget body "ship_token"); ("read_token", or_none (vget body "read_token"))];
    if negb (py_eq (vget m "custody_model") (VStr "A") || py_eq (vget m "custody_model") (VStr "D"))
    then Err Unhandled else
    match d !! replica_id with
    | None => Ok (true, <[replica_id := mkReplica m [] [] [] []]> d)
    | Some r =>
        let stored_read := vget (r_meta r) "read_token" in
        let supplied_read := or_none (vget body "read_token") in
        let ship_same := String.eqb (py_str (vget (r_meta r) "ship_token")) (py_str (vget body "ship_token")) in
        let read_same := if is_None stored_read || is_None supplied_read
                         then is_None stored_read && is_None supplied_read
                         else String.eqb (py_str stored_read) (py_str supplied_read) in
        _ ← refuse_http (negb (ship_same && read_same)) 409;
        Ok (false, d)
    end).

Definition meta (replica_id : string) (authorization : option string) (d : db) : result http_exn row :=
  r ← require_read_token d replica_id authorization;
  Ok (List.filter (fun kv => negb (str_mem (fst kv) ["ship_token"; "read_token"])) (r_meta r)).

(* ------------------------------------------------------------------ *)
(** ** Entries *)

Inductive store_status := Duplicate | Stored.

Definition find_entry (r : replica) (primary_id : Z) : option row :=
  find (fun e => py_eq (vget e "primary_id") (VInt primary_id)) (r_entries r).

(** A redelivery of what is stored ([decided_at] is not compared). *)
Definition same_entry_content (existing : row) (body : dict pyval) : bool :=
  forallb (fun c => py_eq (vget existing c) (vget body c))
    ["previous_hash"; "current_hash"; "call_sid"; "outcome_obligation"; "domain"] &&
  String.eqb (canonical_json (vget existing "envelope")) (canonical_json (vget body "envelope")).

Definition store_entry (replica_id : string) (body : dict pyval) (authorization : option string)
    : db -> result http_exn store_status * db :=
  in_transaction (fun d =>
    r ← require_ship_token d replica_id authorization;
    _ ← refuse_http (existsb (fun f => negb (dmem body f))
          ["primary_id"; "previous_hash"; "current_hash"; "envelope"]) 422;
    _ ← refuse_http (negb (structurally_valid_envelope (vget body "envelope"))) 422;
    primary_id ← lift_http (py_int (vget body "primary_id"));
    match find_entry r primary_id with
    | Some existing =>
        if same_entry_content existing body then Ok (Duplicate, d) else Err (HTTPException 409)
    | None =>
        e ← insert_row ENTRY_COLUMNS ENTRY_NOT_NULL
          (("primary_id", VInt primary_id) ::
           fields_of body ["call_sid"; "previous_hash"; "current_hash"; "envelope";
                           "outcome_obligation"; "decided_at"; "domain"]);
        Ok (Stored, <[replica_id := set_entries r (r_entries r ++ [e])%list]> d)
    end).

Definition entry_id (e : row) : Z := match vget e "primary_id" with VInt z => z | _ => 0%Z end.

(** [COALESCE(MAX(primary_id),0), COUNT( * )] *)
Definition head (replica_id : string) (authorization : option string) (d : db) : result http_exn (Z * Z) :=
  r ← require_read_token d replica_id authorization;
  let ids := map entry_id (r_entries r) in
  Ok (match ids with [] => 0 | i :: ids => fold_left Z.max ids i end, Z.of_nat (length (r_entries r)))%Z.

Definition by_id (a b : row) : bool := (entry_id a <=? entry_id b)%Z.

(** A negative LIMIT is an error. *)
Definition list_entries (replica_id : string) (after_id limit : Z) (authorization : option string) (d : db)
    : result http_exn (list row) :=
  r ← require_read_token d replica_id authorization;
  let limit := Z.min limit 2000 in
  if (limit <? 0)%Z then Err Unhandled
  else Ok (take (Z.to_nat limit)
             (sort by_id (List.filter (fun e => after_id <? entry_id e)%Z (r_entries r)))).

(* ------------------------------------------------------------------ *)
(** ** The hash chains *)

(** Next [seq] and [prev_hash] of a chain. *)
Definition chain_next (rows : list row) : Z * pyval :=
  match last rows with
  | Some r => (match vget r "seq" with VInt z => z + 1 | _ => 1 end, vget r "curr_hash")%Z
  | None => (1%Z, VStr "genesis")
  end.

Definition payload_hash (payload : dict pyval) : string := sha256 (canonical_json (VDict payload)).

(** [x not in (None, y)] *)
Definition unexpected (x y : pyval) : bool := negb (is_None x) && negb (py_eq x y).

Definition custody_event (replica_id : string) (body : dict pyval) (authorization : option string)
    : db -> result http_exn (Z * string) * db :=
  in_transaction (fun d =>
    _ ← refuse_http (existsb (fun f => negb (dmem body f))
          ["event"; "detail"; "actor"; "signature"; "signer_pub"]) 422;
    r ← require_ship_token d replica_id authorization;
    let '(seq, prev_hash) := chain_next (r_custody r) in
    _ ← refuse_http (unexpected (vget body "seq") (VInt seq) ||
                     unexpected (vget body "prev_hash") prev_hash) 409;
    let curr_hash := payload_hash
      [("replica_id", VStr replica_id); ("seq", VInt seq); ("event", vget body "event");
       ("detail", vget body "detail"); ("actor", vget body "actor"); ("prev_hash", prev_hash)] in
    c ← insert_row CUSTODY_COLUMNS CUSTODY_NOT_NULL
      (("seq", VInt seq) :: fields_of body ["event"; "detail"; "actor"; "signature"; "signer_pub"] ++
       [("prev_hash", prev_hash); ("curr_hash", VStr curr_hash)])%list;
    Ok ((seq, curr_hash), <[replica_id := set_custody r (r_custody r ++ [c])%list]> d)).

Definition custody_log (replica_id : string) (authorization : option string) (d : db)
    : result http_exn (list row) :=
  r ← require_read_token d replica_id authorization; Ok (r_custody r).

(** [_append_obligation] *)
Definition resolution_fields (ob : OutcomeObligation) : dict pyval :=
  [("resolved_at", resolved_at ob); ("resolved_value", resolved_value ob);
   ("resolution_provenance", opt_str (resolution_provenance ob));
   ("resolution_method", opt_str (resolution_method ob)); ("favorable", favorable ob)].

Definition obligation_payload (replica_id : string) (ob : OutcomeObligation) (declaration : pyval)
    (seq : Z) (prev_hash : pyval) : dict pyval :=
  ([("replica_id", VStr replica_id); ("seq", VInt seq); ("obligation_id", VStr (obligation_id ob));
    ("decision_hash", VStr (decision_hash ob)); ("declaration", declaration);
    ("domain", VStr (domain ob)); ("obligation_kind", VStr (obligation_kind ob));
    ("opened_at", opened_at ob); ("expected_by", expected_by ob); ("state", VStr (state ob));
    ("reason_code", opt_str (reason_code ob)); ("prev_hash", prev_hash)] ++
   List.filter (fun kv => negb (is_None (snd kv))) (resolution_fields ob))%list.

Definition append_obligation (replica_id : string) (ob : OutcomeObligation) (primary_id declaration
    signature signer_pub : pyval) (rows : list row) : result http_exn (Z * string * list row) :=
  _ ← lift_http (validate_obligation ob);
  let '(seq, prev_hash) := chain_next rows in
  let curr_hash := payload_hash (obligation_payload replica_id ob declaration seq prev_hash) in
  o ← insert_row OBLIGATION_COLUMNS OBLIGATION_NOT_NULL
    ([("seq", VInt seq); ("obligation_id", VStr (obligation_id ob)); ("primary_id", primary_id);
      ("decision_hash", VStr (decision_hash ob)); ("declaration", declaration);
      ("domain", VStr (domain ob)); ("obligation_kind", VStr (obligation_kind ob));
      ("opened_at", opened_at ob); ("expected_by", expected_by ob); ("state", VStr (state ob));
      ("reason_code", opt_str (reason_code ob)); ("detail", VDict (detail ob));
      ("prev_hash", prev_hash); ("curr_hash", VStr curr_hash); ("signature", signature);
      ("signer_pub", signer_pub)] ++ resolution_fields ob)%list;
  Ok (seq, curr_hash, (rows ++ [o])%list).

(** [_latest_states(...).get(obligation_id)]: the last row with that id. *)
Definition latest_state (rows : list row) (obligation_id : string) : option row :=
  find (fun o => py_eq (vget o "obligation_id") (VStr obligation_id)) (rev rows).

(* ------------------------------------------------------------------ *)
(** ** Deriving the open set *)

Record derive_counts := mkDerived {
  dv_derived : Z;
  dv_skipped : Z;
  dv_unreadable : list row;
  dv_rows : list row;           (* the obligation chain *)
}.

(** One declaring entry; [MaturationRule.parse] raising anything but
    [ValueError] propagates. *)
Definition derive_one (replica_id : string) (acc : derive_counts) (e : row)
    : result http_exn derive_counts :=
  let unreadable := Ok (mkDerived (dv_derived acc) (dv_skipped acc) (dv_unreadable acc ++ [e])%list (dv_rows acc)) in
  match parse (py_str (vget e "outcome_obligation")) with
  | Err ValueError => unreadable
  | Err _ => Err Unhandled
  | Ok rule =>
      if is_None (vget e "decided_at") then unreadable else
      let decision_hash := py_str (vget e "current_hash") in
      let oid := decision_hash +:+ ":" +:+ kind rule in
      match latest_state (dv_rows acc) oid with
      | Some _ => Ok (mkDerived (dv_derived acc) (dv_skipped acc + 1) (dv_unreadable acc) (dv_rows acc))
      | None =>
          ob ← lift_http (open_obligation oid decision_hash
                 (if py_true (vget e "domain") then py_str (vget e "domain") else kind rule)
                 rule (vget e "decided_at") None None);
          '(_, _, rows) ← append_obligation replica_id ob (vget e "primary_id")
                 (vget e "outcome_obligation") VNone VNone (dv_rows acc);
          Ok (mkDerived (dv_derived acc + 1) (dv_skipped acc) (dv_unreadable acc) rows)
      end
  end%Z.

Definition declaring (r : replica) : list row :=
  sort by_id (List.filter (fun e => negb (is_None (vget e "outcome_obligation"))) (r_entries r)).

(** Opened, already known, unreadable, declaring. *)
Definition derive_obligations (replica_id : string) (authorization : option string)
    : db -> result http_exn (Z * Z * list row * Z) * db :=
  in_transaction (fun d =>
    r ← require_ship_token d replica_id authorization;
    let rows := declaring r in
    acc ← foldM (derive_one replica_id) (mkDerived 0 0 [] (r_obligations r)) rows;
    Ok ((dv_derived acc, dv_skipped acc, dv_unreadable acc, Z.of_nat (length rows)),
        <[replica_id := set_obligations r (dv_rows acc)]> d)).

(* ------------------------------------------------------------------ *)
(** ** Transitions *)

(** [float(v or 0.0)] *)
Definition float_or_zero (v : pyval) : pyval := if py_true v then v else VFloat fzero.
Definition str_or_empty (v : pyval) : string := if py_true v then py_str v else "".

(** The obligation rebuilt from its open row. *)
Definition rebuilt (o : row) : result pyexn OutcomeObligation :=
  opened ← to_float (vget o "opened_at");
  expected ← to_float (vget o "expected_by");
  det ← as_dict (if py_true (vget o "detail") then vget o "detail" else VDict []);
  Ok {| obligation_id := py_str (vget o "obligation_id"); decision_hash := py_str (vget o "decision_hash");
        domain := py_str (vget o "domain"); obligation_kind := py_str (vget o "obligation_kind");
        opened_at := VFloat opened; expected_by := VFloat expected; state := OUTCOME_OPEN;
        reason_code := (match vget o "reason_code" with VNone => None | v => Some (py_str v) end);
        resolved_at := VNone; resolved_value := VNone; resolution_provenance := None;
        resolution_method := None; favorable := VNone; subject_id := None; detail := det |}.

Definition transition_exn {A} (r : result outcome_exn A) : result http_exn A :=
  map_err (fun e => match e with OutcomeIntegrityError _ _ => HTTPException 422 | _ => Unhandled end) r.

(** [resolve], [abandon] or [stay_open], as the body asks.  Two bodies are
    outside the model, and raise here where the source may accept them: a
    [method] that is neither text nor null, and a [resolved_value] that is a
    list of pairs, which [dict] turns into a mapping. *)
Definition transitioned (existing : OutcomeObligation) (target_state : string) (body : dict pyval)
    : result http_exn OutcomeObligation :=
  if String.eqb target_state OUTCOME_RESOLVED then
    value ← lift_http (as_dict (if py_true (vget body "resolved_value")
                                then vget body "resolved_value" else VDict []));
    method ← (match vget body "method" with
              | VNone => Ok None | VStr s => Ok (Some s) | _ => Err Unhandled end);
    transition_exn (resolve existing (float_or_zero (vget body "resolved_at")) value
      (str_or_empty (vget body "provenance")) (vget body "favorable") method)
  else if String.eqb target_state OUTCOME_ABANDONED then
    transition_exn (abandon existing (str_or_empty (vget body "reason_code")) (float_or_zero (vget body "at")))
  else transition_exn (stay_open existing (str_or_empty (vget body "reason_code"))).

(** The target state, or a refusal. *)
Definition target_of (body : dict pyval) : result http_exn string :=
  match vget body "state" with
  | VStr s => if str_mem s OUTCOME_STATES then Ok s else Err (HTTPException 422)
  | _ => Err (HTTPException 422)
  end.

(** Up to the append: what the handler decides from the states it reads. *)
Definition transition_read (replica_id oid : string) (body : dict pyval) (authorization : option string)
    (d : db) : result http_exn (OutcomeObligation * row) :=
  target_state ← target_of body;
  r ← require_ship_token d replica_id authorization;
  match latest_state (r_obligations r) oid with
  | None => Err (HTTPException 404)
  | Some current =>
      if negb (py_eq (vget current "state") (VStr OUTCOME_OPEN)) then Err (HTTPException 409) else
      existing ← lift_http (rebuilt current);
      updated ← transitioned existing target_state body;
      Ok (updated, current)
  end.

(** The append, under the chain's advisory lock, of what was decided. *)
Definition transition_append (replica_id : string) (body : dict pyval) (updated : OutcomeObligation)
    (current : row) (d : db) : result http_exn (Z * string * db) :=
  r ← meta_of d replica_id;
  '(seq, curr_hash, rows) ← append_obligation replica_id updated (vget current "primary_id")
    (vget current "declaration") (vget body "signature") (vget body "signer_pub") (r_obligations r);
  Ok (seq, curr_hash, <[replica_id := set_obligations r rows]> d).

Definition transition_obligation (replica_id oid : string) (body : dict pyval)
    (authorization : option string) : db -> result http_exn (Z * string * string * option string) * db :=
  in_transaction (fun d =>
    '(updated, current) ← transition_read replica_id oid body authorization d;
    '(seq, curr_hash, d') ← transition_append replica_id body updated current d;
    Ok ((seq, curr_hash, state updated, reason_code updated), d')).
(* ------------------------------------------------------------------ *)
(** ** Reads over the obligations, and the cohort reviews *)

(** The collation [ORDER BY obligation_id] sorts by. *)
Variable text_leb : string -> string -> bool.

Definition obligation_ids (rows : list row) : list string :=
  fold_left (fun ids o => let i := py_str (vget o "obligation_id") in
    if str_mem i ids then ids else (ids ++ [i])%list) rows [].

Definition latest_states (rows : list row) : list row :=
  omap (latest_state rows) (sort text_leb (obligation_ids rows)).

Definition opened_leb (a b : row) : bool :=
  match vget a "opened_at", vget b "opened_at" with VFloat x, VFloat y => fleb x y | _, _ => true end.

(** [clock > float(expected_by)] on an open row, never a stored flag. *)
Definition row_overdue (clock : float64) (o : row) : result pyexn bool :=
  if py_eq (vget o "state") (VStr OUTCOME_OPEN)
  then expected ← to_float (vget o "expected_by"); Ok (fltb expected clock)
  else Ok false.

Definition list_step (clock : float64) (acc : list row * dict Z) (o : row) : result pyexn (list row * dict Z) :=
  let '(obligations, summary) := acc in
  overdue ← row_overdue clock o;
  let summary := bump summary (py_str (vget o "state")) in
  let summary := if (overdue : bool) then bump summary "overdue" else summary in
  let summary := if py_eq (vget o "state") (VStr OUTCOME_OPEN) && py_true (vget o "reason_code")
                 then bump summary ("open:" +:+ py_str (vget o "reason_code")) else summary in
  Ok ((obligations ++ [dset o "overdue" (VBool overdue)])%list, summary).

Definition list_obligations (replica_id : string) (clock : float64) (authorization : option string) (d : db)
    : result http_exn (list row * dict Z) :=
  r ← require_ship_token d replica_id authorization;
  lift_http (foldM (list_step clock) ([], []) (sort opened_leb (latest_states (r_obligations r)))).

Definition REVIEW_FIELDS : list string :=
  ["domain"; "obligation_kind"; "total_resolved"; "dimension_4_cohort_size"; "dimension_5_cohort_size";
   "dimension_6_cohort_size"; "dimension_4_findings"; "dimension_5_findings"; "dimension_6_findings";
   "skipped"; "swept_at"].

Definition store_cohort_review (replica_id : string) (body : dict pyval) (authorization : option string)
    : db -> result http_exn (Z * string) * db :=
  in_transaction (fun d =>
    _ ← refuse_http (existsb (fun f => negb (dmem body f)) REVIEW_FIELDS) 422;
    r ← require_ship_token d replica_id authorization;
    let '(seq, prev_hash) := chain_next (r_reviews r) in
    let fields := fields_of body REVIEW_FIELDS in
    let curr_hash := payload_hash
      ([("replica_id", VStr replica_id); ("seq", VInt seq)] ++ fields ++ [("prev_hash", prev_hash)])%list in
    c ← insert_row REVIEW_COLUMNS REVIEW_NOT_NULL
      (("seq", VInt seq) :: fields ++ [("prev_hash", prev_hash); ("curr_hash", VStr curr_hash)])%list;
    Ok ((seq, curr_hash), <[replica_id := set_reviews r (r_reviews r ++ [c])%list]> d)).

(** [AND column=%s] when the parameter is given. *)
Definition filter_by (c : string) (v : option string) (rows : list row) : list row :=
  match v with
  | None => rows
  | Some s => List.filter (fun o => py_eq (vget o c) (VStr s)) rows
  end.

Definition list_cohort_reviews (replica_id : string) (domain obligation_kind : option string)
    (authorization : option string) (d : db) : result http_exn (list row) :=
  r ← require_ship_token d replica_id authorization;
  Ok (filter_by "obligation_kind" obligation_kind (filter_by "domain" domain (r_reviews r))).
End Receiver.
