(* ===== verification/TwinSafe.v ===== *)
(** * TwinSafe: what the replica service keeps

    Requests to TwinReceiver one after another: nothing stored is changed or
    removed, the obligation chain is linked and a closed obligation stays
    closed, deriving twice opens nothing new.  And what two transitions at
    once, an unlucky horizon and a redelivery with another time do. *)

From S2P Require Import Prelude PyFloat PyValue Episode Event Outcome Json Canonical Attestation HeadAnchor LedgerDb Ledger LedgerVerify LedgerHistory TwinReceiver.
Local Open Scope string_scope.

Section Replica.
Context `{FloatRepr} `{!Postgres} `{!Hashes}.
(* ------------------------------------------------------------------ *)
(** ** Nothing stored is changed *)

Record extends (r r' : replica) : Prop := {
  ex_meta : r_meta r' = r_meta r;
  ex_entries : r_entries r `prefix_of` r_entries r';
  ex_obligations : r_obligations r `prefix_of` r_obligations r';
  ex_custody : r_custody r `prefix_of` r_custody r';
  ex_reviews : r_reviews r `prefix_of` r_reviews r';
}.

#[local] Instance extends_refl : Reflexive extends.
Proof. intros r. by split. Qed.

Definition authorized (r : replica) (auth : option string) : Prop :=
  py_eq (VStr (bearer auth)) (vget (r_meta r) "ship_token") = true.

(** A handler that may only extend one replica, for the holder of its token. *)
Definition writes_to (rid : string) (auth : option string) (d d' : db) : Prop :=
  d' = d \/ exists r r', d !! rid = Some r /\ authorized r auth /\ extends r r' /\ d' = <[rid := r']> d.

Lemma request_writes {A} rid auth (h : db -> result http_exn (A * db)) d :
  (forall a d', h d = Ok (a, d') -> writes_to rid auth d d') -> writes_to rid auth d (snd (in_transaction h d)).
Proof. intros Hh. unfold in_transaction. destruct (h d) as [[a d']|]; [by eapply Hh|by left]. Qed.

Lemma refuse_http_ok {A} b s (k : unit -> result http_exn A) x :
  (refuse_http b s ≫= k) = Ok x -> b = false /\ k tt = Ok x.
Proof. by destruct b. Qed.

Lemma ship_token_ok d rid auth r : require_ship_token d rid auth = Ok r ->
  d !! rid = Some r /\ authorized r auth.
Proof.
  unfold require_ship_token, meta_of. destruct (d !! rid) as [r'|]; [|done]. cbn [mbind result_bind].
  intros Hr. apply refuse_http_ok in Hr as [E [= <-]]. by apply negb_false_iff in E.
Qed.

Lemma append_obligation_prefix rid ob p dl sg sp rows seq h rows' :
  append_obligation rid ob p dl sg sp rows = Ok (seq, h, rows') -> exists o, rows' = (rows ++ [o])%list.
Proof.
  unfold append_obligation. intros Ha. bind_ok Ha u E. destruct (chain_next rows) as [s prev].
  bind_ok Ha o E2. injection Ha as _ _ <-. eauto.
Qed.

Lemma derive_one_prefix rid acc e acc' : derive_one rid acc e = Ok acc' -> dv_rows acc `prefix_of` dv_rows acc'.
Proof.
  unfold derive_one. destruct (parse _) as [rule|[]]; try (by intros [= <-]); try done.
  destruct (is_None _); [by intros [= <-]|]. destruct (latest_state _ _); [by intros [= <-]|].
  intros Hd. bind_ok Hd ob E. bind_ok Hd x E2. destruct x as [[seq h] rows]. injection Hd as <-.
  apply append_obligation_prefix in E2 as [o ->]. by exists [o].
Qed.

Lemma derive_fold_prefix rid es acc acc' : foldM (derive_one rid) acc es = Ok acc' ->
  dv_rows acc `prefix_of` dv_rows acc'.
Proof.
  revert acc. induction es as [|e es IH]; intros acc; simpl; [by intros [= <-]|].
  destruct (derive_one rid acc e) as [acc1|] eqn:E; [|done]. intros Hf.
  etransitivity; [by eapply derive_one_prefix|by apply IH].
Qed.


(* ------------------------------------------------------------------ *)
(** ** The obligation chain *)

Lemma insert_row_native cols not_null vals r c t : NoDup (map fst cols) ->
  insert_row cols not_null vals = Ok r -> (c, t) ∈ cols -> native t (column_value vals c) = true ->
  vget r c = column_value vals c.
Proof.
  unfold insert_row. intros Hnd Hi Hin Hn. destruct (store_columns cols vals) as [r'|] eqn:E; [|done].
  destruct (forallb _ _); [|done]. injection Hi as ->.
  by eapply pg_store_native, vget_store_columns.
Qed.

Lemma obligation_columns_nodup : NoDup (map fst OBLIGATION_COLUMNS).
Proof. apply (bool_decide_unpack _). vm_compute. done. Qed.

(** What a row of the chain repeats of the obligation it was written for. *)
Record row_for (ob : OutcomeObligation) (rows : list row) (o : row) : Prop := {
  rf_valid : validate_obligation ob = Ok tt;
  rf_seq : vget o "seq" = VInt (fst (chain_next rows));
  rf_prev : forall s, snd (chain_next rows) = VStr s -> vget o "prev_hash" = VStr s;
  rf_curr : exists s, vget o "curr_hash" = VStr s;
  rf_id : vget o "obligation_id" = VStr (obligation_id ob);
  rf_state : vget o "state" = VStr (state ob);
  rf_reason : vget o "reason_code" = opt_str (reason_code ob);
}.

Lemma append_obligation_row rid ob p dl sg sp rows seq h rows' :
  append_obligation rid ob p dl sg sp rows = Ok (seq, h, rows') ->
  exists o, rows' = (rows ++ [o])%list /\ row_for ob rows o.
Proof.
  unfold append_obligation. intros Ha. bind_ok Ha u E. destruct (chain_next rows) as [s prev] eqn:Ec.
  bind_ok Ha o E2. injection Ha as _ _ <-. exists o. split; [done|].
  assert (Hcol : forall c t, (c, t) ∈ OBLIGATION_COLUMNS ->
    native t (column_value (("seq", VInt s) :: _) c) = true -> vget o c = column_value _ c)
    by (intros c t; apply (insert_row_native _ _ _ _ _ _ obligation_columns_nodup E2)).
  split; rewrite ?Ec; cbn [fst snd].
  - destruct (validate_obligation ob) as [[]|]; [done|discriminate E].
  - by apply (Hcol "seq" C_INTEGER); [set_solver|].
  - intros z ->. by apply (Hcol "prev_hash" C_TEXT); [set_solver|].
  - eexists. by apply (Hcol "curr_hash" C_TEXT); [set_solver|].
  - by apply (Hcol "obligation_id" C_TEXT); [set_solver|].
  - by apply (Hcol "state" C_TEXT); [set_solver|].
  - change (opt_str (reason_code ob)) with (column_value (("reason_code", opt_str (reason_code ob)) :: []) "reason_code").
    apply (Hcol "reason_code" C_TEXT); [set_solver|]. unfold column_value. simpl. by destruct (reason_code ob).
Qed.

(** A chain whose numbers and hashes are linked, where an obligation begins
    open and is appended to only while its last row is open. *)
Inductive ob_chain : list row -> Prop :=
| ob_chain_nil : ob_chain []
| ob_chain_snoc rows o ob : ob_chain rows -> row_for ob rows o ->
    (forall cur, latest_state rows (obligation_id ob) = Some cur -> vget cur "state" = VStr OUTCOME_OPEN) ->
    (latest_state rows (obligation_id ob) = None -> state ob = OUTCOME_OPEN) ->
    ob_chain (rows ++ [o])%list.

Lemma derive_one_chain rid acc e acc' : derive_one rid acc e = Ok acc' ->
  ob_chain (dv_rows acc) -> ob_chain (dv_rows acc').
Proof.
  unfold derive_one. destruct (parse _) as [rule|[]]; try (by intros [= <-]); try done.
  destruct (is_None _); [by intros [= <-]|].
  destruct (latest_state _ _) eqn:El; [by intros [= <-]|].
  intros Hd Hc. bind_ok Hd ob E. bind_ok Hd x E2. destruct x as [[seq h] rows]. injection Hd as <-.
  apply append_obligation_row in E2 as (o & -> & Ho). unfold open_obligation in E.
  destruct (to_float _) as [t|]; [|done]. injection E as <-.
  apply (ob_chain_snoc _ _ _ Hc Ho); cbn [obligation_id state]; [|done].
  rewrite El. done.
Qed.

Lemma derive_fold_chain rid es acc acc' : foldM (derive_one rid) acc es = Ok acc' ->
  ob_chain (dv_rows acc) -> ob_chain (dv_rows acc').
Proof.
  revert acc. induction es as [|e es IH]; intros acc; simpl; [by intros [= <-]|].
  destruct (derive_one rid acc e) as [acc1|] eqn:E; [|done]. intros Hf Hc.
  eapply IH; [done|]. by eapply derive_one_chain.
Qed.

Lemma latest_state_id rows oid o : latest_state rows oid = Some o -> vget o "obligation_id" = VStr oid.
Proof.
  unfold latest_state. intros Hf. apply find_some in Hf as [_ He]. by apply py_eq_str_r.
Qed.

Lemma checked_same ob st reason t value p m f ob' :
  checked (restate ob st reason t value p m f) = Ok ob' -> obligation_id ob' = obligation_id ob.
Proof. intros Hc. apply checked_ok in Hc as [-> _]. done. Qed.

Lemma transitioned_id ob target body ob' : transitioned ob target body = Ok ob' ->
  obligation_id ob' = obligation_id ob.
Proof.
  unfold transitioned, resolve, abandon, stay_open. intros Ht.
  destruct (String.eqb target OUTCOME_RESOLVED); [bind_ok Ht v E; bind_ok Ht m E2|destruct (String.eqb target OUTCOME_ABANDONED)];
    unfold transition_exn in Ht; try (destruct (to_float _) as [t|]; [|done]);
    cbn [lift_outcome map_err mbind result_bind] in Ht;
    (match type of Ht with context [checked ?x] => destruct (checked x) as [ob2|[]] eqn:Ec; try done end);
    injection Ht as <-; by eapply checked_same.
Qed.

Lemma transition_read_ok rid oid body auth d updated current :
  transition_read rid oid body auth d = Ok (updated, current) ->
  exists r, d !! rid = Some r /\ authorized r auth /\ latest_state (r_obligations r) oid = Some current /\
    vget current "state" = VStr OUTCOME_OPEN /\ obligation_id updated = oid.
Proof.
  unfold transition_read. intros Hh. bind_ok Hh target E0. bind_ok Hh r E1. apply ship_token_ok in E1 as [Hr Ht].
  destruct (latest_state _ oid) as [cur|] eqn:El; [|done].
  destruct (py_eq (vget cur "state") (VStr OUTCOME_OPEN)) eqn:Es; [|done]. cbn [negb] in Hh.
  bind_ok Hh ob E2. bind_ok Hh up E3. injection Hh as <- <-. exists r. split_and!; [done|done|done| |].
  - by apply py_eq_str_r.
  - apply transitioned_id in E3 as ->. destruct (rebuilt cur) as [ob'|] eqn:E4; [|done].
    injection E2 as <-. unfold rebuilt in E4. bind_ok E4 a E5. bind_ok E4 b E6. bind_ok E4 c E7. injection E4 as <-. cbn [obligation_id]. by rewrite (latest_state_id _ _ _ El).
Qed.

Lemma request_ind {A} (P : db -> Prop) (h : db -> result http_exn (A * db)) d :
  P d -> (forall a d', h d = Ok (a, d') -> P d') -> P (snd (in_transaction h d)).
Proof. intros Hd Hh. unfold in_transaction. destruct (h d) as [[a d']|]; [by eapply Hh|done]. Qed.

(** The hash a row at index [i] must link to. *)
Definition link_at (rows : list row) (i : nat) : pyval :=
  match i with
  | O => VStr "genesis"
  | S j => match rows !! j with Some p => vget p "curr_hash" | None => VNone end
  end.

Lemma chain_next_at rows : ob_chain rows ->
  fst (chain_next rows) = (Z.of_nat (length rows) + 1)%Z /\ snd (chain_next rows) = link_at rows (length rows) /\
  exists s, link_at rows (length rows) = VStr s.
Proof.
  induction 1 as [|rows o ob Hc (IH1 & IH2 & IH3) Ho _ _]; [split_and!; [done|done|by eexists]|].
  unfold chain_next at 1 2. rewrite last_snoc. cbn [fst snd]. rewrite (rf_seq _ _ _ Ho), IH1, length_app.
  cbn [length]. rewrite Nat.add_1_r. cbn [link_at]. rewrite list_lookup_middle by done.
  split_and!; [lia|done|by apply (rf_curr _ _ _ Ho)].
Qed.

Lemma latest_state_snoc rows o oid : latest_state (rows ++ [o]) oid =
  if py_eq (vget o "obligation_id") (VStr oid) then Some o else latest_state rows oid.
Proof. unfold latest_state. by rewrite rev_app_distr. Qed.

Lemma latest_state_last rows oid cur : latest_state rows oid = Some cur ->
  exists k, rows !! k = Some cur /\
    forall j o, (k < j)%nat -> rows !! j = Some o -> vget o "obligation_id" <> VStr oid.
Proof.
  induction rows as [|o rows IH] using rev_ind; [done|]. rewrite latest_state_snoc.
  destruct (py_eq _ _) eqn:E.
  - intros [= <-]. exists (length rows). rewrite list_lookup_middle by done. split; [done|].
    intros j o' Hj Hl. apply lookup_lt_Some in Hl. rewrite length_app in Hl. simpl in Hl. lia.
  - intros Hl. destruct (IH Hl) as (k & Hk & Hlate). exists k.
    split; [by apply lookup_app_l_Some|]. intros j o' Hj Ho'.
    apply lookup_app_Some in Ho' as [Ho'|[Hge Ho']]; [by eapply Hlate|].
    apply list_lookup_singleton_Some in Ho' as [_ <-]. intros Ho2. by rewrite Ho2, py_eq_str_refl in E.
Qed.

Lemma latest_state_in rows i o oid : rows !! i = Some o -> vget o "obligation_id" = VStr oid ->
  exists cur, latest_state rows oid = Some cur.
Proof.
  revert i. induction rows as [|o' rows IH] using rev_ind; intros i Hi Ho; [done|]. rewrite latest_state_snoc.
  destruct (py_eq _ _) eqn:E; [eauto|]. apply lookup_app_Some in Hi as [Hi|[_ Hi]]; [by eapply IH|].
  apply list_lookup_singleton_Some in Hi as [_ <-]. by rewrite Ho, py_eq_str_refl in E.
Qed.

(** Where a row of the chain stands among the rows before and after it. *)
Record in_cycle (rows : list row) (i : nat) (o : row) : Prop := {
  ic_seq : vget o "seq" = VInt (Z.of_nat i + 1);
  ic_prev : vget o "prev_hash" = link_at rows i;
  ic_state : exists s, vget o "state" = VStr s /\ s ∈ OUTCOME_STATES;
  ic_opens : (forall j o', (j < i)%nat -> rows !! j = Some o' -> vget o' "obligation_id" <> vget o "obligation_id") ->
    vget o "state" = VStr OUTCOME_OPEN;
  ic_closed : vget o "state" <> VStr OUTCOME_OPEN ->
    forall j o', (i < j)%nat -> rows !! j = Some o' -> vget o' "obligation_id" <> vget o "obligation_id";
}.

Lemma valid_state ob : validate_obligation ob = Ok tt -> state ob ∈ OUTCOME_STATES.
Proof.
  intros Hv. apply validate_obligation_iff in Hv as [_ Ha]. unfold OUTCOME_STATES.
  destruct Ha as [E _|v E _|E _]; rewrite E; set_solver.
Qed.

Lemma link_at_app rows rest i : (i <= length rows)%nat -> link_at (rows ++ rest) i = link_at rows i.
Proof. destruct i as [|j]; [done|]. intros Hj. cbn [link_at]. rewrite lookup_app_l; [done|exact Hj]. Qed.

Lemma chain_cycle rows : ob_chain rows -> forall i o, rows !! i = Some o -> in_cycle rows i o.
Proof.
  induction 1 as [|rows o ob Hc IH Ho Hopen Hnew]; intros i o' Hi; [done|].
  apply lookup_app_Some in Hi as [Hi|[Hge Hi]].
  - destruct (IH i o' Hi) as [Hs Hp Hst Hop Hcl]. pose proof (lookup_lt_Some _ _ _ Hi) as Hlt.
    split; [done|by rewrite link_at_app by lia|done| |].
    + intros Hj. apply Hop. intros j oj Hlj Hoj. eapply Hj; [done|]. by apply lookup_app_l_Some.
    + intros Hne j oj Hij Hoj. apply lookup_app_Some in Hoj as [Hoj|[_ Hoj]]; [by eapply Hcl|].
      apply list_lookup_singleton_Some in Hoj as [_ <-]. rewrite (rf_id _ _ _ Ho). intros Heq.
      destruct (latest_state_in rows i o' (obligation_id ob) Hi (eq_sym Heq)) as [cur Hcur].
      pose proof (Hopen cur Hcur) as Hco. pose proof (latest_state_id _ _ _ Hcur) as Hci.
      apply latest_state_last in Hcur as (k & Hk & Hlate).
      destruct (Nat.lt_trichotomy i k) as [Hik|[->|Hki]].
      * eapply Hcl; [done|exact Hik|exact Hk|congruence].
      * congruence.
      * by eapply Hlate.
  - apply list_lookup_singleton_Some in Hi as [Hi0 <-]. assert (i = length rows) as -> by lia.
    destruct (chain_next_at rows Hc) as (Hn1 & Hn2 & [s Hs]).
    split.
    + by rewrite (rf_seq _ _ _ Ho), Hn1.
    + rewrite link_at_app by lia. rewrite Hs. apply (rf_prev _ _ _ Ho). congruence.
    + exists (state ob). split; [apply (rf_state _ _ _ Ho)|]. apply valid_state, (rf_valid _ _ _ Ho).
    + intros Hfirst. rewrite (rf_state _ _ _ Ho). f_equal. apply Hnew.
      destruct (latest_state rows (obligation_id ob)) as [cur|] eqn:El; [|done].
      pose proof (latest_state_id _ _ _ El) as Hci. apply latest_state_last in El as (k & Hk & _).
      pose proof (lookup_lt_Some _ _ _ Hk). exfalso. apply (Hfirst k cur); [done|by apply lookup_app_l_Some|].
      by rewrite Hci, (rf_id _ _ _ Ho).
    + intros _ j oj Hlt Hoj. apply lookup_lt_Some in Hoj. rewrite length_app in Hoj. simpl in Hoj. lia.
Qed.


(* ------------------------------------------------------------------ *)
(** ** Deriving again *)

(** What the open set is after a derivation: the entry is unreadable, or its
    obligation is on the chain. *)
Definition accounted_for (rows : list row) (e : row) : Prop :=
  match parse (py_str (vget e "outcome_obligation")) with
  | Ok rule => is_None (vget e "decided_at") = true \/
      exists cur, latest_state rows (py_str (vget e "current_hash") +:+ ":" +:+ kind rule) = Some cur
  | Err _ => True
  end.

Lemma latest_state_app rows o oid cur : latest_state rows oid = Some cur ->
  exists cur', latest_state (rows ++ [o]) oid = Some cur'.
Proof. intros Hl. rewrite latest_state_snoc. destruct (py_eq _ _); eauto. Qed.

Lemma latest_state_prefix rows rows' oid cur : rows `prefix_of` rows' -> latest_state rows oid = Some cur ->
  exists cur', latest_state rows' oid = Some cur'.
Proof.
  intros [rest ->]. revert cur. induction rest as [|o rest IH] using rev_ind; intros cur Hl.
  - rewrite app_nil_r. eauto.
  - destruct (IH cur Hl) as [cur' Hc]. rewrite app_assoc. by eapply latest_state_app.
Qed.

Lemma accounted_prefix rows rows' e : rows `prefix_of` rows' -> accounted_for rows e -> accounted_for rows' e.
Proof.
  unfold accounted_for. destruct (parse _); [|done]. intros Hp [Hn|[cur Hc]]; [by left|right].
  by eapply latest_state_prefix.
Qed.

(** The three outcomes of an entry. *)
Inductive derived_as (acc acc' : derive_counts) (e : row) : Prop :=
| da_unreadable : acc' = mkDerived (dv_derived acc) (dv_skipped acc) (dv_unreadable acc ++ [e])%list (dv_rows acc) ->
    derived_as acc acc' e
| da_known : acc' = mkDerived (dv_derived acc) (dv_skipped acc + 1) (dv_unreadable acc) (dv_rows acc) ->
    derived_as acc acc' e
| da_opened rows : acc' = mkDerived (dv_derived acc + 1) (dv_skipped acc) (dv_unreadable acc) rows ->
    derived_as acc acc' e.

Lemma derive_one_as rid acc e acc' : derive_one rid acc e = Ok acc' ->
  derived_as acc acc' e /\ accounted_for (dv_rows acc') e.
Proof.
  unfold derive_one, accounted_for. destruct (parse _) as [rule|[]] eqn:Ep; try done;
    try (intros [= <-]; split; [by apply da_unreadable|done]).
  destruct (is_None _) eqn:En; [intros [= <-]; split; [by apply da_unreadable|by left]|].
  destruct (latest_state _ _) as [cur|] eqn:El.
  { intros [= <-]. split; [by apply da_known|]. right. simpl. eauto. }
  intros Hd. bind_ok Hd ob E. bind_ok Hd x E2. destruct x as [[seq h] rows]. injection Hd as <-.
  split; [by eapply da_opened|right]. apply append_obligation_row in E2 as (o & -> & Ho).
  unfold open_obligation in E. destruct (to_float _) as [t|]; [|done]. injection E as <-. cbn [dv_rows].
  rewrite latest_state_snoc, (rf_id _ _ _ Ho), py_eq_str_refl. eauto.
Qed.

Lemma derive_fold_as rid es acc acc' : foldM (derive_one rid) acc es = Ok acc' ->
  Forall (accounted_for (dv_rows acc')) es /\
  (dv_derived acc' + dv_skipped acc' + Z.of_nat (length (dv_unreadable acc')) =
   dv_derived acc + dv_skipped acc + Z.of_nat (length (dv_unreadable acc)) + Z.of_nat (length es))%Z.
Proof.
  revert acc. induction es as [|e es IH]; intros acc; cbn [foldM length]; [intros [= <-]; split; [done|lia]|].
  destruct (derive_one rid acc e) as [acc1|] eqn:E; [|done]. cbn [mbind result_bind]. intros Hf.
  pose proof (derive_fold_prefix _ _ _ _ Hf) as Hp. destruct (IH acc1 Hf) as [Hall Hsum].
  apply derive_one_as in E as [Has Hac]. split; [constructor; [by eapply accounted_prefix|done]|].
  rewrite Hsum. destruct Has as [->| ->|rows ->]; cbn [dv_derived dv_skipped dv_unreadable]; rewrite ?length_app; simpl; lia.
Qed.

(** A second pass over the same entries, on the chain the first one left. *)
Lemma derive_fold_again rid es acc0 acc acc1 rows : foldM (derive_one rid) acc0 es = Ok acc1 ->
  Forall (accounted_for rows) es -> dv_rows acc = rows -> dv_unreadable acc = dv_unreadable acc0 ->
  exists acc2, foldM (derive_one rid) acc es = Ok acc2 /\ dv_rows acc2 = rows /\
    dv_unreadable acc2 = dv_unreadable acc1 /\ dv_derived acc2 = dv_derived acc /\
    (dv_skipped acc2 - dv_skipped acc = dv_derived acc1 - dv_derived acc0 + (dv_skipped acc1 - dv_skipped acc0))%Z.
Proof.
  revert acc0 acc. induction es as [|e es IH]; intros acc0 acc; cbn [foldM].
  { intros [= <-] _ Hr Hu. exists acc. split_and!; try done. lia. }
  destruct (derive_one rid acc0 e) as [acc01|] eqn:E; [|done]. cbn [mbind result_bind].
  intros Hf Hall Hr Hu. apply Forall_cons in Hall as [He Hall].
  assert (exists accb, derive_one rid acc e = Ok accb /\ dv_rows accb = rows /\
      dv_unreadable accb = dv_unreadable acc01 /\ dv_derived accb = dv_derived acc /\
      (dv_skipped accb - dv_skipped acc = dv_derived acc01 - dv_derived acc0 + (dv_skipped acc01 - dv_skipped acc0))%Z)
    as (accb & -> & Hb1 & Hb2 & Hb3 & Hb4).
  { revert E. unfold derive_one, accounted_for in *. destruct (parse _) as [rule|[]]; try done;
      try (intros [= <-]; eexists; split; [done|cbn; rewrite ?Hu; split_and!; [done|done|done|lia]]).
    destruct (is_None _); [intros [= <-]; eexists; split; [done|cbn; rewrite ?Hu; split_and!; [done|done|done|lia]]|].
    destruct He as [?|[cur Hc]]; [done|]. rewrite Hr, Hc. intros E. eexists. split; [done|]. cbn.
    destruct (latest_state (dv_rows acc0) _).
    - injection E as <-. cbn. split_and!; [done|done|done|lia].
    - bind_ok E ob E1. bind_ok E x E2. destruct x as [[seq h] rows']. injection E as <-. cbn.
      split_and!; [done|done|done|lia]. }
  cbn [mbind result_bind]. destruct (IH acc01 accb Hf Hall Hb1 Hb2) as (acc2 & -> & H1' & H2' & H3' & H4').
  exists acc2. split_and!; [done|done|done|congruence|lia].
Qed.

(** C15 (deriving settles): every declaring entry is counted once, as opened,
    already known or unreadable; and deriving again right after opens nothing,
    reports the same unreadable entries and leaves the database as it is. *)
Theorem derive_settles rid auth d d' opened known unreadable n :
  derive_obligations rid auth d = (Ok (opened, known, unreadable, n), d') ->
  (opened + known + Z.of_nat (length unreadable) = n)%Z /\
  derive_obligations rid auth d' = (Ok (0, opened + known, unreadable, n)%Z, d').
Proof.
  unfold derive_obligations at 1, in_transaction. intros Hd.
  destruct (require_ship_token d rid auth) as [r|] eqn:Er; [|done]. cbn [mbind result_bind] in Hd.
  destruct (foldM (derive_one rid) _ (declaring r)) as [acc|] eqn:Ef; [|done]. cbn [mbind result_bind] in Hd.
  injection Hd as <- <- <- <- <-. destruct (derive_fold_as _ _ _ _ Ef) as [Hall Hsum]. cbn in Hsum. split; [lia|].
  unfold derive_obligations, in_transaction. pose proof (ship_token_ok _ _ _ _ Er) as [Hr _].
  unfold require_ship_token, meta_of in *. rewrite Hr in Er. rewrite lookup_insert_eq. cbn [mbind result_bind] in *.
  cbn [r_meta set_obligations r_obligations]. apply refuse_http_ok in Er as [-> _]. cbn [refuse_http mbind result_bind].
  change (r_obligations (set_obligations r (dv_rows acc))) with (dv_rows acc).
  change (declaring (set_obligations r (dv_rows acc))) with (declaring r).
  destruct (derive_fold_again rid (declaring r) (mkDerived 0 0 [] (r_obligations r)) (mkDerived 0 0 [] (dv_rows acc)) acc
    (dv_rows acc) Ef Hall eq_refl eq_refl) as (acc2 & -> & Hr2 & Hu2 & Hd2 & Hs2).
  cbn [mbind result_bind dv_derived dv_skipped] in *. rewrite Hu2, Hr2, Hd2.
  replace (dv_skipped acc2) with (dv_derived acc + dv_skipped acc)%Z by lia.
  unfold set_obligations. cbn. by rewrite insert_insert_eq.
Qed.

(* ------------------------------------------------------------------ *)
(** ** Redelivery *)

Lemma entry_columns_nodup : NoDup (map fst ENTRY_COLUMNS).
Proof. apply (bool_decide_unpack _). vm_compute. done. Qed.

Definition entry_vals (pid : Z) (body : dict pyval) : dict pyval :=
  ("primary_id", VInt pid) ::
  fields_of body ["call_sid"; "previous_hash"; "current_hash"; "envelope"; "outcome_obligation"; "decided_at"; "domain"].

Lemma store_entry_stored rid body auth d d' : store_entry rid body auth d = (Ok Stored, d') ->
  exists r pid e, require_ship_token d rid auth = Ok r /\ py_int (vget body "primary_id") = Ok pid /\
    find_entry r pid = None /\ d' = <[rid := set_entries r (r_entries r ++ [e])%list]> d /\
    existsb (fun f => negb (dmem body f)) ["primary_id"; "previous_hash"; "current_hash"; "envelope"] = false /\
    structurally_valid_envelope (vget body "envelope") = true /\
    insert_row ENTRY_COLUMNS ENTRY_NOT_NULL (entry_vals pid body) = Ok e.
Proof.
  unfold store_entry, in_transaction. intros Hs. destruct (require_ship_token d rid auth) as [r|] eqn:Er; [|done].
  cbn [mbind result_bind] in Hs. destruct (existsb _ _) eqn:Ed; [done|]. cbn [refuse_http mbind result_bind] in Hs.
  destruct (structurally_valid_envelope _) eqn:Ee; [|done]. cbn [negb refuse_http mbind result_bind] in Hs.
  destruct (py_int _) as [pid|] eqn:Ep; [|done]. cbn [lift_http map_err mbind result_bind] in Hs.
  destruct (find_entry r pid) eqn:Ef; [by destruct (same_entry_content _ _)|].
  destruct (insert_row _ _ _) as [e|] eqn:Ei; [|done]. injection Hs as <-.
  exists r, pid, e. by split_and!.
Qed.

(** The columns a redelivery is compared on are kept as they are sent. *)
Definition plain_entry (body : dict pyval) : Prop :=
  Forall (fun c => native C_TEXT (vget body c) = true)
    ["previous_hash"; "current_hash"; "call_sid"; "outcome_obligation"; "domain"] /\
  storable C_JSONB (vget body "envelope") = true.

Lemma entry_row_content pid body e not_null :
  insert_row ENTRY_COLUMNS not_null (entry_vals pid body) = Ok e -> plain_entry body ->
  vget e "primary_id" = VInt pid /\
  (forall c, c ∈ ["previous_hash"; "current_hash"; "call_sid"; "outcome_obligation"; "domain"] ->
     vget e c = vget body c) /\
  json_equiv (vget body "envelope") (vget e "envelope").
Proof.
  intros Hi [Ht Hj]. split_and!.
  - rewrite (insert_row_native _ _ _ _ "primary_id" C_BIGINT entry_columns_nodup Hi); [done|set_solver|done].
  - intros c Hc. rewrite !Forall_cons in Ht. destruct Ht as (T1 & T2 & T3 & T4 & T5 & _).
    rewrite !elem_of_cons, elem_of_nil in Hc.
    destruct Hc as [->|[->|[->|[->|[->|[]]]]]]; rewrite (insert_row_native _ _ _ _ _ C_TEXT entry_columns_nodup Hi);
      solve [done|set_solver].
  - unfold insert_row in Hi. destruct (store_columns _ _) as [r|] eqn:E; [|done].
    destruct (forallb _ _); [|done]. injection Hi as ->.
    pose proof (vget_store_columns _ _ _ "envelope" C_JSONB entry_columns_nodup E ltac:(set_solver)) as Hp.
    destruct (pg_store_ok C_JSONB (vget body "envelope") Hj) as (w & Hw & Heq).
    change (column_value _ "envelope") with (vget body "envelope") in Hp. congruence.
Qed.

(** The stored content of a redelivery compared with what was sent first. *)
Definition same_delivery (body body' : dict pyval) : bool :=
  forallb (fun c => py_eq (vget body c) (vget body' c))
    ["previous_hash"; "current_hash"; "call_sid"; "outcome_obligation"; "domain"] &&
  String.eqb (canonical_json (vget body "envelope")) (canonical_json (vget body' "envelope")).

Lemma forallb_ext_in {A} (f g : A -> bool) l : (forall x, x ∈ l -> f x = g x) -> forallb f l = forallb g l.
Proof. induction l as [|x l IH]; intros Hf; simpl; [done|]. rewrite Hf, IH; [done| |set_solver..]. intros; apply Hf. set_solver. Qed.

Lemma find_app_none {A} (f : A -> bool) l l' : find f l = None -> find f (l ++ l') = find f l'.
Proof. induction l as [|x l IH]; simpl; [done|]. by destruct (f x). Qed.

Lemma find_entry_snoc r (e : row) pid : find_entry r pid = None -> vget e "primary_id" = VInt pid ->
  find_entry (set_entries r (r_entries r ++ [e])) pid = Some e.
Proof.
  unfold find_entry. cbn [r_entries set_entries]. intros Hn He. rewrite (find_app_none _ _ _ Hn). simpl. rewrite He.
  simpl. by rewrite num_eqb_refl_Z.
Qed.

Lemma redelivered rid body auth d d' body' :
  store_entry rid body auth d = (Ok Stored, d') -> plain_entry body ->
  existsb (fun f => negb (dmem body' f)) ["primary_id"; "previous_hash"; "current_hash"; "envelope"] = false ->
  structurally_valid_envelope (vget body' "envelope") = true ->
  vget body' "primary_id" = vget body "primary_id" ->
  store_entry rid body' auth d' =
    ((if same_delivery body body' then Ok Duplicate else Err (HTTPException 409)), d').
Proof.
  intros Hs Hpl Hd' Hv' Hp'. apply store_entry_stored in Hs as (r & pid & e & Hr & Hp & Hf & -> & _ & _ & Hi).
  destruct (entry_row_content _ _ _ _ Hi Hpl) as (He & Hc & Hj).
  unfold store_entry, in_transaction, require_ship_token, meta_of. rewrite lookup_insert_eq. cbn [mbind result_bind].
  pose proof (ship_token_ok _ _ _ _ Hr) as [Hl Ht]. change (r_meta (set_entries r _)) with (r_meta r).
  unfold authorized in Ht. rewrite Ht. cbn [negb refuse_http mbind result_bind]. rewrite Hd', Hv', Hp', Hp.
  cbn [negb refuse_http mbind result_bind lift_http map_err]. rewrite (find_entry_snoc r e pid Hf He).
  replace (same_entry_content e body') with (same_delivery body body'); [by destruct (same_delivery _ _)|].
  unfold same_delivery, same_entry_content, canonical_json. f_equal; [|by rewrite Hj].
  apply forallb_ext_in. intros c Hin. by rewrite Hc.
Qed.

(** Redelivery: after an entry is stored, a well-formed delivery under the
    same [primary_id] never changes the database: it is answered as a
    duplicate when the hashes, the identifiers and the canonical envelope are
    those first sent, whatever its [decided_at], and with 409 otherwise. *)
Theorem redelivery_is_recognised rid body auth d d' body' :
  store_entry rid body auth d = (Ok Stored, d') -> plain_entry body ->
  existsb (fun f => negb (dmem body' f)) ["primary_id"; "previous_hash"; "current_hash"; "envelope"] = false ->
  structurally_valid_envelope (vget body' "envelope") = true ->
  vget body' "primary_id" = vget body "primary_id" ->
  store_entry rid body' auth d' =
    ((if same_delivery body body' then Ok Duplicate else Err (HTTPException 409)), d').
Proof. apply redelivered. Qed.

(* ------------------------------------------------------------------ *)
(** ** Two transitions at once *)

(** Transitions race: the transition handler reads the obligation's state
    before it takes the chain's lock.  Two requests that both read before
    either appends, each closing the obligation, are both recorded: the chain
    ends in two rows that close the same obligation. *)
Theorem concurrent_transitions_close_twice rid oid d b1 a1 u1 c1 s1 h1 d1 b2 a2 u2 c2 s2 h2 d2 :
  transition_read rid oid b1 a1 d = Ok (u1, c1) -> transition_read rid oid b2 a2 d = Ok (u2, c2) ->
  transition_append rid b1 u1 c1 d = Ok (s1, h1, d1) -> transition_append rid b2 u2 c2 d1 = Ok (s2, h2, d2) ->
  exists r rows o1 o2, d2 !! rid = Some r /\ r_obligations r = (rows ++ [o1; o2])%list /\
    vget o1 "obligation_id" = VStr oid /\ vget o1 "state" = VStr (state u1) /\
    vget o2 "obligation_id" = VStr oid /\ vget o2 "state" = VStr (state u2).
Proof.
  intros H1' H2' A1 A2. apply transition_read_ok in H1' as (r & Hr & _ & _ & _ & Hid1).
  apply transition_read_ok in H2' as (r' & Hr' & _ & _ & _ & Hid2).
  unfold transition_append in A1, A2. bind_ok A1 x E1. bind_ok A1 z E2. destruct z as [[q1 k1] rows1].
  injection A1 as _ _ <-. apply append_obligation_row in E2 as (o1 & -> & Ho1).
  unfold meta_of in E1. rewrite Hr in E1. injection E1 as <-.
  bind_ok A2 x E3. bind_ok A2 z E4. destruct z as [[q2 k2] rows2]. injection A2 as _ _ <-.
  unfold meta_of in E3. rewrite lookup_insert_eq in E3. injection E3 as <-.
  apply append_obligation_row in E4 as (o2 & -> & Ho2). cbn [r_obligations set_obligations].
  eexists _, (r_obligations r), o1, o2. rewrite lookup_insert_eq. split; [done|].
  split; [cbn; by rewrite <- app_assoc|]. rewrite (rf_id _ _ _ Ho1), (rf_state _ _ _ Ho1), (rf_id _ _ _ Ho2), (rf_state _ _ _ Ho2).
  by rewrite Hid1, Hid2.
Qed.
End Replica.

Section Requests.
Context `{FloatRepr} `{!Postgres} `{!Hashes}.
Variable ed25519_verify : string -> string -> string -> option bool.

(** A request, with the operator's pins and the site at the time. *)
Inductive twin_request :=
| q_register (site : string) (pins : dict string) (body : dict pyval)
| q_store (body : dict pyval)
| q_custody (body : dict pyval)
| q_derive
| q_transition (oid : string) (body : dict pyval)
| q_review (body : dict pyval).

(** The database after a request on [replica_id] with a token. *)
Definition serve (replica_id : string) (auth : option string) (q : twin_request) (d : db) : db :=
  match q with
  | q_register site pins body => snd (register site pins ed25519_verify replica_id body d)
  | q_store body => snd (store_entry replica_id body auth d)
  | q_custody body => snd (custody_event replica_id body auth d)
  | q_derive => snd (derive_obligations replica_id auth d)
  | q_transition oid body => snd (transition_obligation replica_id oid body auth d)
  | q_review body => snd (store_cohort_review replica_id body auth d)
  end.

Inductive served : db -> Prop :=
| served_empty : served ∅
| served_request d rid auth q : served d -> served (serve rid auth q d).

Lemma serve_writes rid auth q d : (forall s p b, q <> q_register s p b) -> writes_to rid auth d (serve rid auth q d).
Proof.
  intros Hq. destruct q as [s p b|body|body| |oid body|body]; [by destruct (Hq s p b)|..];
    cbn [serve]; apply request_writes; intros a d' Hh.
  - bind_ok Hh r E. apply ship_token_ok in E as [Hr Ht].
    apply refuse_http_ok in Hh as [_ Hh]. apply refuse_http_ok in Hh as [_ Hh]. bind_ok Hh pid E.
    destruct (find_entry r pid) as [ex|]; [destruct (same_entry_content _ _); [|done]; injection Hh as _ <-; by left|].
    bind_ok Hh e E2. injection Hh as _ <-. right. eexists _, _. split_and!; [done|done| |done].
    split; try done. by exists [e].
  - apply refuse_http_ok in Hh as [_ Hh]. bind_ok Hh r E. apply ship_token_ok in E as [Hr Ht].
    destruct (chain_next _) as [seq prev]. apply refuse_http_ok in Hh as [_ Hh]. bind_ok Hh c E2.
    injection Hh as _ <-. right. eexists _, _. split_and!; [done|done| |done]. split; try done. by exists [c].
  - bind_ok Hh r E. apply ship_token_ok in E as [Hr Ht]. bind_ok Hh acc E2. injection Hh as _ <-.
    right. eexists _, _. split_and!; [done|done| |done]. split; try done. by apply derive_fold_prefix in E2.
  - bind_ok Hh x E. destruct x as [updated current]. bind_ok Hh y E2. destruct y as [[seq h] d2]. injection Hh as _ <-.
    unfold transition_read in E. bind_ok E target E0. bind_ok E r0 E1. apply ship_token_ok in E1 as [Hr0 Ht].
    unfold transition_append in E2. bind_ok E2 r E3. bind_ok E2 z E4. destruct z as [[seq' h'] rows].
    injection E2 as _ _ <-. apply append_obligation_prefix in E4 as [o ->].
    unfold meta_of in E3. rewrite Hr0 in E3. injection E3 as ->.
    right. eexists _, _. split_and!; [done|done| |done]. split; try done. by exists [o].
  - apply refuse_http_ok in Hh as [_ Hh]. bind_ok Hh r E. apply ship_token_ok in E as [Hr Ht].
    destruct (chain_next _) as [seq prev]. bind_ok Hh c E2. injection Hh as _ <-.
    right. eexists _, _. split_and!; [done|done| |done]. split; try done. by exists [c].
Qed.

Lemma register_writes rid auth s p b d : d !! rid = None /\
    (exists m vals, insert_row META_COLUMNS META_NOT_NULL vals = Ok m /\
       serve rid auth (q_register s p b) d = <[rid := mkReplica m [] [] [] []]> d) \/
  serve rid auth (q_register s p b) d = d.
Proof.
  cbn [serve]. unfold register, in_transaction. match goal with |- context [match ?m with Ok _ => _ | Err _ => _ end] =>
    destruct m as [[c d']|] eqn:Hh; [|by right] end. cbn [snd].
  do 4 apply refuse_http_ok in Hh as [_ Hh]. bind_ok Hh lag E1. bind_ok Hh ret E2. bind_ok Hh m E3.
  destruct (negb _); [done|]. destruct (d !! rid) as [r|] eqn:Hr.
  - cbv zeta in Hh. apply refuse_http_ok in Hh as [_ [= _ <-]]. by right.
  - injection Hh as _ <-. left. split; [done|]. by eexists _, _.
Qed.

(** C7 (the replica is append-only): whatever request is served, with whatever
    token, every replica keeps its registration, its entries, its obligation
    and custody chains and its reviews as prefixes of what it holds after;
    only a request under a replica's own ship token changes what a registered
    replica holds, and only that replica. *)
Theorem twin_append_only rid auth q d rid' r : d !! rid' = Some r ->
  exists r', serve rid auth q d !! rid' = Some r' /\ extends r r' /\
    (r' = r \/ rid' = rid /\ authorized r auth).
Proof.
  intros Hr. assert (Hsame : exists r', d !! rid' = Some r' /\ extends r r' /\ (r' = r \/ rid' = rid /\ authorized r auth))
    by (exists r; split_and!; [done|done|by left]).
  assert (Hq : (exists s p b, q = q_register s p b) \/ forall s p b, q <> q_register s p b)
    by (destruct q; eauto; by right).
  destruct Hq as [(s & p & b & ->)|Hq].
  - destruct (register_writes rid auth s p b d) as [[Hn (m & vals & _ & ->)]| ->]; [|done].
    rewrite lookup_insert_ne; [done|congruence].
  - destruct (serve_writes rid auth q d Hq) as [->|(r0 & r1 & H0' & Ht & He & ->)]; [done|].
    destruct (decide (rid' = rid)) as [Heq|Hne]; [subst rid'|by rewrite lookup_insert_ne].
    rewrite lookup_insert_eq. rewrite Hr in H0'. injection H0' as <-. exists r1. auto.
Qed.

(** Every replica of the database satisfies [P]. *)
Definition all_replicas (P : replica -> Prop) (d : db) : Prop := forall rid r, d !! rid = Some r -> P r.

(** An obligation that may be appended: its chain is open, or it begins open. *)
Definition appendable (rows : list row) (ob : OutcomeObligation) : Prop :=
  match latest_state rows (obligation_id ob) with
  | Some cur => vget cur "state" = VStr OUTCOME_OPEN
  | None => state ob = OUTCOME_OPEN
  end.

Lemma derive_fold_steps (P : replica -> Prop) rid r es acc acc' :
  (forall r ob p dl sg sp seq h rows, P r -> appendable (r_obligations r) ob ->
     append_obligation rid ob p dl sg sp (r_obligations r) = Ok (seq, h, rows) -> P (set_obligations r rows)) ->
  foldM (derive_one rid) acc es = Ok acc' -> P (set_obligations r (dv_rows acc)) -> P (set_obligations r (dv_rows acc')).
Proof.
  intros Hob. revert acc. induction es as [|e es IH]; intros acc; cbn [foldM]; [by intros [= <-]|].
  destruct (derive_one rid acc e) as [acc1|] eqn:E; [|done]. cbn [mbind result_bind]. intros Hf Hp. apply (IH acc1 Hf).
  revert E. unfold derive_one. destruct (parse _) as [rule|[]]; try (by intros [= <-]); try done.
  destruct (is_None _); [by intros [= <-]|]. destruct (latest_state _ _) eqn:El; [by intros [= <-]|].
  intros Hd. bind_ok Hd ob Eo. bind_ok Hd x E2. destruct x as [[seq h] rows]. injection Hd as <-.
  apply (Hob (set_obligations r (dv_rows acc)) _ _ _ _ _ _ _ _ Hp) in E2; [exact E2|].
  unfold open_obligation in Eo. destruct (to_float _) as [t|]; [|done]. injection Eo as <-.
  unfold appendable. cbn [r_obligations set_obligations obligation_id state]. by rewrite El.
Qed.

(** What a request does to a replica, table by table. *)
Lemma serve_preserves (P : replica -> Prop) rid auth q d :
  (forall m vals, insert_row META_COLUMNS META_NOT_NULL vals = Ok m -> P (mkReplica m [] [] [] [])) ->
  (forall r pid body e, P r -> find_entry r pid = None -> insert_row ENTRY_COLUMNS ENTRY_NOT_NULL (entry_vals pid body) = Ok e ->
     P (set_entries r (r_entries r ++ [e])%list)) ->
  (forall r vals c, P r -> insert_row CUSTODY_COLUMNS CUSTODY_NOT_NULL vals = Ok c -> P (set_custody r (r_custody r ++ [c])%list)) ->
  (forall r vals c, P r -> insert_row REVIEW_COLUMNS REVIEW_NOT_NULL vals = Ok c -> P (set_reviews r (r_reviews r ++ [c])%list)) ->
  (forall r ob p dl sg sp seq h rows, P r -> appendable (r_obligations r) ob ->
     append_obligation rid ob p dl sg sp (r_obligations r) = Ok (seq, h, rows) -> P (set_obligations r rows)) ->
  all_replicas P d -> all_replicas P (serve rid auth q d).
Proof.
  intros Hnew Hent Hcus Hrev Hobl Hd. assert (Hins : forall r0, P r0 -> all_replicas P (<[rid := r0]> d)).
  { intros r0 H0' rid' r. destruct (decide (rid = rid')) as [->|]; [rewrite lookup_insert_eq; by intros [= <-]|].
    rewrite lookup_insert_ne by done. apply Hd. }
  destruct q as [s p b|body|body| |oid body|body].
  { destruct (register_writes rid auth s p b d) as [[_ (m & vals & Hm & ->)]| ->]; [|done]. by eapply Hins, Hnew. }
  all: cbn [serve]; apply (request_ind (all_replicas P)); [done|intros a d' Hh].
  - bind_ok Hh r E. apply ship_token_ok in E as [Hr _].
    do 2 apply refuse_http_ok in Hh as [_ Hh]. bind_ok Hh pid E.
    destruct (find_entry r pid) as [ex|] eqn:Ef; [destruct (same_entry_content _ _); [|done]; by injection Hh as _ <-|].
    bind_ok Hh e E2. injection Hh as _ <-. apply Hins. by eapply Hent; [apply (Hd _ _ Hr)|..].
  - apply refuse_http_ok in Hh as [_ Hh]. bind_ok Hh r E. apply ship_token_ok in E as [Hr _].
    destruct (chain_next _) as [seq prev]. apply refuse_http_ok in Hh as [_ Hh]. bind_ok Hh c E2.
    injection Hh as _ <-. apply Hins. by eapply Hcus; [apply (Hd _ _ Hr)|].
  - bind_ok Hh r E. apply ship_token_ok in E as [Hr _]. bind_ok Hh acc E2. injection Hh as _ <-.
    apply Hins. apply (derive_fold_steps P rid r _ _ _ Hobl E2). destruct r. exact (Hd _ _ Hr).
  - bind_ok Hh x E. destruct x as [updated current]. bind_ok Hh y E2. destruct y as [[seq h] d2]. injection Hh as _ <-.
    apply transition_read_ok in E as (r & Hr & _ & Hl & Hs & Hid).
    unfold transition_append in E2. bind_ok E2 r1 E3. bind_ok E2 z E4. destruct z as [[seq' h'] rows].
    injection E2 as _ _ <-. unfold meta_of in E3. rewrite Hr in E3. injection E3 as <-.
    apply Hins. eapply Hobl; [apply (Hd _ _ Hr)| |exact E4]. unfold appendable. by rewrite Hid, Hl.
  - apply refuse_http_ok in Hh as [_ Hh]. bind_ok Hh r E. apply ship_token_ok in E as [Hr _].
    destruct (chain_next _) as [seq prev]. bind_ok Hh c E2. injection Hh as _ <-. apply Hins.
    by eapply Hrev; [apply (Hd _ _ Hr)|].
Qed.

Lemma served_chain d : served d -> all_replicas (fun r => ob_chain (r_obligations r)) d.
Proof.
  induction 1 as [|d rid auth q Hd IH]; [intros rid r; by rewrite lookup_empty|].
  apply serve_preserves; [intros; apply ob_chain_nil|done..| |exact IH].
  intros r ob p dl sg sp seq h rows Hc Hap Ha. cbn [r_obligations set_obligations].
  apply append_obligation_row in Ha as (o & -> & Ho). unfold appendable in Hap.
  apply (ob_chain_snoc _ _ _ Hc Ho); intros; by simplify_option_eq.
Qed.

(** A row of a table: its columns, each of its type, and none of the
    [NOT NULL] ones missing. *)
Definition typed_row (cols : list (string * coltype)) (not_null : list string) (r : row) : Prop :=
  map fst r = map fst cols /\ Forall (fun ct => cell_typed (snd ct) (vget r (fst ct)) = true) cols /\
  Forall (fun c => vget r c <> VNone) not_null.

Lemma store_columns_keys cols vals r : store_columns cols vals = Some r -> map fst r = map fst cols.
Proof.
  revert r. induction cols as [|[c t] cols IH]; intros r; simpl; [by intros [= <-]|].
  destruct (pg_store _ _); [|done]. destruct (store_columns cols vals); [|done]. intros [= <-]. simpl. f_equal. by apply IH.
Qed.

Lemma insert_row_typed cols nn vals r : NoDup (map fst cols) -> insert_row cols nn vals = Ok r -> typed_row cols nn r.
Proof.
  unfold insert_row. intros Hnd. destruct (store_columns cols vals) as [r'|] eqn:E; [|done].
  destruct (forallb _ nn) eqn:En; [|done]. intros [= <-]. split; [by eapply store_columns_keys|]. split.
  - apply Forall_forall. intros [c t] Hct. simpl. by eapply pg_store_typed, vget_store_columns.
  - apply Forall_forall. intros c Hc Hv. rewrite forallb_forall in En. apply list_elem_of_In in Hc.
    specialize (En c Hc). by rewrite Hv in En.
Qed.

(** Every row of every table of a replica is a row of that table. *)
Definition typed_replica (r : replica) : Prop :=
  typed_row META_COLUMNS META_NOT_NULL (r_meta r) /\
  Forall (typed_row ENTRY_COLUMNS ENTRY_NOT_NULL) (r_entries r) /\
  Forall (typed_row OBLIGATION_COLUMNS OBLIGATION_NOT_NULL) (r_obligations r) /\
  Forall (typed_row CUSTODY_COLUMNS CUSTODY_NOT_NULL) (r_custody r) /\
  Forall (typed_row REVIEW_COLUMNS REVIEW_NOT_NULL) (r_reviews r).

Lemma Forall_snoc {A} (P : A -> Prop) l x : Forall P l -> P x -> Forall P (l ++ [x])%list.
Proof. intros Hl Hx. apply Forall_app. split; [done|]. by constructor; [|constructor]. Qed.

Lemma append_obligation_typed rid ob p dl sg sp rows seq h rows' :
  append_obligation rid ob p dl sg sp rows = Ok (seq, h, rows') ->
  Forall (typed_row OBLIGATION_COLUMNS OBLIGATION_NOT_NULL) rows ->
  Forall (typed_row OBLIGATION_COLUMNS OBLIGATION_NOT_NULL) rows'.
Proof.
  unfold append_obligation. intros Ha Hr. bind_ok Ha u E. destruct (chain_next rows) as [s prev].
  bind_ok Ha o E2. injection Ha as _ _ <-. apply Forall_snoc; [done|].
  by eapply insert_row_typed; [apply obligation_columns_nodup|].
Qed.

Lemma served_typed d : served d -> all_replicas typed_replica d.
Proof.
  induction 1 as [|d rid auth q Hd IH]; [intros rid r; by rewrite lookup_empty|].
  apply serve_preserves; [..|exact IH]; unfold typed_replica;
    cbn [r_meta r_entries r_obligations r_custody r_reviews set_entries set_obligations set_custody set_reviews].
  - intros m vals Hi. split_and!; [|constructor..]. eapply insert_row_typed; [|exact Hi].
    apply (bool_decide_unpack _). vm_compute. done.
  - intros r pid body e (?&?&?&?&?) _ Hi. split_and!; try done. apply Forall_snoc; [done|].
    by eapply insert_row_typed; [apply entry_columns_nodup|].
  - intros r vals c (?&?&?&?&?) Hi. split_and!; try done. apply Forall_snoc; [done|].
    eapply insert_row_typed; [|exact Hi]. apply (bool_decide_unpack _). vm_compute. done.
  - intros r vals c (?&?&?&?&?) Hi. split_and!; try done. apply Forall_snoc; [done|].
    eapply insert_row_typed; [|exact Hi]. apply (bool_decide_unpack _). vm_compute. done.
  - intros r ob p dl sg sp seq h rows (?&?&?&?&?) _ Ha. split_and!; try done. by eapply append_obligation_typed.
Qed.

(** UNIQUE (replica_id, primary_id). *)
Definition unique_ids (r : replica) : Prop :=
  Forall (fun e => exists z, vget e "primary_id" = VInt z) (r_entries r) /\ NoDup (map entry_id (r_entries r)).

Lemma served_unique d : served d -> all_replicas unique_ids d.
Proof.
  induction 1 as [|d rid auth q Hd IH]; [intros rid r; by rewrite lookup_empty|].
  apply serve_preserves; try done; [intros m; split; constructor|].
  intros r pid body e [Hint Hnd] Hf Hi. unfold unique_ids. cbn [r_entries set_entries].
  assert (He : vget e "primary_id" = VInt pid)
    by (rewrite (insert_row_native _ _ _ _ "primary_id" C_BIGINT entry_columns_nodup Hi); [done|set_solver|done]).
  split; [apply Forall_app; split; [done|]; constructor; [eauto|constructor]|].
  rewrite map_app. apply NoDup_app. split_and!; [done| |apply NoDup_singleton].
  intros x Hx Hx'. cbn [map] in Hx'. apply list_elem_of_singleton in Hx' as ->.
  apply list_elem_of_fmap in Hx as (e' & Hee & He'). rewrite Forall_forall in Hint. destruct (Hint e' He') as [z Hz].
  unfold entry_id in Hee. rewrite He, Hz in Hee. subst z.
  apply list_elem_of_In in He'. pose proof (find_none _ _ Hf e' He') as Hn. cbv beta in Hn.
  rewrite Hz in Hn. change (num_eqb (NZ pid) (NZ pid) = false) in Hn. by rewrite num_eqb_refl_Z in Hn.
Qed.

(** C14 (an obligation's life on the replica): in every database requests served
    one after another lead to, the rows of a replica's obligation chain are
    numbered from 1, each links to the hash of the row before it, an
    obligation's first row is open, and no row follows the one that closed
    it. *)
Theorem obligation_life_cycle d rid r i o : served d -> d !! rid = Some r ->
  r_obligations r !! i = Some o -> in_cycle (r_obligations r) i o.
Proof. intros Hd Hr. by apply chain_cycle, (served_chain d Hd rid). Qed.

(** C24 (rows of the replica are typed): in every database requests served one
    after another lead to, each row of each table of a replica has exactly the
    columns of its table, every cell a value its column's type can hold, and
    none of the [NOT NULL] columns empty; no two entries share a primary id,
    each of which is an integer. *)
Theorem replica_rows_typed d rid r : served d -> d !! rid = Some r -> typed_replica r /\ unique_ids r.
Proof. intros Hd Hr. by split; [apply (served_typed d Hd rid)|apply (served_unique d Hd rid)]. Qed.
End Requests.

(* ------------------------------------------------------------------ *)
(** ** Sample requests *)

#[local] Existing Instance sample_hashes.
#[local] Existing Instance sample_float_repr.
#[local] Existing Instance sample_postgres.

(** Every signature is good. *)
Definition any_signature : string -> string -> string -> option bool := fun _ _ _ => Some true.
Definition serve_sample := serve any_signature.

Definition sample_token : option string := Some "Bearer ship-1".
Definition sample_registration : twin_request :=
  q_register "customer" [("r1", "pub")]
    [("custody_model", VStr "A"); ("recipient_pub", VStr "rp"); ("recipient_fp", VStr "rf");
     ("customer_sign_pub", VStr "pub"); ("ship_token", VStr "ship-1"); ("read_token", VStr "read-1");
     ("registration_signature", VStr "sig")].

Definition sample_envelope : pyval :=
  VDict [("v", VInt 1); ("alg", VStr "x25519"); ("epk", VStr "AAAAAAAAAAAAAAAAAAAAAAAAAAAAAAAAAAAAAAAAAAA=");
         ("nonce", VStr "AAAAAAAAAAAAAAAA"); ("ct", VStr "AAAAAAAAAAAAAAAAAAAAAAAA"); ("recipient_fp", VStr "rf")].

Definition sample_delivery (pid : Z) (hash : string) (decided_at : Z) : dict pyval :=
  [("primary_id", VInt pid); ("call_sid", VNone); ("previous_hash", VStr "genesis"); ("current_hash", VStr hash);
   ("envelope", sample_envelope); ("outcome_obligation", VStr "hold@60s");
   ("decided_at", VFloat (f_of_Z decided_at)); ("domain", VStr "bank")].

Definition sample_closing (st : string) : dict pyval :=
  [("state", VStr st); ("resolved_value", VDict [("paid", VBool true)]); ("provenance", VStr PROVENANCE_VERIFIED);
   ("resolved_at", VFloat (f_of_Z 2000)); ("reason_code", VStr REASON_SUBJECT_WITHDREW);
   ("at", VFloat (f_of_Z 2000))].

Definition sample_requests : list twin_request :=
  [sample_registration; q_store (sample_delivery 1 "h1" 1000); q_derive].

Definition serve_all (qs : list twin_request) (d : db) : db :=
  fold_left (fun d q => serve_sample "r1" sample_token q d) qs d.

Lemma serve_all_served qs d : served any_signature d -> served any_signature (serve_all qs d).
Proof. revert d. induction qs as [|q qs IH]; intros d Hd; [done|]. by apply IH, served_request. Qed.

Definition sample_db : db := serve_all sample_requests ∅.
Definition resolved_db : db :=
  serve_all [q_transition "h1:hold" (sample_closing OUTCOME_RESOLVED)] sample_db.
Definition sample_replica (d : db) : replica :=
  match d !! "r1" with Some r => r | None => mkReplica [] [] [] [] [] end.

Lemma twin_append_only_witness :
  exists r', serve_sample "r1" sample_token (q_store (sample_delivery 2 "h2" 1000)) sample_db !! "r1" = Some r' /\
    length (r_entries r') = 2%nat /\ extends (sample_replica sample_db) r'.
Proof.
  assert (Hr : sample_db !! "r1" = Some (sample_replica sample_db)) by (vm_compute; reflexivity).
  destruct (twin_append_only any_signature "r1" sample_token (q_store (sample_delivery 2 "h2" 1000)) sample_db "r1"
    (sample_replica sample_db) Hr) as (r' & Hs & He & _).
  exists r'. split; [exact Hs|]. split; [|exact He].
  assert (Hl : option_map (fun r => length (r_entries r))
    (serve_sample "r1" sample_token (q_store (sample_delivery 2 "h2" 1000)) sample_db !! "r1") = Some 2%nat)
    by (vm_compute; reflexivity).
  unfold serve_sample in Hl. rewrite Hs in Hl. by injection Hl.
Defined.

Lemma obligation_life_cycle_witness :
  exists o, r_obligations (sample_replica resolved_db) !! 1%nat = Some o /\
    vget o "state" = VStr OUTCOME_RESOLVED /\ in_cycle (r_obligations (sample_replica resolved_db)) 1 o.
Proof.
  assert (Hd : served any_signature resolved_db) by apply serve_all_served, serve_all_served, served_empty.
  assert (Hr : resolved_db !! "r1" = Some (sample_replica resolved_db)) by (vm_compute; reflexivity).
  eexists. assert (Ho : r_obligations (sample_replica resolved_db) !! 1%nat = Some _) by (vm_compute; reflexivity).
  split; [exact Ho|]. split; [reflexivity|].
  apply (obligation_life_cycle any_signature resolved_db "r1" _ 1 _ Hd Hr Ho).
Defined.

Lemma replica_rows_typed_witness :
  exists o, r_obligations (sample_replica sample_db) !! 0%nat = Some o /\
    (exists f, vget o "expected_by" = VFloat f) /\ unique_ids (sample_replica sample_db) /\
    typed_row OBLIGATION_COLUMNS OBLIGATION_NOT_NULL o.
Proof.
  assert (Hd : served any_signature sample_db) by apply serve_all_served, served_empty.
  assert (Hr : sample_db !! "r1" = Some (sample_replica sample_db)) by (vm_compute; reflexivity).
  destruct (replica_rows_typed any_signature sample_db "r1" _ Hd Hr) as [(_ & _ & Hobl & _) Hu].
  eexists. assert (Ho : r_obligations (sample_replica sample_db) !! 0%nat = Some _) by (vm_compute; reflexivity).
  split; [exact Ho|]. split; [eexists; reflexivity|]. split; [exact Hu|].
  rewrite Forall_lookup in Hobl. exact (Hobl _ _ Ho).
Defined.

Lemma derive_settles_witness :
  exists d', derive_obligations "r1" sample_token (serve_all (take 2 sample_requests) ∅) = (Ok (1, 0, [], 1)%Z, d') /\
    derive_obligations "r1" sample_token d' = (Ok (0, 1, [], 1)%Z, d').
Proof.
  exists (snd (derive_obligations "r1" sample_token (serve_all (take 2 sample_requests) ∅))).
  assert (Hd : derive_obligations "r1" sample_token (serve_all (take 2 sample_requests) ∅) =
    (Ok (1, 0, [], 1)%Z, snd (derive_obligations "r1" sample_token (serve_all (take 2 sample_requests) ∅))))
    by (vm_compute; reflexivity).
  split; [exact Hd|]. exact (proj2 (derive_settles _ _ _ _ _ _ _ _ Hd)).
Defined.

Lemma redelivery_is_recognised_witness :
  exists d', store_entry "r1" (sample_delivery 1 "h1" 1000) sample_token (serve_all [sample_registration] ∅) =
      (Ok Stored, d') /\
    store_entry "r1" (sample_delivery 1 "h1" 5000) sample_token d' = (Ok Duplicate, d') /\
    store_entry "r1" (sample_delivery 1 "h9" 1000) sample_token d' = (Err (HTTPException 409), d').
Proof.
  set (d0 := serve_all [sample_registration] ∅).
  exists (snd (store_entry "r1" (sample_delivery 1 "h1" 1000) sample_token d0)).
  assert (Hs : store_entry "r1" (sample_delivery 1 "h1" 1000) sample_token d0 =
    (Ok Stored, snd (store_entry "r1" (sample_delivery 1 "h1" 1000) sample_token d0))) by (vm_compute; reflexivity).
  assert (Hp : plain_entry (sample_delivery 1 "h1" 1000))
    by (split; [repeat (constructor; [reflexivity|]); constructor|vm_compute; reflexivity]).
  split; [exact Hs|]. split.
  - apply (redelivery_is_recognised "r1" (sample_delivery 1 "h1" 1000) sample_token d0 _
      (sample_delivery 1 "h1" 5000) Hs Hp); vm_compute; reflexivity.
  - apply (redelivery_is_recognised "r1" (sample_delivery 1 "h1" 1000) sample_token d0 _
      (sample_delivery 1 "h9" 1000) Hs Hp); vm_compute; reflexivity.
Defined.

Lemma concurrent_transitions_close_twice_witness :
  exists (d2 : db) r rows o1 o2, d2 !! "r1" = Some r /\ r_obligations r = (rows ++ [o1; o2])%list /\
    vget o1 "state" = VStr OUTCOME_RESOLVED /\ vget o2 "state" = VStr OUTCOME_ABANDONED.
Proof.
  set (b1 := sample_closing OUTCOME_RESOLVED). set (b2 := sample_closing OUTCOME_ABANDONED).
  assert (R1 : transition_read "r1" "h1:hold" b1 sample_token sample_db = Ok _) by (vm_compute; reflexivity).
  assert (R2 : transition_read "r1" "h1:hold" b2 sample_token sample_db = Ok _) by (vm_compute; reflexivity).
  match type of R1 with _ = Ok (?u1, ?c1) => match type of R2 with _ = Ok (?u2, ?c2) =>
    destruct (transition_append "r1" b1 u1 c1 sample_db) as [[[s1 h1] d1]|] eqn:A1; [|vm_compute in A1; discriminate A1];
    destruct (transition_append "r1" b2 u2 c2 d1) as [[[s2 h2] d2]|] eqn:A2;
    [|revert A2; vm_compute in A1; injection A1 as _ _ <-; vm_compute; discriminate];
    destruct (concurrent_transitions_close_twice "r1" "h1:hold" sample_db b1 sample_token u1 c1 s1 h1 d1
      b2 sample_token u2 c2 s2 h2 d2 R1 R2 A1 A2) as (r & rows & o1 & o2 & Hr & Hrows & _ & Hs1 & _ & Hs2)
  end end.
  exists d2, r, rows, o1, o2. split; [exact Hr|]. split; [exact Hrows|]. split; [exact Hs1|exact Hs2].
Defined.

(** An entry whose horizon is lost in the rounding of its time raises
    [OutcomeIntegrityError], which the derivation does not catch: no obligation
    of the replica is derived, the good entry's included. *)
Theorem one_bad_horizon_blocks_derivation :
  let d := serve_all [sample_registration; q_store (sample_delivery 1 "h1" 1000);
                      q_store (sample_delivery 2 "h2" (10 ^ 18))] ∅ in
  length (r_entries (sample_replica d)) = 2%nat /\
  fst (derive_obligations "r1" sample_token d) = Err Unhandled /\ r_obligations (sample_replica d) = [].
Proof. vm_compute. auto. Qed.
