(* ===== verification/Base64.v ===== *)
(** * Base64: base64.b64encode and base64.b64decode

    The two functions of Python's base64 module the custody code calls, on
    byte strings.  [b64decode] is the lenient form (validate=False): characters
    outside the alphabet are skipped, and decoding ends where padding completes
    a group. *)

From S2P Require Import Prelude.
Local Open Scope N_scope.

Definition b64_char (n : N) : ascii :=
  if n <? 26 then ascii_of_N (65 + n)
  else if n <? 52 then ascii_of_N (97 + (n - 26))
  else if n <? 62 then ascii_of_N (48 + (n - 52))
  else if n =? 62 then "+"%char else "/"%char.

Definition b64_val (c : ascii) : option N :=
  let n := N_of_ascii c in
  if ch_in 65 90 c then Some (n - 65)
  else if ch_in 97 122 c then Some (n - 97 + 26)
  else if ch_in 48 57 c then Some (n - 48 + 52)
  else if Ascii.eqb c "+" then Some 62
  else if Ascii.eqb c "/" then Some 63
  else None.

Fixpoint b64encode (s : string) : string :=
  match s with
  | EmptyString => EmptyString
  | String a EmptyString =>
      let a := N_of_ascii a in
      String (b64_char (a / 4)) (String (b64_char (a mod 4 * 16)) "==")
  | String a (String b EmptyString) =>
      let a := N_of_ascii a in let b := N_of_ascii b in
      String (b64_char (a / 4)) (String (b64_char (a mod 4 * 16 + b / 16))
        (String (b64_char (b mod 16 * 4)) "="))
  | String a (String b (String c s)) =>
      let a := N_of_ascii a in let b := N_of_ascii b in let c := N_of_ascii c in
      String (b64_char (a / 4)) (String (b64_char (a mod 4 * 16 + b / 16))
        (String (b64_char (b mod 16 * 4 + c / 64)) (String (b64_char (c mod 64)) (b64encode s))))
  end.

Definition byte_then (n : N) (r : option string) : option string :=
  match r with Some s => Some (String (ascii_of_N n) s) | None => None end.

(** The state of the scan: characters of the group read, the bits left over,
    the padding seen since the last character. *)
Fixpoint b64_go (s : string) (quad : nat) (left : N) (pads : nat) : option string :=
  match s with
  | EmptyString => if (quad =? 0)%nat then Some EmptyString else None
  | String c s =>
      if Ascii.eqb c "=" then
        if (2 <=? quad)%nat then
          if (4 <=? quad + S pads)%nat then Some EmptyString else b64_go s quad left (S pads)
        else b64_go s quad left pads
      else
        match b64_val c with
        | None => b64_go s quad left pads
        | Some v =>
            match quad with
            | O => b64_go s 1 v 0
            | S O => byte_then (left * 4 + v / 16) (b64_go s 2 (v mod 16) 0)
            | S (S O) => byte_then (left * 16 + v / 4) (b64_go s 3 (v mod 4) 0)
            | _ => byte_then (left * 64 + v) (b64_go s 0 0 0)
            end
        end
  end.

(** [None]: binascii.Error, a [ValueError]. *)
Definition b64decode (s : string) : option string := b64_go s 0 0 0.

(* ------------------------------------------------------------------ *)

Lemma b64_char_facts n : n < 64 ->
  b64_val (b64_char n) = Some n /\ Ascii.eqb (b64_char n) "=" = false /\
  (is_alpha (b64_char n) || is_digit (b64_char n) || Ascii.eqb (b64_char n) "+" || Ascii.eqb (b64_char n) "/") = true /\
  (N_of_ascii (b64_char n) <? 128) = true.
Proof.
  intros Hn. set (ok n := match b64_val (b64_char n) with Some m => (m =? n) | None => false end &&
    negb (Ascii.eqb (b64_char n) "=") &&
    (is_alpha (b64_char n) || is_digit (b64_char n) || Ascii.eqb (b64_char n) "+" || Ascii.eqb (b64_char n) "/") &&
    (N_of_ascii (b64_char n) <? 128)).
  assert (H : forallb ok (map N.of_nat (seq 0 64)) = true) by (vm_compute; reflexivity).
  rewrite forallb_forall in H. specialize (H n). unfold ok in H. bool_hyps.
  assert (Hin : In n (map N.of_nat (seq 0 64))).
  { apply in_map_iff. exists (N.to_nat n). split; [lia|]. apply in_seq. lia. }
  specialize (H Hin). rewrite !andb_true_iff, negb_true_iff in H. destruct H as (((H1 & H2) & H3) & H4).
  destruct (b64_val (b64_char n)) as [m|]; [|done]. apply N.eqb_eq in H1 as ->. done.
Qed.

Lemma b64_go_char n s quad left pads : n < 64 ->
  b64_go (String (b64_char n) s) quad left pads =
    match quad with
    | O => b64_go s 1 n 0
    | S O => byte_then (left * 4 + n / 16) (b64_go s 2 (n mod 16) 0)
    | S (S O) => byte_then (left * 16 + n / 4) (b64_go s 3 (n mod 4) 0)
    | _ => byte_then (left * 64 + n) (b64_go s 0 0 0)
    end.
Proof. intros Hn. destruct (b64_char_facts n Hn) as (Hv & He & _). simpl. by rewrite He, Hv. Qed.

Lemma byte_lt c : N_of_ascii c < 256.
Proof. apply N_ascii_bounded. Qed.

(** Induction three characters at a time. *)
Lemma string_ind3 (P : string -> Prop) :
  P EmptyString -> (forall a, P (String a EmptyString)) -> (forall a b, P (String a (String b EmptyString))) ->
  (forall a b c s, P s -> P (String a (String b (String c s)))) -> forall s, P s.
Proof.
  intros H0 H1 H2 H3. enough (H : forall n s, (String.length s <= n)%nat -> P s) by (intros s; by apply (H (String.length s))).
  induction n as [|n IH]; intros s Hs; destruct s as [|a [|b [|c s]]]; simpl in Hs; try lia; auto.
  apply H3, IH. lia.
Qed.

(** [lia] with division and remainder by constants. *)
Ltac div_lia := Zify.zify; Z.to_euclidean_division_equations; lia.

Lemma ascii_of c n : n = N_of_ascii c -> ascii_of_N n = c.
Proof. intros ->. apply ascii_N_embedding. Qed.

Lemma b64decode_encode s : b64decode (b64encode s) = Some s.
Proof.
  unfold b64decode. induction s as [|a|a b|a b c s IH] using string_ind3; [done|..]; cbn [b64encode];
    pose proof (byte_lt a); try pose proof (byte_lt b); try pose proof (byte_lt c).
  all: repeat (rewrite b64_go_char by div_lia).
  all: cbn [b64_go Ascii.eqb Bool.eqb Nat.leb Nat.add byte_then]; rewrite ?IH; cbn [byte_then].
  all: repeat f_equal; apply ascii_of; div_lia.
Qed.
