(* ===== verification/Custody.v ===== *)
(** * Custody: sealed envelopes and signed registrations

    Models the cryptographic helpers of src/sentinel_os/twin_custody.py.  The
    cryptography package (X25519, HKDF, AES-GCM, Ed25519) is an interface with
    its documented laws; byte strings are strings.  Random draws (the ephemeral
    private key and the nonce of [seal]) are arguments. *)

From S2P Require Import Prelude PyFloat PyValue Episode Json Canonical Attestation HeadAnchor LedgerDb TwinReceiver Base64.
Local Open Scope string_scope.

(** Raw keys in, raw bytes out.  [None]: the call raises ValueError or
    InvalidTag. *)
Class Crypto := {
  x25519_public : string -> string;
  x25519_exchange : string -> string -> option string;
  hkdf : string -> string -> string;
  gcm_encrypt : string -> string -> string -> string -> string;
  gcm_decrypt : string -> string -> string -> string -> option string;
  ed25519_public : string -> string;
  ed25519_sign : string -> string -> string;
  ed25519_check : string -> string -> string -> bool;
  x25519_public_len : forall k, String.length (x25519_public k) = 32%nat;
  x25519_shared : forall a b, String.length a = 32%nat -> String.length b = 32%nat ->
    x25519_exchange a (x25519_public b) = x25519_exchange b (x25519_public a);
  gcm_len : forall k n p a, String.length (gcm_encrypt k n p a) = (String.length p + 16)%nat;
  gcm_open : forall k n p a, String.length n = 12%nat -> gcm_decrypt k n (gcm_encrypt k n p a) a = Some p;
  ed25519_public_len : forall k, String.length (ed25519_public k) = 32%nat;
  ed25519_verify : forall k m, ed25519_check (ed25519_public k) (ed25519_sign k m) m = true;
}.

Definition DAP_VERSION : Z := 1.
Definition ENVELOPE_ALG : string := "X25519+HKDF-SHA256+AES-256-GCM".
Definition HKDF_INFO_PREFIX : string := "twin-dap-v1|".

Definition b64e : string -> string := b64encode.

(** [_b64d]: only text has [encode]; text that is not ASCII raises
    UnicodeEncodeError, a ValueError. *)
Definition b64d (v : pyval) : result pyexn string :=
  match v with
  | VStr s => if is_ascii s then match b64decode s with Some r => Ok r | None => Err ValueError end
              else Err ValueError
  | _ => Err AttributeError
  end.

(** [bytes.fromhex] of a digest. *)
Definition hex_val (c : ascii) : N :=
  let n := N_of_ascii c in if is_digit c then (n - 48)%N else (n - 87)%N.

Fixpoint unhex (s : string) : string :=
  match s with
  | String a (String b s) => String (ascii_of_N (hex_val a * 16 + hex_val b)) (unhex s)
  | _ => EmptyString
  end.

(** [from_private_bytes] and [from_public_bytes] *)
Definition raw_key (s : string) : result pyexn string :=
  if (String.length s =? 32)%nat then Ok s else Err ValueError.

Definition or_value_error {A} (o : option A) : result pyexn A :=
  match o with Some a => Ok a | None => Err ValueError end.

(** [envelope[k]] *)
Definition item_of (d : dict pyval) (k : string) : result pyexn pyval :=
  match dget d k with Some v => Ok v | None => Err KeyError end.

Section Seal.
Context `{FloatRepr} `{!Hashes} `{!Crypto}.

Definition aad_bytes (aad : dict pyval) : string := canonical_json (VDict aad).

Definition fingerprint (pub_b64 : string) : result pyexn string :=
  raw ← b64d (VStr pub_b64); Ok (str_take 16 (sha256 raw)).

Definition derive_key (shared aad_b : string) : string :=
  hkdf shared (HKDF_INFO_PREFIX +:+ unhex (sha256 aad_b)).

(** [seal], drawing the ephemeral private key [eph_priv] and [nonce]. *)
Definition seal (eph_priv nonce plaintext recipient_pub_b64 : string) (aad : dict pyval) : result pyexn pyval :=
  let aad_b := aad_bytes aad in
  raw ← b64d (VStr recipient_pub_b64);
  recipient_pub ← raw_key raw;
  shared ← or_value_error (x25519_exchange eph_priv recipient_pub);
  let ct := gcm_encrypt (derive_key shared aad_b) nonce plaintext aad_b in
  fp ← fingerprint recipient_pub_b64;
  Ok (VDict [("v", VInt DAP_VERSION); ("alg", VStr ENVELOPE_ALG); ("epk", VStr (b64e (x25519_public eph_priv)));
             ("nonce", VStr (b64e nonce)); ("ct", VStr (b64e ct)); ("recipient_fp", VStr fp)]).

(** The body of [open_envelope]'s try; [Ok None] is InvalidTag. *)
Definition open_body (env : dict pyval) (recipient_priv_b64 : string) (aad : dict pyval)
    : result pyexn (option string) :=
  let aad_b := aad_bytes aad in
  raw ← b64d (VStr recipient_priv_b64);
  priv ← raw_key raw;
  epk ← item_of env "epk";
  eph_raw ← b64d epk;
  eph_pub ← raw_key eph_raw;
  shared ← or_value_error (x25519_exchange priv eph_pub);
  n ← item_of env "nonce";
  nonce ← b64d n;
  c ← item_of env "ct";
  ct ← b64d c;
  Ok (gcm_decrypt (derive_key shared aad_b) nonce ct aad_b).

Definition open_envelope (envelope : pyval) (recipient_priv_b64 : string) (aad : dict pyval)
    : result custody_exn string :=
  match envelope with
  | VDict env =>
      if negb (py_eq (vget env "v") (VInt DAP_VERSION)) || negb (py_eq (vget env "alg") (VStr ENVELOPE_ALG))
      then Err CustodyError
      else match open_body env recipient_priv_b64 aad with
           | Ok (Some pt) => Ok pt
           | Ok None | Err (ValueError | KeyError | TypeError) => Err CustodyError
           | Err e => Err (CustodyPyExn e)
           end
  | _ => Err (CustodyPyExn AttributeError)
  end.

(** [sign] under a base64 private key. *)
Definition sign (payload : dict pyval) (signing_priv_b64 : string) : result pyexn string :=
  raw ← b64d (VStr signing_priv_b64);
  priv ← raw_key raw;
  Ok (b64e (ed25519_sign priv (canonical_json (VDict payload)))).

Definition sign_registration (replica_id : string) (body : dict pyval) (signing_priv_b64 : string)
    : result pyexn string :=
  sign (registration_payload replica_id body) signing_priv_b64.

Definition make_registration (replica_id signing_priv_b64 customer_sign_pub : string) (fields : dict pyval)
    : result pyexn (dict pyval) :=
  let body := dupdate [("custody_model", VStr "A"); ("recipient_pub", VStr "x"); ("recipient_fp", VStr "fp");
                       ("customer_sign_pub", VStr customer_sign_pub); ("ship_token", VStr "tok")] fields in
  sig ← sign_registration replica_id body signing_priv_b64;
  Ok (dset body "registration_signature" (VStr sig)).

(** The receiver's signature check; [None] where a key or a signature does not
    decode. *)
Definition verify_b64 (signer_pub_b64 signature_b64 message : string) : option bool :=
  match (raw ← b64d (VStr signer_pub_b64); pub ← raw_key raw;
         sig ← b64d (VStr signature_b64); Ok (ed25519_check pub sig message)) with
  | Ok b => Some b
  | Err _ => None
  end.
End Seal.

(* ------------------------------------------------------------------ *)
(** ** Lemmas *)

Lemma is_ascii_cons c s : is_ascii (String c s) = (N_of_ascii c <? 128)%N && is_ascii s.
Proof. done. Qed.

Lemma b64_char_ascii n : (n < 64)%N -> (N_of_ascii (b64_char n) <? 128)%N = true.
Proof. intros Hn. by destruct (b64_char_facts n Hn) as (_ & _ & _ & ?). Qed.

Lemma b64encode_ascii s : is_ascii (b64encode s) = true.
Proof.
  induction s as [|a|a b|a b c s IH] using string_ind3; [done|..]; cbn [b64encode];
    pose proof (byte_lt a); try pose proof (byte_lt b); try pose proof (byte_lt c);
    rewrite !is_ascii_cons; rewrite ?b64_char_ascii by div_lia; done.
Qed.

Lemma b64d_b64e s : b64d (VStr (b64e s)) = Ok s.
Proof. unfold b64d, b64e. by rewrite b64encode_ascii, b64decode_encode. Qed.

(** The receiver's scan on one character of the alphabet. *)
Lemma b64_scan_char n s quad pads k : (n < 64)%N -> (quad < 4)%nat ->
  b64_scan (String (b64_char n) s) quad pads false k =
    match quad with
    | O => b64_scan s 1 0 false k
    | S O => b64_scan s 2 0 false (S k)
    | S (S O) => b64_scan s 3 0 false (S k)
    | _ => b64_scan s 0 0 false (S k)
    end.
Proof.
  intros Hn Hq. destruct (b64_char_facts n Hn) as (_ & He & Hb & _). cbn [b64_scan]. rewrite He.
  unfold is_b64. rewrite Hb. cbn [negb orb]. done.
Qed.

Lemma b64_scan_encode s k : b64_scan (b64encode s) 0 0 false k = Some (String.length s + k)%nat.
Proof.
  revert k. induction s as [|a|a b|a b c s IH] using string_ind3; intros k; [done|..]; cbn [b64encode];
    pose proof (byte_lt a); try pose proof (byte_lt b); try pose proof (byte_lt c);
    repeat (rewrite b64_scan_char by (try div_lia; lia)); [done..|].
  rewrite IH. cbn [String.length]. f_equal. lia.
Qed.

Lemma b64_len_encode s : b64_len (b64encode s) = Some (String.length s).
Proof.
  unfold b64_len. destruct s as [|a s']; [done|]. pose proof (b64_scan_encode (String a s') 0) as Hs.
  rewrite Nat.add_0_r in Hs. destruct (b64encode (String a s')) as [|c t] eqn:E.
  { destruct s' as [|b [|c s']]; done. }
  assert (Hc : exists n, (n < 64)%N /\ c = b64_char n).
  { pose proof (byte_lt a). exists (N_of_ascii a / 4)%N. split; [div_lia|]. destruct s' as [|b [|d s']]; by injection E. }
  destruct Hc as (n & Hn & ->). rewrite (proj1 (proj2 (b64_char_facts n Hn))). exact Hs.
Qed.

Section SealLemmas.
Context `{FloatRepr} `{!Hashes} `{!Crypto}.

Lemma seal_ok eph nonce pt pub aad env : seal eph nonce pt pub aad = Ok env ->
  exists raw shared fp, b64d (VStr pub) = Ok raw /\ String.length raw = 32%nat /\
    x25519_exchange eph raw = Some shared /\
    env = VDict [("v", VInt DAP_VERSION); ("alg", VStr ENVELOPE_ALG); ("epk", VStr (b64e (x25519_public eph)));
      ("nonce", VStr (b64e nonce));
      ("ct", VStr (b64e (gcm_encrypt (derive_key shared (aad_bytes aad)) nonce pt (aad_bytes aad))));
      ("recipient_fp", VStr fp)].
Proof.
  unfold seal, fingerprint. destruct (b64d (VStr pub)) as [raw|] eqn:Eb; [|done]. cbn [mbind result_bind].
  unfold raw_key. destruct (String.length raw =? 32)%nat eqn:El; [|done]. cbn [mbind result_bind].
  destruct (x25519_exchange eph raw) as [shared|] eqn:Es; [|done]. cbn [or_value_error mbind result_bind].
  intros [= <-]. exists raw, shared. eexists. split_and!; try done. by apply Nat.eqb_eq.
Qed.

Lemma open_sealed eph nonce pt priv aad env env' :
  String.length eph = 32%nat -> String.length priv = 32%nat -> String.length nonce = 12%nat ->
  seal eph nonce pt (b64e (x25519_public priv)) aad = Ok env -> json_equiv env (VDict env') -> NoDup (dkeys env') ->
  open_envelope (VDict env') (b64e priv) aad = Ok pt.
Proof.
  intros He Hp Hn Hs Hj Hnd. apply seal_ok in Hs as (raw & shared & fp & Hr & _ & Hx & ->).
  rewrite b64d_b64e in Hr. injection Hr as <-.
  set (env := [("v", _); _; _; _; _; _]) in Hj.
  assert (Hg : forall k v, (forall w, json_equiv v w -> w = v) -> dget env k = Some v -> dget env' k = Some v).
  { intros k v Hv Hk. apply (json_equiv_dget _ _ k) in Hj; [|by apply (bool_decide_unpack _); vm_compute|done].
    rewrite Hk in Hj. cbn in Hj. destruct (dget env' k) as [w|]; [|done]. injection Hj as Hj. by rewrite (Hv w Hj). }
  assert (Hgs : forall k s, dget env k = Some (VStr s) -> dget env' k = Some (VStr s))
    by (intros k s; apply Hg; intros w; apply json_equiv_str).
  unfold open_envelope, open_body, item_of, vget.
  rewrite (Hg "v" (VInt DAP_VERSION)), (Hgs "alg" _ eq_refl), (Hgs "epk" _ eq_refl), (Hgs "nonce" _ eq_refl), (Hgs "ct" _ eq_refl);
    [|intros w; unfold json_equiv; destruct w; simpl; congruence|done].
  rewrite !b64d_b64e. cbn [py_eq as_num num_eqb num_compare DAP_VERSION Z.compare negb orb mbind result_bind].
  rewrite String.eqb_refl. cbn [negb]. unfold raw_key. rewrite Hp. cbn [Nat.eqb mbind result_bind].
  rewrite !b64d_b64e. cbn [mbind result_bind]. rewrite x25519_public_len. cbn [Nat.eqb mbind result_bind].
  rewrite <- x25519_shared, Hx by done. cbn [or_value_error mbind result_bind]. by rewrite gcm_open.
Qed.

(** Sealed envelopes open: an envelope sealed to the public key of a
    32-byte private key, for a slot, opens under that private key in the same
    slot to the text that was sealed, in the form any JSON store gives it back. *)
Theorem open_seal eph nonce pt priv aad env env' :
  String.length eph = 32%nat -> String.length priv = 32%nat -> String.length nonce = 12%nat ->
  seal eph nonce pt (b64e (x25519_public priv)) aad = Ok env -> json_equiv env (VDict env') -> NoDup (dkeys env') ->
  open_envelope (VDict env') (b64e priv) aad = Ok pt.
Proof. apply open_sealed. Qed.

Lemma sealed_admitted eph nonce pt pub aad env :
  String.length nonce = 12%nat -> pt <> "" -> seal eph nonce pt pub aad = Ok env ->
  structurally_valid_envelope env = true.
Proof.
  intros Hn Hp Hs. apply seal_ok in Hs as (raw & shared & fp & _ & _ & _ & ->).
  unfold structurally_valid_envelope. apply andb_true_iff. split; [done|].
  assert (Hpt : (1 <= String.length pt)%nat) by (destruct pt; [done|simpl; lia]).
  cbn [forallb]. unfold b64_field_ok, b64e. cbn [vget dget String.eqb Ascii.eqb Bool.eqb py_str fst snd].
  rewrite !b64_len_encode, x25519_public_len, Hn, gcm_len.
  by rewrite (proj2 (Nat.leb_le 17 _)) by lia.
Qed.

(** What is sealed is admitted: the receiver's structural check passes every
    envelope [seal] makes of a non-empty text. *)
Theorem seal_admitted eph nonce pt pub aad env :
  String.length nonce = 12%nat -> pt <> "" -> seal eph nonce pt pub aad = Ok env ->
  structurally_valid_envelope env = true.
Proof. apply sealed_admitted. Qed.

Lemma vget_copy_keys keys body c k : vget (copy_keys keys body c) k = if str_mem k keys then vget body k else vget c k.
Proof.
  unfold copy_keys. revert c. induction keys as [|k' keys IH]; intros c; [done|]. cbn [fold_left]. rewrite IH.
  cbn [str_mem existsb]. unfold str_mem. destruct (existsb (String.eqb k) keys) eqn:E; [by rewrite orb_true_r|].
  rewrite orb_false_r. unfold vget at 1. destruct (String.eqb_spec k k') as [->|Hne]; [by rewrite dget_dset_eq|].
  by rewrite dget_dset_ne by done.
Qed.

Lemma copy_keys_ext keys body body' c : (forall k, k ∈ keys -> vget body k = vget body' k) ->
  copy_keys keys body c = copy_keys keys body' c.
Proof.
  unfold copy_keys. revert c. induction keys as [|k keys IH]; intros c Hk; [done|]. cbn [fold_left].
  rewrite Hk by set_solver. apply IH. intros k' Hk'. apply Hk. set_solver.
Qed.

Lemma or_empty_str s : (if str_true s then VStr s else VStr "") = VStr s.
Proof. by destruct s. Qed.

(** A registration is what was signed: the body [make_registration] signs
    passes the receiver's signature check under the signer's public key; and
    two bodies whose signed text is the same agree, as JSON, on every field the
    receiver takes from a registration. *)
Theorem registration_is_signed rid k fields body body' :
  String.length k = 32%nat -> make_registration rid (b64e k) (b64e (ed25519_public k)) fields = Ok body ->
  signed_ok verify_b64 rid body (b64e (ed25519_public k)) = true /\
  (canonical_json (VDict (registration_payload rid body)) = canonical_json (VDict (registration_payload rid body')) ->
   Forall (fun f => json_equiv (vget body f) (vget body' f)) REGISTRATION_SIGNED_FIELDS).
Proof.
  intros Hk Hm. split.
  - unfold make_registration, sign_registration, sign in Hm. rewrite b64d_b64e in Hm. cbn [mbind result_bind] in Hm.
    unfold raw_key in Hm. rewrite Hk in Hm. cbn [Nat.eqb mbind result_bind] in Hm.
    set (b0 := dupdate _ fields) in Hm. injection Hm as <-.
    assert (Hp : forall v, registration_payload rid (dset b0 "registration_signature" v) = registration_payload rid b0).
    { intros v. apply copy_keys_ext. intros f Hf. unfold vget. rewrite dget_dset_ne; [done|]. intros <-.
      revert Hf. apply (bool_decide_unpack _). vm_compute. done. }
    unfold signed_ok. unfold vget at 1 2. rewrite dget_dset_eq. cbn [py_true].
    rewrite or_empty_str.
    unfold verify_signature, verify_b64. rewrite Hp, !b64d_b64e. cbn [mbind result_bind]. unfold raw_key.
    rewrite ed25519_public_len. cbn [Nat.eqb mbind result_bind]. by rewrite ed25519_verify.
  - intros Heq. apply (dumps_inj compact_seps (VDict (registration_payload rid body)) (VDict (registration_payload rid body'))) in Heq. apply Forall_forall. intros f Hf. unfold registration_payload in Heq.
    assert (Hn : NoDup (dkeys [("replica_id", VStr rid)])) by (repeat constructor; set_solver).
    pose proof (json_equiv_vget _ _ f (NoDup_copy_keys REGISTRATION_SIGNED_FIELDS body _ Hn)
      (NoDup_copy_keys REGISTRATION_SIGNED_FIELDS body' _ Hn) Heq) as Hj.
    rewrite !vget_copy_keys, (proj2 (str_mem_spec f _) Hf) in Hj. done.
Qed.
End SealLemmas.

(* ------------------------------------------------------------------ *)
(** ** A sample of the interface *)

#[local] Existing Instance sample_hashes.
#[local] Existing Instance sample_float_repr.

Definition key32 (k : string) : string :=
  if (String.length k =? 32)%nat then k else "00000000000000000000000000000000".

Definition sample_shared (a b : string) : string := if String.leb a b then a +:+ b else b +:+ a.

(** A text and its tag. *)
Definition sample_tag (k n p a : string) : string := str_take 16 (sha256 (k +:+ n +:+ p +:+ a)).

Definition sample_decrypt (k n c a : string) : option string :=
  let p := str_take (String.length c - 16) c in
  if String.eqb c (p +:+ sample_tag k n p a) then Some p else None.

Lemma key32_len k : String.length (key32 k) = 32%nat.
Proof. unfold key32. destruct (String.length k =? 32)%nat eqn:E; [by apply Nat.eqb_eq|done]. Qed.

Lemma key32_id k : String.length k = 32%nat -> key32 k = k.
Proof. unfold key32. by intros ->. Qed.

Lemma sample_shared_comm a b : sample_shared a b = sample_shared b a.
Proof.
  unfold sample_shared. destruct (String.leb a b) eqn:E, (String.leb b a) eqn:E'; try done.
  - by rewrite (String.leb_antisym a b E E').
  - destruct (String.leb_total a b); congruence.
Qed.

Lemma str_take_length n s : (n <= String.length s)%nat -> String.length (str_take n s) = n.
Proof.
  revert s. unfold str_take. induction n as [|n IH]; intros [|c s] Hn; simpl in *; try lia.
  rewrite IH by lia. done.
Qed.

Lemma str_take_app s t : str_take (String.length s) (s +:+ t) = s.
Proof. unfold str_take. induction s as [|c s IH]; simpl; [by destruct t|]. by rewrite IH. Qed.

Lemma sample_tag_len k n p a : String.length (sample_tag k n p a) = 16%nat.
Proof. apply str_take_length. rewrite (proj2 (sha256_hex _)). lia. Qed.

#[local] Instance sample_crypto : Crypto.
Proof.
  refine {| x25519_public := key32; x25519_exchange := fun a b => Some (sample_shared (key32 a) (key32 b));
    hkdf := fun shared info => sha256 (shared +:+ info);
    gcm_encrypt := fun k n p a => p +:+ sample_tag k n p a; gcm_decrypt := sample_decrypt;
    ed25519_public := key32; ed25519_sign := fun k m => sha256 (key32 k +:+ m);
    ed25519_check := fun pub sig m => String.eqb sig (sha256 (pub +:+ m)) |}.
  - apply key32_len.
  - intros a b Ha Hb. by rewrite !(key32_id _ (key32_len _)), sample_shared_comm.
  - intros. by rewrite str_length_app, sample_tag_len.
  - intros k n p a _. unfold sample_decrypt. rewrite str_length_app, sample_tag_len, Nat.add_sub, str_take_app.
    by rewrite String.eqb_refl.
  - apply key32_len.
  - intros. apply String.eqb_refl.
Defined.

Definition sample_priv : string := "0123456789abcdef0123456789abcdef".
Definition sample_eph : string := "ephemeral-ephemeral-ephemeral-32".
Definition sample_aad (pid : Z) : dict pyval := [("replica_id", VStr "r1"); ("primary_id", VInt pid)].
Definition sample_sealed : pyval := Eval vm_compute in
  match seal sample_eph "nonce-nonce-" "the row" (b64e (x25519_public sample_priv)) (sample_aad 1) with
  | Ok v => v | Err _ => VNone end.
Definition sealed_fields : dict pyval := Eval vm_compute in match sample_sealed with VDict d => d | _ => [] end.

Lemma open_seal_witness :
  open_envelope (VDict (rev sealed_fields)) (b64e sample_priv) (sample_aad 1) = Ok "the row" /\
  open_envelope (VDict (rev sealed_fields)) (b64e sample_priv) (sample_aad 2) = Err CustodyError.
Proof.
  split; [|vm_compute; reflexivity].
  apply (open_seal sample_eph "nonce-nonce-" "the row" sample_priv (sample_aad 1) sample_sealed (rev sealed_fields)).
  - reflexivity.
  - reflexivity.
  - reflexivity.
  - vm_compute. reflexivity.
  - vm_compute. reflexivity.
  - apply (bool_decide_unpack _). vm_compute. exact I.
Defined.

Lemma seal_admitted_witness : structurally_valid_envelope sample_sealed = true.
Proof.
  apply (seal_admitted sample_eph "nonce-nonce-" "the row" (b64e (x25519_public sample_priv)) (sample_aad 1)).
  - reflexivity.
  - discriminate.
  - vm_compute. reflexivity.
Defined.

Lemma registration_is_signed_witness :
  exists body, make_registration "r1" (b64e sample_priv) (b64e (ed25519_public sample_priv))
      [("ship_token", VStr "ship-1")] = Ok body /\
    signed_ok verify_b64 "r1" body (b64e (ed25519_public sample_priv)) = true /\
    signed_ok verify_b64 "r1" (dset body "ship_token" (VStr "other")) (b64e (ed25519_public sample_priv)) = false.
Proof.
  eexists. split; [vm_compute; reflexivity|]. split; [|vm_compute; reflexivity].
  apply (registration_is_signed "r1" sample_priv [("ship_token", VStr "ship-1")] _ []); [reflexivity|].
  vm_compute. reflexivity.
Defined.

(** An integer nonce of sixteen digits passes the receiver's check, which
    decodes its text; opening the envelope then raises AttributeError, which is
    not one of the exceptions [open_envelope] turns into CustodyError. *)
Theorem integer_nonce_escapes :
  let env := VDict (dset sealed_fields "nonce" (VInt 1234567890123456)) in
  structurally_valid_envelope env = true /\
  open_envelope env (b64e sample_priv) (sample_aad 1) = Err (CustodyPyExn AttributeError).
Proof. vm_compute. auto. Qed.
