(* ===== verification/TwinShip.v ===== *)
(** * TwinShip: from the ledger to the replica

    Models src/sentinel_os/twin_shipper.py (rows past a target's cursor, sealed
    and enqueued) and src/sentinel_os/twin_sync_worker.py (one claimed job
    posted to the receiver, and the queue call its answer leads to).  The
    queue is the one of QueueApi; seeding of [seal] is an argument.  The test
    hooks that need an environment variable are kept where they change what is
    shipped (the skipped call ids). *)

From S2P Require Import Prelude PyFloat PyValue Episode Redis Queue QueueInv QueueSafe QueueApi Json Canonical Attestation HeadAnchor LedgerDb Ledger LedgerVerify Witness TwinReceiver Base64 Custody.
Local Open Scope string_scope.

Record target := mkTarget {
  t_replica_id : string;
  t_receiver_url : string;
  t_ship_token : string;
  t_recipient_pub : string;
}.

(** [load_targets] on parsed JSON: every target names the four fields. *)
Definition REQUIRED_TARGET_FIELDS : list string := ["replica_id"; "receiver_url"; "ship_token"; "recipient_pub"].
Definition load_targets (targets : list (dict pyval)) : result pyexn (list (dict pyval)) :=
  if forallb (fun t => forallb (fun f => py_true (vget t f)) REQUIRED_TARGET_FIELDS) targets
  then Ok targets else Err ValueError.

(** The first true [call_sid] of the column, [input_data] and [data]. *)
Definition nested_sid (v : pyval) : option pyval :=
  match v with
  | VDict d => if py_true (vget d "call_sid") then Some (vget d "call_sid") else None
  | _ => None
  end.

Definition row_sid (r : dict pyval) : pyval :=
  if py_true (vget r "call_sid") then vget r "call_sid"
  else match nested_sid (vget r "input_data") with
       | Some v => v
       | None => match nested_sid (vget r "data") with Some v => v | None => VNone end
       end.

(** [x in {strings}]: an unhashable [x] raises TypeError. *)
Definition in_strings (v : pyval) (l : list string) : result pyexn bool :=
  match v with
  | VStr s => Ok (str_mem s l)
  | VList _ | VDict _ => Err TypeError
  | _ => Ok false
  end.

Definition row_id (r : row) : Z := match vget r "id" with VInt z => z | _ => 0%Z end.

Section Shipper.
Context `{FloatRepr} `{!Hashes} `{!Crypto}.

(** The timestamp column, which the server stamps: its text and its epoch. *)
Variable stamp : row -> option (string * float64).
(** What [seal] draws for a row: an ephemeral private key and a nonce. *)
Variable draw : row -> string * string.

Definition row_plaintext (r : row) : string :=
  canonical_json (VDict (dset (ship_row r) "timestamp"
    (VStr (match stamp r with Some (t, _) => t | None => "None" end)))).

Definition ship_aad (replica_id : string) (r : row) : dict pyval :=
  [("replica_id", VStr replica_id); ("primary_id", VInt (row_id r)); ("current_hash", vget r "current_hash")].

Definition cassette_domain (r : row) : pyval :=
  match vget r "cassette_version" with VStr v => opt_str (domain_from_cassette_version (Some v)) | _ => VNone end.

(** The job's payload for a row that was sealed. *)
Definition sync_payload (t : target) (r : row) (envelope : pyval) : dict pyval :=
  [("kind", VStr "twin_sync"); ("replica_id", VStr (t_replica_id t)); ("receiver_url", VStr (t_receiver_url t));
   ("ship_token", VStr (t_ship_token t)); ("primary_id", VInt (row_id r)); ("call_sid", row_sid r);
   ("previous_hash", vget r "previous_hash"); ("current_hash", vget r "current_hash"); ("envelope", envelope);
   ("outcome_obligation", vget r "outcome_obligation");
   ("decided_at", match stamp r with Some (_, f) => VFloat f | None => VNone end); ("domain", cassette_domain r)].

Definition seal_row (t : target) (r : row) : result pyexn pyval :=
  seal (fst (draw r)) (snd (draw r)) (row_plaintext r) (t_recipient_pub t) (ship_aad (t_replica_id t) r).

Context {S : Type} `{!Redis S}.
Variable q : TransmissionQueue.
Variable skip_sids : list string.

Definition queue_dumps (d : dict pyval) : string := dumps compact_seps (VDict d).

Definition job_id_of (t : target) (r : row) : string := t_replica_id t +:+ "|" +:+ py_str (vget r "id").

(** The rows of one batch: the jobs enqueued, the greatest id seen. *)
Fixpoint ship_rows (t : target) (rows : list row) (count max_id : Z) (s : S)
    : S * result queue_exn (Z * Z) :=
  match rows with
  | [] => (s, Ok (count, max_id))
  | r :: rows =>
      let max_id := Z.max max_id (row_id r) in
      match in_strings (row_sid r) skip_sids with
      | Err e => (s, Err (QPy e))
      | Ok true => ship_rows t rows count max_id s
      | Ok false =>
          match seal_row t r with
          | Err e => (s, Err (QPy e))
          | Ok envelope =>
              match enqueue queue_dumps sha256 q (Some (sync_payload t r envelope)) (Some (job_id_of t r)) "" None s with
              | (s', Err e) => (s', Err e)
              | (s', Ok _) => ship_rows t rows (count + 1) max_id s'
              end
          end
      end
  end%Z.

(** The SELECT past the cursor, over a table in id order. *)
Definition rows_past (cursor : Z) (batch : nat) (table : list row) : list row :=
  take batch (List.filter (fun r => cursor <? row_id r)%Z table).

(** One target: the cursor moves after the batch is enqueued. *)
Definition ship_target (batch : nat) (table : list row) (t : target) (cursors : gmap string Z) (s : S)
    : S * gmap string Z * result queue_exn Z :=
  let cursor := or_default (cursors !! t_replica_id t) 0%Z in
  match ship_rows t (rows_past cursor batch table) 0 cursor s with
  | (s', Err e) => (s', cursors, Err e)
  | (s', Ok (count, max_id)) =>
      (s', if (cursor <? max_id)%Z then <[t_replica_id t := max_id]> cursors else cursors, Ok count)
  end.

(** Every target in turn; an exception ends the run. *)
Fixpoint ship_available (batch : nat) (table : list row) (targets : list target) (shipped : list (string * Z))
    (cursors : gmap string Z) (s : S) : S * gmap string Z * result queue_exn (list (string * Z)) :=
  match targets with
  | [] => (s, cursors, Ok shipped)
  | t :: targets =>
      match ship_target batch table t cursors s with
      | (s', cursors', Err e) => (s', cursors', Err e)
      | (s', cursors', Ok count) =>
          ship_available batch table targets (shipped ++ [(t_replica_id t, count)])%list cursors' s'
      end
  end.

(* ------------------------------------------------------------------ *)
(** ** The sync worker *)

(** What the POST comes to. *)
Inductive transport :=
| Unreachable                 (* connect refused or timed out *)
| MidFlight                   (* read or write timeout, protocol error *)
| Answered (code : Z) (status : pyval).

(** The entry the worker posts for a job, whose address and token it also
    reads. *)
Definition sync_entry (p : dict pyval) : result pyexn (dict pyval) :=
  pid ← item_of p "primary_id";
  prev ← item_of p "previous_hash";
  curr ← item_of p "current_hash";
  env ← item_of p "envelope";
  _ ← item_of p "receiver_url";
  _ ← item_of p "replica_id";
  _ ← item_of p "ship_token";
  Ok [("primary_id", pid); ("call_sid", vget p "call_sid"); ("outcome_obligation", vget p "outcome_obligation");
      ("decided_at", vget p "decided_at"); ("domain", vget p "domain"); ("previous_hash", prev);
      ("current_hash", curr); ("envelope", env)].

Record sync_worker := mkWorker { delivered : Z; failed : Z }.

(** How an answer other than 200 is failed: reason and retryable. *)
Definition fail_of (tr : transport) : Reason * bool :=
  match tr with
  | Unreachable => (SERVICE_INTERRUPTION, true)
  | MidFlight => (NETWORK_LATENCY, true)
  | Answered code _ =>
      if (code =? 422)%Z then (DATA_CORRUPTION, false)
      else if (code =? 409)%Z then (DATA_CORRUPTION, false)
      else if (code =? 401)%Z then (UNCLASSIFIED, false)
      else (SERVICE_INTERRUPTION, true)
  end.

(** [handle_one] after the POST; the text of a failure is left out. *)
Definition handle_one (job : ClaimedJob) (tr : transport) (draw_ms : Z) (w : sync_worker) (s : S)
    : sync_worker * S * result queue_exn Outcome :=
  match tr with
  | Answered 200 status =>
      let w := mkWorker (delivered w + 1) (failed w) in
      match ack queue_dumps q (AJob job) None (Some [("status", status)]) s with
      | (s', Ok (AOutcome o)) => (w, s', Ok o)
      | (s', Ok _) => (w, s', Err (QPy TypeError))
      | (s', Err e) => (w, s', Err e)
      end
  | _ =>
      let w := mkWorker (delivered w) (failed w + 1) in
      let '(reason, retryable) := fail_of tr in
      match QueueApi.fail q (AJob job) (AReason reason) (Some "") None (Some retryable) None None draw_ms s with
      | (s', Ok (FPair o _)) => (w, s', Ok o)
      | (s', Ok _) => (w, s', Err (QPy TypeError))
      | (s', Err e) => (w, s', Err e)
      end
  end%Z.

(** The receiver's answer as the worker sees it. *)
Definition answered (r : result http_exn store_status) : transport :=
  match r with
  | Ok Stored => Answered 200 (VStr "stored")
  | Ok Duplicate => Answered 200 (VStr "duplicate")
  | Err (HTTPException code) => Answered code VNone
  | Err Unhandled => Answered 500 VNone
  end.
End Shipper.
