(* ===== verification/TwinDetector.v ===== *)
(** * TwinDetector: the divergence detector

    Models src/sentinel_os/twin_detector.py: the paging read of the replica, and
    run_detection over the replica's entries, the primary's hash feed and the
    customer's submission record.  Ages are kept unrounded and the free text of
    a finding is left out. *)

From S2P Require Import Prelude PyFloat PyValue Episode Json Canonical Attestation HeadAnchor LedgerDb Ledger LedgerVerify Witness TwinReceiver.
Local Open Scope string_scope.

(* ------------------------------------------------------------------ *)
(** ** Reading the replica *)

(** [fetch_replica_entries]: pages of 1000 until one is empty; [None] while it
    is still paging when the fuel runs out. *)
Fixpoint fetch_loop (page : Z -> result http_exn (list row)) (fuel : nat) (after : Z) (entries : list row)
    : option (result http_exn (list row)) :=
  match fuel with
  | O => None
  | S fuel =>
      match page after with
      | Err e => Some (Err e)
      | Ok [] => Some (Ok entries)
      | Ok (e :: batch) =>
          fetch_loop page fuel (entry_id (List.last batch e)) (entries ++ e :: batch)%list
      end
  end.

(** [read_headers] *)
Definition read_auth (read_token : option string) : option string :=
  match read_token with
  | Some t => if str_true t then Some ("Bearer " +:+ t) else None
  | None => None
  end.

Definition fetch_replica_entries (replica_id : string) (read_token : option string) (d : gmap string replica)
    (fuel : nat) : option (result http_exn (list row)) :=
  fetch_loop (fun after => list_entries replica_id after 1000 (read_auth read_token) d) fuel 0 [].

(** A row of [fetch_primary_feed]. *)
Record feed_row := mkFeed {
  p_id : Z;
  p_call_sid : pyval;
  p_previous_hash : pyval;
  p_current_hash : pyval;
  p_t : option float64;
  p_snapshot : pyval;
}.

Definition fetch_primary_feed (epoch : row -> option float64) (table : list row) : list feed_row :=
  map (fun r => mkFeed (match vget r "id" with VInt z => z | _ => 0%Z end) (vget r "call_sid")
         (vget r "previous_hash") (vget r "current_hash") (epoch r) (vget r "cassette_snapshot")) table.

(* ------------------------------------------------------------------ *)
(** ** The report *)

Inductive divergence :=
| clear_hash_mismatch
| envelope_unopenable
| payload_hash_mismatch
| cassette_snapshot_forgery.

#[export] Instance divergence_eq_dec : EqDecision divergence.
Proof. solve_decision. Defined.

Inductive absence_sub := present_on_primary_not_replica | absent_everywhere.

Record absence := mkAbsence {
  ab_primary_id : option Z;
  ab_sid : pyval;
  ab_sub : absence_sub;
  ab_icc : bool;
  ab_age : option float64;
}.

Record buckets := mkBuckets {
  b_match : list Z;
  b_diverge : list (Z * divergence);
  b_missing : list absence;
  b_pending : list absence;
  b_deep_verified : Z;
}.

Record report := mkReport {
  rp_match : list Z;
  rp_diverge : list (Z * divergence);
  rp_missing : list absence;
  rp_pending : list absence;
  rp_extra : list (Z * pyval);
  rp_deep_verified : Z;
  rp_lo : Z;
  rp_hi : Z;
  rp_in_window : nat;
  rp_chain_breaks : list Z;
}.

Definition is_clean (r : report) : bool :=
  match rp_diverge r, rp_missing r, rp_extra r, rp_chain_breaks r with
  | [], [], [], [] => true
  | _, _, _, _ => false
  end.

(** A decryptor: [open] on an envelope and its slot. *)
Definition decryptor : Type := pyval -> dict pyval -> result custody_exn string.

(** [v[:12]] *)
Definition sliceable (v : pyval) : result pyexn unit :=
  match v with VStr _ | VList _ => Ok tt | _ => Err TypeError end.

(** [x in {...}] on JSON values: a list or an object is not hashable. *)
Definition in_set (v : pyval) (l : list pyval) : result pyexn bool :=
  match v with
  | VList _ | VDict _ => Err TypeError
  | _ => Ok (existsb (fun w => py_eq v w) l)
  end.

Definition max_of (l : list Z) : Z := match l with [] => 0%Z | x :: l => fold_left Z.max l x end.
Definition min_of (l : list Z) : Z := match l with [] => 0%Z | x :: l => fold_left Z.min l x end.

(** [by_pid.get(id)]: the dict keeps the last entry of an id. *)
Definition by_pid (entries : list row) (id : Z) : option row :=
  find (fun e => entry_id e =? id)%Z (rev entries).

Definition present_sids (l : list pyval) : list pyval := List.filter py_true l.

(** [prev, cur] pairs of a list. *)
Fixpoint adjacent {A} (l : list A) : list (A * A) :=
  match l with
  | x :: ((y :: _) as l') => (x, y) :: adjacent l'
  | _ => []
  end.

Section Detect.
Context `{FloatRepr} `{!Hashes} `{!Cns}.
Variable loads : string -> result pyexn pyval.

Definition canon (v : pyval) : string := dumps default_seps v.

Variable sla_seconds : Z.
Variable now : float64.

(** [now - p["t"]], for a true [t]. *)
Definition age_of (t : option float64) : option float64 :=
  match t with Some f => if f_nonzero f then Some (fsub now f) else None | None => None end.

Definition young (age : float64) : bool := num_ltb (NF age) (NZ sla_seconds).

Definition put (is_pending : bool) (a : absence) (b : buckets) : buckets :=
  if is_pending then mkBuckets (b_match b) (b_diverge b) (b_missing b) (b_pending b ++ [a]) (b_deep_verified b)
  else mkBuckets (b_match b) (b_diverge b) (b_missing b ++ [a]) (b_pending b) (b_deep_verified b).

Definition diverged (id : Z) (d : divergence) (b : buckets) : buckets :=
  mkBuckets (b_match b) (b_diverge b ++ [(id, d)]) (b_missing b) (b_pending b) (b_deep_verified b).

Definition matched (id : Z) (deep : bool) (b : buckets) : buckets :=
  mkBuckets (b_match b ++ [id]) (b_diverge b) (b_missing b) (b_pending b)
    (if deep then b_deep_verified b + 1 else b_deep_verified b)%Z.

(** Deep verification of an entry present on both sides: what diverges. *)
Definition deep_check (dec : decryptor) (replica_id : string) (rep : row) (p : feed_row)
    : result pyexn (option divergence) :=
  let aad := [("replica_id", VStr replica_id); ("primary_id", vget rep "primary_id");
              ("current_hash", vget rep "current_hash")] in
  match dec (vget rep "envelope") aad with
  | Err CustodyError => Ok (Some envelope_unopenable)
  | Err (CustodyPyExn e) => Err e
  | Ok text =>
      v ← loads text;
      match v with
      | VDict r =>
          bad ← deep_verify_row r KNone;
          match bad with
          | Some _ => Ok (Some payload_hash_mismatch)
          | None =>
              if String.eqb (canon (vget r "cassette_snapshot")) (canon (p_snapshot p)) then Ok None
              else Ok (Some cassette_snapshot_forgery)
          end
      | _ => Err AttributeError
      end
  end.

(** One row of the feed, within the window. *)
Definition feed_step (dec : option decryptor) (replica_id : string) (entries : list row) (b : buckets)
    (p : feed_row) : result pyexn buckets :=
  match by_pid entries (p_id p) with
  | None =>
      let age := age_of (p_t p) in
      Ok (put (match age with Some a => young a | None => false end)
            (mkAbsence (Some (p_id p)) (p_call_sid p) present_on_primary_not_replica false age) b)
  | Some rep =>
      if negb (py_eq (vget rep "previous_hash") (p_previous_hash p)) ||
         negb (py_eq (vget rep "current_hash") (p_current_hash p)) then
        _ ← sliceable (vget rep "current_hash");
        _ ← sliceable (p_current_hash p);
        Ok (diverged (p_id p) clear_hash_mismatch b)
      else
        match dec with
        | None => Ok (matched (p_id p) false b)
        | Some dec =>
            bad ← deep_check dec replica_id rep p;
            Ok (match bad with
                | Some d => diverged (p_id p) d b
                | None => matched (p_id p) true b
                end)
        end
  end.

(** [rec.get("sid") or rec.get("job_id")] *)
Definition record_sid (rec : dict pyval) : pyval :=
  if py_true (vget rec "sid") then vget rec "sid" else vget rec "job_id".

(** One line of the submission record. *)
Definition icc_step (replica_sids primary_sids accounted : list pyval) (b : buckets) (rec : dict pyval)
    : result pyexn buckets :=
  let sid := record_sid rec in
  if negb (py_true sid) then Ok b else
  on_replica ← in_set sid replica_sids;
  if (on_replica : bool) then Ok b else
  t ← to_float (get_or rec "t" (VFloat now));
  let age := fsub now t in
  on_primary ← in_set sid primary_sids;
  if (on_primary : bool) then
    seen ← in_set sid accounted;
    if (seen : bool) then Ok b
    else Ok (put (young age) (mkAbsence None sid present_on_primary_not_replica true (Some age)) b)
  else Ok (put (young age) (mkAbsence None sid absent_everywhere true (Some age)) b).

(** Linkage of entries with adjacent ids. *)
Definition link_breaks (entries : list row) : list Z :=
  omap (fun '(prev, cur) =>
          if (entry_id cur =? entry_id prev + 1)%Z && negb (py_eq (vget cur "previous_hash") (vget prev "current_hash"))
          then Some (entry_id cur) else None)
    (adjacent (sort by_id entries)).

(** The window: explicit bounds, or the replica's own span. *)
Definition window (entries : list row) (primary_id_range : option (option Z * option Z)) : Z * Z :=
  let ids := map entry_id entries in
  match primary_id_range with
  | Some (lo, hi) => (match lo with Some l => l | None => min_of ids end,
                      match hi with Some h => h | None => max_of ids end)
  | None => (min_of ids, max_of ids)
  end.

Definition within (w : Z * Z) (id : Z) : bool := (fst w <=? id)%Z && (id <=? snd w)%Z.
Definition in_window (w : Z * Z) (p : feed_row) : bool := within w (p_id p).

Definition extras (entries : list row) (scoped : list feed_row) : list (Z * pyval) :=
  omap (fun e => if existsb (fun p => p_id p =? entry_id e)%Z scoped then None
                 else Some (entry_id e, vget e "call_sid")) entries.

Definition empty_buckets : buckets := mkBuckets [] [] [] [] 0.

Definition run_detection (entries : list row) (feed : list feed_row) (submissions : list (dict pyval))
    (dec : option decryptor) (replica_id : string) (primary_id_range : option (option Z * option Z))
    : result pyexn report :=
  let replica_sids := present_sids (map (fun e => vget e "call_sid") entries) in
  let w := window entries primary_id_range in
  let scoped := List.filter (in_window w) feed in
  let primary_sids := present_sids (map p_call_sid scoped) in
  b ← foldM (feed_step dec replica_id entries) empty_buckets scoped;
  let accounted := (map ab_sid (b_missing b) ++ map ab_sid (b_pending b))%list in
  b' ← foldM (icc_step replica_sids primary_sids accounted) b submissions;
  Ok (mkReport (b_match b') (b_diverge b') (b_missing b') (b_pending b') (extras entries scoped)
        (b_deep_verified b') (fst w) (snd w) (length scoped) (link_breaks entries)).

(* ------------------------------------------------------------------ *)
(** ** The whole detection *)

Inductive detect_exn := DHttp (e : http_exn) | DPy (e : pyexn).

Record detection := mkDetection {
  dt_report : report;
  dt_custody_model : pyval;
  dt_site : pyval;
  dt_is_primary_evidence : pyval;
}.
End Detect.

(** [detect], against a receiver holding [d] and a primary holding [table]. *)
Definition detect `{FloatRepr} `{!Postgres} `{!Hashes} `{!Cns} (loads : string -> result pyexn pyval) (now : float64)
    (replica_id : string) (read_token : option string) (d : gmap string replica) (epoch : row -> option float64)
    (table : list row) (submissions : list (dict pyval)) (sla_seconds : option Z) (dec : option decryptor)
    (primary_id_range : option (option Z * option Z)) (fuel : nat) : option (result detect_exn detection) :=
  match meta replica_id (read_auth read_token) d with
  | Err e => Some (Err (DHttp e))
  | Ok m =>
      match (match sla_seconds with Some s => Ok s | None => py_int (get_or m "max_lag_seconds" (VInt 30)) end) with
      | Err e => Some (Err (DPy e))
      | Ok sla =>
          match fetch_replica_entries replica_id read_token d fuel with
          | None => None
          | Some (Err e) => Some (Err (DHttp e))
          | Some (Ok entries) =>
              Some (match run_detection loads sla now entries (fetch_primary_feed epoch table) submissions dec
                            replica_id primary_id_range with
                    | Err e => Err (DPy e)
                    | Ok rp => Ok (mkDetection rp (vget m "custody_model") (vget m "site") (vget m "is_primary_evidence"))
                    end)
          end
      end
  end.
