(* ===== verification/TwinAudit.v ===== *)
(** * TwinAudit: what a detection establishes

    The paging read terminates with every entry of the replica; each row of the
    feed is judged once; a CLEAN report means both copies agree; and a history
    rewritten after it was shipped cannot both verify and come out CLEAN. *)

From S2P Require Import Prelude PyFloat PyValue Episode Event Outcome Json Canonical Attestation HeadAnchor LedgerDb Ledger LedgerVerify Witness LedgerForms LedgerSound LedgerWrites LedgerHistory LedgerTamper TwinReceiver TwinSafe TwinDetector.
Local Open Scope string_scope.

(* ------------------------------------------------------------------ *)
(** ** Sorting by id *)

Lemma insert_sorted_least {A} (leb : A -> A -> bool) x l :
  Forall (fun y => leb x y = true) l -> insert_sorted leb x l = x :: l.
Proof. destruct 1 as [|y l Hy _]; simpl; [done|]. by rewrite Hy. Qed.

Lemma filter_insert {A} (leb : A -> A -> bool) (f : A -> bool) x l :
  (forall a b c, leb a b = true -> leb b c = true -> leb a c = true) ->
  StronglySorted (fun a b => leb a b = true) l ->
  List.filter f (insert_sorted leb x l) = if f x then insert_sorted leb x (List.filter f l) else List.filter f l.
Proof.
  intros Htr Hs. induction Hs as [|y l Hs IH Hy]; simpl; [by destruct (f x)|].
  destruct (leb x y) eqn:E; simpl.
  - destruct (f x); [|done]. destruct (f y); simpl; [by rewrite E|]. symmetry. apply insert_sorted_least.
    apply Forall_forall. intros z Hz. rewrite Forall_forall in Hy. apply (Htr _ y); [done|].
    apply Hy. apply list_elem_of_In in Hz. apply filter_In in Hz as [Hz _]. by apply list_elem_of_In.
  - rewrite IH. destruct (f x), (f y); simpl; by rewrite ?E.
Qed.

Lemma by_id_total a b : by_id a b = false -> by_id b a = true.
Proof. unfold by_id. rewrite Z.leb_gt, Z.leb_le. lia. Qed.

Lemma by_id_trans a b c : by_id a b = true -> by_id b c = true -> by_id a c = true.
Proof. unfold by_id. rewrite !Z.leb_le. lia. Qed.

Lemma sort_by_id_strong l : StronglySorted (fun a b => by_id a b = true) (sort by_id l).
Proof.
  apply Sorted_StronglySorted; [intros a b c; apply by_id_trans|].
  apply (sort_Sorted by_id (fun _ => True)); [intros x y _ _; apply by_id_total|by apply Forall_true].
Qed.

Lemma sort_filter_by_id (f : row -> bool) l : sort by_id (List.filter f l) = List.filter f (sort by_id l).
Proof.
  induction l as [|x l IH]; [done|].
  change (sort by_id (x :: l)) with (insert_sorted by_id x (sort by_id l)).
  rewrite (filter_insert _ f x _ by_id_trans (sort_by_id_strong l)), <- IH. simpl. by destruct (f x).
Qed.

(** Ids strictly increase. *)
Definition ascending (l : list row) : Prop := StronglySorted (fun a b => entry_id a < entry_id b)%Z l.

Lemma sort_ascending l : NoDup (map entry_id l) -> ascending (sort by_id l).
Proof.
  intros Hnd. assert (Hp : NoDup (map entry_id (sort by_id l))) by (by rewrite (sort_perm by_id l)).
  pose proof (sort_by_id_strong l) as Hs. unfold ascending.
  induction Hs as [|x r Hs IH Hx]; [constructor|]. cbn [map] in Hp. apply NoDup_cons in Hp as [Hn Hp].
  constructor; [by apply IH|]. apply Forall_forall. intros y Hy. rewrite Forall_forall in Hx.
  pose proof (Hx y Hy) as Hle. unfold by_id in Hle. apply Z.leb_le in Hle.
  assert (entry_id x <> entry_id y); [|lia]. intros Heq. apply Hn. rewrite Heq. by apply list_elem_of_fmap_2.
Qed.

Lemma filter_ascending f l : ascending l -> ascending (List.filter f l).
Proof.
  unfold ascending. induction 1 as [|x l Hs IH Hx]; [constructor|]. simpl. destruct (f x); [|done].
  constructor; [done|]. apply Forall_forall. intros y Hy. rewrite Forall_forall in Hx. apply Hx.
  apply list_elem_of_In in Hy. apply filter_In in Hy as [Hy _]. by apply list_elem_of_In.
Qed.

Lemma ascending_after l1 x l2 : ascending (l1 ++ x :: l2) ->
  List.filter (fun e => entry_id x <? entry_id e)%Z (l1 ++ x :: l2) = l2.
Proof.
  unfold ascending. induction l1 as [|y l1 IH]; simpl; intros Hs; apply StronglySorted_inv in Hs as [Hs Hx];
    rewrite Forall_forall in Hx.
  - rewrite Z.ltb_irrefl. rewrite forallb_filter_id; [done|].
    apply forallb_forall. intros y Hy. apply Z.ltb_lt, Hx. by apply list_elem_of_In.
  - rewrite (proj2 (Z.ltb_ge _ _)); [by apply IH|]. assert (entry_id y < entry_id x)%Z; [|lia].
    apply Hx. set_solver.
Qed.

(* ------------------------------------------------------------------ *)
(** ** Paging *)

Lemma last_snoc_default (l : list row) x d : List.last (l ++ [x]) d = x.
Proof. apply last_last. Qed.

(** The loop on a page function that cuts an ascending list. *)
Lemma fetch_loop_pages (table : list row) (limit : nat) (page : Z -> result http_exn (list row)) :
  (0 < limit)%nat -> ascending table ->
  (forall after, page after = Ok (take limit (List.filter (fun e => after <? entry_id e)%Z table))) ->
  forall fuel after acc rest, List.filter (fun e => after <? entry_id e)%Z table = rest ->
    (length rest < fuel)%nat -> fetch_loop page fuel after acc = Some (Ok (acc ++ rest)%list).
Proof.
  intros Hlim Hasc Hpage. induction fuel as [|fuel IH]; intros after acc rest Hrest Hfuel; [lia|].
  cbn [fetch_loop]. rewrite Hpage, Hrest. destruct (take limit rest) as [|e batch] eqn:Et.
  - assert (Hn : length (take limit rest) = 0%nat) by (by rewrite Et). rewrite length_take in Hn.
    assert (rest = []) as -> by (destruct rest; simpl in *; [done|lia]). by rewrite app_nil_r.
  - assert (Hsplit : rest = ((e :: batch) ++ drop limit rest)%list) by (by rewrite <- Et, take_drop).
    assert (Hlast : exists init x, e :: batch = (init ++ [x])%list /\ List.last batch e = x).
    { destruct batch as [|b batch _] using rev_ind; [by exists [], e|]. exists (e :: batch), b.
      split; [done|]. by rewrite last_last. }
    destruct Hlast as (init & x & Hb & ->).
    rewrite (IH _ _ (drop limit rest)).
    + f_equal. f_equal. rewrite <- app_assoc. by rewrite Hsplit at 2.
    + assert (Ha : ascending rest) by (rewrite <- Hrest; by apply filter_ascending).
      rewrite Hsplit, Hb, <- app_assoc in Ha. cbn [app] in Ha.
      transitivity (List.filter (fun e => entry_id x <? entry_id e)%Z rest).
      * rewrite <- Hrest.
        assert (Hx : (after < entry_id x)%Z).
        { assert (Hin : x ∈ rest) by (rewrite Hsplit, Hb; set_solver).
          rewrite <- Hrest in Hin. apply list_elem_of_In, filter_In in Hin as [_ Hin]. by apply Z.ltb_lt. }
        clear -Hx. induction table as [|y table IH]; simpl; [done|].
        destruct (after <? entry_id y)%Z eqn:E1, (entry_id x <? entry_id y)%Z eqn:E2; simpl; rewrite ?E2, ?IH; try done.
        apply Z.ltb_lt in E2. apply Z.ltb_ge in E1. lia.
      * rewrite Hsplit at 1. rewrite Hb, <- app_assoc. cbn [app]. by apply ascending_after.
    + assert (Hl : length rest = (length (e :: batch) + length (drop limit rest))%nat)
        by (rewrite Hsplit at 1; by rewrite length_app). simpl in Hl. lia.
Qed.

Section Fetch.
Context `{FloatRepr} `{!Postgres} `{!Hashes}.
Variable ed25519_verify : string -> string -> string -> option bool.

(** C21 (reading the replica ends): on every database requests lead to, the
    paging read with an accepted token stops after at most one page per entry
    and one, with every entry whose id is positive, in id order. *)
Theorem fetch_terminates d rid r token :
  served ed25519_verify d -> str_true token = true ->
  require_read_token d rid (Some ("Bearer " +:+ token)) = Ok r ->
  fetch_replica_entries rid (Some token) d (S (length (r_entries r))) =
    Some (Ok (sort by_id (List.filter (fun e => 0 <? entry_id e)%Z (r_entries r)))).
Proof.
  intros Hd Ht Hr. assert (Hl : d !! rid = Some r).
  { unfold require_read_token, meta_of in Hr. destruct (d !! rid) as [r'|]; [|done]. cbn [mbind result_bind] in Hr.
    destruct (_ || _); [done|]. destruct (vget _ _); try done. destruct (negb _); [done|].
    destruct (String.eqb _ _); [|done]. by injection Hr as ->. }
  destruct (served_unique _ d Hd rid r Hl) as [_ Hnd].
  unfold fetch_replica_entries, read_auth. rewrite Ht, sort_filter_by_id.
  rewrite (fetch_loop_pages (sort by_id (r_entries r)) 1000 _ ltac:(lia) (sort_ascending _ Hnd))
    with (rest := List.filter (fun e => 0 <? entry_id e)%Z (sort by_id (r_entries r))); [done| |done|].
  - intros after. unfold list_entries. rewrite Hr. cbn [mbind result_bind].
    by rewrite sort_filter_by_id.
  - pose proof (filter_length_le (fun e => 0 <? entry_id e)%Z (sort by_id (r_entries r))) as Hf.
    rewrite length_sort in Hf. lia.
Qed.
End Fetch.

(* ------------------------------------------------------------------ *)
(** ** The verdict *)

Section Verdict.
Context `{FloatRepr} `{!Hashes} `{!Cns}.
Variable loads : string -> result pyexn pyval.
Variable sla_seconds : Z.
Variable now : float64.
Variable dec : option decryptor.
Variable replica_id : string.

Notation step := (feed_step loads sla_seconds now dec replica_id).

(** What one row of the feed comes to. *)
Inductive judged :=
| jd_match (deep : bool)
| jd_diverge (d : divergence)
| jd_absent (pending : bool) (age : option float64).

Definition judge (entries : list row) (p : feed_row) : result pyexn judged :=
  match by_pid entries (p_id p) with
  | None =>
      let age := age_of now (p_t p) in
      Ok (jd_absent (match age with Some a => young sla_seconds a | None => false end) age)
  | Some rep =>
      if py_eq (vget rep "previous_hash") (p_previous_hash p) && py_eq (vget rep "current_hash") (p_current_hash p)
      then match dec with
           | None => Ok (jd_match false)
           | Some dec =>
               bad ← deep_check loads dec replica_id rep p;
               Ok (match bad with Some d => jd_diverge d | None => jd_match true end)
           end
      else _ ← sliceable (vget rep "current_hash"); _ ← sliceable (p_current_hash p);
           Ok (jd_diverge clear_hash_mismatch)
  end.

Definition absence_of (p : feed_row) (age : option float64) : absence :=
  mkAbsence (Some (p_id p)) (p_call_sid p) present_on_primary_not_replica false age.

Definition file (p : feed_row) (j : judged) (b : buckets) : buckets :=
  match j with
  | jd_match deep => matched (p_id p) deep b
  | jd_diverge d => diverged (p_id p) d b
  | jd_absent pending age => put pending (absence_of p age) b
  end.

Lemma step_judge entries b p : step entries b p = (j ← judge entries p; Ok (file p j b)).
Proof.
  unfold feed_step, judge. destruct (by_pid entries (p_id p)) as [rep|]; [|done].
  rewrite <- negb_andb. destruct (_ && _); cbn [negb].
  - destruct dec as [dc|]; [|done]. destruct (deep_check _ _ _ _ _) as [[d|]|]; done.
  - destruct (sliceable (vget rep _)); cbn [mbind result_bind]; [|done]. by destruct (sliceable (p_current_hash p)).
Qed.

(** The buckets hold the judgements of the rows, in order. *)
Lemma feed_judged entries ps b b' : foldM (step entries) b ps = Ok b' ->
  exists js, Forall2 (fun p j => judge entries p = Ok j) ps js /\ b' = fold_left (fun b pj => file (fst pj) (snd pj) b) (zip ps js) b.
Proof.
  revert b. induction ps as [|p ps IH]; intros b; cbn [foldM]; [intros [= <-]; by exists []|].
  rewrite step_judge. destruct (judge entries p) as [j|] eqn:Ej; [|done]. cbn [mbind result_bind].
  intros Hf. destruct (IH _ Hf) as (js & Hjs & ->). exists (j :: js). split; [by constructor|done].
Qed.

(** Not a finding. *)
Definition harmless (j : judged) : bool :=
  match j with jd_match _ | jd_absent true _ => true | _ => false end.

Definition no_findings (b : buckets) : bool :=
  match b_diverge b, b_missing b with [], [] => true | _, _ => false end.

Lemma no_findings_put pending a b : no_findings (put pending a b) = pending && no_findings b.
Proof.
  destruct pending; unfold no_findings; simpl; [done|].
  destruct (b_diverge b); [|done]. by destruct (b_missing b).
Qed.

Lemma no_findings_file p j b : no_findings (file p j b) = harmless j && no_findings b.
Proof.
  destruct j as [deep|d|pending age]; simpl; [done| |by rewrite no_findings_put; destruct pending].
  unfold no_findings. simpl. by destruct (b_diverge b).
Qed.

Lemma no_findings_files l b : no_findings (fold_left (fun b pj => file (fst pj) (snd pj) b) l b) =
  forallb (fun pj => harmless (snd pj)) l && no_findings b.
Proof.
  revert b. induction l as [|x l IH]; intros b; simpl; [done|]. rewrite IH, no_findings_file.
  by destruct (harmless _), (forallb _ _), (no_findings b).
Qed.

(** The submissions that are not yet overdue, or on the replica, or on the
    primary under a call id already reported. *)
Definition submitted_ok (replica_sids primary_sids accounted : list pyval) (rec : dict pyval) : Prop :=
  py_true (record_sid rec) = false \/ in_set (record_sid rec) replica_sids = Ok true \/
  (exists t, to_float (get_or rec "t" (VFloat now)) = Ok t /\ young sla_seconds (fsub now t) = true) \/
  (in_set (record_sid rec) primary_sids = Ok true /\ in_set (record_sid rec) accounted = Ok true).

Lemma icc_step_findings rs ps acc b rec b' : icc_step sla_seconds now rs ps acc b rec = Ok b' ->
  (no_findings b' = true <-> no_findings b = true /\ submitted_ok rs ps acc rec).
Proof.
  unfold icc_step, submitted_ok. destruct (py_true (record_sid rec)) eqn:Et; cbn [negb];
    [|intros [= <-]; split; [auto|by intros [? _]]].
  destruct (in_set _ rs) as [[]|]; [intros [= <-]; split; [auto|by intros [? _]]| |done]. cbn [mbind result_bind].
  destruct (to_float _) as [t|]; [|done]. cbn [mbind result_bind].
  destruct (in_set _ ps) as [[]|] eqn:Ep; [| |done]; cbn [mbind result_bind].
  - destruct (in_set _ acc) as [[]|]; [intros [= <-]; split; [intros Hb; split; [done|by do 3 right]|by intros [? _]]| |done]. cbn [mbind result_bind].
    intros [= <-]. rewrite no_findings_put, andb_true_iff. split.
    + intros [Hy Hb]. split; [done|]. right; right; left. eauto.
    + intros [Hb [?|[?|[(t' & [= <-] & Hy)|[_ ?]]]]]; done.
  - intros [= <-]. rewrite no_findings_put, andb_true_iff. split.
    + intros [Hy Hb]. split; [done|]. right; right; left. eauto.
    + intros [Hb [?|[?|[(t' & [= <-] & Hy)|[? _]]]]]; done.
Qed.

Lemma icc_findings rs ps acc recs b b' : foldM (icc_step sla_seconds now rs ps acc) b recs = Ok b' ->
  (no_findings b' = true <-> no_findings b = true /\ Forall (submitted_ok rs ps acc) recs).
Proof.
  revert b. induction recs as [|rec recs IH]; intros b; cbn [foldM]; [intros [= <-]; split; [auto|by intros [? _]]|].
  destruct (icc_step _ _ _ _ _ b rec) as [b1|] eqn:E; [|done]. cbn [mbind result_bind]. intros Hf.
  rewrite (IH _ Hf), (icc_step_findings _ _ _ _ _ _ E), Forall_cons. tauto.
Qed.

Lemma run_detection_ok entries feed subs range rp :
  run_detection loads sla_seconds now entries feed subs dec replica_id range = Ok rp ->
  let w := window entries range in
  let scoped := List.filter (in_window w) feed in
  exists js b, Forall2 (fun p j => judge entries p = Ok j) scoped js /\
    b = fold_left (fun b pj => file (fst pj) (snd pj) b) (zip scoped js) empty_buckets /\
    exists b', foldM (icc_step sla_seconds now (present_sids (map (fun e => vget e "call_sid") entries))
        (present_sids (map p_call_sid scoped)) (map ab_sid (b_missing b) ++ map ab_sid (b_pending b))) b subs = Ok b' /\
    rp = mkReport (b_match b') (b_diverge b') (b_missing b') (b_pending b') (extras entries scoped)
           (b_deep_verified b') (fst w) (snd w) (length scoped) (link_breaks entries).
Proof.
  unfold run_detection. cbv zeta. set (scoped := List.filter _ feed).
  destruct (foldM (step entries) empty_buckets scoped) as [b|] eqn:Ef; [|done]. cbn [mbind result_bind].
  destruct (foldM _ b subs) as [b'|] eqn:Ei; [|done]. cbn [mbind result_bind]. intros [= <-].
  destruct (feed_judged _ _ _ _ Ef) as (js & Hjs & Hb). exists js, b. split_and!; [done|done|]. by exists b'.
Qed.

Definition feed_absences (l : list absence) : nat := length (List.filter (fun a => negb (ab_icc a)) l).

(** Where a judgement is found in the report. *)
Definition filed (rp : report) (p : feed_row) (j : judged) : Prop :=
  match j with
  | jd_match _ => p_id p ∈ rp_match rp
  | jd_diverge d => (p_id p, d) ∈ rp_diverge rp
  | jd_absent true age => absence_of p age ∈ rp_pending rp
  | jd_absent false age => absence_of p age ∈ rp_missing rp
  end.

Definition in_buckets (b : buckets) (p : feed_row) (j : judged) : Prop :=
  match j with
  | jd_match _ => p_id p ∈ b_match b
  | jd_diverge d => (p_id p, d) ∈ b_diverge b
  | jd_absent true age => absence_of p age ∈ b_pending b
  | jd_absent false age => absence_of p age ∈ b_missing b
  end.

(** The buckets only grow, and a submission adds only its own absences. *)
Definition grown (b b' : buckets) : Prop :=
  b_match b' = b_match b /\ b_diverge b' = b_diverge b /\
  (exists l, b_missing b' = b_missing b ++ l /\ Forall (fun a => ab_icc a = true) l)%list /\
  (exists l, b_pending b' = b_pending b ++ l /\ Forall (fun a => ab_icc a = true) l)%list.

Lemma grown_refl b : grown b b.
Proof. split_and!; try done; exists []; by rewrite app_nil_r. Qed.

Lemma grown_trans a b c : grown a b -> grown b c -> grown a c.
Proof.
  intros (M1 & D1 & (l1 & E1 & F1) & (k1 & G1 & K1)) (M2 & D2 & (l2 & E2 & F2) & (k2 & G2 & K2)).
  split_and!; [congruence|congruence|exists (l1 ++ l2)%list|exists (k1 ++ k2)%list];
    (split; [rewrite ?E2, ?E1, ?G2, ?G1; by rewrite <- app_assoc|by apply Forall_app]).
Qed.

Lemma grown_put pending a b : ab_icc a = true -> grown b (put pending a b).
Proof.
  intros Ha. destruct pending; split_and!; try done; try (exists []; by rewrite app_nil_r); exists [a]; simpl; auto.
Qed.

Lemma icc_grown rs ps acc subs b b' : foldM (icc_step sla_seconds now rs ps acc) b subs = Ok b' -> grown b b'.
Proof.
  revert b. induction subs as [|rec subs IH]; intros b; cbn [foldM]; [intros [= <-]; apply grown_refl|].
  destruct (icc_step _ _ _ _ _ b rec) as [b1|] eqn:E; [|done]. cbn [mbind result_bind]. intros Hf.
  eapply grown_trans; [|by apply IH]. unfold icc_step in E.
  destruct (negb _); [injection E as <-; apply grown_refl|].
  destruct (in_set _ rs) as [[]|]; [injection E as <-; apply grown_refl| |done]. cbn [mbind result_bind] in E.
  destruct (to_float _) as [t|]; [|done]. cbn [mbind result_bind] in E.
  destruct (in_set _ ps) as [[]|]; [| |done]; cbn [mbind result_bind] in E;
    [destruct (in_set _ acc) as [[]|]; [| |done]; cbn [mbind result_bind] in E|];
    injection E as <-; solve [apply grown_refl|by apply grown_put].
Qed.

Lemma file_keeps p j b q k : in_buckets b q k -> in_buckets (file p j b) q k.
Proof.
  destruct k as [?|?|[] ?], j as [?|?|[] ?]; simpl; try done; rewrite elem_of_app; by left.
Qed.

Lemma file_in p j b : in_buckets (file p j b) p j.
Proof. destruct j as [?|?|[] ?]; simpl; rewrite elem_of_app; right; by apply list_elem_of_singleton. Qed.

Lemma files_in l b p j : (p, j) ∈ l \/ in_buckets b p j ->
  in_buckets (fold_left (fun b pj => file (fst pj) (snd pj) b) l b) p j.
Proof.
  revert b. induction l as [|[q k] l IH]; intros b; simpl; [intros [Hn|?]; [by apply elem_of_nil in Hn|done]|].
  intros Hp. apply IH. destruct Hp as [Hp|Hp]; [|right; by apply file_keeps].
  apply elem_of_cons in Hp as [[= <- <-]|Hp]; [right; apply file_in|by left].
Qed.

Definition counts (b : buckets) : nat :=
  (length (b_match b) + length (b_diverge b) + feed_absences (b_missing b) + feed_absences (b_pending b))%nat.

Lemma feed_absences_app l l' : feed_absences (l ++ l') = (feed_absences l + feed_absences l')%nat.
Proof. unfold feed_absences. by rewrite List.filter_app, length_app. Qed.

Lemma counts_file p j b : counts (file p j b) = S (counts b).
Proof. destruct j as [deep|d|[] age]; unfold counts; simpl; rewrite ?length_app, ?feed_absences_app; unfold feed_absences; simpl; lia. Qed.

Lemma counts_files l b : counts (fold_left (fun b pj => file (fst pj) (snd pj) b) l b) = (length l + counts b)%nat.
Proof. revert b. induction l as [|x l IH]; intros b; simpl; [done|]. rewrite IH, counts_file. lia. Qed.

Lemma feed_absences_icc l : Forall (fun a => ab_icc a = true) l -> feed_absences l = 0%nat.
Proof. induction 1 as [|a l Ha _ IH]; [done|]. unfold feed_absences. simpl. rewrite Ha. exact IH. Qed.

(** Each row is judged once: in a report, every row of the feed in the
    window has a judgement and is filed under it, and matches, divergences and
    the absences that come from the feed are together exactly as many as the
    rows in the window: none is dropped, none filed twice. *)
Theorem each_row_judged_once entries feed subs range rp :
  run_detection loads sla_seconds now entries feed subs dec replica_id range = Ok rp ->
  let scoped := List.filter (in_window (window entries range)) feed in
  Forall (fun p => exists j, judge entries p = Ok j /\ filed rp p j) scoped /\
  (length (rp_match rp) + length (rp_diverge rp) + feed_absences (rp_missing rp) + feed_absences (rp_pending rp))%nat
    = length scoped /\ rp_in_window rp = length scoped.
Proof.
  intros Hd. apply run_detection_ok in Hd as (js & b & Hjs & Hb & b' & Hi & ->). cbv zeta.
  set (scoped := List.filter _ feed) in *. pose proof (icc_grown _ _ _ _ _ _ Hi) as (HM & HD & (l1 & E1 & F1) & (l2 & E2 & F2)).
  split_and!; [| |done].
  - apply Forall_forall. intros p Hp. apply list_elem_of_lookup in Hp as [i Hp].
    destruct (Forall2_lookup_l _ _ _ _ _ Hjs Hp) as (j & Hj & Hjd). exists j. split; [done|].
    assert (Hin : in_buckets b p j).
    { rewrite Hb. apply files_in. left. apply list_elem_of_lookup. exists i. rewrite lookup_zip_with, Hp. simpl. by rewrite Hj. }
    unfold filed. destruct j as [?|?|[] ?]; simpl in *; rewrite ?HM, ?HD, ?E1, ?E2; try done; rewrite elem_of_app; by left.
  - cbn [rp_match rp_diverge rp_missing rp_pending]. rewrite HM, HD, E1, E2, !feed_absences_app, (feed_absences_icc l1 F1), (feed_absences_icc l2 F2), !Nat.add_0_r.
    change (counts b = length scoped). rewrite Hb, counts_files, length_zip_with. rewrite <- (Forall2_length _ _ _ Hjs), Nat.min_id.
    apply Nat.add_0_r.
Qed.

(** The row is on the replica with the same hashes (and, with a decryptor, its
    sealed copy verifies), or it is absent but younger than the SLA. *)
Definition agrees (entries : list row) (p : feed_row) : Prop :=
  match by_pid entries (p_id p) with
  | Some rep =>
      py_eq (vget rep "previous_hash") (p_previous_hash p) = true /\
      py_eq (vget rep "current_hash") (p_current_hash p) = true /\
      match dec with Some dc => deep_check loads dc replica_id rep p = Ok None | None => True end
  | None => exists a, age_of now (p_t p) = Some a /\ young sla_seconds a = true
  end.

Lemma harmless_agrees entries p j : judge entries p = Ok j -> (harmless j = true <-> agrees entries p).
Proof.
  unfold judge, agrees. destruct (by_pid entries (p_id p)) as [rep|].
  - destruct (py_eq (vget rep "previous_hash") _); [|cbn [andb]; destruct (sliceable (vget rep _)); [|done];
      cbn [mbind result_bind]; destruct (sliceable (p_current_hash p)); [|done]; intros [= <-]; split; [done|by intros [? _]]].
    destruct (py_eq (vget rep "current_hash") _); cbn [andb].
    + destruct dec as [dc|]; [|by intros [= <-]].
      destruct (deep_check loads dc replica_id rep p) as [[d|]|]; cbn [mbind result_bind]; [..|done]; intros [= <-]; simpl.
      * split; [done|]. by intros (_ & _ & ?).
      * split; [|done]. by intros _.
    + destruct (sliceable (vget rep _)); [|done]; cbn [mbind result_bind]; destruct (sliceable (p_current_hash p)); [|done];
        intros [= <-]; split; [done|by intros (_ & ? & _)].
  - intros [= <-]. destruct (age_of now (p_t p)) as [a|]; simpl.
    + destruct (young sla_seconds a) eqn:Ey; split; [by exists a| done|done|]. intros (a' & [= <-] & ?). congruence.
    + split; [done|]. by intros (a & ? & _).
Qed.

Lemma harmless_all entries ps js : Forall2 (fun p j => judge entries p = Ok j) ps js ->
  (forallb (fun pj => harmless (snd pj)) (zip ps js) = true <-> Forall (agrees entries) ps).
Proof.
  induction 1 as [|p j ps js Hj _ IH]; [done|]. cbn [zip zip_with forallb snd].
  rewrite andb_true_iff, IH, Forall_cons, (harmless_agrees _ _ _ Hj). done.
Qed.

Lemma extras_nil entries scoped : extras entries scoped = [] <->
  Forall (fun e => exists p, p ∈ scoped /\ p_id p = entry_id e) entries.
Proof.
  unfold extras. induction entries as [|e entries IH]; [done|]. rewrite Forall_cons, <- IH. simpl.
  destruct (existsb _ scoped) eqn:E; simpl.
  - split; [|by intros [_ ?]]. intros Hn. split; [|done]. apply existsb_exists in E as (p & Hp & Hid).
    exists p. split; [by apply list_elem_of_In|by apply Z.eqb_eq].
  - split; [done|]. intros [(p & Hp & Hid) _]. assert (Hf : existsb (fun p => p_id p =? entry_id e)%Z scoped = true); [|congruence].
    apply existsb_exists. exists p. split; [by apply list_elem_of_In|by apply Z.eqb_eq].
Qed.

(** The call ids the report accounts for under its feed absences. *)
Definition absent_sids (entries : list row) (scoped : list feed_row) : list pyval :=
  map p_call_sid (List.filter (fun p => match by_pid entries (p_id p) with Some _ => false | None => true end) scoped).

Lemma harmless_pending entries ps js b : Forall2 (fun p j => judge entries p = Ok j) ps js ->
  no_findings (fold_left (fun b pj => file (fst pj) (snd pj) b) (zip ps js) b) = true ->
  let b' := fold_left (fun b pj => file (fst pj) (snd pj) b) (zip ps js) b in
  b_missing b' = [] /\ map ab_sid (b_pending b') = (map ab_sid (b_pending b) ++ absent_sids entries ps)%list.
Proof.
  intros Hjs. cbv zeta. revert b. induction Hjs as [|p j ps js Hj Hjs IH]; intros b.
  - simpl. unfold no_findings. rewrite app_nil_r. destruct (b_diverge b); [|done]. by destruct (b_missing b).
  - cbn [zip zip_with fold_left fst snd]. intros Hn. destruct (IH _ Hn) as [-> ->]. split; [done|].
    rewrite no_findings_files, no_findings_file, !andb_true_iff in Hn. destruct Hn as (_ & Hh & _).
    unfold absent_sids. cbn [List.filter]. unfold judge in Hj. destruct (by_pid entries (p_id p)) as [rep|] eqn:Eb.
    + f_equal. revert Hj. destruct (_ && _).
      * destruct dec as [dc|]; [destruct (deep_check _ _ _ _ _) as [[d|]|]|]; cbn [mbind result_bind]; try done;
          intros [= <-]; done.
      * destruct (sliceable (vget rep _)); [|done]; cbn [mbind result_bind]; destruct (sliceable (p_current_hash p)); [|done];
          by intros [= <-].
    + injection Hj as <-. simpl in Hh. simpl. destruct (match age_of now (p_t p) with Some a => _ | None => false end); [|done].
      simpl. by rewrite map_app, <- app_assoc.
Qed.

(** When a report is clean. *)
Lemma clean_iff entries feed subs range rp :
  run_detection loads sla_seconds now entries feed subs dec replica_id range = Ok rp ->
  let scoped := List.filter (in_window (window entries range)) feed in
  is_clean rp = true <->
  Forall (agrees entries) scoped /\
  Forall (fun e => exists p, p ∈ scoped /\ p_id p = entry_id e) entries /\
  Forall (submitted_ok (present_sids (map (fun e => vget e "call_sid") entries))
            (present_sids (map p_call_sid scoped)) (absent_sids entries scoped)) subs /\
  link_breaks entries = [].
Proof.
  intros Hd. apply run_detection_ok in Hd as (js & b & Hjs & Hb & b' & Hi & ->). cbv zeta.
  set (scoped := List.filter _ feed) in *. rewrite <- extras_nil.
  assert (Hc : is_clean (mkReport (b_match b') (b_diverge b') (b_missing b') (b_pending b') (extras entries scoped)
      (b_deep_verified b') (fst (window entries range)) (snd (window entries range)) (length scoped) (link_breaks entries)) = true
    <-> no_findings b' = true /\ extras entries scoped = [] /\ link_breaks entries = []).
  { unfold is_clean, no_findings. cbn [rp_diverge rp_missing rp_extra rp_chain_breaks].
    destruct (b_diverge b'), (b_missing b'), (extras entries scoped), (link_breaks entries); intuition discriminate. }
  rewrite Hc, (icc_findings _ _ _ _ _ _ Hi), <- (harmless_all _ _ _ Hjs).
  assert (Hn : no_findings b = forallb (fun pj => harmless (snd pj)) (zip scoped js)).
  { rewrite Hb, no_findings_files. by rewrite andb_true_r. }
  rewrite <- Hn. destruct (no_findings b) eqn:En; [|split; [intros [[? _] _]; done|intros [? _]; done]].
  rewrite Hb in En. destruct (harmless_pending _ _ _ _ Hjs En) as [Hm Hp]. rewrite <- Hb in Hm, Hp.
  rewrite Hm, Hp. cbn [map app b_pending empty_buckets]. tauto.
Qed.

(** C16 (what CLEAN means): a report is CLEAN exactly when every row of the feed
    in the window agrees with the replica or is younger than the SLA, every
    entry of the replica is a row of the feed in the window, every submission
    is on the replica, young, or on the primary under the call id of such a
    young row, and adjacent entries of the replica link. *)
Theorem clean_verdict entries feed subs range rp :
  run_detection loads sla_seconds now entries feed subs dec replica_id range = Ok rp ->
  let scoped := List.filter (in_window (window entries range)) feed in
  is_clean rp = true <->
  Forall (agrees entries) scoped /\
  Forall (fun e => exists p, p ∈ scoped /\ p_id p = entry_id e) entries /\
  Forall (submitted_ok (present_sids (map (fun e => vget e "call_sid") entries))
            (present_sids (map p_call_sid scoped)) (absent_sids entries scoped)) subs /\
  link_breaks entries = [].
Proof. exact (clean_iff entries feed subs range rp). Qed.
End Verdict.

(* ------------------------------------------------------------------ *)
(** ** A rewritten history *)

Section Rewritten.
Context `{FloatRepr} `{!Hashes} `{!Cns}.
Variable loads : string -> result pyexn pyval.

Lemma head_after_app prev a b : head_after prev (a ++ b) = head_after (head_after prev a) b.
Proof. revert prev. induction a as [|r a IH]; intros prev; [done|]. cbn [app]. by rewrite !head_after_cons, IH. Qed.

Lemma chained_app prev a b : chained loads prev (a ++ b) <->
  chained loads prev a /\ chained loads (head_after prev a) b.
Proof.
  revert prev. induction a as [|r a IH]; intros prev; cbn [app].
  - split; [intros Hb; split; [constructor|done]|by intros [_ ?]].
  - rewrite head_after_cons. split.
    + intros Hc. inversion Hc as [|? ? c ? Hp Hf Hh Hr]; subst. apply IH in Hr as [Ha Hb]. split; [|done]. by econstructor.
    + intros [Hc Hb]. inversion Hc as [|? ? c ? Hp Hf Hh Hr]; subst. econstructor; [done|exact Hf|done|]. by apply IH.
Qed.

(** A head inside a chain is a digest, never the word a chain starts from. *)
Lemma head_not_genesis prev rows : rows <> [] -> chained loads prev rows ->
  ~ json_equiv (head_after prev rows) GENESIS.
Proof.
  intros Hne Hc. destruct rows as [|r rows _] using rev_ind; [done|]. apply chained_app in Hc as [_ Hc].
  inversion Hc as [|? ? c ? _ _ Hh _]; subst. rewrite head_after_app, head_after_cons. cbn [head_after last_row last].
  unfold head_after, last_row. simpl. rewrite Hh. intros Hg. unfold json_equiv in Hg. simpl in Hg. injection Hg as Hg.
  destruct (sha256_hex (dumps default_seps (VDict (signed_entry c r)))) as [_ Hl]. unfold hash_entry in Hg. rewrite Hg in Hl. done.
Qed.

Lemma chained_longer a b b' : chained loads GENESIS (a ++ b) -> chained loads GENESIS b' -> length b = length b' ->
  head_after GENESIS (a ++ b) = head_after GENESIS b' ->
  collision loads b b' \/ a = [] /\ Forall2 (same_content loads) b b'.
Proof.
  intros Hab Hb' Hl Hh. rewrite head_after_app in Hh. apply chained_app in Hab as [Ha Hb].
  destruct (chained_commits loads _ _ _ _ Hb Hb' Hl Hh) as [?|[He Hf]]; [by left|right].
  destruct a as [|r a]; [done|]. by destruct (head_not_genesis GENESIS (r :: a) ltac:(done) Ha).
Qed.

(** Two chains from genesis with one head are one chain. *)
Lemma one_head_one_chain rows rows' : chained loads GENESIS rows -> chained loads GENESIS rows' ->
  head_after GENESIS rows = head_after GENESIS rows' -> collision loads rows rows' \/ Forall2 (same_content loads) rows rows'.
Proof.
  intros Hc Hc' Hh. destruct (Nat.le_ge_cases (length rows') (length rows)) as [Hle|Hle].
  - rewrite <- (take_drop (length rows - length rows') rows) in Hc, Hh |- *.
    destruct (chained_longer _ _ _ Hc Hc') as [?|[-> ?]]; [rewrite length_drop; lia|done| |by right].
    left. eapply collision_within; [..|done]; set_solver.
  - rewrite <- (take_drop (length rows' - length rows) rows') in Hc', Hh |- *. symmetry in Hh.
    destruct (chained_longer _ _ _ Hc' Hc) as [Hcol|[-> Hf]]; [rewrite length_drop; lia|done| |right].
    { left. apply collision_sym. eapply collision_within; [..|exact Hcol]; set_solver. }
    cbn [app]. apply Forall2_flip. eapply Forall2_impl; [exact Hf|]. intros r r' (c & c' & ? & ? & ?).
    exists c', c. by split_and!.
Qed.

Lemma last_Some_split (l : list row) x : last l = Some x -> exists init, l = (init ++ [x])%list.
Proof. induction l as [|y l _] using rev_ind; [done|]. rewrite last_snoc. intros [= ->]. by exists l. Qed.

Lemma by_pid_id entries z e : by_pid entries z = Some e -> entry_id e = z /\ e ∈ entries.
Proof.
  unfold by_pid. intros Hf. apply find_some in Hf as [Hin Hz]. split; [by apply Z.eqb_eq|].
  apply list_elem_of_In. by apply in_rev.
Qed.

(** C6 (a rewritten history is found): let the ledger verify when its last row
    reaches the replica.  If what the primary shows later verifies too, under
    any keys, and a detection against the replica comes out CLEAN, then the
    later history begins with rows whose hashed content is that of the rows
    then shipped, one for one, or two rows of the two histories have different
    hashed texts with one SHA-256 digest.  No rewriting of the past,
    re-signed and re-anchored as it may be, passes both. *)
Theorem rewritten_history_is_found os os' rows rows' anchor anchor' r e entries epoch subs dec rid range sla now rp :
  verify_chain loads os rows anchor = Ok [] -> last rows = Some r ->
  by_pid entries (entry_id e) = Some e ->
  vget e "current_hash" = vget r "current_hash" ->
  verify_chain loads os' rows' anchor' = Ok [] ->
  run_detection loads sla now entries (fetch_primary_feed epoch rows') subs dec rid range = Ok rp ->
  is_clean rp = true ->
  collision loads rows rows' \/ exists kept later, rows' = (kept ++ later)%list /\ Forall2 (same_content loads) rows kept.
Proof.
  intros Hv Hlast He Hcur Hv' Hd Hclean.
  assert (Hne : rows <> []) by (intros ->; done).
  destruct (verified_chained loads os rows anchor Hne Hv) as (_ & _ & Hc & _).
  apply (proj1 (clean_iff _ _ _ _ _ _ _ _ _ _ Hd)) in Hclean as (Hag & Hex & _ & _).
  destruct (by_pid_id _ _ _ He) as [_ Hin]. rewrite Forall_forall in Hex. rewrite Forall_forall in Hag.
  destruct (Hex e Hin) as (p & Hp & Hid). pose proof (Hag p Hp) as Hpa. unfold agrees in Hpa. rewrite Hid, He in Hpa.
  destruct Hpa as (_ & Hh & _).
  apply list_elem_of_In, filter_In in Hp as [Hp _]. unfold fetch_primary_feed in Hp. apply in_map_iff in Hp as (r' & <- & Hr').
  cbn [p_current_hash] in Hh. apply in_split in Hr' as (kept & later & Hsplit).
  assert (Hne' : rows' <> []) by (rewrite Hsplit; by destruct kept).
  destruct (verified_chained loads os' rows' anchor' Hne' Hv') as (_ & _ & Hc' & _).
  assert (Hrows' : rows' = ((kept ++ [r']) ++ later)%list) by (by rewrite <- app_assoc).
  rewrite Hrows' in Hc'. apply chained_app in Hc' as [Hc' _].
  destruct (last_Some_split rows r Hlast) as [init Hinit].
  assert (Hcr : exists h, vget r "current_hash" = VStr h).
  { rewrite Hinit in Hc. apply chained_app in Hc as [_ Hc]. inversion Hc; subst. eauto. }
  destruct Hcr as [h Hcr]. rewrite Hcur, Hcr in Hh. apply py_eq_str_l in Hh.
  assert (Hheads : head_after GENESIS rows = head_after GENESIS (kept ++ [r'])).
  { rewrite Hinit. unfold head_after, last_row. rewrite !last_snoc. congruence. }
  destruct (one_head_one_chain _ _ Hc Hc' Hheads) as [?|Hf].
  - left. eapply collision_within; [..|done]; [done|]. intros x. rewrite Hrows', !elem_of_app. tauto.
  - right. by exists (kept ++ [r'])%list, later.
Qed.

(* ------------------------------------------------------------------ *)
(** ** An honest copy *)














End Rewritten.

(* ------------------------------------------------------------------ *)
(** ** Samples *)

#[local] Existing Instance sample_hashes.
#[local] Existing Instance sample_float_repr.
#[local] Existing Instance sample_cns.
#[local] Existing Instance sample_postgres.

Definition clear_copy (r : row) : row :=
  [("primary_id", vget r "id"); ("call_sid", vget r "call_sid"); ("previous_hash", vget r "previous_hash");
   ("current_hash", vget r "current_hash")].

Definition rows_2 : list row := Eval vm_compute in l_rows ledger_2.
Definition rows_3 : list row := Eval vm_compute in l_rows ledger_3.
Definition copy_2 : list row := Eval vm_compute in map clear_copy rows_2.
Definition copy_3 : list row := Eval vm_compute in map clear_copy rows_3.

Definition at_1000 (_ : row) : option float64 := Some (f_of_Z 1000).
Definition noon : float64 := f_of_Z 2000.

(** The replica holds two of the four rows; the others are recent. *)
Definition behind : result pyexn report :=
  run_detection no_loads 5000 noon copy_2 (fetch_primary_feed at_1000 rows_3) [] None "r1" (Some (None, Some 9%Z)).

Lemma verified_2 : verify_chain no_loads os_before rows_2 (l_anchor ledger_2) = Ok [].
Proof. vm_compute. reflexivity. Qed.
Lemma verified_3 : verify_chain no_loads os_after rows_3 (l_anchor ledger_3) = Ok [].
Proof. vm_compute. reflexivity. Qed.

Lemma fetch_terminates_witness :
  fetch_replica_entries "r1" (Some "read-1") sample_db 2 = Some (Ok (r_entries (sample_replica sample_db))) /\
  fetch_replica_entries "r1" (Some "ship-1") sample_db 2 = Some (Err (HTTPException 401)).
Proof.
  split; [|vm_compute; reflexivity].
  assert (Hd : served any_signature sample_db) by apply serve_all_served, served_empty.
  assert (Hr : require_read_token sample_db "r1" (Some ("Bearer " +:+ "read-1")) = Ok (sample_replica sample_db))
    by (vm_compute; reflexivity).
  exact (fetch_terminates any_signature sample_db "r1" (sample_replica sample_db) "read-1" Hd eq_refl Hr).
Defined.

Definition behind_report : report := Eval vm_compute in
  match behind with Ok rp => rp | Err _ => mkReport [] [] [] [] [] 0 0 0 0 [] end.

Lemma each_row_judged_once_witness :
  behind = Ok behind_report /\ rp_in_window behind_report = 5%nat /\
  (length (rp_match behind_report) + length (rp_diverge behind_report) + feed_absences (rp_missing behind_report) +
     feed_absences (rp_pending behind_report) = 5)%nat.
Proof.
  assert (Hd : behind = Ok behind_report) by (vm_compute; reflexivity). split; [exact Hd|]. split; [reflexivity|].
  exact (proj1 (proj2 (each_row_judged_once no_loads 5000 noon None "r1" copy_2 (fetch_primary_feed at_1000 rows_3) []
    (Some (None, Some 9%Z)) behind_report Hd))).
Defined.

Lemma clean_verdict_witness :
  is_clean behind_report = true /\ Forall (agrees no_loads 5000 noon None "r1" copy_2)
    (List.filter (in_window (1, 9)%Z) (fetch_primary_feed at_1000 rows_3)).
Proof.
  assert (Hd : behind = Ok behind_report) by (vm_compute; reflexivity).
  assert (Hc : is_clean behind_report = true) by reflexivity. split; [exact Hc|].
  exact (proj1 (proj1 (clean_verdict no_loads 5000 noon None "r1" copy_2 (fetch_primary_feed at_1000 rows_3) []
    (Some (None, Some 9%Z)) behind_report Hd) Hc)).
Defined.

Lemma rewritten_history_is_found_witness :
  collision no_loads rows_2 rows_3 \/ exists kept later, rows_3 = (kept ++ later)%list /\ Forall2 (same_content no_loads) rows_2 kept.
Proof.
  assert (Hd : behind = Ok behind_report) by (vm_compute; reflexivity).
  assert (Hl : exists r, last rows_2 = Some r /\ by_pid copy_2 (entry_id (clear_copy r)) = Some (clear_copy r))
    by (eexists; split; vm_compute; reflexivity).
  destruct Hl as (r & Hl & He).
  exact (rewritten_history_is_found no_loads os_before os_after rows_2 rows_3 (l_anchor ledger_2) (l_anchor ledger_3)
    r (clear_copy r) copy_2 at_1000 [] None "r1" (Some (None, Some 9%Z)) 5000 noon behind_report
    verified_2 Hl He eq_refl verified_3 Hd eq_refl).
Defined.







(** With an explicit window narrower than the replica, an entry outside it that
    both sides hold alike is reported as wiped from the primary. *)
Theorem narrow_window_false_extra :
  exists rp, run_detection no_loads 30 noon copy_3 (fetch_primary_feed at_1000 rows_3) [] None "r1" (Some (Some 1%Z, Some 3%Z))
      = Ok rp /\ rp_match rp = [1; 2; 3]%Z /\ map fst (rp_extra rp) = [4; 5]%Z /\ is_clean rp = false.
Proof. eexists. split; [vm_compute; reflexivity|]. vm_compute. auto. Qed.
