(* ===== verification/TwinPipeline.v ===== *)
(** * TwinPipeline: from a ledger row to the customer's copy

    The shipper, the queue, the sync worker and the receiver composed: what a
    moved cursor guarantees, what a delivery repeated after a lost
    acknowledgement does, what the customer reads back, and what shipping the
    same row again does. *)

From S2P Require Import Prelude PyFloat PyValue Episode Event Outcome Json Canonical Attestation HeadAnchor LedgerDb Ledger LedgerVerify Witness LedgerSound LedgerHistory Redis Queue QueueInv QueueSafe QueueApi TwinReceiver TwinSafe Base64 Custody TwinShip TwinDetector TwinAudit.
Local Open Scope string_scope.

(* ------------------------------------------------------------------ *)
(** ** The cursor *)

Section Cursor.
Context `{FloatRepr} `{!Hashes} `{!Crypto} {S : Type} `{!Redis S}.
Variable stamp : row -> option (string * float64).
Variable draw : row -> string * string.
Variable q : TransmissionQueue.
Variable skip_sids : list string.

Definition known_job (s : S) (id : string) : Prop := is_Some (jobs (view s) !! id).

Lemma enqueue_known id payload checksum m s :
  known_job (snd (run call (enqueue_script id payload checksum m) s)) id /\
  forall x, known_job s x -> known_job (snd (run call (enqueue_script id payload checksum m) s)) x.
Proof.
  pose proof (enqueue_idempotent s id payload checksum m) as Hq. cbv zeta in Hq. unfold known_job.
  set (s' := snd _) in *. destruct (jobs (view s) !! id) as [h|] eqn:E.
  - destruct Hq as [_ Hj]. destruct Hj as (Hj & _). rewrite Hj. split; [by rewrite E|done].
  - destruct Hq as (_ & _ & Hp & _ & Hl).
    assert (Hid : is_Some (jobs (view s') !! id)).
    { unfold hash_of in Hp. destruct (jobs (view s') !! id); [by eexists|]. by rewrite lookup_empty in Hp. }
    split; [done|]. intros x Hx. destruct (decide (x = id)) as [->|Hne]; [done|].
    specialize (Hl x Hne). apply (f_equal v_hash) in Hl. cbn in Hl. unfold look in Hl. cbn in Hl. by rewrite Hl.
Qed.

Lemma enqueue_ok payload id mx s s' r : str_true id = true ->
  QueueApi.enqueue queue_dumps sha256 q (Some payload) (Some id) "" mx s = (s', Ok r) ->
  known_job s' id /\ forall x, known_job s x -> known_job s' x.
Proof.
  intros Hid. unfold QueueApi.enqueue, opt_true, or_empty. rewrite Hid. unfold invoke.
  set (m := match mx with Some n => _ | None => _ end).
  pose proof (enqueue_known id (queue_dumps payload) (sha256 (queue_dumps payload)) m s) as Hk.
  destruct (Redis.run call (enqueue_script id _ _ m) s) as [[[created [[st|]|]]|] s1]; try done.
  intros [= <- _]. exact Hk.
Qed.

Lemma job_id_true t r : str_true (job_id_of t r) = true.
Proof. unfold job_id_of. by destruct (t_replica_id t). Qed.

Definition skipped (r : row) : Prop := in_strings (row_sid r) skip_sids = Ok true.

Notation ships := (ship_rows stamp draw q skip_sids).

Lemma ship_rows_ok t rows count max_id s s' n mx : ships t rows count max_id s = (s', Ok (n, mx)) ->
  (forall x, known_job s x -> known_job s' x) /\ Forall (fun r => skipped r \/ known_job s' (job_id_of t r)) rows /\
  mx = fold_left Z.max (map row_id rows) max_id.
Proof.
  revert count max_id s. induction rows as [|r rows IH]; intros count max_id s; cbn [ship_rows map fold_left].
  { intros [= <- _ <-]. by split_and!. }
  unfold skipped. destruct (in_strings (row_sid r) skip_sids) as [[]|] eqn:Es; [| |done].
  - intros Hs. destruct (IH _ _ _ Hs) as (Hk & Hall & ->). split_and!; [done|constructor; [by left|done]|done].
  - destruct (seal_row _ _ _ _) as [env|]; [|done].
    destruct (QueueApi.enqueue _ _ _ _ _ _ _ s) as [s1 [en|]] eqn:Ee; [|done]. intros Hs.
    destruct (enqueue_ok _ _ _ _ _ _ (job_id_true t r) Ee) as [Hj Hm]. destruct (IH _ _ _ Hs) as (Hk & Hall & ->).
    split_and!; [auto|constructor; [right; auto|done]|done].
Qed.

Lemma max_ge l m : (m <= fold_left Z.max l m)%Z.
Proof. revert m. induction l as [|x l IH]; intros m; simpl; [lia|]. specialize (IH (Z.max m x)). lia. Qed.

Lemma max_in l m : fold_left Z.max l m = m \/ fold_left Z.max l m ∈ l.
Proof.
  revert m. induction l as [|x l IH]; intros m; simpl; [by left|]. destruct (IH (Z.max m x)) as [E|E]; [|right; set_solver].
  rewrite E. destruct (Z.max_spec m x) as [[_ ->]|[_ ->]]; [right; set_solver|by left].
Qed.

(** The table is in id order. *)
Definition by_row_id (table : list row) : Prop := StronglySorted (fun a b => row_id a < row_id b)%Z table.

Lemma take_below batch (l : list row) x y : by_row_id l -> x ∈ take batch l -> y ∈ l -> (row_id y <= row_id x)%Z -> y ∈ take batch l.
Proof.
  unfold by_row_id. intros Hs Hx Hy Hle. rewrite <- (take_drop batch l) in Hy. apply elem_of_app in Hy as [?|Hy]; [done|exfalso].
  rewrite <- (take_drop batch l) in Hs. apply StronglySorted_app in Hs as (Hlt & _ & _). specialize (Hlt x y Hx Hy). lia.
Qed.

Lemma filter_by_row_id f l : by_row_id l -> by_row_id (List.filter f l).
Proof.
  unfold by_row_id. induction 1 as [|x l Hs IH Hx]; [constructor|]. simpl. destruct (f x); [|done].
  constructor; [done|]. rewrite Forall_forall in *. intros y Hy. apply Hx.
  apply list_elem_of_In in Hy. apply filter_In in Hy as [Hy _]. by apply list_elem_of_In.
Qed.

(** C23 (the cursor trails the queue): after a run for a target, every row the
    cursor moved past, unless its call id is one the operator skips, is a job
    the queue knows; and a run that raises leaves the cursor where it was, so
    its rows are read again. *)
Theorem cursor_trails_queue batch table t cursors s s' cursors' res :
  by_row_id table -> ship_target stamp draw q skip_sids batch table t cursors s = (s', cursors', res) ->
  match res with
  | Err _ => cursors' = cursors
  | Ok _ => let before := or_default (cursors !! t_replica_id t) 0%Z in
      let after := or_default (cursors' !! t_replica_id t) 0%Z in
      (before <= after)%Z /\
      forall r, r ∈ table -> (before < row_id r <= after)%Z -> skipped r \/ known_job s' (job_id_of t r)
  end.
Proof.
  intros Hs. unfold ship_target. set (before := or_default (cursors !! t_replica_id t) 0%Z).
  destruct (ships t _ 0 before s) as [s1 [[n mx]|e]] eqn:Er; [|by intros [= _ <- <-]].
  intros [= <- <- <-]. cbv zeta. destruct (ship_rows_ok _ _ _ _ _ _ _ _ Er) as (_ & Hall & Hmx).
  pose proof (max_ge (map row_id (rows_past before batch table)) before) as Hge. rewrite <- Hmx in Hge.
  assert (Hafter : or_default ((if (before <? mx)%Z then <[t_replica_id t := mx]> cursors else cursors) !! t_replica_id t) 0%Z = mx).
  { destruct (before <? mx)%Z eqn:E; [by rewrite lookup_insert_eq|]. apply Z.ltb_ge in E. fold before. lia. }
  rewrite Hafter. split; [done|]. intros r Hr [Hlo Hhi]. rewrite Forall_forall in Hall. apply Hall. unfold rows_past.
  destruct (max_in (map row_id (rows_past before batch table)) before) as [E|E]; [rewrite <- Hmx in E; lia|].
  rewrite <- Hmx in E. apply list_elem_of_fmap in E as (x & -> & Hx).
  apply (take_below batch _ x); [by apply filter_by_row_id|done| |done].
  apply list_elem_of_In, filter_In. split; [by apply list_elem_of_In|by apply Z.ltb_lt].
Qed.
End Cursor.

(* ------------------------------------------------------------------ *)
(** ** Delivery *)

Lemma envelope_fields_nodup (a b c d e f : pyval) :
  NoDup (dkeys [("v", a); ("alg", b); ("epk", c); ("nonce", d); ("ct", e); ("recipient_fp", f)]).
Proof. apply (bool_decide_unpack _). vm_compute. done. Qed.

Section Deliver.
Context `{FloatRepr} `{!Postgres} `{!Hashes} `{!Crypto}.
Variable stamp : row -> option (string * float64).

(** A POST of a job's payload to the receiver that holds [d]. *)
Definition deliver (p : dict pyval) (auth : option string) (d : gmap string replica)
    : result pyexn (transport * gmap string replica) :=
  e ← sync_entry p;
  let '(answer, d') := store_entry (py_str (vget p "replica_id")) e auth d in
  Ok (answered answer, d').

Definition entry_of (t : target) (r : row) (env : pyval) : dict pyval :=
  [("primary_id", VInt (row_id r)); ("call_sid", row_sid r); ("outcome_obligation", vget r "outcome_obligation");
   ("decided_at", match stamp r with Some (_, f) => VFloat f | None => VNone end); ("domain", cassette_domain r);
   ("previous_hash", vget r "previous_hash"); ("current_hash", vget r "current_hash"); ("envelope", env)].

Lemma deliver_payload t r env auth d :
  deliver (sync_payload stamp t r env) auth d =
    Ok (answered (fst (store_entry (t_replica_id t) (entry_of t r env) auth d)),
        snd (store_entry (t_replica_id t) (entry_of t r env) auth d)).
Proof.
  unfold deliver. change (sync_entry (sync_payload stamp t r env)) with (Ok (entry_of t r env) : result pyexn (dict pyval)).
  cbn [mbind result_bind]. change (py_str (vget (sync_payload stamp t r env) "replica_id")) with (t_replica_id t).
  by destruct (store_entry _ _ _ d).
Qed.

Lemma answered_stored r : answered r = Answered 200 (VStr "stored") -> r = Ok Stored.
Proof. destruct r as [[]|[code|]]; try done. Qed.

Lemma store_pair rid body auth d : store_entry rid body auth d = (fst (store_entry rid body auth d), snd (store_entry rid body auth d)).
Proof. by destruct (store_entry rid body auth d). Qed.

(** Texts and JSON the receiver keeps as they are sent. *)
Definition plain_row (t : target) (r : row) (env : pyval) : Prop := plain_entry (entry_of t r env).

Lemma entry_complete t r env : existsb (fun f => negb (dmem (entry_of t r env) f)) ["primary_id"; "previous_hash"; "current_hash"; "envelope"] = false.
Proof. done. Qed.

Lemma same_delivery_refl t r env : plain_row t r env -> same_delivery (entry_of t r env) (entry_of t r env) = true.
Proof.
  intros [Ht _]. unfold same_delivery. rewrite String.eqb_refl, andb_true_r. apply forallb_forall. intros c Hc.
  rewrite Forall_forall in Ht. apply list_elem_of_In in Hc. specialize (Ht c Hc).
  destruct (vget (entry_of t r env) c); try done. simpl. apply String.eqb_refl.
Qed.

(** A delivery repeated is recognised: when the first POST of a job stored
    its entry and the acknowledgement was lost, the POST of the same job again
    is answered 200 as a duplicate, and nothing changes. *)
Theorem repeated_delivery t r env auth d d1 :
  plain_row t r env -> deliver (sync_payload stamp t r env) auth d = Ok (Answered 200 (VStr "stored"), d1) ->
  deliver (sync_payload stamp t r env) auth d1 = Ok (Answered 200 (VStr "duplicate"), d1).
Proof.
  intros Hp. rewrite !deliver_payload. intros [= Ha Hd]. apply answered_stored in Ha.
  pose proof (store_pair (t_replica_id t) (entry_of t r env) auth d) as Hs. rewrite Ha, Hd in Hs.
  destruct (store_entry_stored _ _ _ _ _ Hs) as (_ & _ & _ & _ & _ & _ & _ & _ & Hv & _).
  rewrite (redelivered _ _ _ _ _ (entry_of t r env) Hs Hp (entry_complete t r env) Hv eq_refl).
  by rewrite same_delivery_refl.
Qed.

(** C22 (what the customer reads back): the envelope the receiver stored opens,
    under the recipient's private key and in the slot its own clear columns
    name, to the row the shipper read. *)
Theorem stored_row_opens draw t r env auth d d1 priv :
  t_recipient_pub t = b64e (x25519_public priv) -> String.length priv = 32%nat ->
  String.length (fst (draw r)) = 32%nat -> String.length (snd (draw r)) = 12%nat ->
  seal_row stamp draw t r = Ok env -> plain_row t r env ->
  deliver (sync_payload stamp t r env) auth d = Ok (Answered 200 (VStr "stored"), d1) ->
  exists rep e, d1 !! t_replica_id t = Some rep /\ find_entry rep (row_id r) = Some e /\
    open_envelope (vget e "envelope") (b64e priv)
      [("replica_id", VStr (t_replica_id t)); ("primary_id", vget e "primary_id"); ("current_hash", vget e "current_hash")]
      = Ok (row_plaintext stamp r).
Proof.
  intros Hpub Hpl He Hn Hseal Hp. rewrite deliver_payload. intros [= Ha Hd]. apply answered_stored in Ha.
  pose proof (store_pair (t_replica_id t) (entry_of t r env) auth d) as Hs. rewrite Ha, Hd in Hs.
  destruct (store_entry_stored _ _ _ _ _ Hs) as (rep & pid & e & _ & Hpid & Hf & -> & _ & _ & Hi).
  injection Hpid as <-. destruct (entry_row_content _ _ _ _ Hi Hp) as (Hid & Hc & Hj).
  eexists _, e. rewrite lookup_insert_eq. split; [done|]. split; [by apply find_entry_snoc|].
  rewrite Hid, (Hc "current_hash") by set_solver. change (vget (entry_of t r env) "current_hash") with (vget r "current_hash").
  change (vget (entry_of t r env) "envelope") with env in Hj. unfold seal_row in Hseal. rewrite Hpub in Hseal.
  destruct (seal_ok _ _ _ _ _ _ Hseal) as (raw & shared & fp & _ & _ & _ & Henv).
  rewrite Henv in Hj. destruct (json_equiv_dict _ _ Hj) as (d' & Hw). pose proof Hj as Hjd. rewrite Hw in Hjd.
  pose proof (json_equiv_nodup _ _ Hjd (envelope_fields_nodup _ _ _ _ _ _)) as Hnd.
  rewrite Hw in *. rewrite <- Henv in Hj.
  by apply (open_sealed (fst (draw r)) (snd (draw r)) _ priv (ship_aad (t_replica_id t) r) env d').
Qed.

(** Shipping a row again is refused: sealing draws a fresh nonce, so a row
    shipped a second time (after the cursor is lost) makes another envelope;
    the receiver answers 409 and the worker fails the job for good as corrupt. *)
Theorem reshipping_is_refused draw draw' t r env env' auth d d1 :
  String.length (snd (draw' r)) = 12%nat -> snd (draw r) <> snd (draw' r) ->
  seal_row stamp draw t r = Ok env -> seal_row stamp draw' t r = Ok env' -> plain_row t r env ->
  deliver (sync_payload stamp t r env) auth d = Ok (Answered 200 (VStr "stored"), d1) ->
  deliver (sync_payload stamp t r env') auth d1 = Ok (Answered 409 VNone, d1) /\
  fail_of (Answered 409 VNone) = (DATA_CORRUPTION, false).
Proof.
  intros Hn Hne Hs1 Hs2 Hp. rewrite !deliver_payload. intros [= Ha Hd]. apply answered_stored in Ha. split; [|done].
  pose proof (store_pair (t_replica_id t) (entry_of t r env) auth d) as Hs. rewrite Ha, Hd in Hs.
  assert (Hv : structurally_valid_envelope env' = true).
  { eapply sealed_admitted; [exact Hn| |exact Hs2]. unfold row_plaintext, canonical_json, dumps. rewrite norm_dict. discriminate. }
  rewrite (redelivered _ _ _ _ _ (entry_of t r env') Hs Hp (entry_complete t r env') Hv eq_refl).
  assert (Hx : same_delivery (entry_of t r env) (entry_of t r env') = false); [|by rewrite Hx].
  unfold same_delivery. apply andb_false_iff. right. apply String.eqb_neq. intros Heq.
  change (vget (entry_of t r env) "envelope") with env in Heq. change (vget (entry_of t r env') "envelope") with env' in Heq.
  apply (dumps_inj compact_seps env env') in Heq.
  destruct (seal_ok _ _ _ _ _ _ Hs1) as (? & ? & ? & _ & _ & _ & ->). destruct (seal_ok _ _ _ _ _ _ Hs2) as (? & ? & ? & _ & _ & _ & ->).
  apply (json_equiv_vget _ _ "nonce") in Heq; [|apply envelope_fields_nodup..].
  unfold vget in Heq. cbn [dget String.eqb Ascii.eqb Bool.eqb] in Heq. apply json_equiv_str in Heq. injection Heq as Heq.
  apply Hne. pose proof (b64decode_encode (snd (draw r))) as D. unfold b64e in Heq. rewrite <- Heq, b64decode_encode in D. congruence.
Qed.
End Deliver.

(* ------------------------------------------------------------------ *)
(** ** Samples *)

#[local] Existing Instance sample_hashes.
#[local] Existing Instance sample_float_repr.
#[local] Existing Instance sample_cns.
#[local] Existing Instance sample_postgres.
#[local] Existing Instance sample_crypto.

Definition sample_target : target :=
  mkTarget "r1" "http://replica" "ship-1" (b64e (x25519_public sample_priv)).
Definition sample_stamp (_ : row) : option (string * float64) := Some ("2026-01-01", f_of_Z 1000).
Definition first_draw (_ : row) : string * string := (sample_eph, "nonce-nonce-").
Definition second_draw (_ : row) : string * string := (sample_eph, "other-nonce-").
Definition shipped_row : row := Eval vm_compute in match rows_3 with _ :: _ :: r :: _ => r | _ => [] end.
Definition sealed_by (draw : row -> string * string) : pyval :=
  match seal_row sample_stamp draw sample_target shipped_row with Ok v => v | Err _ => VNone end.
Definition first_sealed : pyval := Eval vm_compute in sealed_by first_draw.
Definition second_sealed : pyval := Eval vm_compute in sealed_by second_draw.
Definition registered_db : gmap string replica := serve_all [sample_registration] ∅.
Definition first_job : dict pyval := sync_payload sample_stamp sample_target shipped_row first_sealed.
Definition delivered_db : gmap string replica :=
  match deliver first_job sample_token registered_db with Ok (_, d) => d | Err _ => ∅ end.

Lemma sample_plain : plain_row sample_stamp sample_target shipped_row first_sealed.
Proof. split; [repeat (constructor; [reflexivity|]); constructor|vm_compute; reflexivity]. Qed.

Lemma sample_delivered : deliver first_job sample_token registered_db = Ok (Answered 200 (VStr "stored"), delivered_db).
Proof. vm_compute. reflexivity. Qed.

Lemma repeated_delivery_witness :
  deliver first_job sample_token delivered_db = Ok (Answered 200 (VStr "duplicate"), delivered_db).
Proof.
  exact (repeated_delivery sample_stamp sample_target shipped_row first_sealed sample_token registered_db delivered_db
    sample_plain sample_delivered).
Defined.

Lemma stored_row_opens_witness :
  exists rep e, delivered_db !! "r1" = Some rep /\ find_entry rep 3 = Some e /\
    open_envelope (vget e "envelope") (b64e sample_priv)
      [("replica_id", VStr "r1"); ("primary_id", vget e "primary_id"); ("current_hash", vget e "current_hash")]
      = Ok (row_plaintext sample_stamp shipped_row).
Proof.
  assert (Hs : seal_row sample_stamp first_draw sample_target shipped_row = Ok first_sealed) by (vm_compute; reflexivity).
  exact (stored_row_opens sample_stamp first_draw sample_target shipped_row first_sealed sample_token registered_db
    delivered_db sample_priv eq_refl eq_refl eq_refl eq_refl Hs sample_plain sample_delivered).
Defined.

Lemma reshipping_is_refused_witness :
  deliver (sync_payload sample_stamp sample_target shipped_row second_sealed) sample_token delivered_db
    = Ok (Answered 409 VNone, delivered_db).
Proof.
  assert (H1 : seal_row sample_stamp first_draw sample_target shipped_row = Ok first_sealed) by (vm_compute; reflexivity).
  assert (H2 : seal_row sample_stamp second_draw sample_target shipped_row = Ok second_sealed) by (vm_compute; reflexivity).
  assert (Hne : snd (first_draw shipped_row) <> snd (second_draw shipped_row)) by discriminate.
  exact (proj1 (reshipping_is_refused sample_stamp first_draw second_draw sample_target shipped_row first_sealed
    second_sealed sample_token registered_db delivered_db eq_refl Hne H1 H2 sample_plain sample_delivered)).
Defined.

Definition last_shipped : row := Eval vm_compute in match rev rows_3 with r :: _ => r | [] => [] end.

Definition shipping (skip : list string) : rstate * gmap string Z * result queue_exn Z :=
  ship_target sample_stamp first_draw demo_queue skip 200 rows_3 sample_target ∅ admitted.

Lemma cursor_trails_queue_witness :
  snd (shipping ["CA1"]) = Ok 4%Z /\ known_job (fst (fst (shipping ["CA1"]))) "r1|5" /\
  ~ known_job (fst (fst (shipping ["CA1"]))) "r1|3".
Proof.
  assert (Hr : snd (shipping ["CA1"]) = Ok 4%Z) by (vm_compute; reflexivity).
  assert (Hn : jobs (view (fst (fst (shipping ["CA1"])))) !! "r1|3" = None) by (vm_compute; reflexivity).
  split; [exact Hr|]. split; [|unfold known_job; rewrite Hn; intros [? ?]; discriminate].
  destruct (shipping ["CA1"]) as [[s' cursors'] res] eqn:E.
  assert (Hc : cursors' = <["r1" := 5%Z]> ∅) by (change cursors' with (snd (fst (s', cursors', res))); rewrite <- E; vm_compute; reflexivity).
  assert (Hs : by_row_id rows_3) by (repeat (constructor; [|repeat (constructor; [vm_compute; reflexivity|]); constructor]); constructor).
  pose proof (cursor_trails_queue sample_stamp first_draw demo_queue ["CA1"] 200 rows_3 sample_target ∅ admitted s' cursors' res Hs E) as H.
  cbn [snd fst] in *. subst res cursors'. destruct H as [_ H].
  assert (Hin : last_shipped ∈ rows_3) by (apply list_elem_of_lookup; exists 4%nat; reflexivity).
  destruct (H last_shipped Hin ltac:(split; vm_compute; congruence)) as [Hsk|Hk]; [|exact Hk].
  vm_compute in Hsk. discriminate Hsk.
Defined.

(** An envelope the receiver admitted stops the detection: opening it raises
    an exception the detector does not turn into a finding. *)
Theorem integer_nonce_stops_detection :
  let env := VDict (dset sealed_fields "nonce" (VInt 1234567890123456)) in
  let entries := map (fun e => dset e "envelope" env) copy_3 in
  structurally_valid_envelope env = true /\
  run_detection no_loads 30 noon entries (fetch_primary_feed at_1000 rows_3) []
    (Some (fun env aad => open_envelope env (b64e sample_priv) aad)) "r1" None = Err AttributeError.
Proof. vm_compute. auto. Qed.
