(* ===== verification/Supersession.v ===== *)
(** * Supersession: abandoning what a replacement decision supersedes

    Models src/sentinel_os/obligation_supersession.py: the decisions of the
    primary's ledger that declare a replacement, what each one's old obligation
    needs, and the transitions posted to the replica.  A response that is not a
    success is the handler's exception ([raise_for_status]).  The free text of
    an outcome is a case of [why]. *)

From S2P Require Import Prelude PyFloat PyValue Episode Event Outcome Json Canonical Attestation HeadAnchor LedgerDb Ledger LedgerVerify Witness TwinReceiver.
Local Open Scope string_scope.

Inductive supersession_status :=
| STATUS_ABANDONED            (* newly abandoned this run *)
| STATUS_ALREADY_ABANDONED    (* nothing to do *)
| STATUS_CONFLICT
| STATUS_UNRESOLVABLE.

#[export] Instance supersession_status_eq_dec : EqDecision supersession_status.
Proof. solve_decision. Defined.

(** The details [resolve_candidate] gives. *)
Inductive why :=
| decision_not_found
| nothing_declared
| declaration_unreadable
| not_on_the_twin
| was_open
| superseded_before
| abandoned_otherwise
| was_resolved
| unrecognized_state.

Record ReplacementCandidate := mkCandidate {
  new_decision_hash : string;
  replaces_hash : string;
  rc_domain : string;
  decided_at : option float64;
}.

Record SupersessionOutcome := mkSupersession {
  so_candidate : ReplacementCandidate;
  so_obligation_id : option string;
  so_status : supersession_status;
  so_detail : why;
}.

(** What a run raises: an exception of its own, or a refused request. *)
Inductive sweep_exn := SPy (e : pyexn) | SHttp (e : http_exn).

Definition old_obligation_id (replaces : string) (rule : MaturationRule) : string :=
  replaces +:+ ":" +:+ kind rule.

Section Sweep.
Context `{FloatRepr}.

(** [resolve_candidate]: only [ValueError] is caught around the parse. *)
Definition resolve_candidate (candidate : ReplacementCandidate) (old_decision_row old_obligation : option row)
    : result pyexn SupersessionOutcome :=
  let outcome oid status detail := Ok (mkSupersession candidate oid status detail) in
  match old_decision_row with
  | None => outcome None STATUS_UNRESOLVABLE decision_not_found
  | Some old =>
      let declaration := vget old "outcome_obligation" in
      if negb (py_true declaration) then outcome None STATUS_UNRESOLVABLE nothing_declared else
      match parse (py_str declaration) with
      | Err ValueError => outcome None STATUS_UNRESOLVABLE declaration_unreadable
      | Err e => Err e
      | Ok rule =>
          let oid := Some (old_obligation_id (replaces_hash candidate) rule) in
          match old_obligation with
          | None => outcome oid STATUS_UNRESOLVABLE not_on_the_twin
          | Some o =>
              let st := vget o "state" in
              if py_eq st (VStr OUTCOME_OPEN) then outcome oid STATUS_ABANDONED was_open
              else if py_eq st (VStr OUTCOME_ABANDONED) then
                if py_eq (vget o "reason_code") (VStr REASON_DECISION_SUPERSEDED)
                then outcome oid STATUS_ALREADY_ABANDONED superseded_before
                else outcome oid STATUS_CONFLICT abandoned_otherwise
              else if py_eq st (VStr OUTCOME_RESOLVED) then outcome oid STATUS_CONFLICT was_resolved
              else outcome oid STATUS_CONFLICT unrecognized_state
          end
      end
  end.

(* ------------------------------------------------------------------ *)
(** ** Reading the ledger and the replica *)

Context `{!Postgres} `{!Hashes}.

(** The server's timestamp of a ledger row, as an epoch. *)
Variable epoch : row -> option float64.

Definition row_domain (r : row) : option string :=
  match vget r "cassette_version" with VStr v => domain_from_cassette_version (Some v) | _ => None end.

Definition candidate_of (r : row) : ReplacementCandidate :=
  mkCandidate (py_str (vget r "current_hash")) (py_str (vget r "replaces_hash"))
    (match row_domain r with Some d => d | None => "unknown" end) (epoch r).

(** [WHERE replaces_hash IS NOT NULL AND record_kind = 'governance_decision'],
    in the order of the table, then the domain. *)
Definition declares_replacement (r : row) : bool :=
  negb (is_None (vget r "replaces_hash")) && col_is "record_kind" (VStr "governance_decision") r.

Definition in_domain (domain : option string) (r : row) : bool :=
  match domain with
  | None => true
  | Some d => match row_domain r with Some d' => String.eqb d' d | None => false end
  end.

Definition fetch_replacement_candidates (table : list row) (domain : option string)
    : list ReplacementCandidate :=
  map candidate_of (List.filter (in_domain domain) (List.filter declares_replacement table)).

(** The dict keeps the last row of a hash. *)
Definition fetch_old_decision_row (table : list row) (decision_hash : string) : option row :=
  find (fun r => col_is "current_hash" (VStr decision_hash) r && col_is "record_kind" (VStr "governance_decision") r)
    (rev table).

Variable text_leb : string -> string -> bool.

(** [fetch_obligations_by_id]: the listing, by id. *)
Definition fetch_obligations (replica_id : string) (auth : option string) (clock : float64)
    (d : gmap string replica) : result http_exn (list row) :=
  '(obligations, _) ← list_obligations text_leb replica_id clock auth d;
  Ok obligations.

Definition by_obligation_id (obligations : list row) (oid : string) : option row :=
  find (fun o => py_eq (vget o "obligation_id") (VStr oid)) (rev obligations).

(** The obligation a candidate asks about, from the first pass. *)
Definition provisional_id (table : list row) (candidate : ReplacementCandidate) : result pyexn (option string) :=
  match fetch_old_decision_row table (replaces_hash candidate) with
  | None => Ok None
  | Some old =>
      let declaration := vget old "outcome_obligation" in
      if negb (py_true declaration) then Ok None else
      match parse (py_str declaration) with
      | Ok rule => Ok (Some (old_obligation_id (replaces_hash candidate) rule))
      | Err ValueError => Ok None
      | Err e => Err e
      end
  end.

Definition looked_up (obligations : list row) (oid : option string) : option row :=
  match oid with Some i => if str_true i then by_obligation_id obligations i else None | None => None end.

Definition sweep (table : list row) (replica_id : string) (auth : option string) (clock : float64)
    (domain : option string) (d : gmap string replica) : result sweep_exn (list SupersessionOutcome) :=
  let candidates := fetch_replacement_candidates table domain in
  match candidates with
  | [] => Ok []
  | _ =>
      provisional ← map_err SPy (mapM_r (fun c => i ← provisional_id table c; Ok (c, i)) candidates);
      obligations ← map_err SHttp (fetch_obligations replica_id auth clock d);
      map_err SPy (mapM_r (fun '(c, i) =>
        resolve_candidate c (fetch_old_decision_row table (replaces_hash c)) (looked_up obligations i)) provisional)
  end.

(* ------------------------------------------------------------------ *)
(** ** Recording *)

Definition abandon_body (at_ : option float64) : dict pyval :=
  [("state", VStr OUTCOME_ABANDONED); ("reason_code", VStr REASON_DECISION_SUPERSEDED);
   ("at", match at_ with Some f => VFloat f | None => VNone end)].

Definition abandoned_at (o : SupersessionOutcome) (fallback_at : option float64) : option float64 :=
  match decided_at (so_candidate o) with Some f => Some f | None => fallback_at end.

(** [record_outcomes]: what was recorded, or the first refusal; what was posted
    before it stays. *)
Fixpoint record_outcomes (replica_id : string) (auth : option string) (fallback_at : option float64)
    (outcomes : list SupersessionOutcome) (recorded : list (string * Z)) (d : gmap string replica)
    : result sweep_exn (list (string * Z)) * gmap string replica :=
  match outcomes with
  | [] => (Ok recorded, d)
  | o :: outcomes =>
      if negb (bool_decide (so_status o = STATUS_ABANDONED))
      then record_outcomes replica_id auth fallback_at outcomes recorded d
      else
        let oid := or_empty (so_obligation_id o) in
        match transition_obligation replica_id oid (abandon_body (abandoned_at o fallback_at)) auth d with
        | (Err e, d') => (Err (SHttp e), d')
        | (Ok (seq, _, _, _), d') =>
            record_outcomes replica_id auth fallback_at outcomes (recorded ++ [(oid, seq)])%list d'
        end
  end.

(** One run of the tool. *)
Definition supersede_run (table : list row) (replica_id : string) (auth : option string) (clock : float64)
    (domain : option string) (d : gmap string replica)
    : result sweep_exn (list SupersessionOutcome * list (string * Z)) * gmap string replica :=
  match sweep table replica_id auth clock domain d with
  | Err e => (Err e, d)
  | Ok outcomes =>
      match record_outcomes replica_id auth (Some clock) outcomes [] d with
      | (Ok recorded, d') => (Ok (outcomes, recorded), d')
      | (Err e, d') => (Err e, d')
      end
  end.
End Sweep.
