(* ===== verification/SupersessionRuns.v ===== *)
(** * SupersessionRuns: what a supersession run does

    Runs of the supersession tool over a ledger the writers made and a replica
    that served requests: every candidate is accounted for, only open
    obligations are abandoned, and a second run has nothing left to do. *)

From S2P Require Import Prelude PyFloat PyValue Episode Event Outcome Json Canonical Attestation HeadAnchor LedgerDb Ledger LedgerVerify Witness LedgerSound LedgerWrites LedgerHistory LedgerTamper LedgerRefs TwinReceiver TwinSafe Supersession.
Local Open Scope string_scope.

(* ------------------------------------------------------------------ *)
(** ** The texts of a ledger row *)

Section LedgerTexts.
Context `{FloatRepr} `{!Postgres} `{!Hashes} `{!Cns}.
Variable loads : string -> result pyexn pyval.
Variable verify_governed_decision : Episode -> GovernanceDecisionRecord -> list EventV1 -> boundary_verdict.
Variable ks : KeySet.
Notation history := (history loads verify_governed_decision ks).

Lemma history_stored l r : history l -> r ∈ l_rows l ->
  exists id s, storable_stmt s = true /\ store_row id s = Some r.
Proof.
  intros Hl. pose proof (s_rows _ _ _ (history_sound _ _ _ _ Hl)) as Hs. revert Hs.
  generalize "genesis". induction (l_rows l) as [|x rows IH]; intros prev Hs Hr; [by apply elem_of_nil in Hr|].
  inversion Hs; subst. apply elem_of_cons in Hr as [->|Hr]; [eauto|by eapply IH].
Qed.

(** A varchar column holds a text that fits, or NULL. *)
Lemma history_varchar l r c n : history l -> r ∈ l_rows l -> (c, C_VARCHAR n) ∈ LEDGER_COLUMNS ->
  vget r c = VNone \/ exists s, vget r c = VStr s /\ (String.length s <= n)%nat.
Proof.
  intros Hl Hr Hc. destruct (history_stored l r Hl Hr) as (id & s & Hs & Hst).
  assert (Hcol : is_column c = true) by (apply str_mem_spec, (list_elem_of_fmap_2 fst _ _ Hc)).
  pose proof (stored_column _ _ _ _ Hs Hst Hcol) as Heq. unfold storable_stmt in Hs.
  rewrite forallb_forall in Hs. specialize (Hs _ (proj1 (list_elem_of_In _ _) Hc)). cbn in Hs.
  destruct (column_value s c) as [| | | |x| |]; try done; [left; by apply json_equiv_none|right].
  apply andb_true_iff in Hs as [_ Hlen]. exists x. split; [by apply json_equiv_str|]. by apply Nat.leb_le.
Qed.
End LedgerTexts.

(* ------------------------------------------------------------------ *)
(** ** The listing of the replica *)

Section Listing.
Context `{FloatRepr} `{!Postgres} `{!Hashes}.
Variable text_leb : string -> string -> bool.

Notation add_id := (fun ids o => let i := py_str (vget o "obligation_id") in
  if str_mem i ids then ids else (ids ++ [i])%list).

Lemma fold_ids_keeps rows ids i : i ∈ ids -> i ∈ fold_left add_id rows ids.
Proof.
  revert ids. induction rows as [|x rows IH]; intros ids Hi; [done|]. apply IH. cbv zeta. destruct (str_mem _ _); set_solver.
Qed.

Lemma fold_ids_in rows ids o : o ∈ rows -> py_str (vget o "obligation_id") ∈ fold_left add_id rows ids.
Proof.
  revert ids. induction rows as [|x rows IH]; intros ids Ho; [by apply elem_of_nil in Ho|].
  cbn [fold_left]. apply elem_of_cons in Ho as [->|Ho]; [|by apply IH]. apply fold_ids_keeps. cbv zeta.
  destruct (str_mem _ ids) eqn:E; [by apply str_mem_spec|set_solver].
Qed.

Lemma obligation_ids_in rows o : o ∈ rows -> py_str (vget o "obligation_id") ∈ obligation_ids rows.
Proof. apply fold_ids_in. Qed.

Lemma latest_state_mem rows oid cur : latest_state rows oid = Some cur -> cur ∈ rows.
Proof. unfold latest_state. intros Hf. apply find_some in Hf as [Hin _]. apply list_elem_of_In in Hin. by apply list_elem_of_In, in_rev, list_elem_of_In. Qed.

(** The listing holds the latest row of each id, and nothing else. *)
Lemma latest_states_spec rows oid cur :
  cur ∈ latest_states text_leb rows /\ vget cur "obligation_id" = VStr oid <-> latest_state rows oid = Some cur.
Proof.
  unfold latest_states. rewrite list_elem_of_omap. split.
  - intros [(i & _ & Hl) Hid]. pose proof (latest_state_id _ _ _ Hl) as Hid'. congruence.
  - intros Hl. pose proof (latest_state_id _ _ _ Hl) as Hid. split; [|done]. exists oid. split; [|done].
    apply elem_of_sort. pose proof (obligation_ids_in rows cur (latest_state_mem _ _ _ Hl)) as Hin. by rewrite Hid in Hin.
Qed.

(** A listed row is a stored one, marked. *)
Definition marked (o o' : row) : Prop := exists b, o' = dset o "overdue" (VBool b).

Lemma marked_get o o' c : marked o o' -> c <> "overdue" -> vget o' c = vget o c.
Proof. intros [b ->] Hc. unfold vget. by rewrite dget_dset_ne. Qed.

Lemma list_fold_marked clock l acc : Forall (fun o => exists f, vget o "expected_by" = VFloat f) l ->
  exists os s, foldM (list_step clock) acc l = Ok ((fst acc ++ os)%list, s) /\ Forall2 marked l os.
Proof.
  intros Hl. revert acc. induction Hl as [|o l (f & Hf) _ IH]; intros acc.
  { exists [], (snd acc). destruct acc. cbn. by rewrite app_nil_r. }
  cbn [foldM]. destruct acc as [os s]. unfold list_step at 1.
  assert (Ho : exists b, row_overdue clock o = Ok b).
  { unfold row_overdue. destruct (py_eq _ _); [|eauto]. rewrite Hf. cbn. eauto. }
  destruct Ho as [b ->]. cbn [mbind result_bind]. match goal with |- context [foldM _ ?a _] => destruct (IH a) as (os' & s' & -> & Hm) end.
  exists (dset o "overdue" (VBool b) :: os'), s'. split; [cbn [fst]; by rewrite <- app_assoc|]. constructor; [by exists b|done].
Qed.

Variable ed25519_verify : string -> string -> string -> option bool.

Lemma served_horizons d rid r : served ed25519_verify d -> d !! rid = Some r ->
  Forall (fun o => exists f, vget o "expected_by" = VFloat f) (r_obligations r).
Proof.
  intros Hd Hr. destruct (served_typed _ d Hd rid r Hr) as (_ & _ & Ho & _).
  eapply Forall_impl; [exact Ho|]. intros o (_ & Ht & Hn). rewrite Forall_forall in Ht.
  specialize (Ht ("expected_by", C_FLOAT) ltac:(set_solver)). cbn in Ht. rewrite Forall_forall in Hn.
  specialize (Hn "expected_by" ltac:(set_solver)). destruct (vget o "expected_by"); try done. eauto.
Qed.

(** What the run reads of an obligation is its latest row on the chain. *)
Lemma listing rid auth clock d r : served ed25519_verify d -> require_ship_token d rid auth = Ok r ->
  exists obs, fetch_obligations text_leb rid auth clock d = Ok obs /\
    forall oid, option_Forall2 marked (latest_state (r_obligations r) oid) (by_obligation_id obs oid).
Proof.
  intros Hd Hr. pose proof (ship_token_ok _ _ _ _ Hr) as [Hl _]. unfold fetch_obligations, list_obligations. rewrite Hr.
  cbn [mbind result_bind]. set (L := sort opened_leb (latest_states text_leb (r_obligations r))).
  assert (Hlat : forall o oid, o ∈ L /\ vget o "obligation_id" = VStr oid <-> latest_state (r_obligations r) oid = Some o)
    by (intros o oid; unfold L; rewrite elem_of_sort; apply latest_states_spec).
  destruct (list_fold_marked clock L ([], [])) as (os & sm & -> & Hm).
  { pose proof (served_horizons d rid r Hd Hl) as Hf. rewrite Forall_forall in Hf |- *. intros o Ho. apply Hf.
    unfold L in Ho. rewrite elem_of_sort in Ho. unfold latest_states in Ho. rewrite list_elem_of_omap in Ho.
    destruct Ho as (i & _ & Hi). by eapply latest_state_mem. }
  cbn [lift_http map_err mbind result_bind]. eexists. split; [reflexivity|]. intros oid. unfold by_obligation_id. cbn [fst app].
  destruct (find (fun o => py_eq (vget o "obligation_id") (VStr oid)) (rev os)) as [o'|] eqn:Ef.
  - apply find_some in Ef as [Hin He]. apply in_rev, list_elem_of_In in Hin. apply py_eq_str_r in He.
    destruct (Forall2_elem_r _ _ _ _ Hm Hin) as (o & Ho & Hmk). rewrite (marked_get _ _ _ Hmk) in He by done.
    rewrite (proj1 (Hlat o oid) (conj Ho He)). by constructor.
  - destruct (latest_state (r_obligations r) oid) as [o|] eqn:El; [|constructor]. apply Hlat in El as [Ho He].
    destruct (Forall2_elem_l _ _ _ _ Hm Ho) as (o' & Ho' & Hmk). exfalso.
    pose proof (find_none _ _ Ef o' ltac:(by apply in_rev; rewrite rev_involutive; apply list_elem_of_In)) as Hn.
    cbv beta in Hn. by rewrite (marked_get _ _ _ Hmk), He, py_eq_str_refl in Hn.
Qed.
End Listing.

(* ------------------------------------------------------------------ *)
(** ** Every candidate is accounted for *)

Section Accounts.
Context `{FloatRepr} `{!Postgres} `{!Hashes} `{!Cns}.
Variable loads : string -> result pyexn pyval.
Variable verify_governed_decision : Episode -> GovernanceDecisionRecord -> list EventV1 -> boundary_verdict.
Variable ks : KeySet.
Notation history := (history loads verify_governed_decision ks).
Variable ed25519_verify : string -> string -> string -> option bool.
Variable text_leb : string -> string -> bool.
Variable epoch : row -> option float64.

(** A decision of the ledger with that hash. *)
Definition decision_named (table : list row) (hash : string) (old : row) : Prop :=
  old ∈ table /\ vget old "record_kind" = VStr "governance_decision" /\ vget old "current_hash" = VStr hash.

(** The obligation the decision a candidate replaces declared. *)
Definition owed (table : list row) (c : ReplacementCandidate) (oid : string) : Prop :=
  exists old rule, fetch_old_decision_row table (replaces_hash c) = Some old /\
    py_true (vget old "outcome_obligation") = true /\
    parse (py_str (vget old "outcome_obligation")) = Ok rule /\ oid = old_obligation_id (replaces_hash c) rule.

(** What the latest row of an obligation calls for. *)
Definition status_of (cur : row) : supersession_status :=
  if py_eq (vget cur "state") (VStr OUTCOME_OPEN) then STATUS_ABANDONED
  else if py_eq (vget cur "state") (VStr OUTCOME_ABANDONED) &&
          py_eq (vget cur "reason_code") (VStr REASON_DECISION_SUPERSEDED) then STATUS_ALREADY_ABANDONED
  else STATUS_CONFLICT.

Definition accounted_for (table obligations : list row) (o : SupersessionOutcome) : Prop :=
  let c := so_candidate o in
  (exists oid cur, owed table c oid /\ so_obligation_id o = Some oid /\ latest_state obligations oid = Some cur /\
     so_status o = status_of cur) \/
  so_status o = STATUS_UNRESOLVABLE /\
  match so_detail o with
  | decision_not_found => fetch_old_decision_row table (replaces_hash c) = None /\ replaces_hash c = ""
  | nothing_declared => exists old, fetch_old_decision_row table (replaces_hash c) = Some old /\
      py_true (vget old "outcome_obligation") = false
  | declaration_unreadable => exists old, fetch_old_decision_row table (replaces_hash c) = Some old /\
      parse (py_str (vget old "outcome_obligation")) = Err ValueError
  | not_on_the_twin => exists oid, owed table c oid /\ latest_state obligations oid = None
  | _ => False
  end.

Lemma old_row_named table h old : fetch_old_decision_row table h = Some old -> decision_named table h old.
Proof.
  unfold fetch_old_decision_row. intros Hf. apply find_some in Hf as [Hin Hp]. apply in_rev, list_elem_of_In in Hin.
  apply andb_true_iff in Hp as [Hh Hk]. by split; [|split; apply col_is_str].
Qed.

(** A candidate comes from a row of the ledger that names an earlier decision,
    unless it names the empty text. *)
Lemma candidate_target l domain c : history l -> c ∈ fetch_replacement_candidates epoch (l_rows l) domain ->
  (exists old, fetch_old_decision_row (l_rows l) (replaces_hash c) = Some old) \/ replaces_hash c = "".
Proof.
  intros Hl Hc. unfold fetch_replacement_candidates in Hc. apply list_elem_of_fmap in Hc as (r & -> & Hr).
  apply list_elem_of_In, filter_In in Hr as [Hr _]. apply filter_In in Hr as [Hr Hd]. apply list_elem_of_In in Hr.
  unfold declares_replacement in Hd. apply andb_true_iff in Hd as [Hn Hk]. apply col_is_str in Hk.
  cbn [replaces_hash candidate_of].
  destruct (history_varchar _ _ _ l r "replaces_hash" 64 Hl Hr ltac:(set_solver)) as [He|(h & He & _)];
    [by rewrite He in Hn|]. rewrite He. cbn [py_str].
  destruct (str_true h) eqn:Ht; [left|right; by destruct h].
  apply list_elem_of_split in Hr as (before & after & Hrows).
  pose proof (history_referenced _ _ _ _ Hl before r after Hrows) as Hres.
  destruct (rs_replaces _ _ Hres Hk ltac:(by rewrite He)) as (old & Hin & Hok & Hoh). rewrite He in Hoh.
  unfold fetch_old_decision_row. destruct (find _ _) as [old'|] eqn:Ef; [eauto|].
  pose proof (find_none _ _ Ef old) as Hnone. cbv beta in Hnone. rewrite Hrows in Hnone.
  unfold col_is in Hnone. rewrite Hoh, Hok, !py_eq_str_refl in Hnone. discriminate Hnone.
  apply in_rev. rewrite rev_involutive. apply in_or_app. left. by apply list_elem_of_In.
Qed.

Lemma declaration_read l old h : history l -> decision_named (l_rows l) h old ->
  py_true (vget old "outcome_obligation") = false \/
  is_ok (parse (py_str (vget old "outcome_obligation"))) = true \/
  parse (py_str (vget old "outcome_obligation")) = Err ValueError.
Proof.
  intros Hl (Hin & _ & _).
  destruct (history_varchar _ _ _ l old "outcome_obligation" 120 Hl Hin ltac:(set_solver)) as [->|(s & -> & Hs)]; [by left|].
  right. by apply parse_short.
Qed.

Lemma resolved_as c old oid rule obs obligations table :
  option_Forall2 marked (latest_state obligations oid) (by_obligation_id obs oid) ->
  fetch_old_decision_row table (replaces_hash c) = Some old -> py_true (vget old "outcome_obligation") = true ->
  parse (py_str (vget old "outcome_obligation")) = Ok rule -> oid = old_obligation_id (replaces_hash c) rule ->
  exists o, resolve_candidate c (Some old) (by_obligation_id obs oid) = Ok o /\ so_candidate o = c /\
    accounted_for table obligations o.
Proof.
  intros Hm Hn Ht Hp ->. unfold resolve_candidate. rewrite Ht, Hp. cbn [negb].
  assert (Ho : owed table c (old_obligation_id (replaces_hash c) rule)) by (exists old, rule; by split_and!).
  inversion Hm as [cur o' Hmk Hl Hb|Hl Hb].
  - rewrite !(marked_get _ _ _ Hmk) by done. unfold accounted_for, status_of.
    destruct (py_eq (vget cur "state") (VStr OUTCOME_OPEN)) eqn:E1;
      [eexists; split_and!; [done|done|]; left; eexists _, cur; by rewrite E1|].
    destruct (py_eq (vget cur "state") (VStr OUTCOME_ABANDONED)) eqn:E2;
      [destruct (py_eq (vget cur "reason_code") (VStr REASON_DECISION_SUPERSEDED)) eqn:E3|
       destruct (py_eq (vget cur "state") (VStr OUTCOME_RESOLVED))];
      eexists; (split_and!; [done|done|]); left; eexists _, cur; by rewrite E1, E2, ?E3.
  - eexists. split_and!; [done|done|]. right. split; [done|]. cbn. eauto.
Qed.

Lemma candidate_accounted l domain c obs obligations :
  history l -> c ∈ fetch_replacement_candidates epoch (l_rows l) domain ->
  (forall oid, option_Forall2 marked (latest_state obligations oid) (by_obligation_id obs oid)) ->
  exists i o, provisional_id (l_rows l) c = Ok i /\
    resolve_candidate c (fetch_old_decision_row (l_rows l) (replaces_hash c)) (looked_up obs i) = Ok o /\
    so_candidate o = c /\ accounted_for (l_rows l) obligations o.
Proof.
  intros Hl Hc Hobs. unfold provisional_id.
  destruct (fetch_old_decision_row (l_rows l) (replaces_hash c)) as [old|] eqn:Ef.
  2: { destruct (candidate_target l domain c Hl Hc) as [[old Ho]|He]; [congruence|].
       eexists None, _. split_and!; [done|reflexivity|done|]. right. by split. }
  apply old_row_named in Ef as Hn. destruct (py_true (vget old "outcome_obligation")) eqn:Et; cbn [negb].
  2: { eexists None, _. split_and!; [done|unfold resolve_candidate; rewrite Et; reflexivity|done|]. right. split; [done|]. cbn. eauto. }
  destruct (declaration_read l old _ Hl Hn) as [Hf|[Hp|Hp]]; [congruence| |].
  - destruct (parse (py_str (vget old "outcome_obligation"))) as [rule|] eqn:Ep; [|done].
    destruct (resolved_as c old _ rule obs obligations (l_rows l) (Hobs _) Ef Et Ep eq_refl) as (o & Ho & Hrest).
    eexists _, o. split; [done|]. split; [|done]. unfold looked_up.
    destruct (str_true (old_obligation_id (replaces_hash c) rule)) eqn:Es; [done|].
    unfold old_obligation_id in Es. by destruct (replaces_hash c).
  - rewrite Hp. eexists None, _. split_and!; [done|unfold resolve_candidate; rewrite Et, Hp; reflexivity|done|].
    right. split; [done|]. cbn. eauto.
Qed.

Lemma sweep_swept l rid auth clock domain d r : history l -> served ed25519_verify d -> require_ship_token d rid auth = Ok r ->
  exists outcomes, sweep epoch text_leb (l_rows l) rid auth clock domain d = Ok outcomes /\
    map so_candidate outcomes = fetch_replacement_candidates epoch (l_rows l) domain /\
    Forall (accounted_for (l_rows l) (r_obligations r)) outcomes.
Proof.
  intros Hl Hd Hr. unfold sweep. set (cs := fetch_replacement_candidates epoch (l_rows l) domain).
  destruct (listing text_leb ed25519_verify rid auth clock d r Hd Hr) as (obs & Hobs & Hlist).
  destruct (mapM_r_Forall2 (fun c => i ← provisional_id (l_rows l) c; Ok (c, i))
    (fun c ci => fst ci = c /\ provisional_id (l_rows l) c = Ok (snd ci)) cs) as (pr & Hpr & Hpf).
  { intros c Hc. destruct (candidate_accounted l domain c obs _ Hl Hc Hlist) as (i & o & Hi & _).
    exists (c, i). rewrite Hi. by split. }
  destruct (mapM_r_Forall2 (fun '(c, i) =>
      resolve_candidate c (fetch_old_decision_row (l_rows l) (replaces_hash c)) (looked_up obs i))
    (fun ci o => so_candidate o = fst ci /\ accounted_for (l_rows l) (r_obligations r) o) pr) as (os & Hos & Hof).
  { intros [c i] Hin. destruct (Forall2_elem_r _ _ _ _ Hpf Hin) as (c' & Hc & [Heq Hi]). cbn [fst snd] in Heq, Hi. subst c'.
    destruct (candidate_accounted l domain c obs _ Hl Hc Hlist) as (i' & o & Hi' & Ho & Hrest).
    rewrite Hi in Hi'. injection Hi' as <-. exists o. by split. }
  exists os. split_and!.
  - destruct cs as [|c cs]; [by apply Forall2_nil_inv_l in Hpf as ->; apply Forall2_nil_inv_l in Hof as ->|].
    rewrite Hpr. cbn [map_err mbind result_bind]. rewrite Hobs. cbn [map_err mbind result_bind]. by rewrite Hos.
  - assert (Hm : map fst pr = cs) by (clear -Hpf; induction Hpf as [|c ci cs pr [Hc _] _ IH]; simpl; congruence).
    rewrite <- Hm. clear -Hof. induction Hof as [|ci o pr os [Hc _] _ IH]; simpl; congruence.
  - clear -Hof. induction Hof as [|ci o pr os [_ Hc] _ IH]; by constructor.
Qed.

(** A sweep accounts for every candidate: over a ledger the writers made
    and a replica that served requests, under its token, the sweep raises
    nothing: it gives one outcome per declared replacement, in order, whose
    status is the one the latest row of the old obligation calls for; where
    there is none the outcome says why, and the decision it replaces is missing
    only when the empty text was declared. *)
Theorem sweep_accounts l rid auth clock domain d r : history l -> served ed25519_verify d -> require_ship_token d rid auth = Ok r ->
  exists outcomes, sweep epoch text_leb (l_rows l) rid auth clock domain d = Ok outcomes /\
    map so_candidate outcomes = fetch_replacement_candidates epoch (l_rows l) domain /\
    Forall (accounted_for (l_rows l) (r_obligations r)) outcomes.
Proof. apply sweep_swept. Qed.
End Accounts.

(* ------------------------------------------------------------------ *)
(** ** Recording *)

(** A chain after abandoning [ids], each of which was open when its row was
    appended. *)
Inductive superseded : list row -> list row -> list string -> Prop :=
| superseded_none rows : superseded rows rows []
| superseded_next rows oid cur o final ids :
    latest_state rows oid = Some cur -> vget cur "state" = VStr OUTCOME_OPEN ->
    vget o "obligation_id" = VStr oid -> vget o "state" = VStr OUTCOME_ABANDONED ->
    vget o "reason_code" = VStr REASON_DECISION_SUPERSEDED ->
    superseded (rows ++ [o]) final ids -> superseded rows final (oid :: ids).

Definition abandoned_ids (outcomes : list SupersessionOutcome) : list string :=
  map (fun o => or_empty (so_obligation_id o))
    (List.filter (fun o => bool_decide (so_status o = STATUS_ABANDONED)) outcomes).

Lemma superseded_closed rows final ids oid cur : superseded rows final ids -> latest_state rows oid = Some cur ->
  vget cur "state" <> VStr OUTCOME_OPEN -> latest_state final oid = Some cur /\ oid ∉ ids.
Proof.
  intros Hs. revert cur. induction Hs as [rows|rows oid' cur' o final ids Hl Ho Hi Hst Hre Hs IH]; intros cur Hc Hn;
    [split; [done|apply not_elem_of_nil]|].
  assert (Hne : oid <> oid') by congruence. destruct (IH cur) as [Hf Hni]; [|done|].
  - rewrite latest_state_snoc, Hi. destruct (py_eq _ _) eqn:E; [|done]. apply py_eq_str_r in E. congruence.
  - split; [done|]. set_solver.
Qed.

Lemma superseded_other rows final ids oid : superseded rows final ids -> oid ∉ ids ->
  latest_state final oid = latest_state rows oid.
Proof.
  intros Hs. induction Hs as [rows|rows oid' cur' o final ids Hl Ho Hi Hst Hre Hs IH]; intros Hn; [done|].
  rewrite IH by set_solver. rewrite latest_state_snoc, Hi. destruct (py_eq _ _) eqn:E; [|done].
  apply py_eq_str_r in E. injection E as ->. set_solver.
Qed.

Lemma superseded_in rows final ids oid : superseded rows final ids -> oid ∈ ids ->
  (exists cur, latest_state rows oid = Some cur /\ vget cur "state" = VStr OUTCOME_OPEN) /\
  exists o, latest_state final oid = Some o /\ vget o "state" = VStr OUTCOME_ABANDONED /\
    vget o "reason_code" = VStr REASON_DECISION_SUPERSEDED.
Proof.
  intros Hs. induction Hs as [rows|rows oid' cur' o final ids Hl Ho Hi Hst Hre Hs IH]; intros Hin; [set_solver|].
  assert (Hself : latest_state (rows ++ [o]) oid' = Some o) by (by rewrite latest_state_snoc, Hi, py_eq_str_refl).
  destruct (decide (oid = oid')) as [->|Hne].
  - split; [eauto|]. exists o. split; [|done]. by eapply superseded_closed; [|exact Hself|rewrite Hst].
  - destruct IH as [(cur & Hc & Hop) Hrest]; [set_solver|]. split; [|done]. exists cur. split; [|done].
    rewrite latest_state_snoc, Hi in Hc. destruct (py_eq _ _) eqn:E; [|done]. apply py_eq_str_r in E. congruence.
Qed.

Lemma superseded_once rows final ids : superseded rows final ids -> NoDup ids.
Proof.
  induction 1 as [rows|rows oid cur o final ids Hl Ho Hi Hst Hre Hs IH]; constructor; [|done].
  assert (Hself : latest_state (rows ++ [o]) oid = Some o) by (by rewrite latest_state_snoc, Hi, py_eq_str_refl).
  by eapply superseded_closed; [exact Hs|exact Hself|rewrite Hst].
Qed.

Section Recording.
Context `{FloatRepr} `{!Postgres} `{!Hashes}.
Variable ed25519_verify : string -> string -> string -> option bool.

Lemma abandon_read rid oid at_ auth d updated current :
  transition_read rid oid (abandon_body at_) auth d = Ok (updated, current) ->
  state updated = OUTCOME_ABANDONED /\ reason_code updated = Some REASON_DECISION_SUPERSEDED.
Proof.
  unfold transition_read. intros E. bind_ok E target E0. injection E0 as <-. bind_ok E r1 E1.
  destruct (latest_state _ oid) as [cur|]; [|done]. destruct (negb _); [done|]. bind_ok E ob E5. bind_ok E up E6.
  injection E as <- <-. unfold transitioned, transition_exn in E6. cbn in E6.
  match type of E6 with map_err _ ?m = _ => destruct m as [ob'|] eqn:E7; [|done] end.
  injection E6 as ->. unfold abandon in E7. bind_ok E7 t E8. unfold checked in E7. bind_ok E7 u E9. by injection E7 as <-.
Qed.

Lemma abandon_recorded rid oid at_ auth d seq h st re d' r : d !! rid = Some r ->
  transition_obligation rid oid (abandon_body at_) auth d = (Ok (seq, h, st, re), d') ->
  exists o cur, d' = <[rid := set_obligations r (r_obligations r ++ [o])%list]> d /\
    latest_state (r_obligations r) oid = Some cur /\ vget cur "state" = VStr OUTCOME_OPEN /\
    vget o "obligation_id" = VStr oid /\ vget o "state" = VStr OUTCOME_ABANDONED /\
    vget o "reason_code" = VStr REASON_DECISION_SUPERSEDED.
Proof.
  unfold transition_obligation, in_transaction. intros Hr Ht.
  match type of Ht with (match ?m with Ok _ => _ | Err _ => _ end) = _ => destruct m as [[a d1]|] eqn:Hh; [|done] end.
  injection Ht as -> ->. bind_ok Hh x E. destruct x as [updated current]. bind_ok Hh y E2. destruct y as [[s2 h2] d2].
  injection Hh as _ _ _ _ <-. pose proof (transition_read_ok _ _ _ _ _ _ _ E) as (r' & Hr' & _ & Hl & Hs & Hid).
  rewrite Hr in Hr'. injection Hr' as <-.
  unfold transition_append, meta_of in E2. rewrite Hr in E2. cbn [mbind result_bind] in E2.
  bind_ok E2 z E4. destruct z as [[seq' h'] rows]. injection E2 as _ _ <-.
  destruct (abandon_read _ _ _ _ _ _ _ E) as [Hst Hre].
  apply append_obligation_row in E4 as (o & -> & Ho). exists o, current. split_and!; [done|done|done| | |].
  - by rewrite (rf_id _ _ _ Ho), Hid.
  - by rewrite (rf_state _ _ _ Ho), Hst.
  - by rewrite (rf_reason _ _ _ Ho), Hre.
Qed.

Lemma set_obligations_same r : set_obligations r (r_obligations r) = r.
Proof. by destruct r. Qed.

Lemma record_run rid auth fb outcomes rec d res d' r : d !! rid = Some r ->
  record_outcomes rid auth fb outcomes rec d = (res, d') ->
  exists rows ids, d' = <[rid := set_obligations r rows]> d /\ superseded (r_obligations r) rows ids /\
    match res with
    | Ok recorded => map fst recorded = (map fst rec ++ ids)%list /\ ids = abandoned_ids outcomes
    | Err _ => ids `prefix_of` abandoned_ids outcomes /\ ids <> abandoned_ids outcomes
    end.
Proof.
  revert rec d r. induction outcomes as [|o outcomes IH]; intros rec d r Hr Hrec.
  { injection Hrec as <- <-. exists (r_obligations r), []. rewrite set_obligations_same, insert_id by done.
    split_and!; [done|constructor|by rewrite app_nil_r|done]. }
  cbn [record_outcomes] in Hrec. unfold abandoned_ids. cbn [List.filter].
  destruct (bool_decide (so_status o = STATUS_ABANDONED)) eqn:Eb; cbn [negb] in Hrec; [|exact (IH rec d r Hr Hrec)].
  destruct (transition_obligation rid _ _ auth d) as [[[[[seq h] st] re]|e] d1] eqn:Et.
  - destruct (abandon_recorded _ _ _ _ _ _ _ _ _ _ _ Hr Et) as (o' & cur & -> & Hl & Hs & Hi & Hst & Hre).
    destruct (IH _ _ (set_obligations r (r_obligations r ++ [o'])%list) ltac:(by rewrite lookup_insert_eq) Hrec)
      as (rows & ids & -> & Hsup & Hres).
    exists rows, (or_empty (so_obligation_id o) :: ids). split_and!.
    + by rewrite insert_insert_eq.
    + by eapply superseded_next.
    + destruct res; [destruct Hres as [Hm ->]|destruct Hres as [Hp Hne]].
      * rewrite Hm, map_app, <- app_assoc. done.
      * split; [by apply prefix_cons|]. intros [= Heq]. by apply Hne.
  - injection Hrec as <- <-. assert (d1 = d) as ->.
    { unfold transition_obligation, in_transaction in Et.
      match type of Et with (match ?m with Ok _ => _ | Err _ => _ end) = _ => destruct m as [[a d2]|] end; by injection Et. }
    exists (r_obligations r), []. rewrite set_obligations_same, insert_id by done.
    split_and!; [done|constructor|apply prefix_nil|done].
Qed.

Lemma record_served rid auth fb outcomes rec d : served ed25519_verify d ->
  served ed25519_verify (snd (record_outcomes rid auth fb outcomes rec d)).
Proof.
  revert rec d. induction outcomes as [|o outcomes IH]; intros rec d Hd; [done|]. cbn [record_outcomes].
  destruct (negb _); [by apply IH|].
  pose proof (served_request ed25519_verify d rid auth
    (q_transition (or_empty (so_obligation_id o)) (abandon_body (abandoned_at o fb))) Hd) as Hs. cbn [serve] in Hs.
  destruct (transition_obligation _ _ _ _ d) as [[[[[seq h] st] re]|e] d1]; [by apply IH|done].
Qed.

(** C13 (only open obligations are abandoned): recording outcomes adds to one
    replica's obligation chain one row per abandoned outcome, in order, up to
    the first that is refused, and changes nothing else; each row abandons, as
    superseded, an obligation that was open just before it, none is abandoned
    twice, and a run that is not refused has recorded them all. *)
Theorem recording_supersedes rid auth fb outcomes d res d' r : d !! rid = Some r ->
  record_outcomes rid auth fb outcomes [] d = (res, d') ->
  exists rows ids, d' = <[rid := set_obligations r rows]> d /\ superseded (r_obligations r) rows ids /\ NoDup ids /\
    match res with
    | Ok recorded => map fst recorded = ids /\ ids = abandoned_ids outcomes
    | Err _ => ids `prefix_of` abandoned_ids outcomes /\ ids <> abandoned_ids outcomes
    end.
Proof.
  intros Hr Hrec. destruct (record_run _ _ _ _ _ _ _ _ _ Hr Hrec) as (rows & ids & Hd & Hs & Hres).
  exists rows, ids. split_and!; [done|done|by eapply superseded_once|by destruct res].
Qed.
End Recording.

(* ------------------------------------------------------------------ *)
(** ** A second run *)

Section SecondRun.
Context `{FloatRepr} `{!Postgres} `{!Hashes} `{!Cns}.
Variable loads : string -> result pyexn pyval.
Variable verify_governed_decision : Episode -> GovernanceDecisionRecord -> list EventV1 -> boundary_verdict.
Variable ks : KeySet.
Notation history := (history loads verify_governed_decision ks).
Variable ed25519_verify : string -> string -> string -> option bool.
Variable text_leb : string -> string -> bool.
Variable epoch : row -> option float64.

(** What a recorded outcome becomes. *)
Definition settled (st : supersession_status) : supersession_status :=
  match st with STATUS_ABANDONED => STATUS_ALREADY_ABANDONED | st => st end.

Lemma owed_unique table c oid oid' : owed table c oid -> owed table c oid' -> oid = oid'.
Proof. intros (old & rule & Hf & _ & Hp & ->) (old' & rule' & Hf' & _ & Hp' & ->). congruence. Qed.

(** A candidate without an obligation to look at says so whatever the chain. *)
Lemma unresolvable_owed table obligations o oid : accounted_for table obligations o -> so_status o = STATUS_UNRESOLVABLE ->
  owed table (so_candidate o) oid -> latest_state obligations oid = None.
Proof.
  intros [(oid' & cur & Ho & _ & Hl & Hst)|[_ Hd]] Hu Howed.
  - rewrite Hu in Hst. unfold status_of in Hst. by repeat destruct (py_eq _ _).
  - pose proof Howed as (old & rule & Hf & Ht & Hp & ->). destruct (so_detail o); try done.
    + by rewrite (proj1 Hd) in Hf.
    + destruct Hd as (old' & Hf' & Ht'). congruence.
    + destruct Hd as (old' & Hf' & Hp'). congruence.
    + destruct Hd as (oid & Ho & Hl). by rewrite (owed_unique _ _ _ _ Howed Ho).
Qed.

Lemma resolvable_owed table obligations o : accounted_for table obligations o -> so_status o <> STATUS_UNRESOLVABLE ->
  exists oid cur, owed table (so_candidate o) oid /\ so_obligation_id o = Some oid /\
    latest_state obligations oid = Some cur /\ so_status o = status_of cur.
Proof. intros [Ho|[Hu _]] Hn; [done|congruence]. Qed.

Lemma status_open cur : status_of cur = STATUS_ABANDONED <-> vget cur "state" = VStr OUTCOME_OPEN.
Proof.
  unfold status_of. split.
  - destruct (py_eq (vget cur "state") (VStr OUTCOME_OPEN)) eqn:E; [by apply py_eq_str_r in E|]. by destruct (_ && _).
  - intros ->. by rewrite py_eq_str_refl.
Qed.

Lemma status_unresolvable cur : status_of cur <> STATUS_UNRESOLVABLE.
Proof. unfold status_of. by repeat destruct (py_eq _ _). Qed.

Lemma abandoned_in table obligations outcomes o oid cur : o ∈ outcomes -> accounted_for table obligations o ->
  owed table (so_candidate o) oid -> latest_state obligations oid = Some cur -> vget cur "state" = VStr OUTCOME_OPEN ->
  so_status o = STATUS_ABANDONED /\ oid ∈ abandoned_ids outcomes.
Proof.
  intros Hin Ha Ho Hl Hop.
  destruct (decide (so_status o = STATUS_UNRESOLVABLE)) as [Hu|Hu].
  { pose proof (unresolvable_owed _ _ _ _ Ha Hu Ho). congruence. }
  destruct (resolvable_owed _ _ _ Ha Hu) as (oid' & cur' & Ho' & Hid & Hl' & Hst).
  pose proof (owed_unique _ _ _ _ Ho Ho') as ->. rewrite Hl' in Hl. injection Hl as ->.
  apply status_open in Hop. split; [congruence|]. unfold abandoned_ids. apply list_elem_of_fmap. exists o.
  split; [by rewrite Hid|]. apply list_elem_of_In, filter_In. split; [by apply list_elem_of_In|].
  apply bool_decide_eq_true. congruence.
Qed.

(** After a complete recording. *)
Lemma outcome_after table obligations rows outcomes o o' : superseded obligations rows (abandoned_ids outcomes) ->
  o ∈ outcomes -> so_candidate o' = so_candidate o ->
  accounted_for table obligations o -> accounted_for table rows o' -> so_status o' = settled (so_status o).
Proof.
  intros Hs Hin Hc Ha Ha'.
  destruct (decide (so_status o = STATUS_UNRESOLVABLE)) as [Hu|Hu].
  - rewrite Hu. destruct (decide (so_status o' = STATUS_UNRESOLVABLE)) as [Hu'|Hu']; [done|].
    destruct (resolvable_owed _ _ _ Ha' Hu') as (oid & cur & Ho & _ & Hl & _). rewrite Hc in Ho.
    pose proof (unresolvable_owed _ _ _ _ Ha Hu Ho) as Hnone.
    destruct (decide (oid ∈ abandoned_ids outcomes)) as [Hi|Hi].
    + destruct (superseded_in _ _ _ _ Hs Hi) as [(c & Hcur & _) _]. congruence.
    + rewrite (superseded_other _ _ _ _ Hs Hi) in Hl. congruence.
  - destruct (resolvable_owed _ _ _ Ha Hu) as (oid & cur & Ho & Hid & Hl & Hst). rewrite <- Hc in Ho.
    assert (Hnow : exists cur', latest_state rows oid = Some cur' /\ status_of cur' = settled (status_of cur)).
    { destruct (decide (status_of cur = STATUS_ABANDONED)) as [Hop%status_open|Hop].
      - rewrite Hc in Ho. destruct (abandoned_in _ _ _ _ _ _ Hin Ha Ho Hl Hop) as [_ Hi].
        destruct (superseded_in _ _ _ _ Hs Hi) as [_ (x & Hx & Hxs & Hxr)]. exists x. split; [done|].
        rewrite (proj2 (status_open cur) Hop). unfold status_of. by rewrite Hxs, Hxr.
      - rewrite status_open in Hop. destruct (superseded_closed _ _ _ _ _ Hs Hl Hop) as [Hf _]. exists cur. split; [done|].
        rewrite <- status_open in Hop. by destruct (status_of cur). }
    destruct Hnow as (cur' & Hl' & Hst').
    destruct (decide (so_status o' = STATUS_UNRESOLVABLE)) as [Hu'|Hu'].
    { pose proof (unresolvable_owed _ _ _ _ Ha' Hu' Ho). congruence. }
    destruct (resolvable_owed _ _ _ Ha' Hu') as (oid' & x & Ho' & _ & Hx & Hxs).
    pose proof (owed_unique _ _ _ _ Ho Ho') as <-. congruence.
Qed.

Lemma nothing_abandoned outcomes outcomes' :
  Forall2 (fun o o' => so_status o' = settled (so_status o)) outcomes outcomes' -> abandoned_ids outcomes' = [].
Proof.
  unfold abandoned_ids. induction 1 as [|o o' os os' Hs _ IH]; [done|]. cbn [List.filter].
  rewrite bool_decide_eq_false_2; [done|]. rewrite Hs. by destruct (so_status o).
Qed.

Lemma record_nothing rid auth fb outcomes rec d : abandoned_ids outcomes = [] ->
  record_outcomes rid auth fb outcomes rec d = (Ok rec, d).
Proof.
  revert rec. unfold abandoned_ids. induction outcomes as [|o os IH]; intros rec Hn; [done|].
  cbn [List.filter] in Hn. cbn [record_outcomes]. destruct (bool_decide _); [done|]. by apply IH.
Qed.

(** C20 (a second run has nothing to do): on a ledger its writers made, of values
    its table gives back as they were given, after a run that recorded
    everything it found to abandon, a run over the same ledger, at any time,
    finds the same candidates, with the abandoned ones already abandoned and
    every other status as it was, records nothing and leaves the replica as it
    is. *)
Theorem second_run_settles l rid auth clock clock' domain d r outcomes recorded d' :
  history l -> served ed25519_verify d -> require_ship_token d rid auth = Ok r ->
  supersede_run epoch text_leb (l_rows l) rid auth clock domain d = (Ok (outcomes, recorded), d') ->
  exists outcomes', supersede_run epoch text_leb (l_rows l) rid auth clock' domain d' = (Ok (outcomes', []), d') /\
    Forall2 (fun o o' => so_candidate o' = so_candidate o /\ so_status o' = settled (so_status o)) outcomes outcomes'.
Proof.
  intros Hl Hd Hr Hrun. unfold supersede_run in *.
  destruct (sweep_swept loads verify_governed_decision ks ed25519_verify text_leb epoch l rid auth clock domain d r Hl Hd Hr)
    as (os & Hos & Hcs & Hacc). rewrite Hos in Hrun.
  destruct (record_outcomes rid auth (Some clock) os [] d) as [[recd|e] d1] eqn:Hrec; [|done].
  injection Hrun as -> -> ->. pose proof (ship_token_ok _ _ _ _ Hr) as [Hdr Htok].
  destruct (record_run _ _ _ _ _ _ _ _ _ Hdr Hrec) as (rows & ids & -> & Hsup & _ & ->).
  pose proof (record_served ed25519_verify rid auth (Some clock) outcomes [] d Hd) as Hd'. rewrite Hrec in Hd'. cbn [snd] in Hd'.
  assert (Hr' : require_ship_token (<[rid:=set_obligations r rows]> d) rid auth = Ok (set_obligations r rows)).
  { unfold require_ship_token, meta_of in Hr |- *. rewrite lookup_insert_eq. rewrite Hdr in Hr.
    cbn [mbind result_bind r_meta set_obligations] in *. destruct (negb _); [done|]. reflexivity. }
  destruct (sweep_swept loads verify_governed_decision ks ed25519_verify text_leb epoch l rid auth clock' domain _ _ Hl Hd' Hr')
    as (os' & Hos' & Hcs' & Hacc'). rewrite Hos'. cbn [r_obligations set_obligations] in Hacc'.
  assert (Hall : Forall2 (fun o o' => so_candidate o' = so_candidate o /\ so_status o' = settled (so_status o)) outcomes os').
  { apply Forall2_same_length_lookup. split; [by rewrite <- (length_map so_candidate), <- (length_map so_candidate os'), Hcs, Hcs'|].
    intros i o o' Hi Hi'. assert (Hc : so_candidate o' = so_candidate o).
    { rewrite <- Hcs' in Hcs. apply (f_equal (lookup i)) in Hcs. rewrite !list_lookup_fmap, Hi, Hi' in Hcs. by injection Hcs. }
    split; [done|]. rewrite Forall_lookup in Hacc, Hacc'.
    by eapply outcome_after; [exact Hsup|eapply list_elem_of_lookup_2; exact Hi|exact Hc|eapply Hacc; exact Hi|eapply Hacc'; exact Hi']. }
  exists os'. split; [|done]. rewrite record_nothing; [done|]. eapply nothing_abandoned, Forall2_impl; [exact Hall|]. by intros ?? [_ ?].
Qed.
End SecondRun.

(* ------------------------------------------------------------------ *)
(** ** Sample runs *)

#[local] Existing Instance sample_hashes.
#[local] Existing Instance sample_float_repr.
#[local] Existing Instance sample_cns.
#[local] Existing Instance sample_postgres.

(** A decision with an outcome declared, and what it replaces. *)
Definition loan_decision (sid : string) (outcome_obligation replaced : option string) : GovernanceDecisionRecord :=
  mkDecision "route" "n1" (VStr "loans:v1") (VDict [("call_sid", VStr sid)])
    (VDict [("threshold", VInt 3)]) "because" (VDict [("approved", VBool true)]) fzero fzero false
    None None (Some "ops") None replaced outcome_obligation VNone.

Definition loan_write (sid : string) (outcome_obligation replaced : option string) : write :=
  w_decision (loan_decision sid outcome_obligation replaced) None [] None.

Definition loans_1 : ledger := run_sample os_after "t2" true (loan_write "L1" (Some "hold@60s") None) ledger_1.
Definition loan_hash : string := Eval vm_compute in
  match last (l_rows loans_1) with Some r => py_str (vget r "current_hash") | None => "" end.
Definition loans_2 : ledger := run_sample os_after "t3" true (loan_write "L2" None (Some loan_hash)) loans_1.
Definition loans_3 : ledger := run_sample os_after "t4" true (loan_write "L3" None (Some "")) loans_2.

Lemma loans_history : history no_loads no_boundary sample_keys loans_3.
Proof.
  assert (H1 : history no_loads no_boundary sample_keys ledger_1).
  { apply history_storable; [constructor| |exact I|vm_compute; reflexivity]. apply sample_production. left. vm_compute. reflexivity. }
  assert (Hp : production sample_keys os_after) by (apply sample_production; right; vm_compute; reflexivity).
  do 3 (apply history_storable; [|exact Hp|reflexivity|vm_compute; reflexivity]). exact H1.
Qed.

Definition at_2000 (_ : row) : option float64 := Some (f_of_Z 2000).
Definition loans_db : gmap string replica :=
  serve_all [sample_registration; q_store (sample_delivery 1 loan_hash 1000); q_derive] ∅.
Definition loans_replica : replica := sample_replica loans_db.
Definition loans_run (d : gmap string replica) :=
  supersede_run at_2000 String.leb (l_rows loans_3) "r1" sample_token (f_of_Z 3000) None d.

Lemma loans_served : served any_signature loans_db.
Proof. apply serve_all_served, served_empty. Qed.

Lemma loans_token : require_ship_token loans_db "r1" sample_token = Ok loans_replica.
Proof. vm_compute. reflexivity. Qed.

Definition loans_sweep (d : gmap string replica) : list SupersessionOutcome :=
  match sweep at_2000 String.leb (l_rows loans_3) "r1" sample_token (f_of_Z 3000) None d with Ok os => os | Err _ => [] end.
Definition loans_outcomes : list SupersessionOutcome := Eval vm_compute in loans_sweep loans_db.

Lemma sweep_accounts_witness :
  map so_status loans_outcomes = [STATUS_ABANDONED; STATUS_UNRESOLVABLE] /\
  Forall (accounted_for (l_rows loans_3) (r_obligations loans_replica)) loans_outcomes.
Proof.
  destruct (sweep_accounts no_loads no_boundary sample_keys any_signature String.leb at_2000 loans_3 "r1" sample_token
    (f_of_Z 3000) None loans_db loans_replica loans_history loans_served loans_token) as (os & Hos & _ & Hf).
  assert (He : sweep at_2000 String.leb (l_rows loans_3) "r1" sample_token (f_of_Z 3000) None loans_db = Ok loans_outcomes)
    by (vm_compute; reflexivity).
  split; [reflexivity|]. rewrite He in Hos. injection Hos as <-. exact Hf.
Defined.

Definition loans_recorded := record_outcomes "r1" sample_token (Some (f_of_Z 3000)) loans_outcomes [] loans_db.

Lemma recording_supersedes_witness :
  exists rows ids, snd loans_recorded = <["r1" := set_obligations loans_replica rows]> loans_db /\
    superseded (r_obligations loans_replica) rows ids /\ length ids = 1%nat.
Proof.
  assert (Hr : loans_db !! "r1" = Some loans_replica) by (vm_compute; reflexivity).
  destruct loans_recorded as [res d'] eqn:E. unfold loans_recorded in E.
  destruct (recording_supersedes "r1" sample_token (Some (f_of_Z 3000)) loans_outcomes loans_db res d' loans_replica Hr E)
    as (rows & ids & Hd & Hs & _ & Hres).
  exists rows, ids. split; [exact Hd|]. split; [exact Hs|].
  destruct res as [recd|e]; [destruct Hres as [_ ->]; reflexivity|]. vm_compute in E. discriminate E.
Defined.

Lemma second_run_settles_witness :
  exists outcomes recorded d' outcomes', loans_run loans_db = (Ok (outcomes, recorded), d') /\
    length recorded = 1%nat /\ loans_run d' = (Ok (outcomes', []), d') /\
    Forall2 (fun o o' => so_candidate o' = so_candidate o /\ so_status o' = settled (so_status o)) outcomes outcomes'.
Proof.
  destruct (loans_run loans_db) as [[[outcomes recorded]|e] d'] eqn:E; [|vm_compute in E; discriminate E].
  destruct (second_run_settles no_loads no_boundary sample_keys any_signature String.leb at_2000 loans_3 "r1" sample_token
    (f_of_Z 3000) (f_of_Z 3000) None loans_db loans_replica outcomes recorded d' loans_history loans_served loans_token E)
    as (outcomes' & Hrun & Hall).
  exists outcomes, recorded, d', outcomes'. split; [reflexivity|]. split; [|split; [exact Hrun|exact Hall]].
  assert (Hl : option_map (fun x => length (snd x)) (match fst (loans_run loans_db) with Ok x => Some x | Err _ => None end) = Some 1%nat)
    by (vm_compute; reflexivity).
  rewrite E in Hl. by injection Hl.
Defined.

(** The branch documented as impossible is reached: an empty [replaces_hash] is
    not checked by the writer, is stored as a text, and is a candidate. *)
Theorem empty_replacement_reaches_missing_decision :
  history no_loads no_boundary sample_keys loans_3 /\
  exists o, o ∈ loans_outcomes /\ so_detail o = decision_not_found /\ replaces_hash (so_candidate o) = "".
Proof.
  split; [exact loans_history|]. eexists. split; [apply list_elem_of_further, list_elem_of_here|]. by split.
Qed.

(** Two decisions may replace the same one.  A run then abandons the obligation
    once, is refused for the second, and stops there: what it would have
    recorded after is left for the next run. *)
Definition loans_twice : ledger := run_sample os_after "t4" true (loan_write "L3" None (Some loan_hash)) loans_2.

Theorem duplicate_replacement_stops_run rid auth fb outcomes d d' r recorded :
  d !! rid = Some r -> record_outcomes rid auth fb outcomes [] d = (Ok recorded, d') -> NoDup (abandoned_ids outcomes).
Proof.
  intros Hr Hrec. destruct (record_run _ _ _ _ _ _ _ _ _ Hr Hrec) as (rows & ids & _ & Hs & _ & <-).
  by eapply superseded_once.
Qed.

Theorem duplicate_replacement_accepted :
  length (l_rows loans_twice) = 4%nat /\
  fst (supersede_run at_2000 String.leb (l_rows loans_twice) "r1" sample_token (f_of_Z 3000) None loans_db) =
    Err (SHttp (HTTPException 409)).
Proof. split; vm_compute; reflexivity. Qed.
