(* ===== verification/Regulatory.v ===== *)
(** * Regulatory: screening one decision

    Models the vocabulary of src/sentinel_os/regulatory_cassette_interface.py
    (findings, decision material) and the per-decision checks of
    regulatory_checks.py: reason specificity, proxy variables, the
    input-authorization tiers, the narrative screen, and the rollup.  Regular
    expressions of a profile are matched by an interface; texts are ASCII as in
    the prelude; the explanatory sentences of an evidence dict ("detail",
    "score_meaning") are left out. *)

From S2P Require Import Prelude PyFloat PyValue Episode Event Json.
Local Open Scope string_scope.

(* ------------------------------------------------------------------ *)
(** ** Records *)

Definition MODE_OBSERVER : string := "observer".
Definition MODE_LIVE : string := "live".
Definition REGULATORY_MODES : list string := [MODE_OBSERVER; MODE_LIVE].
Definition REGULATORY_DOMAIN : string := "regulatory".
Definition ACTION_FLAG : string := "flag".
Definition ACTION_BLOCK : string := "block".

Record RegulatoryFinding := mkFinding {
  f_check : string;
  f_subject_id : string;
  f_regulation : string;
  f_action : string;
  f_classification : string;
  f_score : float64;
  f_evidence : dict pyval;
}.

(** [as_dict] *)
Definition finding_dict (f : RegulatoryFinding) : dict pyval :=
  [("check", VStr (f_check f)); ("subject_id", VStr (f_subject_id f)); ("regulation", VStr (f_regulation f));
   ("action", VStr (f_action f)); ("classification", VStr (f_classification f)); ("score", VFloat (f_score f));
   ("evidence", VDict (f_evidence f))].

Record DecisionMaterial := mkMaterial {
  m_subject_id : string;
  m_domain : string;
  m_reasons : list string;
  m_input_fields : dict pyval;
  m_mismatched_fields : list string;
  m_outcome : dict pyval;
  m_source : string;
}.

(** [material_from_episode]: the actor's report is not material. *)
Definition material_from_episode (ep : Episode) : result pyexn DecisionMaterial :=
  req ← as_dict (requested ep);
  attrs ← as_dict (attributes ep);
  ms ← outcome_mismatches ep;
  act ← as_dict (actual ep);
  Ok (mkMaterial (episode_id ep) (domain ep) (outcome_reasons ep) (dupdate req attrs) (map mm_name ms) act "episode").

(** [row.get(a, row.get(b))] *)
Definition get_either (row : dict pyval) (a b : string) : pyval :=
  match dget row a with Some v => v | None => vget row b end.

(** [row.get(a, row.get(b, "unknown"))] *)
Definition get_or_unknown (row : dict pyval) (a b : string) : pyval :=
  match dget row a with
  | Some v => v
  | None => match dget row b with Some v => v | None => VStr "unknown" end
  end.

Section Text.
Context `{FloatRepr}.

Definition row_reasons (row : dict pyval) (output : pyval) : list string :=
  ((match get_either row "reasoning" "reason" with
    | VStr s => if blank s then [] else [strip s]
    | _ => []
    end) ++
   match output with
   | VDict o => match vget o "reasons" with
                | VList l => List.filter str_true (map (fun r => strip (py_str r)) l)
                | _ => []
                end
   | _ => []
   end)%list.

Definition dict_of (v : pyval) : dict pyval := match v with VDict d => d | _ => [] end.

Definition material_from_ledger_row (row : dict pyval) : DecisionMaterial :=
  let output := let o := get_either row "output" "decision_output" in if py_true o then o else VDict [] in
  let input_data := if py_true (vget row "input_data") then vget row "input_data" else VDict [] in
  mkMaterial (py_str (get_or_unknown row "id" "decision_id"))
    (py_str (match dget row "cassette_version" with Some v => v | None => VStr "unknown" end))
    (row_reasons row output) (dict_of input_data) [] (dict_of output) "ledger".
End Text.

(* ------------------------------------------------------------------ *)
(** ** Input-authorization tiers *)

Definition T0_PROHIBITED : string := "T0_PROHIBITED".
Definition T1_FILED : string := "T1_FILED".
Definition T2_PERMITTED : string := "T2_PERMITTED".
Definition T3_INTERNAL : string := "T3_INTERNAL".
Definition T4_PENDING : string := "T4_PENDING".
Definition T5_UNDECLARED : string := "T5_UNDECLARED".
Definition T6_OPAQUE : string := "T6_OPAQUE".
Definition TIERS : list string :=
  [T0_PROHIBITED; T1_FILED; T2_PERMITTED; T3_INTERNAL; T4_PENDING; T5_UNDECLARED; T6_OPAQUE].

Definition TIER_RANK : dict Z :=
  [(T1_FILED, 1); (T2_PERMITTED, 2); (T3_INTERNAL, 3); (T4_PENDING, 4); (T5_UNDECLARED, 5)]%Z.
Definition tier_rank (t : string) (default : Z) : Z := match dget TIER_RANK t with Some r => r | None => default end.
Definition CATEGORICAL_FLAG_TIERS : list string := [T0_PROHIBITED; T5_UNDECLARED; T6_OPAQUE].

Record TierDeclaration := mkTier {
  td_tier : string;
  td_authorized_by : option string;
  td_approval_date : option string;
  td_justification : option string;
  td_last_reviewed : option string;
  td_verified : bool;
}.

Definition CONFIDENCE_UNDECLARED : string := "undeclared".
Definition CONFIDENCE_ATTESTED_UNSUPPORTED : string := "attested-unsupported".
Definition CONFIDENCE_ATTESTED_ACCOUNTABLE_UNSUPPORTED : string := "attested-accountable-unsupported".
Definition CONFIDENCE_ATTESTED_ACCOUNTABLE_EVIDENCED : string := "attested-accountable-evidenced".
Definition CONFIDENCE_VERIFIED : string := "verified".

Definition confidence_for (d : TierDeclaration) : string :=
  if td_verified d then CONFIDENCE_VERIFIED else
  let has_owner := opt_true (td_authorized_by d) in
  let has_evidence := existsb opt_true [td_approval_date d; td_justification d; td_last_reviewed d] in
  if has_owner && has_evidence then CONFIDENCE_ATTESTED_ACCOUNTABLE_EVIDENCED
  else if has_owner then CONFIDENCE_ATTESTED_ACCOUNTABLE_UNSUPPORTED
  else CONFIDENCE_ATTESTED_UNSUPPORTED.

Definition categorical_priority (t : string) : option Z :=
  if String.eqb t T0_PROHIBITED then Some 0%Z else if String.eqb t T6_OPAQUE then Some 1%Z else None.

Definition resolve_tier_conflict (tier_a tier_b : string) : string :=
  if String.eqb tier_a tier_b then tier_a else
  match categorical_priority tier_a, categorical_priority tier_b with
  | None, None => if (tier_rank tier_b 5 <=? tier_rank tier_a 5)%Z then tier_a else tier_b
  | None, Some _ => tier_b
  | Some _, None => tier_a
  | Some a, Some b => if (a <=? b)%Z then tier_a else tier_b
  end.

(* ------------------------------------------------------------------ *)
(** ** Profiles *)

Definition CONSENT_OPT_IN_REQUIRED : string := "opt_in_required".
Definition CONSENT_OPT_OUT_PERMITTED : string := "opt_out_permitted".
Definition VALID_CONSENT_MODELS : list string := [CONSENT_OPT_IN_REQUIRED; CONSENT_OPT_OUT_PERMITTED].

Definition half : float64 := fdiv (f_of_Z 1) (f_of_Z 2).
Definition quarter : float64 := fdiv (f_of_Z 1) (f_of_Z 4).
Definition one : float64 := f_of_Z 1.

Record RegulationCheckProfile := mkProfile {
  p_regulation : string;
  p_generic_phrases : list string;
  p_placeholder_patterns : list string;
  p_value_reference_pattern : string;
  p_extra_case_fields : list string;
  p_specific_score_threshold : float64;
  p_proxy_variables : dict string;
  p_direct_protected_terms : dict string;
  p_authorized_inputs : dict TierDeclaration;
  p_tier_floor : string;
  p_prohibited_inputs : list string;
  p_narrative_field : option string;
  p_narrative_flag_phrases : list string;
  p_consent_model : string;
}.

(** [__post_init__] *)
Definition make_profile (p : RegulationCheckProfile) : result pyexn RegulationCheckProfile :=
  if str_mem (p_consent_model p) VALID_CONSENT_MODELS then Ok p else Err ValueError.

Definition key_leb {A} (a b : string * A) : bool := String.leb (fst a) (fst b).

Definition tier_dict (d : TierDeclaration) : dict pyval :=
  [("tier", VStr (td_tier d)); ("authorized_by", opt_str (td_authorized_by d));
   ("approval_date", opt_str (td_approval_date d)); ("justification", opt_str (td_justification d));
   ("last_reviewed", opt_str (td_last_reviewed d)); ("verified", VBool (td_verified d))].

Definition strs (l : list string) : pyval := VList (map VStr l).

(** [as_dict] *)
Definition profile_dict (p : RegulationCheckProfile) : dict pyval :=
  [("regulation", VStr (p_regulation p)); ("generic_phrases", strs (sort String.leb (p_generic_phrases p)));
   ("placeholder_patterns", strs (p_placeholder_patterns p));
   ("value_reference_pattern", VStr (p_value_reference_pattern p));
   ("extra_case_fields", strs (sort String.leb (p_extra_case_fields p)));
   ("specific_score_threshold", VFloat (p_specific_score_threshold p));
   ("proxy_variables", VDict (map (fun '(k, v) => (k, VStr v)) (sort key_leb (p_proxy_variables p))));
   ("direct_protected_terms", VDict (map (fun '(k, v) => (k, VStr v)) (sort key_leb (p_direct_protected_terms p))));
   ("authorized_inputs", VDict (map (fun '(k, d) => (k, VDict (tier_dict d))) (sort key_leb (p_authorized_inputs p))));
   ("tier_floor", VStr (p_tier_floor p)); ("prohibited_inputs", strs (sort String.leb (p_prohibited_inputs p)));
   ("narrative_field", opt_str (p_narrative_field p));
   ("narrative_flag_phrases", strs (sort String.leb (p_narrative_flag_phrases p)));
   ("consent_model", VStr (p_consent_model p))].

(* ------------------------------------------------------------------ *)
(** ** Matching *)

(** [re.search] and [re.fullmatch] with IGNORECASE, on a pattern of a profile. *)
Class Regex := { re_search : string -> string -> bool; re_search_case : string -> string -> bool;
                 re_fullmatch : string -> string -> bool }.

(** [re.split(r"[_\W]+", name)], without the empty tokens. *)
Definition token_char (c : ascii) : bool := is_alpha c || is_digit c.
Fixpoint tokens_from (s current : string) : list string :=
  match s with
  | EmptyString => if str_true current then [current] else []
  | String c s =>
      if token_char c then tokens_from s (current +:+ String c EmptyString)
      else if str_true current then current :: tokens_from s EmptyString else tokens_from s EmptyString
  end.
Definition tokens (s : string) : list string := tokens_from s EmptyString.

Definition word_char (c : ascii) : bool := token_char c || Ascii.eqb c "_"%char.
Definition starts_word (s : string) : bool := match s with String c _ => word_char c | EmptyString => false end.

Fixpoint str_drop (n : nat) (s : string) : string :=
  match n, s with S n, String _ s => str_drop n s | _, _ => s end.

(** [re.search(rf"\b{token}\b", text)] for a token of word characters;
    [after_word]: the character before is a word character. *)
Fixpoint word_in (token : string) (after_word : bool) (s : string) : bool :=
  (negb after_word && String.prefix token s && negb (starts_word (str_drop (String.length token) s))) ||
  match s with EmptyString => false | String c s => word_in token (word_char c) s end.

Definition field_name_appears (field_name text_lower : string) : bool :=
  match tokens (lower field_name) with
  | [] => false
  | ts => forallb (fun t => word_in t false text_lower) ts
  end.

(** [re.sub(r"[_\-]+", " ", name)] *)
Fixpoint spaced_from (in_run : bool) (s : string) : string :=
  match s with
  | EmptyString => EmptyString
  | String c s =>
      if Ascii.eqb c "_"%char || Ascii.eqb c "-"%char
      then (if in_run then spaced_from true s else String " " (spaced_from true s))
      else String c (spaced_from false s)
  end.
Definition spaced (s : string) : string := spaced_from false s.

(** [sorted({...})] *)
Definition sorted_set (l : list string) : list string := sort String.leb (remove_dups l).

Section Checks.
Context `{!Regex}.
Variable profile : RegulationCheckProfile.

Definition name_matches (pattern variable_name : string) : bool :=
  existsb (re_search pattern) [variable_name; spaced variable_name].

(* ------------------------------------------------------------------ *)
(** ** Check 1: reason specificity *)

Record assessment := mkAssessment {
  as_reason : string;
  as_score : float64;
  as_classification : string;
  as_flagged : bool;
  as_evidence : dict pyval;
}.

(** [min(a, b)] and [max(a, b)] of two floats. *)
Definition fmin (a b : float64) : float64 := if fltb b a then b else a.
Definition fmax (a b : float64) : float64 := if fltb a b then b else a.

Definition specificity_score (has_value has_field : bool) (hits : nat) : float64 :=
  let score := half in
  let score := if has_value then fadd score quarter else score in
  let score := if has_field then fadd score quarter else score in
  let score := fsub score (fmin (fmul quarter (f_of_Z (Z.of_nat hits))) half) in
  fmax fzero (fmin one score).

Definition assess_reason_specificity (reason : string) (material : DecisionMaterial) : assessment :=
  let text := strip reason in
  let text_lower := lower text in
  match find (fun pattern => re_fullmatch pattern text_lower) (p_placeholder_patterns profile) with
  | Some pattern => mkAssessment reason fzero "placeholder" true [("placeholder_pattern", VStr pattern)]
  | None =>
      let generic_hits := sorted_set (List.filter (fun p => contains (lower p) text_lower) (p_generic_phrases profile)) in
      let has_value := re_search_case (p_value_reference_pattern profile) text in
      let candidate_fields := (m_mismatched_fields material ++ dkeys (m_input_fields material) ++
                               p_extra_case_fields profile)%list in
      let referenced := sorted_set (List.filter (fun name => field_name_appears name text_lower) candidate_fields) in
      let score := specificity_score has_value (match referenced with [] => false | _ => true end)
                     (length generic_hits) in
      let flagged := fltb score (p_specific_score_threshold profile) in
      mkAssessment reason score (if flagged then "generic" else "specific") flagged
        [("generic_phrase_hits", strs generic_hits); ("cites_concrete_value", VBool has_value);
         ("case_fields_referenced", strs referenced)]
  end.

Definition flag (check_name : string) (material : DecisionMaterial) (classification : string) (score : float64)
    (evidence : dict pyval) : RegulatoryFinding :=
  mkFinding check_name (m_subject_id material) (p_regulation profile) ACTION_FLAG classification score evidence.

Definition check_reason_specificity (check_name : string) (material : DecisionMaterial) : list RegulatoryFinding :=
  match m_reasons material with
  | [] => match m_mismatched_fields material with
          | [] => []
          | ms => [flag check_name material "missing" fzero [("mismatched_fields", strs ms)]]
          end
  | reasons =>
      omap (fun r => let a := assess_reason_specificity r material in
              if as_flagged a
              then Some (flag check_name material (as_classification a) (as_score a)
                           (("reason", VStr (as_reason a)) :: as_evidence a))
              else None) reasons
  end.

(* ------------------------------------------------------------------ *)
(** ** Check 2: proxy and direct-protected variables *)

(** The first pattern, in order, that matches. *)
Definition first_match {A} (patterns : dict A) (name : string) : option A :=
  match find (fun pa => name_matches (fst pa) name) (sort key_leb patterns) with
  | Some (_, a) => Some a
  | None => None
  end.

Definition proxy_finding (check_name : string) (material : DecisionMaterial) (name : string)
    : option RegulatoryFinding :=
  match first_match (p_direct_protected_terms profile) name with
  | Some direct => Some (flag check_name material "direct_protected_characteristic" one
                           [("variable", VStr name); ("characteristic", VStr direct)])
  | None =>
      match first_match (p_proxy_variables profile) name with
      | Some proxied => Some (flag check_name material "proxy_variable" one
                                [("variable", VStr name); ("proxies_for", VStr proxied)])
      | None => None
      end
  end.

Definition check_proxy_variables (check_name : string) (material : DecisionMaterial) : list RegulatoryFinding :=
  omap (proxy_finding check_name material) (sorted_keys (m_input_fields material)).

(* ------------------------------------------------------------------ *)
(** ** Check 3: input-authorization tiers *)

Record tier_assessment := mkTierAssessment {
  ta_variable : string;
  ta_tier : string;
  ta_confidence : option string;
  ta_flagged : bool;
  ta_classification : string;
  ta_evidence : dict pyval;
}.

Definition tier_evidence (d : TierDeclaration) : dict pyval :=
  [("authorized_by", opt_str (td_authorized_by d)); ("approval_date", opt_str (td_approval_date d));
   ("justification", opt_str (td_justification d)); ("last_reviewed", opt_str (td_last_reviewed d));
   ("verified", VBool (td_verified d))].

Definition assess_input_authorization (name : string) : tier_assessment :=
  if existsb (fun pattern => name_matches pattern name) (p_prohibited_inputs profile)
  then mkTierAssessment name T0_PROHIBITED None true "prohibited_input" []
  else
    match first_match (p_authorized_inputs profile) name with
    | None => mkTierAssessment name T5_UNDECLARED (Some CONFIDENCE_UNDECLARED) true "undeclared_input" []
    | Some d =>
        let tier := td_tier d in
        let '(flagged, classification) :=
          if str_mem tier CATEGORICAL_FLAG_TIERS
          then (true, if String.eqb tier T6_OPAQUE then "opaque_input"
                      else if String.eqb tier T0_PROHIBITED then "prohibited_input" else "undeclared_input")
          else let flagged := (tier_rank (p_tier_floor profile) 2 <? tier_rank tier 5)%Z in
               (flagged, if flagged then "below_tier_floor" else "tier_acceptable") in
        mkTierAssessment name tier (Some (confidence_for d)) flagged classification (tier_evidence d)
    end.

(** The review priority of a confidence label. *)
Definition confidence_score (confidence : option string) : float64 :=
  match confidence with
  | None => one
  | Some c =>
      if String.eqb c CONFIDENCE_ATTESTED_UNSUPPORTED then fsub one quarter
      else if String.eqb c CONFIDENCE_ATTESTED_ACCOUNTABLE_UNSUPPORTED then half
      else if String.eqb c CONFIDENCE_ATTESTED_ACCOUNTABLE_EVIDENCED then quarter
      else if String.eqb c CONFIDENCE_VERIFIED then fzero else one
  end.

Definition tier_finding (check_name : string) (material : DecisionMaterial) (name : string)
    : option RegulatoryFinding :=
  let a := assess_input_authorization name in
  if ta_flagged a
  then Some (flag check_name material (ta_classification a) (confidence_score (ta_confidence a))
               (("variable", VStr (ta_variable a)) :: ("tier", VStr (ta_tier a)) ::
                ("confidence", opt_str (ta_confidence a)) :: ta_evidence a))
  else None.

Definition check_input_authorization_tier (check_name : string) (material : DecisionMaterial)
    : list RegulatoryFinding :=
  omap (tier_finding check_name material) (sorted_keys (m_input_fields material)).

(* ------------------------------------------------------------------ *)
(** ** Check 4: narrative legitimacy *)

(** [" ".join(reasons)] *)
Fixpoint join_sp (l : list string) : string :=
  match l with [] => EmptyString | [x] => x | x :: l => x +:+ " " +:+ join_sp l end.

Definition check_narrative_legitimacy (check_name : string) (material : DecisionMaterial) : list RegulatoryFinding :=
  match p_narrative_field profile with
  | None => []
  | Some nf =>
      let not_screened := [flag check_name material "not_screened" fzero [("narrative_field", VStr nf)]] in
      match vget (m_input_fields material) nf with
      | VStr narrative =>
          if blank narrative then not_screened else
          let text_lower := lower narrative in
          let hits := sorted_set (List.filter (fun p => contains (lower p) text_lower)
                                    (p_narrative_flag_phrases profile)) in
          match hits, m_mismatched_fields material with
          | [], _ => []
          | _, [] => []
          | _, ms =>
              let reasons_text := lower (join_sp (m_reasons material)) in
              if existsb (fun p => contains (lower p) reasons_text) hits then [] else
              [flag check_name material "possible_laundered_reason" one
                 [("narrative_field", VStr nf); ("flagged_phrases", strs hits); ("mismatched_fields", strs ms);
                  ("stated_reasons", strs (m_reasons material))]]
          end
      | _ => not_screened
      end
  end.
End Checks.

(* ------------------------------------------------------------------ *)
(** ** The rollup *)

Definition DIMENSION_KNOWN_BAD_VARIABLE_NAMES : string := "known_bad_variable_names".
Definition DIMENSION_INPUT_AUTHORIZATION_TIER : string := "input_authorization_tier".
Definition DIMENSION_NARRATIVE_LEGITIMACY : string := "narrative_legitimacy".
Definition DIMENSION_STATISTICAL_OUTCOME_EQUITY : string := "statistical_outcome_equity".
Definition DIMENSION_CORRELATION_PROXY_SIGNAL : string := "correlation_proxy_signal".
Definition DIMENSION_GEOGRAPHIC_OUTCOME_EQUITY : string := "geographic_outcome_equity".

Inductive c2_status := C2_PASS | C2_FLAG | C2_INDETERMINATE.

#[export] Instance c2_status_eq_dec : EqDecision c2_status.
Proof. solve_decision. Defined.

Record C2Rollup := mkRollup {
  c2_status_of : c2_status;
  evaluated_dimensions : list string;
  not_evaluated_dimensions : list string;
  flagged_dimensions : list string;
  c2_findings : list RegulatoryFinding;
}.

Definition rollup_c2_bias_identification (dimension_findings : dict (option (list RegulatoryFinding))) : C2Rollup :=
  let evaluated := omap (fun '(n, v) => match v with Some _ => Some n | None => None end) dimension_findings in
  let not_evaluated := omap (fun '(n, v) => match v with Some _ => None | None => Some n end) dimension_findings in
  let flagged := omap (fun '(n, v) => match v with Some (_ :: _) => Some n | _ => None end) dimension_findings in
  let all := flat_map (fun '(_, v) => match v with Some l => l | None => [] end) dimension_findings in
  mkRollup (match not_evaluated, flagged with
            | _ :: _, _ => C2_INDETERMINATE
            | [], _ :: _ => C2_FLAG
            | [], [] => C2_PASS
            end)
    (sort String.leb evaluated) (sort String.leb not_evaluated) (sort String.leb flagged) all.
