(* ===== verification/CohortChecks.v ===== *)
(** * CohortChecks: comparing outcomes across a cohort

    Models the cohort-level checks of src/sentinel_os/regulatory_checks.py:
    the four-fifths screen over estimated groups and over property locations,
    and the correlation screen.  [statistics.correlation] is an argument; the
    explanatory sentences of an evidence dict are left out. *)

From S2P Require Import Prelude PyFloat PyValue Episode Event Outcome Json Regulatory.
From Stdlib Require Import SpecFloat.
Local Open Scope string_scope.

Definition MIN_COHORT_SIZE_FOR_STATISTICAL_TEST : nat := 30.
Definition MIN_OBSERVATIONS_PER_GEOGRAPHY_GROUP : Z := 5.
(** The literals 0.8 and 0.5. *)
Definition FOUR_FIFTHS_THRESHOLD : float64 := fdiv (f_of_Z 4) (f_of_Z 5).
Definition CORRELATION_FLAG_THRESHOLD : float64 := half.

Definition GEOGRAPHY_TIER_ZIP : string := "zip".
Definition GEOGRAPHY_TIER_COUNTY : string := "county".

(** [round(x, 4)]: the decimal nearest to the exact value of the float, ties to
    even, as a float.  An integral float is its own rounding. *)
Definition round_half_even (n d : Z) : Z :=
  let q := (n / d)%Z in
  let r := (n mod d)%Z in
  if (2 * r <? d)%Z then q else if (d <? 2 * r)%Z then (q + 1)%Z else if Z.even q then q else (q + 1)%Z.

Definition round4 (f : float64) : float64 :=
  match f with
  | S754_finite s m e =>
      if (0 <=? e)%Z then f else
      match round_half_even (Zpos m * 10000) (2 ^ (- e)) with
      | 0%Z => S754_zero s
      | k => fdiv (f_of_Z (if s then - k else k)) (f_of_Z 10000)
      end
  | _ => f
  end.

Definition fabs (f : float64) : float64 := SFabs f.

(** [group -> probability]. *)
Abbreviation distribution := (dict float64).

Record CohortInputDecision := mkCohortInput {
  ci_subject_id : string;
  ci_input_fields : dict pyval;
  ci_group_distribution : distribution;
}.

Record GeographicCohortDecision := mkGeographic {
  gd_subject_id : string;
  gd_favorable_outcome : bool;
  gd_zip_code : option string;
  gd_county_fips : option string;
}.

Definition get_f (d : dict float64) (k : string) : float64 := match dget d k with Some v => v | None => fzero end.
Definition get_n (d : dict Z) (k : string) : Z := match dget d k with Some v => v | None => 0%Z end.

Section Checks.
Context `{FloatRepr}.
Variable profile : RegulationCheckProfile.

Definition cohort_subject (n : nat) : string := "cohort:" +:+ string_of_N (N.of_nat n).

Definition cohort_flag (check_name : string) (n : nat) (classification : string) (score : float64)
    (evidence : dict pyval) : RegulatoryFinding :=
  mkFinding check_name (cohort_subject n) (p_regulation profile) ACTION_FLAG classification score evidence.

Definition insufficient_cohort (check_name : string) (n : nat) : RegulatoryFinding :=
  cohort_flag check_name n "indeterminate_insufficient_cohort" fzero
    [("cohort_size", VInt (Z.of_nat n));
     ("minimum_required", VInt (Z.of_nat MIN_COHORT_SIZE_FOR_STATISTICAL_TEST))].

Definition rate_texts (rates : dict float64) : pyval :=
  VDict (map (fun '(g, v) => (g, VFloat (round4 v))) (sort key_leb rates)).

(** [max(rates.values())] *)
Definition highest (rates : dict float64) : float64 :=
  match map snd rates with [] => fzero | x :: l => fold_left fmax l x end.

(** The groups below four fifths of the highest rate, in order. *)
Definition below_four_fifths (rates : dict float64) : list (string * float64 * float64) :=
  let h := highest rates in
  if fltb fzero h
  then omap (fun '(g, rate) =>
         let ratio := fdiv rate h in
         if fltb ratio FOUR_FIFTHS_THRESHOLD then Some (g, rate, ratio) else None) (sort key_leb rates)
  else [].

Definition impact_evidence (rates : dict float64) (n : nat) (g : string) (rate ratio : float64) : dict pyval :=
  [("group", VStr g); ("group_favorable_rate", VFloat (round4 rate));
   ("highest_group_favorable_rate", VFloat (round4 (highest rates))); ("ratio", VFloat (round4 ratio));
   ("threshold", VFloat FOUR_FIFTHS_THRESHOLD); ("cohort_size", VInt (Z.of_nat n))].

(* ------------------------------------------------------------------ *)
(** ** Check 5: estimated groups (dimension 4) *)

(** One decision's weight, spread over its groups. *)
Definition add_weight (favorable : bool) (acc : dict float64 * dict float64) (gp : string * float64)
    : dict float64 * dict float64 :=
  let '(fav, tot) := acc in
  let '(g, prob) := gp in
  if fleb prob fzero then acc else
  (if favorable then dset fav g (fadd (get_f fav g) prob) else fav, dset tot g (fadd (get_f tot g) prob)).

Definition add_decision (acc : dict float64 * dict float64) (d : CohortDecision distribution)
    : dict float64 * dict float64 :=
  fold_left (add_weight (cd_favorable_outcome _ d)) (cd_group_distribution _ d) acc.

(** Rates of the groups with at least one decision's weight. *)
Definition weighted_rates (cohort : list (CohortDecision distribution)) : dict float64 :=
  let '(fav, tot) := fold_left add_decision cohort ([], []) in
  omap (fun '(g, total) => if fleb one total then Some (g, fdiv (get_f fav g) total) else None) tot.

Definition check_statistical_outcome_equity (check_name : string) (cohort : list (CohortDecision distribution))
    : list RegulatoryFinding :=
  let n := length cohort in
  if (n <? MIN_COHORT_SIZE_FOR_STATISTICAL_TEST)%nat then [insufficient_cohort check_name n] else
  let rates := weighted_rates cohort in
  if (length rates <? 2)%nat
  then [cohort_flag check_name n "indeterminate_insufficient_group_coverage" fzero
          [("cohort_size", VInt (Z.of_nat n)); ("groups_with_sufficient_weight", strs (sorted_keys rates))]]
  else map (fun '(g, rate, ratio) =>
         cohort_flag check_name n "four_fifths_adverse_impact" (round4 (fsub one ratio))
           (impact_evidence rates n g rate ratio ++ [("all_group_rates", rate_texts rates)])%list)
         (below_four_fifths rates).

(* ------------------------------------------------------------------ *)
(** ** Check 8: property locations (dimension 6) *)

(** Favorable and total counts of the groups a tier assigns. *)
Definition count_decision (group_of : GeographicCohortDecision -> option string) (acc : dict Z * dict Z)
    (d : GeographicCohortDecision) : dict Z * dict Z :=
  let '(fav, tot) := acc in
  match group_of d with
  | Some g =>
      if str_true g
      then (if gd_favorable_outcome d then dset fav g (get_n fav g + 1)%Z else fav, dset tot g (get_n tot g + 1)%Z)
      else acc
  | None => acc
  end.

Definition counts_of (group_of : GeographicCohortDecision -> option string) (cohort : list GeographicCohortDecision)
    : dict Z * dict Z := fold_left (count_decision group_of) cohort ([], []).

Definition geographic_rates (counts : dict Z * dict Z) : dict float64 :=
  omap (fun '(g, total) => if (MIN_OBSERVATIONS_PER_GEOGRAPHY_GROUP <=? total)%Z
                           then Some (g, fdiv (f_of_Z (get_n (fst counts) g)) (f_of_Z total)) else None) (snd counts).

Definition geographic_tier (check_name : string) (n : nat) (tier : string) (counts : dict Z * dict Z)
    : list RegulatoryFinding :=
  let rates := geographic_rates counts in
  if (length rates <? 2)%nat
  then [cohort_flag check_name n "indeterminate_insufficient_group_coverage" fzero
          [("tier", VStr tier); ("cohort_size", VInt (Z.of_nat n));
           ("groups_with_sufficient_observations", strs (sorted_keys rates));
           ("minimum_observations_per_group", VInt MIN_OBSERVATIONS_PER_GEOGRAPHY_GROUP)]]
  else map (fun '(g, rate, ratio) =>
         cohort_flag check_name n "four_fifths_adverse_impact" (round4 (fsub one ratio))
           (("tier", VStr tier) :: impact_evidence rates n g rate ratio ++
            [("group_observations", VInt (get_n (snd counts) g)); ("all_group_rates", rate_texts rates)])%list)
         (below_four_fifths rates).

Definition GEOGRAPHY_TIERS : list (string * (GeographicCohortDecision -> option string)) :=
  [(GEOGRAPHY_TIER_ZIP, gd_zip_code); (GEOGRAPHY_TIER_COUNTY, gd_county_fips)].

Definition check_geographic_outcome_equity (check_name : string) (cohort : list GeographicCohortDecision)
    : list RegulatoryFinding :=
  let n := length cohort in
  if (n <? MIN_COHORT_SIZE_FOR_STATISTICAL_TEST)%nat then [insufficient_cohort check_name n] else
  flat_map (fun '(tier, group_of) => geographic_tier check_name n tier (counts_of group_of cohort)) GEOGRAPHY_TIERS.

(* ------------------------------------------------------------------ *)
(** ** Check 7: correlation with estimated membership (dimension 5) *)

(** [_numeric_value]: an integer beyond binary64 raises OverflowError. *)
Definition numeric_value (v : pyval) : result pyexn (option float64) :=
  match v with
  | VBool b => Ok (Some (if b then one else fzero))
  | VInt z => f ← int_to_float z; Ok (Some f)
  | VFloat f => Ok (Some f)
  | _ => Ok None
  end.

(** [statistics.correlation]; [None] where it raises StatisticsError. *)
Variable correlation : list float64 -> list float64 -> result pyexn (option float64).

Definition numeric_field (kv : string * pyval) : result pyexn (list string) :=
  x ← numeric_value (snd kv); Ok match x with Some _ => [fst kv] | None => [] end.

Definition numeric_fields (d : CohortInputDecision) : result pyexn (list string) :=
  l ← mapM_r numeric_field (ci_input_fields d); Ok (concat l).

(** The decisions that carry a variable, with its value. *)
Definition variable_pair (name : string) (d : CohortInputDecision) : result pyexn (list (float64 * distribution)) :=
  match dget (ci_input_fields d) name with
  | Some v => x ← numeric_value v; Ok match x with Some f => [(f, ci_group_distribution d)] | None => [] end
  | None => Ok []
  end.

Definition variable_pairs (name : string) (cohort : list CohortInputDecision)
    : result pyexn (list (float64 * distribution)) :=
  l ← mapM_r (variable_pair name) cohort; Ok (concat l).

Definition correlation_finding (check_name : string) (n : nat) (name : string)
    (pairs : list (float64 * distribution)) (race : string) : result pyexn (list RegulatoryFinding) :=
  c ← correlation (map fst pairs) (map (fun p => get_f (snd p) race) pairs);
  Ok match c with
     | Some r =>
         if fleb CORRELATION_FLAG_THRESHOLD (fabs r)
         then [cohort_flag check_name n "correlation_based_proxy_signal" (round4 (fabs r))
                 [("variable", VStr name); ("group", VStr race); ("correlation", VFloat (round4 r));
                  ("threshold", VFloat CORRELATION_FLAG_THRESHOLD); ("sample_size", VInt (Z.of_nat (length pairs)))]]
         else []
     | None => []
     end.

Definition variable_findings (check_name : string) (cohort : list CohortInputDecision) (groups : list string)
    (name : string) : result pyexn (list RegulatoryFinding) :=
  pairs ← variable_pairs name cohort;
  if (length pairs <? MIN_COHORT_SIZE_FOR_STATISTICAL_TEST)%nat then Ok [] else
  found ← mapM_r (correlation_finding check_name (length cohort) name pairs) groups;
  Ok (concat found).

Definition check_correlation_based_proxy_detection (check_name : string) (cohort : list CohortInputDecision)
    : result pyexn (list RegulatoryFinding) :=
  let n := length cohort in
  if (n <? MIN_COHORT_SIZE_FOR_STATISTICAL_TEST)%nat then Ok [insufficient_cohort check_name n] else
  names ← mapM_r numeric_fields cohort;
  let groups := sorted_set (flat_map (fun d => dkeys (ci_group_distribution d)) cohort) in
  findings ← mapM_r (variable_findings check_name cohort groups) (sorted_set (concat names));
  Ok (concat findings).
End Checks.
