(* ===== verification/CohortFacts.v ===== *)
(** * CohortFacts: what the screening checks guarantee

    The strictest tier wins in any order; a specificity score is what the
    policy says of the signals in the text; the screen by location does not depend on the order of the cohort;
    equal rates are never flagged. *)

From S2P Require Import Prelude PyFloat PyValue Episode Event Outcome Json Regulatory CohortChecks.
From Stdlib Require Import SpecFloat.
Local Open Scope string_scope.

(* ------------------------------------------------------------------ *)
(** ** Tiers *)

(** How strict a tier is. *)
Definition strictness (t : string) : Z :=
  match categorical_priority t with Some 0%Z => 7 | Some _ => 6 | None => tier_rank t 0 end.

Lemma resolve_strictest a b : a ∈ TIERS -> b ∈ TIERS ->
  resolve_tier_conflict a b = if (strictness b <=? strictness a)%Z then a else b.
Proof.
  assert (Hall : forallb (fun a => forallb (fun b => String.eqb (resolve_tier_conflict a b)
    (if (strictness b <=? strictness a)%Z then a else b)) TIERS) TIERS = true) by (vm_compute; reflexivity).
  intros Ha Hb. rewrite forallb_forall in Hall. specialize (Hall a (proj1 (list_elem_of_In _ _) Ha)).
  rewrite forallb_forall in Hall. specialize (Hall b (proj1 (list_elem_of_In _ _) Hb)). by apply String.eqb_eq.
Qed.

Lemma strictness_inj a b : a ∈ TIERS -> b ∈ TIERS -> strictness a = strictness b -> a = b.
Proof.
  assert (Hall : forallb (fun a => forallb (fun b => negb (strictness a =? strictness b)%Z || String.eqb a b) TIERS) TIERS = true)
    by (vm_compute; reflexivity).
  intros Ha Hb He. rewrite forallb_forall in Hall. specialize (Hall a (proj1 (list_elem_of_In _ _) Ha)).
  rewrite forallb_forall in Hall. specialize (Hall b (proj1 (list_elem_of_In _ _) Hb)).
  rewrite He, Z.eqb_refl in Hall. by apply String.eqb_eq.
Qed.

Lemma fold_strictest l t : t ∈ TIERS -> Forall (fun x => x ∈ TIERS) l ->
  fold_left resolve_tier_conflict l t ∈ t :: l /\ fold_left resolve_tier_conflict l t ∈ TIERS /\
  Forall (fun x => (strictness x <= strictness (fold_left resolve_tier_conflict l t))%Z) (t :: l).
Proof.
  intros Ht Hl. revert t Ht. induction Hl as [|x l Hx Hl IH]; intros t Ht; cbn [fold_left].
  { split_and!; [set_solver|done|]. constructor; [lia|constructor]. }
  rewrite resolve_strictest by done. destruct (Z.leb_spec (strictness x) (strictness t)) as [Hle|Hlt].
  - destruct (IH t Ht) as (Hin & Hti & Hf). apply Forall_cons in Hf as [H1 Hf]. split_and!; [set_solver|done|].
    constructor; [done|]. constructor; [lia|done].
  - destruct (IH x Hx) as (Hin & Hti & Hf). apply Forall_cons in Hf as [H1 Hf]. split_and!; [set_solver|done|].
    constructor; [lia|]. by constructor.
Qed.

(** The strictest tier wins, in any order: folding the conflict rule over
    the claims of any number of lenses gives one of the claims, which is at
    least as strict as every other; the order of the claims does not matter. *)
Theorem stricter_tier_wins t l t' l' : t ∈ TIERS -> Forall (fun x => x ∈ TIERS) l -> t :: l ≡ₚ t' :: l' ->
  let resolved := fold_left resolve_tier_conflict l t in
  resolved ∈ t :: l /\ Forall (fun x => (strictness x <= strictness resolved)%Z) (t :: l) /\
  fold_left resolve_tier_conflict l' t' = resolved.
Proof.
  intros Ht Hl Hp. cbv zeta. destruct (fold_strictest l t Ht Hl) as (Hin & Hti & Hf).
  assert (Hall : Forall (fun x => x ∈ TIERS) (t' :: l')) by (rewrite <- Hp; by constructor).
  apply Forall_cons in Hall as [Ht' Hl']. destruct (fold_strictest l' t' Ht' Hl') as (Hin' & Hti' & Hf').
  split_and!; [done|done|]. apply strictness_inj; [done..|]. rewrite <- Hp in Hin', Hf'.
  rewrite Forall_forall in Hf. rewrite Forall_forall in Hf'. specialize (Hf _ Hin'). specialize (Hf' _ Hin). lia.
Qed.

Lemma stricter_tier_wins_witness :
  fold_left resolve_tier_conflict [T6_OPAQUE; T1_FILED] T4_PENDING = T6_OPAQUE /\
  fold_left resolve_tier_conflict [T4_PENDING; T6_OPAQUE] T1_FILED = T6_OPAQUE.
Proof.
  assert (Hp : [T4_PENDING; T6_OPAQUE; T1_FILED] ≡ₚ [T1_FILED; T4_PENDING; T6_OPAQUE])
    by (symmetry; apply (Permutation_cons_append [T4_PENDING; T6_OPAQUE] T1_FILED)).
  destruct (stricter_tier_wins T4_PENDING [T6_OPAQUE; T1_FILED] T1_FILED [T4_PENDING; T6_OPAQUE]
    ltac:(apply str_mem_spec; reflexivity) ltac:(repeat constructor; apply str_mem_spec; reflexivity) Hp) as (_ & _ & He).
  split; [reflexivity|]. rewrite He. reflexivity.
Defined.

(* ------------------------------------------------------------------ *)
(** ** Scores *)

Definition b2z (b : bool) : Z := if b then 1 else 0.

(** The policy in quarters: neutral at two, one up for a concrete value, one up
    for a case field, one down for each generic phrase, two at most. *)
Definition quarters_of (has_value has_field : bool) (hits : nat) : Z :=
  (2 + b2z has_value + b2z has_field - Z.min 2 (Z.of_nat hits))%Z.
Definition quarters (k : Z) : float64 := fmul quarter (f_of_Z k).

Definition MANY_PHRASES : nat := 1000.

Lemma score_table v f hits : (hits <= MANY_PHRASES)%nat ->
  specificity_score v f hits = quarters (quarters_of v f hits).
Proof.
  intros Hle. assert (Hin : hits ∈ seq 0 (S MANY_PHRASES)) by (apply elem_of_seq; lia).
  assert (Hall : map (specificity_score v f) (seq 0 (S MANY_PHRASES)) =
    map (fun n => quarters (quarters_of v f n)) (seq 0 (S MANY_PHRASES)))
    by (destruct v, f; vm_compute; reflexivity).
  revert Hin. generalize dependent (seq 0 (S MANY_PHRASES)). intros l Hall Hin.
  induction l as [|n l IH]; [by apply elem_of_nil in Hin|]. cbn [map] in Hall. injection Hall as Hn Hall.
  apply elem_of_cons in Hin as [->|Hin]; [done|by apply IH].
Qed.

Lemma quarters_range v f hits : (0 <= quarters_of v f hits <= 4)%Z.
Proof. unfold quarters_of, b2z. destruct v, f; lia. Qed.

Lemma quarters_between k : (0 <= k <= 4)%Z -> fleb fzero (quarters k) = true /\ fleb (quarters k) one = true.
Proof.
  intros Hk. assert (Hc : (k = 0 \/ k = 1 \/ k = 2 \/ k = 3 \/ k = 4)%Z) by lia.
  by destruct Hc as [->|[->|[->|[->| ->]]]].
Qed.

(** What a reason is read for: a code or non-answer, the distinct generic
    phrases in it, a concrete value, a field of the case. *)
Section Reason.
Context `{!Regex} (profile : RegulationCheckProfile) (material : DecisionMaterial) (reason : string).

Definition is_placeholder : Prop :=
  exists pattern, pattern ∈ p_placeholder_patterns profile /\ re_fullmatch pattern (lower (strip reason)) = true.

Definition phrases_in : list string :=
  remove_dups (List.filter (fun p => contains (lower p) (lower (strip reason))) (p_generic_phrases profile)).

Definition cites_value : bool := re_search_case (p_value_reference_pattern profile) (strip reason).

Definition names_field : bool :=
  existsb (fun name => field_name_appears name (lower (strip reason)))
    (m_mismatched_fields material ++ dkeys (m_input_fields material) ++ p_extra_case_fields profile).

Lemma remove_dups_le {A} `{EqDecision A} (l : list A) : (length (remove_dups l) <= length l)%nat.
Proof. induction l as [|x l IH]; simpl; [lia|]. case_decide; simpl; lia. Qed.

Lemma phrases_le : (length phrases_in <= length (p_generic_phrases profile))%nat.
Proof. etransitivity; [apply remove_dups_le|apply List.filter_length_le]. Qed.

Lemma sorted_set_filled (f : string -> bool) l :
  match sorted_set (List.filter f l) with [] => false | _ => true end = existsb f l.
Proof.
  destruct (existsb f l) eqn:E.
  - apply existsb_exists in E as (x & Hx & Hf). assert (Hin : x ∈ sorted_set (List.filter f l)).
    { unfold sorted_set. rewrite elem_of_sort, elem_of_remove_dups. by apply list_elem_of_In, filter_In. }
    destruct (sorted_set _); [by apply elem_of_nil in Hin|done].
  - destruct (sorted_set (List.filter f l)) as [|x k] eqn:Es; [done|]. exfalso.
    assert (Hin : x ∈ sorted_set (List.filter f l)) by (rewrite Es; by left).
    unfold sorted_set in Hin. rewrite elem_of_sort, elem_of_remove_dups in Hin.
    apply list_elem_of_In, filter_In in Hin as [Hx Hf].
    assert (existsb f l = true) by (apply existsb_exists; eauto). congruence.
Qed.

(** C39 (what a specificity score says): under a profile of at most a thousand
    generic phrases, a reason is classified a placeholder exactly when some
    placeholder pattern matches all of it, and then scores 0 and is flagged
    whatever else it says; any other reason scores, in quarters, two, one more
    for a concrete value, one more for a field of the case, one less for each
    distinct generic phrase in it and two less at most, and is flagged, as
    generic, exactly when that is below the profile's threshold; so a score is
    always between 0 and 1. *)
Theorem specificity_meaning : (length (p_generic_phrases profile) <= MANY_PHRASES)%nat ->
  let a := assess_reason_specificity profile reason material in
  (as_classification a = "placeholder" <-> is_placeholder) /\
  (is_placeholder -> as_score a = fzero /\ as_flagged a = true) /\
  (~ is_placeholder ->
     as_score a = quarters (quarters_of cites_value names_field (length phrases_in)) /\
     as_flagged a = fltb (as_score a) (p_specific_score_threshold profile) /\
     as_classification a = (if as_flagged a then "generic" else "specific")) /\
  fleb fzero (as_score a) = true /\ fleb (as_score a) one = true.
Proof.
  intros Hmany. cbv zeta. unfold assess_reason_specificity.
  destruct (find _ (p_placeholder_patterns profile)) as [pattern|] eqn:Ef.
  - assert (Hp : is_placeholder).
    { apply find_some in Ef as [Hin Hm]. exists pattern. by split; [apply list_elem_of_In|]. }
    by split_and!.
  - assert (Hp : ~ is_placeholder).
    { intros (pattern & Hin & Hm). apply list_elem_of_In in Hin.
      by rewrite (find_none _ _ Ef pattern Hin) in Hm. }
    assert (Hlen : length (sorted_set (List.filter (fun p => contains (lower p) (lower (strip reason)))
      (p_generic_phrases profile))) = length phrases_in) by apply length_sort.
    cbv zeta. cbn [as_score as_classification as_flagged]. rewrite sorted_set_filled, Hlen. fold cites_value names_field.
    rewrite score_table by (etransitivity; [apply phrases_le|done]).
    destruct (quarters_between _ (quarters_range cites_value names_field (length phrases_in))).
    split_and!; try done.
    destruct (fltb _ _); done.
Qed.
End Reason.

(** A lending profile whose patterns are literal words. *)
#[local] Instance word_regex : Regex := {|
  re_search := contains;
  re_search_case := fun _ s => negb (str_forallb (fun c => negb (is_digit c)) s);
  re_fullmatch := String.eqb;
|}.

Definition reason_profile : RegulationCheckProfile :=
  mkProfile "ECOA" ["internal policy"; "credit score"; "at this time"] ["n/a"; "other"] "digits" ["loan amount"] half
    [] [] [] "T2" [] None [] CONSENT_OPT_IN_REQUIRED.
Definition reason_case : DecisionMaterial :=
  mkMaterial "D-1" "lending" [] [("credit_utilization", VInt 83)] [] [] "row".
Definition read_reason (reason : string) : assessment := assess_reason_specificity reason_profile reason reason_case.

(** A code; a bare formula; a formula with a value; a specific reason. *)
Lemma specificity_meaning_witness :
  as_score (read_reason " Other ") = fzero /\
  as_score (read_reason "Internal policy, credit score, at this time") = quarters 0 /\
  as_score (read_reason "credit score 611") = quarters 2 /\
  as_classification (read_reason "credit utilization of 83 percent") = "specific".
Proof.
  assert (Hm : (length (p_generic_phrases reason_profile) <= MANY_PHRASES)%nat) by (apply Nat.leb_le; reflexivity).
  assert (Hn : forall r, existsb (fun p => String.eqb p (lower (strip r))) ["n/a"; "other"] = false ->
    ~ is_placeholder reason_profile r).
  { intros r Hf (p & Hin & Hp). apply list_elem_of_In in Hin. assert (existsb (fun p => String.eqb p (lower (strip r)))
      ["n/a"; "other"] = true) by (apply existsb_exists; eauto). congruence. }
  split; [|split; [|split]].
  - refine (proj1 (proj1 (proj2 (specificity_meaning reason_profile reason_case " Other " Hm)) _)).
    exists "other". split; [apply str_mem_spec; reflexivity|reflexivity].
  - etransitivity; [exact (proj1 (proj1 (proj2 (proj2 (specificity_meaning reason_profile reason_case
      "Internal policy, credit score, at this time" Hm)))
      (Hn "Internal policy, credit score, at this time" eq_refl)))|vm_compute; reflexivity].
  - etransitivity; [exact (proj1 (proj1 (proj2 (proj2 (specificity_meaning reason_profile reason_case "credit score 611" Hm)))
      (Hn "credit score 611" eq_refl)))|vm_compute; reflexivity].
  - etransitivity; [exact (proj2 (proj2 (proj1 (proj2 (proj2 (specificity_meaning reason_profile reason_case
      "credit utilization of 83 percent" Hm)))
      (Hn "credit utilization of 83 percent" eq_refl))))|vm_compute; reflexivity].
Defined.

(* ------------------------------------------------------------------ *)
(** ** Rates *)

Lemma quotient_self m e : fdiv (S754_finite false m e) (S754_finite false m e) = one.
Proof.
  unfold fdiv, SFdiv, SFdiv_core_binary. cbn [Zdigits2].
  rewrite !Z.sub_diag. change (Z.min (fexp 53 1024 0) 0) with (-53)%Z.
  change (0 - -53)%Z with 53%Z. cbn [xorb].
  assert (Hq : Z.div_eucl (Z.shiftl (Zpos m) 53) (Zpos m) = (2 ^ 53, 0)%Z).
  { rewrite Z.shiftl_mul_pow2 by lia. rewrite (surjective_pairing (Z.div_eucl _ _)).
    change (fst (Z.div_eucl ?a ?b)) with (a / b)%Z. change (snd (Z.div_eucl ?a ?b)) with (a mod b)%Z.
    rewrite Z.mul_comm, Z.div_mul, Z.mod_mul by lia. done. }
  cbn [Z.sub Z.opp Z.add]. rewrite Hq. unfold new_location. destruct (Z.even (Zpos m)); vm_compute; reflexivity.
Qed.

Lemma flagged_rate rates g rate ratio : (g, rate, ratio) ∈ below_four_fifths rates ->
  (g, rate) ∈ rates /\ rate <> highest rates /\ ratio = fdiv rate (highest rates) /\ fltb ratio FOUR_FIFTHS_THRESHOLD = true.
Proof.
  unfold below_four_fifths. destruct (fltb fzero (highest rates)) eqn:Eh; [|by intros Hn%elem_of_nil].
  rewrite list_elem_of_omap. intros ([g' r'] & Hin & Heq). destruct (fltb (fdiv r' (highest rates)) _) eqn:Er; [|done].
  injection Heq as -> -> <-. rewrite elem_of_sort in Hin. split_and!; [done| |done|done].
  intros ->. destruct (highest rates) as [[]|[]| |[] m e] eqn:E; try done. by rewrite quotient_self in Er.
Qed.

(* ------------------------------------------------------------------ *)
(** ** Counting by location *)

Section Counting.
Context {A : Type}.

Lemma dict_perm (d d' : dict A) : NoDup (dkeys d) -> NoDup (dkeys d') ->
  (forall k, dget d k = dget d' k) -> d ≡ₚ d'.
Proof.
  intros Hd Hd' Heq. apply NoDup_Permutation.
  - by eapply NoDup_fmap_1.
  - by eapply NoDup_fmap_1.
  - intros [k v]. split; intros Hin.
    + apply dget_Some_elem. rewrite <- Heq. by apply elem_dget.
    + apply dget_Some_elem. rewrite Heq. by apply elem_dget.
Qed.

Lemma dict_sort_unique (d d' : dict A) : NoDup (dkeys d) -> d ≡ₚ d' -> sort key_leb d = sort key_leb d'.
Proof.
  intros Hd Hp. apply (sort_unique key_leb (fun _ => True)); [| | |by apply Forall_true|done].
  - intros [x ?] [y ?] _ _. unfold key_leb. simpl. intros Hl. destruct (String.leb_total x y); congruence.
  - intros [x ?] [y ?] [z ?] _ _ _. unfold key_leb. simpl. apply string_leb_trans.
  - intros [x v] [y w] Hx Hy. unfold key_leb. simpl. intros H1 H2.
    assert (x = y) as -> by (by apply String.leb_antisym).
    apply (elem_dget _ _ _ Hd) in Hx. apply (elem_dget _ _ _ Hd) in Hy. congruence.
Qed.
End Counting.

(** The decisions a tier assigns to a group, all of them or the favorable ones. *)
Definition assigned (group_of : GeographicCohortDecision -> option string) (k : string) (d : GeographicCohortDecision) : bool :=
  match group_of d with Some g => str_true g && String.eqb g k | None => false end.

Definition tally (group_of : GeographicCohortDecision -> option string) (k : string) (cohort : list GeographicCohortDecision) : Z :=
  Z.of_nat (length (List.filter (assigned group_of k) cohort)).

Definition tally_favorable (group_of : GeographicCohortDecision -> option string) (k : string)
    (cohort : list GeographicCohortDecision) : Z :=
  Z.of_nat (length (List.filter (fun d => assigned group_of k d && gd_favorable_outcome d) cohort)).

Definition counted (n : Z) (o : option Z) : option Z :=
  if (n =? 0)%Z then o else Some (match o with Some v => v | None => 0 end + n)%Z.

Lemma counted_succ n o : counted (Z.of_nat n) (Some (match o with Some v => v | None => 0 end + 1)%Z) =
  counted (Z.of_nat (S n)) o.
Proof.
  unfold counted. destruct (Z.eqb_spec (Z.of_nat (S n)) 0); [lia|]. destruct (Z.eqb_spec (Z.of_nat n) 0); f_equal; lia.
Qed.

Lemma counts_fold group_of cohort acc k :
  let c := fold_left (count_decision group_of) cohort acc in
  dget (fst c) k = counted (tally_favorable group_of k cohort) (dget (fst acc) k) /\
  dget (snd c) k = counted (tally group_of k cohort) (dget (snd acc) k).
Proof.
  revert acc. induction cohort as [|d cohort IH]; intros acc; [by split|]. cbn [fold_left]. cbv zeta in IH |- *.
  destruct (IH (count_decision group_of acc d)) as [-> ->]. clear IH. destruct acc as [fav tot].
  unfold count_decision, tally, tally_favorable. cbn [List.filter].
  destruct (assigned group_of k d) eqn:Ea; unfold assigned in Ea; destruct (group_of d) as [g|]; try done.
  - apply andb_true_iff in Ea as [-> ->%String.eqb_eq]. cbn [andb].
    destruct (gd_favorable_outcome d); cbn [fst snd length]; rewrite !dget_dset_eq; unfold get_n;
      by rewrite !counted_succ.
  - cbn [andb]. destruct (str_true g); [|done]. cbn [andb] in Ea. apply String.eqb_neq in Ea.
    by destruct (gd_favorable_outcome d); cbn [fst snd]; rewrite !dget_dset_ne.
Qed.

Lemma counts_nodup group_of cohort acc : NoDup (dkeys (fst acc)) -> NoDup (dkeys (snd acc)) ->
  let c := fold_left (count_decision group_of) cohort acc in NoDup (dkeys (fst c)) /\ NoDup (dkeys (snd c)).
Proof.
  revert acc. induction cohort as [|d cohort IH]; intros [fav tot] Hf Ht; [by split|]. cbn [fold_left]. apply IH.
  all: unfold count_decision; destruct (group_of d) as [g|]; [|done]; destruct (str_true g); [|done];
    destruct (gd_favorable_outcome d); cbn [fst snd]; by try apply NoDup_dset.
Qed.

Lemma filter_length_perm {A} (f : A -> bool) l l' : l ≡ₚ l' -> length (List.filter f l) = length (List.filter f l').
Proof.
  induction 1 as [|x l l' _ IH|x y l|l l' l'' _ IH1 _ IH2]; simpl; [done| | |congruence].
  - by destruct (f x); simpl; rewrite IH.
  - by destruct (f x), (f y).
Qed.

(** Permuting the cohort changes at most the order of the dictionaries. *)
Lemma counts_perm group_of cohort cohort' : cohort ≡ₚ cohort' ->
  (forall k, get_n (fst (counts_of group_of cohort)) k = get_n (fst (counts_of group_of cohort')) k) /\
  snd (counts_of group_of cohort) ≡ₚ snd (counts_of group_of cohort').
Proof.
  intros Hp. unfold counts_of. split.
  - intros k. unfold get_n. rewrite (proj1 (counts_fold group_of cohort _ k)), (proj1 (counts_fold group_of cohort' _ k)).
    unfold tally_favorable. by rewrite (filter_length_perm _ _ _ Hp).
  - apply dict_perm.
    + apply counts_nodup; constructor.
    + apply counts_nodup; constructor.
    + intros k. rewrite (proj2 (counts_fold group_of cohort _ k)), (proj2 (counts_fold group_of cohort' _ k)).
      unfold tally. by rewrite (filter_length_perm _ _ _ Hp).
Qed.

(* ------------------------------------------------------------------ *)
(** ** The highest rate *)

(** Neither NaN nor negative. *)
Definition fine (x : float64) : bool :=
  match x with S754_zero false | S754_finite false _ _ | S754_infinity false => true | _ => false end.

Lemma fine_nan x : fine x = true -> f_is_nan x = false.
Proof. by destruct x. Qed.

Lemma fine_key x y : fine x = true -> fine y = true -> fkey x = fkey y -> x = y.
Proof. destruct x as [[]|[]| |[] m e], y as [[]|[]| |[] m' e']; simpl; congruence. Qed.

Lemma fltb_key x y : fine x = true -> fine y = true -> fltb x y = true <-> klt (fkey x) (fkey y).
Proof.
  intros Hx Hy. pose proof (SFcompare_fkey x y (fine_nan _ Hx) (fine_nan _ Hy)) as Hc. unfold fltb, SFltb.
  destruct (SFcompare x y) as [[]|]; unfold klt in *; [|by split|split; [done|intros]|done].
  - split; [done|]. intros Hk. rewrite Hc in Hk. lia.
  - lia.
Qed.

Lemma fltb_key_false x y : fine x = true -> fine y = true -> fltb x y = false <-> ~ klt (fkey x) (fkey y).
Proof. intros Hx Hy. rewrite <- fltb_key by done. by destruct (fltb x y). Qed.

Lemma fold_max_spec l x : Forall (fun y => fine y = true) (x :: l) ->
  fold_left fmax l x ∈ x :: l /\ Forall (fun y => fltb (fold_left fmax l x) y = false) (x :: l).
Proof.
  revert x. induction l as [|y l IH]; intros x Hf; cbn [fold_left].
  { split; [set_solver|]. constructor; [|constructor]. apply Forall_cons in Hf as [Hx _]. apply fltb_key_false; [done..|].
    unfold klt. lia. }
  apply Forall_cons in Hf as [Hx Hf]. apply Forall_cons in Hf as [Hy Hf].
  destruct (fltb x y) eqn:E.
  - assert (fmax x y = y) as -> by (unfold fmax; by rewrite E).
    destruct (IH y ltac:(by constructor)) as [Hin Hm]. split; [by apply list_elem_of_further|]. constructor; [|done].
    assert (Hfm : fine (fold_left fmax l y) = true).
    { rewrite Forall_forall in Hf. apply elem_of_cons in Hin as [->|Hin]; [done|by apply Hf]. }
    apply Forall_cons in Hm as [Hmy _]. rewrite fltb_key in E by done. rewrite fltb_key_false in Hmy |- * by done.
    unfold klt in *. lia.
  - assert (fmax x y = x) as -> by (unfold fmax; by rewrite E).
    destruct (IH x ltac:(by constructor)) as [Hin Hm].
    split; [apply elem_of_cons in Hin as [->|]; [apply list_elem_of_here|by do 2 apply list_elem_of_further]|].
    apply Forall_cons in Hm as [Hmx Hm]. constructor; [done|]. constructor; [|done].
    assert (Hfm : fine (fold_left fmax l x) = true).
    { rewrite Forall_forall in Hf. apply elem_of_cons in Hin as [->|Hin]; [done|by apply Hf]. }
    rewrite fltb_key_false in E, Hmx |- * by done. unfold klt in *. lia.
Qed.

Lemma highest_perm (rates rates' : dict float64) : rates ≡ₚ rates' -> Forall (fun gr => fine (snd gr) = true) rates ->
  highest rates = highest rates'.
Proof.
  intros Hp Hf. assert (Hv : map snd rates ≡ₚ map snd rates') by (by rewrite Hp).
  assert (Hfv : Forall (fun y => fine y = true) (map snd rates)) by (by apply Forall_map).
  assert (Hfv' : Forall (fun y => fine y = true) (map snd rates')) by (by rewrite <- Hv).
  unfold highest. destruct (map snd rates) as [|x l], (map snd rates') as [|x' l'];
    [done|by apply Permutation_nil_cons in Hv|by symmetry in Hv; apply Permutation_nil_cons in Hv|].
  destruct (fold_max_spec l x Hfv) as [Hin Hm]. destruct (fold_max_spec l' x' Hfv') as [Hin' Hm'].
  rewrite Forall_forall in Hm. rewrite Forall_forall in Hm'. rewrite Forall_forall in Hfv. rewrite Forall_forall in Hfv'.
  pose proof (Hfv _ Hin) as F1. pose proof (Hfv' _ Hin') as F2.
  assert (H1 : fltb (fold_left fmax l x) (fold_left fmax l' x') = false) by (apply Hm; by rewrite Hv).
  assert (H2 : fltb (fold_left fmax l' x') (fold_left fmax l x) = false) by (apply Hm'; by rewrite <- Hv).
  rewrite fltb_key_false in H1, H2 by done. apply fine_key; [done..|].
  destruct (fkey (fold_left fmax l x)) as [[a b] c], (fkey (fold_left fmax l' x')) as [[a' b'] c'].
  unfold klt in *. cbn in *. assert (a = a') by lia. assert (b = b') by lia. assert (c = c') by lia. congruence.
Qed.

Lemma round_aux_fine m e l : (0 <= m)%Z -> fine (binary_round_aux 53 1024 false m e l) = true.
Proof.
  intros Hm. unfold binary_round_aux, shr_fexp.
  match goal with |- context [shr ?r ?e ?n] => pose proof (shr_le r e n) as H1; destruct (shr r e n) as [r1 e1] end.
  destruct H1 as [H1 _]; [by destruct l as [|[]]|]. cbn [fst] in H1.
  set (m2 := round_nearest_even (shr_m r1) (loc_of_shr_record r1)).
  assert (Hm2 : (0 <= m2)%Z).
  { unfold m2, round_nearest_even. destruct (loc_of_shr_record r1) as [|[| |]]; try lia. destruct (Z.even _); lia. }
  match goal with |- context [shr ?r ?e ?n] => pose proof (shr_le r e n ltac:(cbn; lia)) as [H2 _]; destruct (shr r e n) as [r2 e2] end.
  cbn [fst] in H2. destruct (shr_m r2); [done|by destruct (_ <=? _)%Z|lia].
Qed.

Lemma rate_fine a b : (0 <= a < 2 ^ 53)%Z -> (0 < b < 2 ^ 53)%Z -> fine (fdiv (f_of_Z a) (f_of_Z b)) = true.
Proof.
  intros Ha Hb. destruct (fexp_canon b) as (m & e & -> & _); [lia|].
  destruct (Z.eq_dec a 0) as [->|Hne]; [done|]. destruct (fexp_canon a) as (m' & e' & -> & _); [lia|].
  unfold fdiv, SFdiv, SFdiv_core_binary. cbn [xorb].
  match goal with |- context [Z.div_eucl ?p ?q] => pose proof (Z.div_pos p q ltac:(destruct (_ - _)%Z; try lia; rewrite Z.shiftl_mul_pow2 by lia; nia) ltac:(lia)) as Hq;
    unfold Z.div in Hq; destruct (Z.div_eucl p q) as [q' r'] end.
  by apply round_aux_fine.
Qed.

Section Orders.
Context `{FloatRepr}.
Variable profile : RegulationCheckProfile.

Lemma omap_perm {A B} (f : A -> option B) l l' : l ≡ₚ l' -> omap f l ≡ₚ omap f l'.
Proof.
  induction 1 as [|x l l' _ IH|x y l|l l' l'' _ IH1 _ IH2]; simpl; [done| | |by etransitivity].
  - by destruct (f x); rewrite ?IH.
  - destruct (f x), (f y); try done. by constructor.
Qed.

Lemma tally_bounds group_of k cohort : (0 <= tally_favorable group_of k cohort <= Z.of_nat (length cohort))%Z /\
  (0 <= tally group_of k cohort <= Z.of_nat (length cohort))%Z.
Proof. unfold tally, tally_favorable. split; (split; [lia|]); apply inj_le, List.filter_length_le. Qed.

Lemma counts_bounds group_of cohort k :
  (0 <= get_n (fst (counts_of group_of cohort)) k <= Z.of_nat (length cohort))%Z /\
  (forall v, dget (snd (counts_of group_of cohort)) k = Some v -> (v <= Z.of_nat (length cohort))%Z).
Proof.
  destruct (tally_bounds group_of k cohort) as [Hf Ht]. unfold counts_of, get_n. split.
  - rewrite (proj1 (counts_fold group_of cohort _ k)). unfold counted. cbn [dget fst]. destruct (_ =? 0)%Z; lia.
  - rewrite (proj2 (counts_fold group_of cohort _ k)). unfold counted. cbn [dget snd]. intros v.
    destruct (_ =? 0)%Z; [done|]. intros [= <-]. lia.
Qed.

Lemma rates_fine group_of cohort : (Z.of_nat (length cohort) < 2 ^ 53)%Z ->
  Forall (fun gr => fine (snd gr) = true) (geographic_rates (counts_of group_of cohort)).
Proof.
  intros Hn. apply Forall_forall. intros [g r] Hin. unfold geographic_rates in Hin. apply list_elem_of_omap in Hin as ([g' t] & Hin & Heq).
  destruct (Z.leb_spec MIN_OBSERVATIONS_PER_GEOGRAPHY_GROUP t) as [Hle|]; [|done]. injection Heq as <- <-. cbn [snd].
  destruct (counts_bounds group_of cohort g') as [Hf Ht].
  assert (Hnd : NoDup (dkeys (snd (counts_of group_of cohort)))) by (apply counts_nodup; constructor).
  specialize (Ht t (elem_dget _ _ _ Hnd Hin)). unfold MIN_OBSERVATIONS_PER_GEOGRAPHY_GROUP in Hle. apply rate_fine; lia.
Qed.

Lemma rates_nodup counts : NoDup (dkeys (snd counts)) -> NoDup (dkeys (geographic_rates counts)).
Proof.
  unfold geographic_rates. induction (snd counts) as [|[g t] l IH]; [done|]. intros [Hn Hd]%NoDup_cons. simpl.
  destruct (_ <=? t)%Z; simpl; [|by apply IH]. constructor; [|by apply IH]. intros Hin. apply Hn.
  apply list_elem_of_fmap in Hin as ([g' r] & -> & Hin). apply list_elem_of_omap in Hin as ([g'' t'] & Hin & Heq).
  destruct (_ <=? t')%Z; [|done]. injection Heq as -> _. by apply (list_elem_of_fmap_2 fst) in Hin.
Qed.

Lemma sorted_keys_perm {A} (d d' : dict A) : d ≡ₚ d' -> sorted_keys d = sorted_keys d'.
Proof.
  intros Hp. unfold sorted_keys. apply (sort_unique String.leb (fun _ => True)); [| | |by apply Forall_true|].
  - intros x y _ _ Hl. destruct (String.leb_total x y); congruence.
  - intros x y z _ _ _. apply string_leb_trans.
  - intros x y _ _. apply String.leb_antisym.
  - unfold dkeys. by rewrite Hp.
Qed.

Lemma tier_perm check_name tier group_of cohort cohort' : (Z.of_nat (length cohort) < 2 ^ 53)%Z -> cohort ≡ₚ cohort' ->
  geographic_tier profile check_name (length cohort) tier (counts_of group_of cohort) =
  geographic_tier profile check_name (length cohort') tier (counts_of group_of cohort').
Proof.
  intros Hn Hp. destruct (counts_perm group_of _ _ Hp) as [Hfav Htot].
  assert (Hrates : geographic_rates (counts_of group_of cohort) ≡ₚ geographic_rates (counts_of group_of cohort')).
  { unfold geographic_rates. rewrite Htot. erewrite (list_omap_ext (A:=string * Z)); [reflexivity|].
    apply Forall2_same_length_lookup. split; [done|]. intros i [g t] [g' t'] H1 H2. rewrite H1 in H2. injection H2 as -> ->.
    by rewrite Hfav. }
  assert (Hnd : NoDup (dkeys (snd (counts_of group_of cohort)))) by (apply counts_nodup; constructor).
  pose proof (rates_nodup _ Hnd) as Hrn. pose proof (highest_perm _ _ Hrates (rates_fine group_of cohort Hn)) as Hh.
  pose proof (dict_sort_unique _ _ Hrn Hrates) as Hs.
  assert (Hobs : forall g, get_n (snd (counts_of group_of cohort)) g = get_n (snd (counts_of group_of cohort')) g).
  { intros g. unfold get_n. unfold counts_of. rewrite !(proj2 (counts_fold group_of _ _ g)). unfold tally.
    by rewrite (filter_length_perm _ _ _ Hp). }
  unfold geographic_tier, below_four_fifths, impact_evidence, rate_texts. rewrite <- Hh, <- Hs.
  rewrite (sorted_keys_perm _ _ Hrates), <- (Permutation_length Hp), <- (Permutation_length Hrates).
  destruct (_ <? 2)%nat; [done|]. destruct (fltb _ _); [|done]. apply map_ext. intros [[g rate] ratio]. by rewrite Hobs.
Qed.

(** The order of a cohort does not matter: the screen by property location
    finds the same groups, with the same rates, evidence and scores, in the
    same order, however the decisions of a cohort are ordered. *)
Theorem geographic_order_irrelevant check_name cohort cohort' : (Z.of_nat (length cohort) < 2 ^ 53)%Z -> cohort ≡ₚ cohort' ->
  check_geographic_outcome_equity profile check_name cohort = check_geographic_outcome_equity profile check_name cohort'.
Proof.
  intros Hn Hp. unfold check_geographic_outcome_equity. rewrite <- (Permutation_length Hp).
  destruct (_ <? _)%nat; [done|]. cbn [flat_map GEOGRAPHY_TIERS].
  by rewrite !(tier_perm check_name _ _ _ _ Hn Hp), (Permutation_length Hp).
Qed.

Lemma fold_max_in l x : fold_left fmax l x ∈ x :: l.
Proof.
  revert x. induction l as [|y l IH]; intros x; cbn [fold_left]; [set_solver|].
  specialize (IH (fmax x y)). apply elem_of_cons in IH as [->|Hin]; [|by do 2 apply list_elem_of_further].
  unfold fmax. destruct (fltb x y); set_solver.
Qed.

Lemma highest_in (rates : dict float64) : rates <> [] -> exists g, (g, highest rates) ∈ rates.
Proof.
  unfold highest. destruct rates as [|[g x] l]; [done|]. intros _. cbn [map snd].
  pose proof (fold_max_in (map snd l) x) as Hin. change (x :: map snd l) with (map snd ((g, x) :: l)) in Hin.
  apply list_elem_of_fmap in Hin as ([g' y] & -> & Hin). by exists g'.
Qed.

(** C38 (the best-treated group is never flagged): every four-fifths finding of
    the screen by estimated group comes from a cohort of at least thirty
    decisions, names a group whose rate is among the rates compared, and
    another group's rate is the highest of them: the named rate differs from
    it and is below four fifths of it. *)
Theorem best_group_never_flagged check_name cohort f :
  f ∈ check_statistical_outcome_equity profile check_name cohort ->
  f_classification f = "four_fifths_adverse_impact" ->
  MIN_COHORT_SIZE_FOR_STATISTICAL_TEST <= length cohort /\
  exists g rate best top, vget (f_evidence f) "group" = VStr g /\
    (g, rate) ∈ weighted_rates cohort /\ (best, top) ∈ weighted_rates cohort /\ top = highest (weighted_rates cohort) /\
    rate <> top /\ fltb (fdiv rate top) FOUR_FIFTHS_THRESHOLD = true.
Proof.
  unfold check_statistical_outcome_equity. intros Hf Hc.
  destruct (Nat.ltb_spec (length cohort) MIN_COHORT_SIZE_FOR_STATISTICAL_TEST) as [|Hn].
  { apply list_elem_of_singleton in Hf as ->. discriminate Hc. }
  split; [done|]. destruct (Nat.ltb_spec (length (weighted_rates cohort)) 2) as [|Hr].
  { apply list_elem_of_singleton in Hf as ->. discriminate Hc. }
  apply list_elem_of_fmap in Hf as ([[g rate] ratio] & -> & Hin).
  apply flagged_rate in Hin as (Hin & Hne & -> & Hlt).
  destruct (highest_in (weighted_rates cohort)) as [best Hb]; [by intros E; rewrite E in Hr; simpl in Hr; lia|].
  by exists g, rate, best, (highest (weighted_rates cohort)).
Qed.
End Orders.

#[local] Existing Instance sample_float_repr.

(** Twenty favorable decisions in one zip code, ten mixed ones in another. *)
Definition sample_loans : list GeographicCohortDecision :=
  map (fun n => mkGeographic (string_of_N (N.of_nat n)) true (Some "10001") None) (seq 0 20) ++
  map (fun n => mkGeographic (string_of_N (N.of_nat n)) (n <? 22)%nat (Some "60601") (Some "17031")) (seq 20 10).

Definition sample_decisions : list (CohortDecision distribution) :=
  map (fun n => mkCohortDecision (string_of_N (N.of_nat n)) true [("a", one)]) (seq 0 20) ++
  map (fun n => mkCohortDecision (string_of_N (N.of_nat n)) (n <? 22)%nat [("b", one)]) (seq 20 10).

Definition lending : RegulationCheckProfile :=
  mkProfile "ECOA" [] [] "" [] half [] [] [] "explicit" [] None [] "none".

Lemma geographic_order_irrelevant_witness :
  check_geographic_outcome_equity lending "geography" sample_loans =
    check_geographic_outcome_equity lending "geography" (rev sample_loans) /\
  map f_classification (check_geographic_outcome_equity lending "geography" sample_loans) =
    ["four_fifths_adverse_impact"; "indeterminate_insufficient_group_coverage"].
Proof.
  split; [|vm_compute; reflexivity].
  apply (geographic_order_irrelevant lending "geography" sample_loans (rev sample_loans)).
  - vm_compute. reflexivity.
  - symmetry. apply Permutation_rev.
Defined.

Definition sample_finding : RegulatoryFinding :=
  hd (mkFinding "" "" "" "" "" fzero []) (check_statistical_outcome_equity lending "equity" sample_decisions).

Lemma best_group_never_flagged_witness :
  check_statistical_outcome_equity lending "equity" sample_decisions = [sample_finding] /\
  exists g rate best top, vget (f_evidence sample_finding) "group" = VStr g /\
    (g, rate) ∈ weighted_rates sample_decisions /\ (best, top) ∈ weighted_rates sample_decisions /\ rate <> top.
Proof.
  assert (Hs : check_statistical_outcome_equity lending "equity" sample_decisions = [sample_finding])
    by (vm_compute; reflexivity).
  split; [exact Hs|].
  destruct (best_group_never_flagged lending "equity" sample_decisions sample_finding)
    as (_ & g & rate & best & top & Hg & Hr & Hb & _ & Hne & _).
  - rewrite Hs. apply list_elem_of_here.
  - vm_compute. reflexivity.
  - exists g, rate, best, top. exact (conj Hg (conj Hr (conj Hb Hne))).
Defined.
