(* ===== verification/CohortSweep.v ===== *)
(** * CohortSweep: from resolved obligations to cohort reviews

    Models src/sentinel_os/obligation_sweep.py with the store of estimates it
    reads (sealed_demographic_channel.py) and the ZIP code of an address
    (bisg_estimator.py).  The live geocoding service is an argument.  A
    response that is not a success is the handler's exception. *)

From S2P Require Import Prelude PyFloat PyValue Episode Event Outcome Json Canonical Attestation HeadAnchor LedgerDb Ledger LedgerVerify Witness TwinReceiver Regulatory CohortChecks.
Local Open Scope string_scope.

(* ------------------------------------------------------------------ *)
(** ** The sealed channel *)

Definition VALID_SOURCES : list string := ["self_reported"; "bisg_estimated"].

Record ProtectedCharacteristicEstimate := mkEstimate {
  pe_subject_id : string;
  pe_cohort_key : option string;
  pe_source : string;
  pe_estimate : distribution;
  pe_method : option string;
  pe_recorded_at : pyval;
}.

Definition ESTIMATE_COLUMNS : list (string * coltype) :=
  [("recorded_at", C_TEXT); ("subject_id", C_VARCHAR 200); ("cohort_key", C_VARCHAR 200); ("source", C_VARCHAR 20);
   ("estimate", C_JSONB); ("method", C_VARCHAR 200)].

Inductive channel_exn := ChannelValueError | ChannelDatabase.

Definition text_or_none (v : pyval) : option string := match v with VStr s => Some s | _ => None end.

(** A probability, which JSONB may give back as the equal integer. *)
Definition probability (kv : string * pyval) : option (string * float64) :=
  match to_float (snd kv) with Ok f => Some (fst kv, f) | Err _ => None end.

Definition estimate_of (r : row) : ProtectedCharacteristicEstimate :=
  mkEstimate (or_empty (text_or_none (vget r "subject_id"))) (text_or_none (vget r "cohort_key"))
    (or_empty (text_or_none (vget r "source"))) (omap probability (dict_of (vget r "estimate")))
    (text_or_none (vget r "method")) (vget r "recorded_at").

Section Channel.
Context `{FloatRepr} `{!Postgres}.

(** [record_estimate] on the table, in the order of its ids; [now]: the default
    of its timestamp. *)
Definition record_estimate (now subject_id source : string) (estimate : distribution)
    (cohort_key method : option string) (table : list row) : result channel_exn unit * list row :=
  if negb (str_mem source VALID_SOURCES) then (Err ChannelValueError, table) else
  if blank subject_id then (Err ChannelValueError, table) else
  match store_columns ESTIMATE_COLUMNS
          [("recorded_at", VStr now); ("subject_id", VStr subject_id); ("cohort_key", opt_str cohort_key);
           ("source", VStr source); ("estimate", VDict (map (fun '(k, f) => (k, VFloat f)) estimate));
           ("method", opt_str method)] with
  | Some r => (Ok tt, (table ++ [r])%list)
  | None => (Err ChannelDatabase, table)
  end.

Definition get_estimates_for_cohort (cohort_key : string) (limit : nat) (table : list row)
    : list ProtectedCharacteristicEstimate :=
  map estimate_of (take limit (List.filter (col_is "cohort_key" (VStr cohort_key)) table)).

(** [ORDER BY id DESC LIMIT 1] *)
Definition get_estimate_for_subject (subject_id : string) (table : list row)
    : option ProtectedCharacteristicEstimate :=
  option_map estimate_of (find (col_is "subject_id" (VStr subject_id)) (rev table)).
End Channel.

(* ------------------------------------------------------------------ *)
(** ** Buckets *)

(** [obligation[k]] *)
Definition field_of (o : row) (k : string) : result pyexn pyval :=
  match dget o k with Some v => Ok v | None => Err KeyError end.

Section Buckets.
Context `{FloatRepr}.

(** [str(v or "unknown")] *)
Definition str_or_unknown (v : pyval) : string := if py_true v then py_str v else "unknown".

Definition cohort_key (o : row) : string * string :=
  (str_or_unknown (vget o "domain"), str_or_unknown (vget o "obligation_kind")).

(** [buckets.setdefault(key, []).append(o)] *)
Fixpoint bucket_add (k : string * string) (o : row) (buckets : list ((string * string) * list row))
    : list ((string * string) * list row) :=
  match buckets with
  | [] => [(k, [o])]
  | (k', l) :: buckets =>
      if bool_decide (k' = k) then (k', (l ++ [o])%list) :: buckets else (k', l) :: bucket_add k o buckets
  end.

Definition bucket_step (buckets : list ((string * string) * list row)) (o : row)
    : result pyexn (list ((string * string) * list row)) :=
  if negb (py_eq (vget o "state") (VStr OUTCOME_RESOLVED)) then Err ValueError
  else Ok (bucket_add (cohort_key o) o buckets).

Definition bucket_resolved_obligations (obligations : list row) : result pyexn (list ((string * string) * list row)) :=
  foldM bucket_step [] obligations.

(** [_to_outcome_obligation]; the optional columns are texts. *)
Definition to_outcome_obligation (o : row) : result pyexn OutcomeObligation :=
  oid ← field_of o "obligation_id";
  dh ← field_of o "decision_hash";
  dom ← field_of o "domain";
  ok ← field_of o "obligation_kind";
  opened ← field_of o "opened_at"; opened ← to_float opened;
  expected ← field_of o "expected_by"; expected ← to_float expected;
  st ← field_of o "state";
  det ← as_dict (if py_true (vget o "detail") then vget o "detail" else VDict []);
  Ok {| obligation_id := py_str oid; decision_hash := py_str dh; domain := py_str dom; obligation_kind := py_str ok;
        opened_at := VFloat opened; expected_by := VFloat expected; state := py_str st;
        reason_code := text_or_none (vget o "reason_code"); resolved_at := vget o "resolved_at";
        resolved_value := vget o "resolved_value";
        resolution_provenance := text_or_none (vget o "resolution_provenance");
        resolution_method := text_or_none (vget o "resolution_method"); favorable := vget o "favorable";
        subject_id := text_or_none (vget o "subject_id"); detail := det |}.

Definition subject_of (o : row) : result pyexn string :=
  if py_true (vget o "subject_id") then Ok (py_str (vget o "subject_id"))
  else v ← field_of o "decision_hash"; Ok (py_str v).

(* ------------------------------------------------------------------ *)
(** ** Assembly *)

Inductive skip_reason :=
| not_usable (violations : list outcome_violation)   (* dimension 4 and 6 *)
| no_estimate
| no_material
| no_geography.

Record SkippedObligation := mkSkipped { sk_obligation_id : string; sk_reason : skip_reason }.

(** [{"zip": ..., "county_fips": ...}] *)
Record geography := mkGeography { g_zip : option string; g_county_fips : option string }.

Record AssembledCohort := mkAssembled {
  ac_domain : string;
  ac_obligation_kind : string;
  dimension_4_cohort : list (CohortDecision distribution);
  dimension_5_cohort : list CohortInputDecision;
  dimension_6_cohort : list GeographicCohortDecision;
  skipped : list SkippedObligation;
  total_resolved : nat;
}.

(** What one obligation adds to the three cohorts and to the skips. *)
Record entry := mkEntry {
  e_4 : list (CohortDecision distribution);
  e_5 : list CohortInputDecision;
  e_6 : list GeographicCohortDecision;
  e_skipped : list SkippedObligation;
}.

Section Assembly.
Variable group_distributions : dict distribution.
Variable decision_materials : dict DecisionMaterial.
Variable property_geography : dict geography.

(** [cohort_favorable], with only OutcomeIntegrityError caught. *)
Definition favorable_of (ob : OutcomeObligation) : result pyexn (bool + list outcome_violation) :=
  match cohort_favorable ob with
  | Ok b => Ok (inl b)
  | Err (OutcomeIntegrityError _ violations) => Ok (inr violations)
  | Err (OutcomePyExn e) => Err e
  end.

Definition dimension_4 (oid subject : string) (fav : bool + list outcome_violation) (dist : option distribution)
    : list (CohortDecision distribution) * list SkippedObligation :=
  match fav, dist with
  | inr violations, _ => ([], [mkSkipped oid (not_usable violations)])
  | inl _, None => ([], [mkSkipped oid no_estimate])
  | inl b, Some d => ([mkCohortDecision subject b d], [])
  end.

Definition dimension_5 (oid subject : string) (dist : option distribution) (material : option DecisionMaterial)
    : list CohortInputDecision * list SkippedObligation :=
  match dist, material with
  | None, _ => ([], [])
  | Some d, Some m => ([mkCohortInput subject (m_input_fields m) d], [])
  | Some _, None => ([], [mkSkipped oid no_material])
  end.

Definition dimension_6 (oid subject : string) (fav : bool + list outcome_violation) (geo : option geography)
    : list GeographicCohortDecision * list SkippedObligation :=
  match fav with
  | inr _ => ([], [])
  | inl b =>
      let zip_code := match geo with Some g => g_zip g | None => None end in
      let county_fips := match geo with Some g => g_county_fips g | None => None end in
      if opt_true zip_code || opt_true county_fips
      then ([mkGeographic subject b zip_code county_fips], [])
      else ([], [mkSkipped oid no_geography])
  end.

Definition assemble_entry (o : row) : result pyexn entry :=
  subject ← subject_of o;
  let oid := py_str (match dget o "obligation_id" with Some v => v | None => VStr subject end) in
  dh ← field_of o "decision_hash";
  let dist := dget group_distributions subject in
  ob ← to_outcome_obligation o;
  fav ← favorable_of ob;
  let '(c4, s4) := dimension_4 oid subject fav dist in
  let '(c5, s5) := dimension_5 oid subject dist (dget decision_materials (py_str dh)) in
  let '(c6, s6) := dimension_6 oid subject fav (dget property_geography (py_str dh)) in
  Ok (mkEntry c4 c5 c6 (s4 ++ s5 ++ s6)%list).

Definition assemble_cohort (domain obligation_kind : string) (obligations : list row) : result pyexn AssembledCohort :=
  entries ← mapM_r assemble_entry obligations;
  Ok (mkAssembled domain obligation_kind (flat_map e_4 entries) (flat_map e_5 entries) (flat_map e_6 entries)
        (flat_map e_skipped entries) (length obligations)).
End Assembly.
End Buckets.

(* ------------------------------------------------------------------ *)
(** ** Reviews *)

Record CohortEquityReview := mkReview {
  cr_domain : string;
  cr_obligation_kind : string;
  cr_total_resolved : nat;
  dimension_4_cohort_size : nat;
  dimension_5_cohort_size : nat;
  dimension_6_cohort_size : nat;
  dimension_4_findings : list RegulatoryFinding;
  dimension_5_findings : list RegulatoryFinding;
  dimension_6_findings : list RegulatoryFinding;
  cr_skipped : list SkippedObligation;
}.

(** The sentence of a violation is left out of Outcome. *)
Definition reason_text (violation_text : outcome_violation -> string) (r : skip_reason) : string :=
  match r with
  | not_usable vs =>
      "not usable for dimension 4: " +:+ String.concat "; " (map violation_text vs)
  | no_estimate => "no protected-characteristic estimate on file for this subject"
  | no_material =>
      "not usable for dimension 5: no decision material found on the primary ledger for this obligation's decision_hash"
  | no_geography =>
      "not usable for dimension 6: no property ZIP or county resolved for this obligation's decision_hash"
  end.

Definition nat_val (n : nat) : pyval := VInt (Z.of_nat n).
Definition findings_val (l : list RegulatoryFinding) : pyval := VList (map (fun f => VDict (finding_dict f)) l).
Definition skipped_val (violation_text : outcome_violation -> string) (l : list SkippedObligation) : pyval :=
  VList (map (fun s => VDict [("obligation_id", VStr (sk_obligation_id s));
                              ("reason", VStr (reason_text violation_text (sk_reason s)))]) l).

(** [as_dict] *)
Definition review_dict (violation_text : outcome_violation -> string) (r : CohortEquityReview) : dict pyval :=
  [("domain", VStr (cr_domain r)); ("obligation_kind", VStr (cr_obligation_kind r));
   ("total_resolved", nat_val (cr_total_resolved r));
   ("dimension_4_cohort_size", nat_val (dimension_4_cohort_size r));
   ("dimension_5_cohort_size", nat_val (dimension_5_cohort_size r));
   ("dimension_6_cohort_size", nat_val (dimension_6_cohort_size r));
   ("dimension_4_findings", findings_val (dimension_4_findings r));
   ("dimension_5_findings", findings_val (dimension_5_findings r));
   ("dimension_6_findings", findings_val (dimension_6_findings r));
   ("skipped", skipped_val violation_text (cr_skipped r))].

Section Review.
Context `{FloatRepr}.
Variable correlation : list float64 -> list float64 -> result pyexn (option float64).

Definition CHECK_4 : string := "statistical_outcome_equity_four_fifths".
Definition CHECK_5 : string := "correlation_based_proxy_detection".
Definition CHECK_6 : string := "geographic_outcome_equity_four_fifths".

Definition review_cohort (assembled : AssembledCohort) (profile : RegulationCheckProfile)
    : result pyexn CohortEquityReview :=
  let dim4_findings := check_statistical_outcome_equity profile CHECK_4 (dimension_4_cohort assembled) in
  dim5_findings ← check_correlation_based_proxy_detection profile correlation CHECK_5 (dimension_5_cohort assembled);
  let dim6_findings := check_geographic_outcome_equity profile CHECK_6 (dimension_6_cohort assembled) in
  Ok (mkReview (ac_domain assembled) (ac_obligation_kind assembled) (total_resolved assembled)
        (length (dimension_4_cohort assembled)) (length (dimension_5_cohort assembled))
        (length (dimension_6_cohort assembled)) dim4_findings dim5_findings dim6_findings (skipped assembled)).
End Review.

(* ------------------------------------------------------------------ *)
(** ** What a bucket needs *)

(** [_ZIP_PATTERN], on a stripped address: five digits, or five, a hyphen and
    four, at the end and after a word boundary. *)
Definition zip_suffix (s : string) : bool :=
  (String.length (str_take 5 s) =? 5)%nat && str_forallb is_digit (str_take 5 s) &&
  match str_drop 5 s with
  | EmptyString => true
  | String c rest => Ascii.eqb c "-" && (String.length rest =? 4)%nat && str_forallb is_digit rest
  end.

Fixpoint zip_search (after_word : bool) (s : string) : option string :=
  if negb after_word && zip_suffix s then Some (str_take 5 s)
  else match s with EmptyString => None | String c s => zip_search (word_char c) s end.

Definition extract_zip (address : string) : option string := zip_search false (strip address).

(** None, the live service by its [geocode_to_tract] (state and county of a
    tract), or any other object with the method. *)
Inductive geocoder :=
| NoGeocoder
| CensusGeocoder (geocode_to_tract : string -> option (string * string))
| OtherGeocoder (geocode_county_fips : string -> result pyexn (option string)).

Definition geocode_county_fips (g : geocoder) (address : string) : result pyexn (option string) :=
  match g with
  | NoGeocoder => Ok None
  | CensusGeocoder tract => Ok (option_map (fun sc => fst sc +:+ snd sc) (tract address))
  | OtherGeocoder f => f address
  end.

Inductive cohort_exn := CohortPy (e : pyexn) | CohortHttp (e : http_exn) | BisgQuarantineError.

Section Fetch.
Context `{FloatRepr} `{!Postgres} `{!Hashes}.

Definition fetch_group_distributions (estimates : list row) (subject_ids : list string) : dict distribution :=
  omap (fun s => option_map (fun e => (s, pe_estimate e)) (get_estimate_for_subject s estimates)) subject_ids.

Definition MATERIAL_COLUMNS : list string :=
  ["id"; "current_hash"; "reason"; "decision_output"; "input_data"; "cassette_version"; "record_kind"].

Definition material_row (hashes : list string) (r : row) : bool :=
  match vget r "current_hash" with VStr h => str_mem h hashes | _ => false end &&
  col_is "record_kind" (VStr "governance_decision") r.

Definition add_material (acc : dict DecisionMaterial) (r : row) : dict DecisionMaterial :=
  dset acc (py_str (vget r "current_hash"))
    (material_from_ledger_row (map (fun c => (c, vget r c)) MATERIAL_COLUMNS)).

Definition fetch_decision_materials (table : list row) (decision_hashes : list string) : dict DecisionMaterial :=
  fold_left add_material (List.filter (material_row decision_hashes) table) [].

Definition ADDRESS_FIELD : string := "loan_property_address".

Definition locate (g : geocoder) (address_field : string) (hm : string * DecisionMaterial)
    : result pyexn (list (string * geography)) :=
  let address := vget (m_input_fields (snd hm)) address_field in
  if negb (py_true address) then Ok [] else
  match g with
  | NoGeocoder => Ok [(fst hm, mkGeography None None)]
  | _ =>
      county ← geocode_county_fips g (py_str address);
      Ok [(fst hm, mkGeography (extract_zip (py_str address)) county)]
  end.

(** [research_mode]: BISG_RESEARCH_MODE_ENABLED. *)
Definition fetch_property_geography (research_mode : bool) (g : geocoder) (materials : dict DecisionMaterial)
    (address_field : string) : result cohort_exn (dict geography) :=
  match g with
  | CensusGeocoder _ => if research_mode then
      l ← map_err CohortPy (mapM_r (locate g address_field) materials); Ok (concat l)
      else Err BisgQuarantineError
  | _ => l ← map_err CohortPy (mapM_r (locate g address_field) materials); Ok (concat l)
  end.

(* ------------------------------------------------------------------ *)
(** ** The sweep *)

Variable text_leb : string -> string -> bool.     (* the collation of the replica's database *)
Variable correlation : list float64 -> list float64 -> result pyexn (option float64).
Variable census : string -> option (string * string).
Variable research_mode : bool.

Definition fetch_resolved_obligations (replica_id : string) (auth : option string) (clock : float64)
    (d : gmap string replica) : result cohort_exn (list row) :=
  '(obligations, _) ← map_err CohortHttp (list_obligations text_leb replica_id clock auth d);
  Ok (List.filter (fun o => py_eq (vget o "state") (VStr OUTCOME_RESOLVED)) obligations).

(** The order of the keys of [sorted(buckets.items())]. *)
Definition bucket_leb (a b : (string * string) * list row) : bool :=
  if String.eqb (fst (fst a)) (fst (fst b)) then String.leb (snd (fst a)) (snd (fst b))
  else String.leb (fst (fst a)) (fst (fst b)).

Definition review_bucket (estimates ledger_table : list row) (profile : RegulationCheckProfile) (g : geocoder)
    (bucket : (string * string) * list row) : result cohort_exn CohortEquityReview :=
  let '((domain, obligation_kind), obligations) := bucket in
  subjects ← map_err CohortPy (mapM_r subject_of obligations);
  hashes ← map_err CohortPy (mapM_r (fun o => field_of o "decision_hash") obligations);
  let materials := fetch_decision_materials ledger_table (remove_dups (map py_str hashes)) in
  property_geography ← fetch_property_geography research_mode g materials ADDRESS_FIELD;
  assembled ← map_err CohortPy
    (assemble_cohort (fetch_group_distributions estimates (remove_dups subjects)) materials property_geography
       domain obligation_kind obligations);
  map_err CohortPy (review_cohort correlation assembled profile).

Definition effective_geocoder (g : geocoder) : geocoder :=
  match g with NoGeocoder => if research_mode then CensusGeocoder census else NoGeocoder | _ => g end.

Definition sweep (replica_id : string) (auth : option string) (clock : float64) (estimates ledger_table : list row)
    (profile : RegulationCheckProfile) (g : geocoder) (d : gmap string replica)
    : result cohort_exn (list CohortEquityReview) :=
  obligations ← fetch_resolved_obligations replica_id auth clock d;
  buckets ← map_err CohortPy (bucket_resolved_obligations obligations);
  mapM_r (review_bucket estimates ledger_table profile (effective_geocoder g)) (sort bucket_leb buckets).

(* ------------------------------------------------------------------ *)
(** ** Recording and reading back *)

Variable violation_text : outcome_violation -> string.

Definition review_body (swept_at : float64) (r : CohortEquityReview) : dict pyval :=
  dset (review_dict violation_text r) "swept_at" (VFloat swept_at).

(** [record_reviews]: stops at the first refusal; what was posted stays. *)
Fixpoint record_reviews (replica_id : string) (auth : option string) (swept_at : float64)
    (reviews : list CohortEquityReview) (recorded : list (Z * string)) (d : gmap string replica)
    : result cohort_exn (list (Z * string)) * gmap string replica :=
  match reviews with
  | [] => (Ok recorded, d)
  | r :: reviews =>
      match store_cohort_review replica_id (review_body swept_at r) auth d with
      | (Err e, d') => (Err (CohortHttp e), d')
      | (Ok answer, d') => record_reviews replica_id auth swept_at reviews (recorded ++ [answer])%list d'
      end
  end.

Definition fetch_latest_cohort_review (replica_id : string) (auth : option string) (domain obligation_kind : string)
    (d : gmap string replica) : result cohort_exn (option row) :=
  reviews ← map_err CohortHttp (list_cohort_reviews replica_id (Some domain) (Some obligation_kind) auth d);
  Ok (last reviews).
End Fetch.
