(* ===== verification/CohortSweepFacts.v ===== *)
(** * CohortSweepFacts: what a sweep accounts for

    No resolved obligation is lost between the replica and the reviews: the
    buckets partition what was fetched, every obligation of a bucket is in a
    cohort or among the skips with a reason, and a recorded review is the one
    read back.  With the quarantine on, the live geocoding service is never
    consulted. *)

From S2P Require Import Prelude PyFloat PyValue Episode Event Outcome Json Canonical Attestation HeadAnchor LedgerDb Ledger LedgerVerify Witness TwinReceiver TwinSafe Regulatory CohortChecks CohortSweep.
Local Open Scope string_scope.

(** ** Sums *)

Lemma length_flat_map_sum {A B} (f : A -> list B) l : length (flat_map f l) = sum_list_with (fun x => length (f x)) l.
Proof. induction l as [|x l IH]; simpl; [done|]. by rewrite length_app, IH. Qed.

Lemma sum_zero {A} (l : list A) : sum_list_with (fun _ => 0) l = 0.
Proof. by induction l. Qed.

Lemma sum_plus {A} (f g : A -> nat) l : sum_list_with f l + sum_list_with g l = sum_list_with (fun x => f x + g x) l.
Proof. induction l as [|x l IH]; simpl; [done|]. lia. Qed.

Lemma sum_ext {A} (f g : A -> nat) l : (forall x, x ∈ l -> f x = g x) -> sum_list_with f l = sum_list_with g l.
Proof. induction l as [|x l IH]; intros Hf; [done|]. simpl. rewrite Hf, IH; set_solver. Qed.

(* ------------------------------------------------------------------ *)
(** ** Buckets *)

Section Facts.
Context `{FloatRepr}.

Definition resolved_row (o : row) : bool := py_eq (vget o "state") (VStr OUTCOME_RESOLVED).
Definition in_bucket (k : string * string) (o : row) : bool := bool_decide (cohort_key o = k).

(** [buckets] groups the rows of [l]: one non-empty bucket per key, its rows in
    order. *)
Definition grouped (buckets : list ((string * string) * list row)) (l : list row) : Prop :=
  NoDup (map fst buckets) /\
  forall k rows, (k, rows) ∈ buckets <-> rows <> [] /\ rows = List.filter (in_bucket k) l.

Lemma bucket_add_keys k o buckets x : x ∈ map fst (bucket_add k o buckets) <-> x = k \/ x ∈ map fst buckets.
Proof.
  induction buckets as [|[k' l] buckets IH]; simpl; [set_solver|].
  destruct (bool_decide_reflect (k' = k)) as [->|]; simpl; set_solver.
Qed.

Lemma bucket_add_nodup k o buckets : NoDup (map fst buckets) -> NoDup (map fst (bucket_add k o buckets)).
Proof.
  induction buckets as [|[k' l] buckets IH]; simpl; [intros _; apply NoDup_singleton|].
  intros [Hn Hd]%NoDup_cons. destruct (bool_decide_reflect (k' = k)) as [->|Hne]; simpl; [by constructor|].
  constructor; [|by apply IH]. rewrite bucket_add_keys. set_solver.
Qed.

Lemma bucket_add_other k o buckets k' l : k' <> k -> (k', l) ∈ bucket_add k o buckets <-> (k', l) ∈ buckets.
Proof.
  intros Hne. induction buckets as [|[k0 l0] buckets IH]; simpl; [set_solver|].
  destruct (bool_decide_reflect (k0 = k)) as [->|]; rewrite !elem_of_cons; [|by rewrite IH].
  split; intros [[= -> ->]|]; try done; by right.
Qed.

Lemma bucket_add_same k o buckets l : NoDup (map fst buckets) ->
  (k, l) ∈ bucket_add k o buckets <->
  (k ∉ map fst buckets /\ l = [o]) \/ exists l0, (k, l0) ∈ buckets /\ l = (l0 ++ [o])%list.
Proof.
  induction buckets as [|[k0 l0] buckets IH]; simpl.
  - intros _. rewrite list_elem_of_singleton. split; [intros [= ->]; left; by split; [apply not_elem_of_nil|]|].
    intros [[_ ->]|(? & Hx & _)]; [done|by apply elem_of_nil in Hx].
  - intros [Hn Hd]%NoDup_cons. destruct (bool_decide_reflect (k0 = k)) as [->|Hne]; rewrite elem_of_cons.
    + split.
      * intros [[= ->]|Hin]; [right; exists l0; split; [apply list_elem_of_here|done]|].
        destruct Hn. by apply (list_elem_of_fmap_2 fst _ (k, l)).
      * intros [[Hk _]|(l1 & Hl1 & ->)]; [destruct Hk; apply list_elem_of_here|].
        apply elem_of_cons in Hl1 as [[= ->]|Hl1]; [by left|]. destruct Hn. by apply (list_elem_of_fmap_2 fst _ (k, l1)).
    + rewrite (IH Hd), elem_of_cons. split.
      * intros [[= <- <-]|[[Hk ->]|(l1 & Hl1 & ->)]]; [done|left|right]; [|by exists l1; split; [right|]].
        split; [set_solver|done].
      * intros [[Hk ->]|(l1 & Hl1 & ->)]; right; [left; split; [set_solver|done]|right].
        exists l1. split; [|done]. apply elem_of_cons in Hl1 as [[= <- <-]|]; done.
Qed.

Lemma bucket_add_grouped o buckets l : grouped buckets l -> grouped (bucket_add (cohort_key o) o buckets) (l ++ [o]).
Proof.
  intros [Hnd Hg]. split; [by apply bucket_add_nodup|]. intros k rows.
  rewrite List.filter_app. cbn [List.filter]. unfold in_bucket at 2.
  destruct (bool_decide_reflect (cohort_key o = k)) as [<-|Hne].
  - rewrite bucket_add_same by done. split.
    + intros [[Hk ->]|(l0 & Hl0 & ->)].
      * split; [done|]. destruct (List.filter (in_bucket (cohort_key o)) l) as [|x xs] eqn:Ef; [done|].
        destruct Hk. apply (list_elem_of_fmap_2 fst _ (cohort_key o, x :: xs)). apply Hg. by rewrite Ef.
      * apply Hg in Hl0 as [Hn0 ->]. split; [by destruct (List.filter _ l)|done].
    + intros [_ ->]. destruct (List.filter (in_bucket (cohort_key o)) l) as [|x xs] eqn:Ef.
      * left. split; [|done]. intros ([k' l'] & Hk & Hl')%list_elem_of_fmap. simpl in Hk. subst k'.
        apply Hg in Hl' as [Hn' ->]. congruence.
      * right. exists (x :: xs). split; [|done]. apply Hg. by rewrite Ef.
  - rewrite bucket_add_other by congruence. rewrite app_nil_r. apply Hg.
Qed.

Lemma bucket_fold l pre buckets : grouped buckets pre ->
  match foldM bucket_step buckets l with
  | Ok buckets' => forallb resolved_row l = true /\ grouped buckets' (pre ++ l)
  | Err e => e = ValueError /\ forallb resolved_row l = false
  end.
Proof.
  revert pre buckets. induction l as [|o l IH]; intros pre buckets Hg; cbn [foldM forallb]; [by rewrite app_nil_r|].
  unfold bucket_step at 1, resolved_row at 1 3. destruct (py_eq (vget o "state") _); cbn [negb andb]; [|done].
  specialize (IH _ _ (bucket_add_grouped o buckets pre Hg)). rewrite <- app_assoc in IH. exact IH.
Qed.

Lemma resolved_grouped obligations :
  match bucket_resolved_obligations obligations with
  | Ok buckets => forallb resolved_row obligations = true /\ grouped buckets obligations
  | Err e => e = ValueError /\ forallb resolved_row obligations = false
  end.
Proof.
  apply (bucket_fold obligations [] []). split; [constructor|]. intros k rows. cbn [List.filter].
  split; [by intros Hn%elem_of_nil|by intros [? ->]].
Qed.

(** The buckets partition what they are given: if every obligation is
    resolved, grouping gives one non-empty bucket per domain and kind, holding
    the obligations with that key in the order they came, and nothing else;
    otherwise it raises ValueError. *)
Theorem buckets_partition obligations :
  match bucket_resolved_obligations obligations with
  | Ok buckets => forallb resolved_row obligations = true /\ grouped buckets obligations
  | Err e => e = ValueError /\ forallb resolved_row obligations = false
  end.
Proof. apply resolved_grouped. Qed.

(* ------------------------------------------------------------------ *)
(** ** Assembly *)

Section Accounts.
Variables (gd : dict distribution) (dm : dict DecisionMaterial) (pg : dict geography).

(** The skips that stand for an absence from dimensions 4, 5 and 6. *)
Definition skip_4 (s : SkippedObligation) : bool :=
  match sk_reason s with not_usable _ | no_estimate => true | _ => false end.
Definition skip_5 (s : SkippedObligation) : bool := match sk_reason s with no_material => true | _ => false end.
Definition skip_6 (s : SkippedObligation) : bool :=
  match sk_reason s with not_usable _ | no_geography => true | _ => false end.

Definition number {A} (f : A -> bool) (l : list A) : nat := length (List.filter f l).

Definition unestimated (o : row) : bool :=
  match subject_of o with Ok s => negb (dmem gd s) | Err _ => false end.

Definition id_of (o : row) (subject : string) : string :=
  py_str (match dget o "obligation_id" with Some v => v | None => VStr subject end).

Lemma number_app {A} (f : A -> bool) l l' : number f (l ++ l') = number f l + number f l'.
Proof. unfold number. by rewrite List.filter_app, length_app. Qed.

(** One obligation: in each dimension it is present, or skipped under its id. *)
Record entry_accounts (o : row) (e : entry) : Prop := {
  ea_4 : length (e_4 e) + number skip_4 (e_skipped e) = 1;
  ea_5 : length (e_5 e) + number skip_5 (e_skipped e) + (if unestimated o then 1 else 0) = 1;
  ea_6 : length (e_6 e) + number skip_6 (e_skipped e) = 1;
  ea_ids : exists subject, subject_of o = Ok subject /\
    Forall (fun c => cd_subject_id _ c = subject) (e_4 e) /\ Forall (fun c => ci_subject_id c = subject) (e_5 e) /\
    Forall (fun c => gd_subject_id c = subject) (e_6 e) /\
    Forall (fun s => sk_obligation_id s = id_of o subject) (e_skipped e);
}.

Lemma assemble_entry_accounts o e : assemble_entry gd dm pg o = Ok e -> entry_accounts o e.
Proof.
  unfold assemble_entry. intros He. bind_ok He subject Es. bind_ok He dh Ed. bind_ok He ob Eo. bind_ok He fav Ef.
  destruct (dimension_4 _ _ _ _) as [c4 s4] eqn:E4. destruct (dimension_5 _ _ _ _) as [c5 s5] eqn:E5.
  destruct (dimension_6 _ _ _ _) as [c6 s6] eqn:E6. injection He as <-.
  unfold dimension_4 in E4. unfold dimension_5 in E5. unfold dimension_6 in E6.
  assert (Hu : unestimated o = match dget gd subject with Some _ => false | None => true end)
    by (unfold unestimated, dmem; rewrite Es; by destruct (dget gd subject)).
  split; cbn [e_4 e_5 e_6 e_skipped]; rewrite ?number_app, ?Hu; [..|exists subject; split; [done|]; fold (id_of o subject) in *];
    destruct fav as [b|vs], (dget gd subject), (dget dm (py_str dh)); try destruct (_ || _); simplify_eq; cbn;
    try done; repeat split; repeat constructor.
Qed.

Lemma number_flat_map_sum {A B} (p : B -> bool) (f : A -> list B) l :
  number p (flat_map f l) = sum_list_with (fun x => number p (f x)) l.
Proof. induction l as [|x l IH]; [done|]. cbn [flat_map sum_list_with]. by rewrite number_app, IH. Qed.

Lemma entries_sum obligations entries (f : entry -> nat) (g : row -> nat) :
  Forall2 (fun o e => assemble_entry gd dm pg o = Ok e) obligations entries ->
  (forall o e, entry_accounts o e -> f e + g o = 1) ->
  sum_list_with f entries + sum_list_with g obligations = length obligations.
Proof.
  intros Hall Hfg. induction Hall as [|o e os es He _ IH]; [done|]. cbn [sum_list_with length].
  pose proof (Hfg o e (assemble_entry_accounts o e He)). lia.
Qed.

Lemma number_sum {A} (p : A -> bool) l : number p l = sum_list_with (fun x => if p x then 1 else 0) l.
Proof. unfold number. induction l as [|x l IH]; simpl; [done|]. destruct (p x); simpl; lia. Qed.

(** What a review or a cohort must add up to. *)
Record adds_up (n n4 n5 n6 without_estimate : nat) (sk : list SkippedObligation) : Prop := {
  au_4 : n4 + number skip_4 sk = n;
  au_5 : n5 + number skip_5 sk + without_estimate = n;
  au_6 : n6 + number skip_6 sk = n;
}.

Lemma assembled_adds_up domain obligation_kind obligations a :
  assemble_cohort gd dm pg domain obligation_kind obligations = Ok a ->
  total_resolved a = length obligations /\
  adds_up (length obligations) (length (dimension_4_cohort a)) (length (dimension_5_cohort a))
    (length (dimension_6_cohort a)) (number unestimated obligations) (skipped a).
Proof.
  unfold assemble_cohort. intros Ha. bind_ok Ha entries Ee. injection Ha as <-. apply mapM_r_Ok in Ee.
  cbn [total_resolved dimension_4_cohort dimension_5_cohort dimension_6_cohort skipped]. split; [done|].
  split; rewrite !length_flat_map_sum, !number_flat_map_sum, ?number_sum, sum_plus.
  - rewrite <- (Nat.add_0_r (sum_list_with _ _)), <- (sum_zero obligations). apply (entries_sum _ _ _ _ Ee).
    intros o e He. pose proof (ea_4 o e He). lia.
  - apply (entries_sum _ _ _ _ Ee). intros o e He. pose proof (ea_5 o e He). lia.
  - rewrite <- (Nat.add_0_r (sum_list_with _ _)), <- (sum_zero obligations). apply (entries_sum _ _ _ _ Ee).
    intros o e He. pose proof (ea_6 o e He). lia.
Qed.

(** An obligation the assembly accounts for: its subject is in the cohort of a
    dimension, or it is skipped under its own id with a reason for it. *)
Definition in_or_skipped {C} (subject_of_member : C -> string) (cohort : list C) (skip : SkippedObligation -> bool)
    (sk : list SkippedObligation) (o : row) : Prop :=
  exists subject, subject_of o = Ok subject /\
    ((exists c, c ∈ cohort /\ subject_of_member c = subject) \/
     (exists s, s ∈ sk /\ sk_obligation_id s = id_of o subject /\ skip s = true)).

Lemma one_of {C} (f : C -> string) (c : list C) (skip : SkippedObligation -> bool) sk :
  length c + number skip sk = 1 -> (exists x, x ∈ c) \/ exists s, s ∈ sk /\ skip s = true.
Proof.
  unfold number. destruct c as [|x c]; [|left; exists x; set_solver]. destruct (List.filter skip sk) as [|s l] eqn:E; [done|].
  intros _. right. exists s. assert (Hs : s ∈ List.filter skip sk) by (rewrite E; set_solver).
  apply list_elem_of_In, filter_In in Hs as [Hs ?]. by apply list_elem_of_In in Hs.
Qed.

Lemma entry_in_cohort {C} (f : C -> string) (part : entry -> list C) (skip : SkippedObligation -> bool)
    obligations entries o :
  Forall2 (fun o e => assemble_entry gd dm pg o = Ok e) obligations entries -> o ∈ obligations ->
  (forall o e, entry_accounts o e -> length (part e) + number skip (e_skipped e) = 1) ->
  (forall o e subject, entry_accounts o e -> subject_of o = Ok subject -> Forall (fun c => f c = subject) (part e)) ->
  in_or_skipped f (flat_map part entries) skip (flat_map e_skipped entries) o.
Proof.
  intros Hall Ho H1 Hsub. destruct (Forall2_elem_l _ _ _ _ Hall Ho) as (e & He & Hoe).
  pose proof (assemble_entry_accounts o e Hoe) as Hacc. destruct (ea_ids o e Hacc) as (subject & Hs & _ & _ & _ & Hids).
  exists subject. split; [done|]. destruct (one_of f _ _ _ (H1 o e Hacc)) as [[c Hc]|(s & Hs' & Hsk)].
  - left. exists c. split; [apply list_elem_of_In, in_flat_map; exists e; by rewrite <- !list_elem_of_In|].
    pose proof (Hsub o e subject Hacc Hs) as Hf. rewrite Forall_forall in Hf. by apply Hf.
  - right. exists s. split; [apply list_elem_of_In, in_flat_map; exists e; by rewrite <- !list_elem_of_In|].
    rewrite Forall_forall in Hids. by split; [apply Hids|].
Qed.

(** C18 (no silent skip): whatever was fetched, each obligation of a bucket is in
    the cohort of dimension 4 or skipped under its id, and likewise in
    dimension 6; the members and the skips of each dimension add up to the
    bucket, dimension 5 leaving out, besides its skips, exactly the obligations
    whose subject has no estimate. *)
Theorem assembly_accounts domain obligation_kind obligations a :
  assemble_cohort gd dm pg domain obligation_kind obligations = Ok a ->
  adds_up (length obligations) (length (dimension_4_cohort a)) (length (dimension_5_cohort a))
    (length (dimension_6_cohort a)) (number unestimated obligations) (skipped a) /\
  Forall (fun o => in_or_skipped (cd_subject_id _) (dimension_4_cohort a) skip_4 (skipped a) o /\
                   in_or_skipped gd_subject_id (dimension_6_cohort a) skip_6 (skipped a) o) obligations.
Proof.
  intros Ha. split; [by apply (assembled_adds_up _ _ _ _ Ha)|].
  unfold assemble_cohort in Ha. bind_ok Ha entries Ee. injection Ha as <-. apply mapM_r_Ok in Ee.
  apply Forall_forall. intros o Ho. cbn [dimension_4_cohort dimension_6_cohort skipped].
  split; apply (entry_in_cohort _ _ _ _ _ _ Ee Ho).
  - intros o' e' He. apply (ea_4 _ _ He).
  - intros o' e' subject He Hs. destruct (ea_ids _ _ He) as (s & Hs' & Hc & _). rewrite Hs in Hs'. by injection Hs' as <-.
  - intros o' e' He. apply (ea_6 _ _ He).
  - intros o' e' subject He Hs. destruct (ea_ids _ _ He) as (s & Hs' & _ & _ & Hc & _). rewrite Hs in Hs'. by injection Hs' as <-.
Qed.
End Accounts.

End Facts.

(* ------------------------------------------------------------------ *)
(** ** The sweep *)

Section Sweeps.
Context `{FloatRepr} `{!Postgres} `{!Hashes}.
Variable text_leb : string -> string -> bool.
Variable correlation : list float64 -> list float64 -> result pyexn (option float64).
Variable census : string -> option (string * string).

Notation sweep_with := (sweep text_leb correlation).
Notation review_of := (review_bucket correlation).

Definition review_key (r : CohortEquityReview) : string * string := (cr_domain r, cr_obligation_kind r).

(** The obligations of a bucket whose subject has no estimate, as the sweep reads
    the table. *)
Definition without_estimate (estimates rows : list row) : nat :=
  let subjects := match mapM_r subject_of rows with Ok l => l | Err _ => [] end in
  number (unestimated (fetch_group_distributions estimates (remove_dups subjects))) rows.

(** A review accounts for the obligations of its bucket. *)
Definition review_adds_up (estimates rows : list row) (r : CohortEquityReview) : Prop :=
  cr_total_resolved r = length rows /\
  adds_up (length rows) (dimension_4_cohort_size r) (dimension_5_cohort_size r) (dimension_6_cohort_size r)
    (without_estimate estimates rows) (cr_skipped r).

Lemma review_bucket_spec research estimates table profile g k rows r :
  review_of research estimates table profile g (k, rows) = Ok r -> review_key r = k /\ review_adds_up estimates rows r.
Proof.
  destruct k as [dom kd]. unfold review_bucket. intros Hr. bind_ok Hr subjects Es. bind_ok Hr hashes Eh.
  apply map_err_Ok in Es.
  bind_ok Hr geo Eg. bind_ok Hr a Ea. apply map_err_Ok in Ea, Hr. unfold review_cohort in Hr. bind_ok Hr f5 E5.
  injection Hr as <-. pose proof (assembled_adds_up _ _ _ _ _ _ _ Ea) as [Ht Hsum].
  unfold assemble_cohort in Ea. bind_ok Ea entries Ee. injection Ea as <-. split; [done|]. split; [done|]. unfold without_estimate. rewrite Es. exact Hsum.
Qed.

Lemma one_key (ks : list (string * string)) k : NoDup ks -> k ∈ ks ->
  sum_list_with (fun k' => if bool_decide (k = k') then 1 else 0) ks = 1.
Proof.
  induction ks as [|k0 ks IH]; [by intros _ Hk%elem_of_nil|]. intros [Hn Hd]%NoDup_cons Hk. cbn [sum_list_with].
  apply elem_of_cons in Hk as [<-|Hk].
  - rewrite bool_decide_true by done. rewrite (sum_ext _ (fun _ => 0)), sum_zero; [done|].
    intros k' Hk'. rewrite bool_decide_false by congruence. done.
  - rewrite bool_decide_false by congruence. by rewrite IH.
Qed.

Lemma keys_total (ks : list (string * string)) (l : list row) : NoDup ks -> (forall o, o ∈ l -> cohort_key o ∈ ks) ->
  sum_list_with (fun k => number (in_bucket k) l) ks = length l.
Proof.
  intros Hd. induction l as [|o l IH]; intros Hl; [by apply sum_zero|]. cbn [length].
  rewrite <- IH by (intros; apply Hl; set_solver).
  rewrite <- Nat.add_1_l, <- (one_key ks (cohort_key o) Hd (Hl o ltac:(set_solver))), sum_plus.
  apply sum_ext. intros k _. unfold number, in_bucket at 1. cbn [List.filter].
  by destruct (bool_decide (cohort_key o = k)).
Qed.

Lemma grouped_total buckets (l : list row) : grouped buckets l ->
  sum_list_with (fun kb => length (snd kb)) buckets = length l.
Proof.
  intros [Hd Hg]. rewrite <- (keys_total (map fst buckets) l Hd).
  - assert (Hf : forall k rows, (k, rows) ∈ buckets -> rows = List.filter (in_bucket k) l) by (intros; by apply Hg).
    clear Hd Hg. induction buckets as [|[k rows] buckets IH]; [done|]. cbn [sum_list_with map fst snd].
    rewrite (Hf k rows) at 1 by set_solver. f_equal. apply IH. intros; apply Hf; set_solver.
  - intros o Ho. set (rows := List.filter (in_bucket (cohort_key o)) l).
    assert (Hin : (cohort_key o, rows) ∈ buckets).
    { apply Hg. split; [|done]. assert (Hor : o ∈ rows); [|by destruct rows; [apply elem_of_nil in Hor|]].
      apply list_elem_of_In, filter_In. rewrite <- list_elem_of_In. split; [done|]. by apply bool_decide_true. }
    by apply (list_elem_of_fmap_2 fst _ _ Hin).
Qed.

Lemma sweep_inv research rid auth clock estimates table profile g d reviews :
  sweep_with census research rid auth clock estimates table profile g d = Ok reviews ->
  exists obs buckets, fetch_resolved_obligations text_leb rid auth clock d = Ok obs /\ grouped buckets obs /\
    Forall2 (fun b r => review_of research estimates table profile (effective_geocoder census research g) b = Ok r)
      (sort bucket_leb buckets) reviews.
Proof.
  unfold sweep. intros Hs. bind_ok Hs obs Eo. bind_ok Hs buckets Eb. apply map_err_Ok in Eb.
  pose proof (resolved_grouped obs) as Hg. rewrite Eb in Hg. destruct Hg as [_ Hg].
  exists obs, buckets. split_and!; [done|done|by apply mapM_r_Ok].
Qed.

Lemma reviewed research estimates table profile g bs reviews :
  Forall2 (fun b r => review_of research estimates table profile g b = Ok r) bs reviews ->
  Forall2 (fun b r => review_key r = fst b /\ review_adds_up estimates (snd b) r) bs reviews.
Proof. intros Hf. eapply Forall2_impl; [exact Hf|]. intros [k rows] r Hr. by apply (review_bucket_spec _ _ _ _ _ _ _ _ Hr). Qed.

(** C19 (every resolved obligation is in one review): a sweep that completes
    reviews, once each, exactly the domain and kind pairs of the resolved
    obligations the replica lists; the totals of the reviews add up to the
    number of those obligations, and within each review the members and the
    skips of dimension 4, and of dimension 6, add up to its total, as do those
    of dimension 5 with the obligations whose subject has no estimate, which
    that dimension leaves out without a skip of its own. *)
Theorem sweep_covers_resolved research rid auth clock estimates table profile g d reviews :
  sweep_with census research rid auth clock estimates table profile g d = Ok reviews ->
  exists obs, fetch_resolved_obligations text_leb rid auth clock d = Ok obs /\
    NoDup (map review_key reviews) /\ (forall k, k ∈ map review_key reviews <-> exists o, o ∈ obs /\ cohort_key o = k) /\
    sum_list_with cr_total_resolved reviews = length obs /\
    Forall (fun r => review_adds_up estimates (List.filter (in_bucket (review_key r)) obs) r) reviews.
Proof.
  intros Hs. destruct (sweep_inv _ _ _ _ _ _ _ _ _ _ Hs) as (obs & buckets & Ho & Hg & Hf).
  apply reviewed in Hf. exists obs. split; [done|].
  assert (Hk : map review_key reviews = map fst (sort bucket_leb buckets)).
  { clear -Hf. induction Hf as [|b r bs rs [Hk _] _ IH]; [done|]. simpl. by rewrite Hk, IH. }
  assert (Hp : map fst (sort bucket_leb buckets) ≡ₚ map fst buckets) by (by rewrite sort_perm).
  destruct (Hg) as [Hd Hgr]. split_and!.
  - by rewrite Hk, Hp.
  - intros k. rewrite Hk, Hp. split.
    { intros ([k' rows] & -> & Hb)%list_elem_of_fmap. apply Hgr in Hb as [Hne Hrows]. cbn [fst].
      destruct rows as [|o rows]; [done|]. exists o. assert (Ho' : o ∈ List.filter (in_bucket k') obs) by (rewrite <- Hrows; left).
      apply list_elem_of_In, filter_In in Ho' as [Hin Hb]. split; [by apply list_elem_of_In|]. by apply bool_decide_eq_true in Hb. }
    intros (o & Hin & <-). apply (list_elem_of_fmap_2 fst _ (cohort_key o, List.filter (in_bucket (cohort_key o)) obs)).
    apply Hgr. split; [|done]. assert (Hor : o ∈ List.filter (in_bucket (cohort_key o)) obs).
    { apply list_elem_of_In, filter_In. rewrite <- list_elem_of_In. split; [done|]. by apply bool_decide_true. }
    by destruct (List.filter _ obs); [apply elem_of_nil in Hor|].
  - rewrite <- (grouped_total buckets obs Hg). clear -Hf.
    transitivity (sum_list_with (fun kb => length (snd kb)) (sort bucket_leb buckets)).
    + induction Hf as [|b r bs rs [_ [Ht _]] _ IH]; [done|]. simpl. by rewrite Ht, IH.
    + by rewrite sort_perm.
  - apply Forall_forall. intros r Hr. destruct (Forall2_elem_r _ _ _ _ Hf Hr) as ([k rows] & Hb & Hkr & Hsum).
    rewrite elem_of_sort in Hb. apply Hgr in Hb as [_ ->]. simpl in Hkr, Hsum. by rewrite Hkr.
Qed.

(* ------------------------------------------------------------------ *)
(** ** The quarantine *)

Lemma located_nowhere materials : mapM_r (locate NoGeocoder ADDRESS_FIELD) materials =
  Ok (map (fun hm => if negb (py_true (vget (m_input_fields (snd hm)) ADDRESS_FIELD)) then []
                     else [(fst hm, mkGeography None None)]) materials).
Proof. induction materials as [|hm l IH]; [done|]. cbn [mapM_r map]. rewrite IH. unfold locate. by destruct (negb _). Qed.

Lemma nowhere materials geo : fetch_property_geography false NoGeocoder materials ADDRESS_FIELD = Ok geo ->
  forall k g, dget geo k = Some g -> g = mkGeography None None.
Proof.
  unfold fetch_property_geography. rewrite located_nowhere. cbn [map_err mbind result_bind]. intros [= <-] k g Hg.
  apply dget_Some_elem, list_elem_of_In, in_concat in Hg as (l & Hl & Hin). apply in_map_iff in Hl as (hm & <- & _).
  destruct (negb _); [done|]. by destruct Hin as [[= _ <-]|].
Qed.

Lemma review_bucket_nowhere estimates table profile b r : review_of false estimates table profile NoGeocoder b = Ok r ->
  dimension_6_cohort_size r = 0.
Proof.
  destruct b as [[dom kd] rows]. unfold review_bucket. intros Hr. bind_ok Hr subjects Es. bind_ok Hr hashes Eh.
  bind_ok Hr geo Eg. bind_ok Hr a Ea. apply map_err_Ok in Ea, Hr. unfold review_cohort in Hr. bind_ok Hr f5 E5.
  injection Hr as <-. cbn [dimension_6_cohort_size]. unfold assemble_cohort in Ea. bind_ok Ea entries Ee. injection Ea as <-.
  cbn [dimension_6_cohort]. apply mapM_r_Ok in Ee. pose proof (nowhere _ _ Eg) as Hgeo.
  clear -Ee Hgeo. induction Ee as [|o e os es He _ IH]; [done|]. cbn [flat_map]. rewrite length_app, IH, Nat.add_0_r.
  clear -He Hgeo. unfold assemble_entry in He. bind_ok He subject E1. bind_ok He dh E2. bind_ok He ob E3. bind_ok He fav E4.
  destruct (dimension_4 _ _ _ _), (dimension_5 _ _ _ _), (dimension_6 _ _ _ _) as [c6 s6] eqn:E6. injection He as <-.
  cbn [e_6]. unfold dimension_6 in E6. destruct fav; [|by injection E6 as <- <-].
  destruct (dget geo (py_str dh)) as [gg|] eqn:Eg; [apply Hgeo in Eg as ->|]; by injection E6 as <- <-.
Qed.

(** The quarantine holds: with research mode off, the result of a sweep does
    not depend on the live geocoding service, whether it is passed in or would
    be the default.  Passed in, it is refused: the sweep completes only when
    there is nothing to review.  By default, no obligation enters the cohort by
    location of any review. *)
Theorem quarantine_holds rid auth clock estimates table profile d live live' census' :
  sweep_with census false rid auth clock estimates table profile (CensusGeocoder live) d =
    sweep_with census' false rid auth clock estimates table profile (CensusGeocoder live') d /\
  (forall reviews, sweep_with census false rid auth clock estimates table profile (CensusGeocoder live) d = Ok reviews ->
     reviews = []) /\
  sweep_with census false rid auth clock estimates table profile NoGeocoder d =
    sweep_with census' false rid auth clock estimates table profile NoGeocoder d /\
  (forall reviews, sweep_with census false rid auth clock estimates table profile NoGeocoder d = Ok reviews ->
     Forall (fun r => dimension_6_cohort_size r = 0) reviews).
Proof.
  split_and!; [done| |done|].
  - intros reviews Hs. destruct (sweep_inv _ _ _ _ _ _ _ _ _ _ Hs) as (obs & buckets & _ & _ & Hf).
    destruct Hf as [|[[dom kd] rows] r bs rs Hr _]; [done|]. unfold review_bucket in Hr.
    bind_ok Hr subjects Es. by bind_ok Hr hashes Eh.
  - intros reviews Hs. destruct (sweep_inv _ _ _ _ _ _ _ _ _ _ Hs) as (obs & buckets & _ & _ & Hf).
    apply Forall_forall. intros r Hr. destruct (Forall2_elem_r _ _ _ _ Hf Hr) as (b & _ & Hb).
    by eapply review_bucket_nowhere.
Qed.

End Sweeps.

(* ------------------------------------------------------------------ *)
(** ** Recording and reading back *)

Section Recording.
Context `{FloatRepr} `{!Postgres} `{!Hashes}.
Variable violation_text : outcome_violation -> string.

(** A row that holds what was posted: a value of its column's own type
    exactly, any value PostgreSQL keeps up to the order of object keys. *)
Definition read_back (body : dict pyval) (stored : row) : Prop :=
  Forall (fun ct => fst ct ∈ REVIEW_FIELDS ->
    (native (snd ct) (vget body (fst ct)) = true -> vget stored (fst ct) = vget body (fst ct)) /\
    (storable (snd ct) (vget body (fst ct)) = true -> json_equiv (vget body (fst ct)) (vget stored (fst ct)))) REVIEW_COLUMNS.

Lemma review_columns_nodup : NoDup (map fst REVIEW_COLUMNS).
Proof. apply (bool_decide_unpack _). vm_compute. done. Qed.

Lemma posted_value body (sq prev h : pyval) c : c ∈ REVIEW_FIELDS ->
  column_value (("seq", sq) :: fields_of body REVIEW_FIELDS ++ [("prev_hash", prev); ("curr_hash", h)])%list c = vget body c.
Proof. unfold REVIEW_FIELDS at 1. rewrite !elem_of_cons. intros Hc. repeat destruct Hc as [->|Hc]; try reflexivity. by apply elem_of_nil in Hc. Qed.

Lemma inserted_read_back body sq prev h c :
  insert_row REVIEW_COLUMNS REVIEW_NOT_NULL
    (("seq", sq) :: fields_of body REVIEW_FIELDS ++ [("prev_hash", prev); ("curr_hash", h)])%list = Ok c ->
  read_back body c.
Proof.
  intros Hi. apply Forall_forall. intros [col t] Hct Hf. cbn [fst snd] in *. unfold insert_row in Hi.
  destruct (store_columns _ _) as [c'|] eqn:Es; [|done]. destruct (forallb _ _); [|done]. injection Hi as ->.
  pose proof (vget_store_columns _ _ _ _ _ review_columns_nodup Es Hct) as Hv. rewrite posted_value in Hv by done. split.
  - intros Hn. by apply (pg_store_native _ _ _ Hn).
  - intros Hst. destruct (pg_store_ok _ _ Hst) as (w & Hw & He). rewrite Hv in Hw. by injection Hw as ->.
Qed.

Lemma store_review_ok rid body auth d seq h d' : store_cohort_review rid body auth d = (Ok (seq, h), d') ->
  exists r c, require_ship_token d rid auth = Ok r /\ d' = <[rid := set_reviews r (r_reviews r ++ [c])%list]> d /\
    read_back body c.
Proof.
  unfold store_cohort_review, in_transaction. intros Hs.
  match type of Hs with (match ?m with _ => _ end) = _ => destruct m as [[[seq' h'] d1]|] eqn:E; [|done] end.
  injection Hs as -> -> ->. apply refuse_http_ok in E as [_ E]. bind_ok E r Er. destruct (chain_next _) as [sq prev] eqn:Ec.
  bind_ok E c Ei. injection E as <- <- <-. exists r, c. split_and!; [done|done|]. by eapply inserted_read_back.
Qed.

(** The token is checked against what registration stored. *)
Lemma token_after_reviews d rid auth r rows : require_ship_token d rid auth = Ok r ->
  require_ship_token (<[rid := set_reviews r rows]> d) rid auth = Ok (set_reviews r rows).
Proof.
  unfold require_ship_token, meta_of. intros Hr. rewrite lookup_insert_eq. destruct (d !! rid) as [r'|]; [|done].
  cbn [mbind result_bind] in *. apply refuse_http_ok in Hr as Hr'. destruct Hr' as [E [= ->]]. cbn [r_meta set_reviews]. by rewrite E.
Qed.

Lemma record_reviews_rows rid auth swept_at reviews recd recorded d d' r0 :
  require_ship_token d rid auth = Ok r0 ->
  record_reviews violation_text rid auth swept_at reviews recd d = (Ok recorded, d') ->
  exists rows, require_ship_token d' rid auth = Ok (set_reviews r0 (r_reviews r0 ++ rows)%list) /\
    Forall2 (fun r c => read_back (review_body violation_text swept_at r) c) reviews rows.
Proof.
  revert recd d r0. induction reviews as [|r reviews IH]; intros recd d r0 Hr0 Hrec; cbn [record_reviews] in Hrec.
  - injection Hrec as _ <-. exists []. rewrite app_nil_r. by destruct r0.
  - destruct (store_cohort_review _ _ _ _) as [[[seq h]|] d1] eqn:E; [|done].
    destruct (store_review_ok _ _ _ _ _ _ _ E) as (r1 & c & Hr1 & -> & Hc). rewrite Hr0 in Hr1. injection Hr1 as <-.
    destruct (IH _ _ _ (token_after_reviews _ _ _ _ _ Hr0) Hrec) as (rows & Ht & Hf).
    exists (c :: rows). split; [|by constructor]. cbn [r_reviews set_reviews] in Ht. rewrite Ht. f_equal.
    destruct r0. cbn. by rewrite <- app_assoc.
Qed.
Lemma read_back_native body c col t : read_back body c -> (col, t) ∈ REVIEW_COLUMNS -> col ∈ REVIEW_FIELDS ->
  native t (vget body col) = true -> vget c col = vget body col.
Proof. unfold read_back. rewrite Forall_forall. intros Hb Hc Hf. by apply (Hb _ Hc Hf). Qed.

(** The test of the listing, on a row that holds a review. *)
Lemma listed_key swept_at r c dom kd : read_back (review_body violation_text swept_at r) c ->
  py_eq (vget c "domain") (VStr dom) && py_eq (vget c "obligation_kind") (VStr kd) = bool_decide (review_key r = (dom, kd)).
Proof.
  intros Hb. rewrite (read_back_native _ _ "domain" C_TEXT Hb) by (done || set_solver).
  rewrite (read_back_native _ _ "obligation_kind" C_TEXT Hb) by (done || set_solver).
  change (String.eqb (cr_domain r) dom && String.eqb (cr_obligation_kind r) kd = bool_decide (review_key r = (dom, kd))).
  unfold review_key. destruct (String.eqb_spec (cr_domain r) dom) as [<-|], (String.eqb_spec (cr_obligation_kind r) kd) as [<-|];
    symmetry; [by apply bool_decide_true|..]; apply bool_decide_false; congruence.
Qed.

Lemma filters_and {A} (f g : A -> bool) l : List.filter f (List.filter g l) = List.filter (fun x => g x && f x) l.
Proof. induction l as [|x l IH]; [done|]. simpl. destruct (g x); simpl; [destruct (f x)|]; by rewrite IH. Qed.

Lemma last_filter {A} (f : A -> bool) l x l' : f x = true -> Forall (fun y => f y = false) l' ->
  last (List.filter f (l ++ x :: l')) = Some x.
Proof.
  intros Hx Hl'. rewrite List.filter_app. cbn [List.filter]. rewrite Hx.
  assert (List.filter f l' = []) as -> by (induction Hl' as [|y l' Hy _ IH]; [done|]; cbn; by rewrite Hy).
  by rewrite last_snoc.
Qed.

(** C25 (a recorded review is the one read back): when every review of a sweep
    was accepted, the latest review the replica gives for a domain and kind of
    the sweep is the row of that review: its texts, counts and time are those
    posted, and its findings and skips too, up to the order of object keys,
    where PostgreSQL keeps JSON as it is. *)
Theorem recorded_review_is_latest rid auth swept_at reviews recorded d d' r :
  NoDup (map review_key reviews) ->
  record_reviews violation_text rid auth swept_at reviews [] d = (Ok recorded, d') -> r ∈ reviews ->
  exists stored, fetch_latest_cohort_review rid auth (cr_domain r) (cr_obligation_kind r) d' = Ok (Some stored) /\
    read_back (review_body violation_text swept_at r) stored /\
    vget stored "total_resolved" = nat_val (cr_total_resolved r) /\ vget stored "swept_at" = VFloat swept_at.
Proof.
  intros Hnd Hrec Hr.
  assert (Ht : exists r0, require_ship_token d rid auth = Ok r0).
  { destruct reviews as [|r1 reviews]; [by apply elem_of_nil in Hr|]. cbn [record_reviews] in Hrec.
    destruct (store_cohort_review _ _ _ _) as [[[seq h]|] d1] eqn:E; [|done].
    destruct (store_review_ok _ _ _ _ _ _ _ E) as (r0 & c & Hr0 & _). eauto. }
  destruct Ht as [r0 Hr0]. destruct (record_reviews_rows _ _ _ _ _ _ _ _ _ Hr0 Hrec) as (rows & Ht & Hf).
  apply list_elem_of_split in Hr as (pre & post & ->).
  apply Forall2_app_inv_l in Hf as (rows1 & rows2 & _ & Hf2 & ->). apply Forall2_cons_inv_l in Hf2 as (c & rows3 & Hc & Hf3 & ->).
  exists c. split_and!; [|done|..].
  - unfold fetch_latest_cohort_review, list_cohort_reviews. rewrite Ht. cbn [mbind result_bind map_err r_reviews set_reviews filter_by].
    rewrite filters_and, app_assoc. rewrite (last_filter _ _ c); [done|by rewrite (listed_key _ _ _ _ _ Hc), bool_decide_true|].
    apply Forall_forall. intros c' Hc'. destruct (Forall2_elem_r _ _ _ _ Hf3 Hc') as (r' & Hr' & Hb').
    rewrite (listed_key _ _ _ _ _ Hb'). apply bool_decide_false. intros Heq.
    rewrite map_app in Hnd. apply NoDup_app in Hnd as (_ & _ & Hnd). apply NoDup_cons in Hnd as [Hn _]. apply Hn.
    change (review_key r' = review_key r) in Heq. rewrite <- Heq. by apply (list_elem_of_fmap_2 review_key).
  - by rewrite (read_back_native _ _ "total_resolved" C_INTEGER Hc) by (done || set_solver).
  - by rewrite (read_back_native _ _ "swept_at" C_FLOAT Hc) by (done || set_solver).
Qed.
End Recording.

(* ------------------------------------------------------------------ *)
(** ** A sample sweep *)

#[local] Existing Instance sample_hashes.
#[local] Existing Instance sample_float_repr.
#[local] Existing Instance sample_postgres.

Definition repaid (favorable : pyval) : dict pyval := dset (sample_closing OUTCOME_RESOLVED) "favorable" favorable.

(** Three loans, two of them resolved, one of these with no favorable call. *)
Definition swept_db : gmap string replica :=
  serve_all [sample_registration; q_store (sample_delivery 1 "h1" 1000); q_store (sample_delivery 2 "h2" 1000);
             q_store (sample_delivery 3 "h3" 1000); q_derive;
             q_transition "h1:hold" (repaid (VBool true)); q_transition "h2:hold" (repaid VNone)] ∅.

Definition no_correlation : list float64 -> list float64 -> result pyexn (option float64) := fun _ _ => Ok None.
Definition no_census : string -> option (string * string) := fun _ => None.
Definition violation_name (_ : outcome_violation) : string := "ambiguous".

Definition swept_estimates : list row := snd (record_estimate "t1" "h1" "bisg_estimated" [("a", Regulatory.one)] None None []).
Definition swept_ledger : list row :=
  [[("id", VInt 1); ("current_hash", VStr "h1"); ("record_kind", VStr "governance_decision");
    ("input_data", VDict [("loan_property_address", VStr "1 Main St, Springfield, IL 62704")])]].

Definition bureau : RegulationCheckProfile :=
  mkProfile "ECOA" [] [] "" [] half [] [] [] "explicit" [] None [] "none".

Definition sample_sweep (g : geocoder) : result cohort_exn (list CohortEquityReview) :=
  sweep String.leb no_correlation no_census false "r1" sample_token (f_of_Z 3000) swept_estimates swept_ledger bureau g swept_db.

Definition swept_reviews : list CohortEquityReview :=
  match sample_sweep NoGeocoder with Ok l => l | Err _ => [] end.

Definition stub_geocoder : geocoder := OtherGeocoder (fun _ => Ok (Some "17167")).

Definition swept_rows : list row :=
  match fetch_resolved_obligations String.leb "r1" sample_token (f_of_Z 3000) swept_db with Ok l => l | Err _ => [] end.

Lemma assembly_accounts_witness :
  match assemble_cohort [("h1", [("a", Regulatory.one)])] [] [] "bank" "hold" swept_rows with
  | Ok a => adds_up 2 (length (dimension_4_cohort a)) (length (dimension_5_cohort a)) (length (dimension_6_cohort a)) 1 (skipped a) /\
            length (dimension_4_cohort a) = 1%nat
  | Err _ => False
  end.
Proof.
  destruct (assemble_cohort [("h1", [("a", Regulatory.one)])] [] [] "bank" "hold" swept_rows) as [a|] eqn:E; [|vm_compute in E; discriminate E].
  split.
  - pose proof (proj1 (assembly_accounts _ _ _ _ _ _ _ E)) as Ha.
    assert (Hl : length swept_rows = 2%nat) by (vm_compute; reflexivity).
    assert (Hn : number (unestimated [("h1", [("a", Regulatory.one)])]) swept_rows = 1%nat) by (vm_compute; reflexivity).
    rewrite Hl, Hn in Ha. exact Ha.
  - vm_compute in E. injection E as <-. reflexivity.
Defined.

Lemma swept : sweep String.leb no_correlation no_census false "r1" sample_token (f_of_Z 3000) swept_estimates swept_ledger
  bureau NoGeocoder swept_db = Ok swept_reviews.
Proof. vm_compute. reflexivity. Qed.

Lemma sweep_covers_resolved_witness :
  exists r, swept_reviews = [r] /\ review_key r = ("bank", "hold") /\ sum_list_with cr_total_resolved swept_reviews = 2%nat /\
    review_adds_up swept_estimates swept_rows r.
Proof.
  destruct (sweep_covers_resolved String.leb no_correlation no_census false "r1" sample_token (f_of_Z 3000)
    swept_estimates swept_ledger bureau NoGeocoder swept_db swept_reviews swept) as (obs & Ho & _ & _ & Ht & Hf).
  assert (Hobs : swept_rows = obs) by (unfold swept_rows; rewrite Ho; reflexivity). subst obs.
  destruct swept_reviews as [|r [|r' l]] eqn:E; [vm_compute in E; discriminate E| |vm_compute in E; discriminate E].
  exists r. assert (Hk : review_key r = ("bank", "hold")) by (vm_compute in E; injection E as <-; reflexivity).
  assert (Hlen : length swept_rows = 2%nat) by (vm_compute; reflexivity). rewrite Hlen in Ht.
  split; [reflexivity|]. split; [exact Hk|]. split; [exact Ht|].
  rewrite Forall_forall in Hf. specialize (Hf r (list_elem_of_here _ _)). rewrite Hk in Hf.
  assert (Hn : List.filter (in_bucket ("bank", "hold")) swept_rows = swept_rows) by (vm_compute; reflexivity).
  rewrite Hn in Hf. exact Hf.
Defined.

Lemma recorded_review_is_latest_witness :
  exists r answers d' stored, swept_reviews = [r] /\
    record_reviews violation_name "r1" sample_token (f_of_Z 3000) swept_reviews [] swept_db = (Ok answers, d') /\
    fetch_latest_cohort_review "r1" sample_token "bank" "hold" d' = Ok (Some stored) /\
    vget stored "total_resolved" = VInt 2.
Proof.
  destruct swept_reviews as [|r [|r' l]] eqn:E; [vm_compute in E; discriminate E| |vm_compute in E; discriminate E].
  destruct (record_reviews violation_name "r1" sample_token (f_of_Z 3000) [r] [] swept_db) as [[answers|e] d'] eqn:Er;
    [|vm_compute in E; injection E as <-; vm_compute in Er; discriminate Er].
  destruct (recorded_review_is_latest violation_name "r1" sample_token (f_of_Z 3000) [r] answers swept_db d' r) as (stored & Hs & _ & Ht & _).
  - apply NoDup_singleton.
  - exact Er.
  - apply list_elem_of_here.
  - exists r, answers, d', stored. split; [reflexivity|]. split; [reflexivity|].
    assert (Hk : cr_domain r = "bank" /\ cr_obligation_kind r = "hold" /\ nat_val (cr_total_resolved r) = VInt 2)
      by (vm_compute in E; injection E as <-; repeat split; reflexivity).
    destruct Hk as (Hd & Hk & Hv). rewrite Hd, Hk in Hs. rewrite Hv in Ht. exact (conj Hs Ht).
Defined.

(** The loan without a favorable call has no estimate either; its only skip
    names the call, and nothing says why it is not in dimension 5. *)
Theorem missing_estimate_unreported :
  number (unestimated [("h1", [("a", Regulatory.one)])]) swept_rows = 1%nat /\
  Forall (fun r => cr_total_resolved r = 2%nat /\ dimension_5_cohort_size r = 1%nat /\
    Forall (fun s => sk_reason s <> no_estimate /\ skip_5 s = false) (cr_skipped r)) swept_reviews.
Proof. split; [vm_compute; reflexivity|]. vm_compute. repeat (constructor; [split_and!; try done; repeat constructor; done|]). constructor. Qed.
