(* ===== verification/Lens.v ===== *)
(** * Lens: the contract of a review lens, and the reference lens

    Models the lens contract and its validation (the rest of
    src/sentinel_os/regulatory_cassette_interface.py) and the lens of
    regulatory_cassettes/cfpb_reg_b.py.  A lens is an object of its author: it
    is given by what its methods return or raise. *)

From S2P Require Import Prelude PyFloat PyValue Episode Event Json Canonical Attestation HeadAnchor LedgerDb Ledger Regulatory.
Local Open Scope string_scope.

Definition REGULATORY_SCHEMA_VERSION : string := "1.0.0".

(** A config with its attributes, which validation tests. *)
Record RegulatoryCassetteConfig := mkConfig {
  c_name : pyval;
  c_version : pyval;
  c_description : pyval;
  c_regulation : pyval;
  c_authority : pyval;
}.

(** [get_config] may return None; [MODES] is None where the class declares
    none; [c2_rollup] is optional. *)
Record RegulatoryCassette := mkLens {
  get_config : result pyexn (option RegulatoryCassetteConfig);
  MODES : pyval;
  IDENTITY_DOMAIN : string;
  get_checks : result pyexn pyval;
  get_profile : result pyexn pyval;
  review : option (DecisionMaterial -> result pyexn (list RegulatoryFinding));
  lens_validate : result pyexn pyval;
  c2_rollup : option (DecisionMaterial -> list RegulatoryFinding -> list RegulatoryFinding ->
                      list RegulatoryFinding -> result pyexn C2Rollup);
  code_text : string;    (* the source its code hash reads *)
}.

Inductive lens_violation :=
| LV_config_raised
| LV_config_field (attr : string)
| LV_config_none
| LV_no_modes
| LV_modes_type
| LV_modes_empty
| LV_mode_unknown (m : string)
| LV_checks_type
| LV_check_empty (i : nat)
| LV_checks_raised
| LV_profile_type
| LV_profile_raised
| LV_no_review
| LV_self_check
| LV_self_check_raised.

Section Validation.
Context `{FloatRepr}.

Definition config_fields (c : RegulatoryCassetteConfig) : dict pyval :=
  [("name", c_name c); ("version", c_version c); ("description", c_description c);
   ("regulation", c_regulation c); ("authority", c_authority c)].

Definition filled (v : pyval) : bool := match v with VStr s => negb (blank s) | _ => false end.

Definition config_violations (l : RegulatoryCassette) : list lens_violation :=
  match get_config l with
  | Err _ => [LV_config_raised]
  | Ok None => [LV_config_none]
  | Ok (Some c) => omap (fun '(attr, v) => if filled v then None else Some (LV_config_field attr)) (config_fields c)
  end.

Definition mode_violations (l : RegulatoryCassette) : list lens_violation :=
  match MODES l with
  | VNone => [LV_no_modes]
  | VList [] => [LV_modes_empty]
  | VList ms => omap (fun m => if str_mem (py_str m) REGULATORY_MODES then None else Some (LV_mode_unknown (py_str m))) ms
  | _ => [LV_modes_type]
  end.

Definition check_violations (l : RegulatoryCassette) : list lens_violation :=
  match get_checks l with
  | Err _ => [LV_checks_raised]
  | Ok (VList (c :: cs)) =>
      omap (fun '(i, c) => if blank (py_str c) then Some (LV_check_empty i) else None) (imap pair (c :: cs))
  | Ok _ => [LV_checks_type]
  end.

(** A value of the model is JSON: [json.dumps] does not refuse it. *)
Definition profile_violations (l : RegulatoryCassette) : list lens_violation :=
  match get_profile l with Err _ => [LV_profile_raised] | Ok (VDict _) => [] | Ok _ => [LV_profile_type] end.

Definition self_check_violations (l : RegulatoryCassette) : list lens_violation :=
  match lens_validate l with Err _ => [LV_self_check_raised] | Ok (VBool true) => [] | Ok _ => [LV_self_check] end.

Definition lens_violations (l : RegulatoryCassette) : list lens_violation :=
  (config_violations l ++ mode_violations l ++ check_violations l ++ profile_violations l ++
   (if review l then [] else [LV_no_review]) ++ self_check_violations l)%list.

Inductive lens_exn := RegulatoryValidationError (vs : list lens_violation) | LensPy (e : pyexn).

Definition lift_lens {A} (r : result pyexn A) : result lens_exn A := map_err LensPy r.

(** [lens.modes()] *)
Definition modes (l : RegulatoryCassette) : result lens_exn (list string) :=
  match MODES l with VList ms => Ok (map py_str ms) | _ => Err (RegulatoryValidationError [LV_modes_type]) end.

Definition config_of (l : RegulatoryCassette) : result lens_exn RegulatoryCassetteConfig :=
  c ← lift_lens (get_config l);
  match c with Some c => Ok c | None => Err (LensPy AttributeError) end.

Definition regulatory_cassette_version_of (l : RegulatoryCassette) : result lens_exn string :=
  c ← config_of l;
  Ok (IDENTITY_DOMAIN l +:+ ":" +:+ py_str (c_name c) +:+ ":" +:+ py_str (c_version c)).

(** [sorted(self.get_checks())] of texts; the order of other values is left
    out. *)
Definition sorted_checks (v : pyval) : result pyexn (list string) :=
  match v with
  | VList cs => names ← mapM_r (fun c => match c with VStr s => Ok s | _ => Err TypeError end) cs; Ok (sort String.leb names)
  | _ => Err TypeError
  end.

Definition snapshot (l : RegulatoryCassette) : result lens_exn (dict pyval) :=
  config ← config_of l;
  version ← regulatory_cassette_version_of l;
  ms ← modes l;
  checks ← lift_lens (get_checks l); checks ← lift_lens (sorted_checks checks);
  profile ← lift_lens (get_profile l);
  Ok [("regulatory_schema_version", VStr REGULATORY_SCHEMA_VERSION); ("cassette_version", VStr version);
      ("kind", VStr "regulatory_lens"); ("name", c_name config); ("version", c_version config);
      ("description", c_description config); ("regulation", c_regulation config); ("authority", c_authority config);
      ("modes", strs (sort String.leb ms)); ("checks", strs checks); ("profile", profile)].

Definition validate_regulatory_cassette (l : RegulatoryCassette) : result lens_exn (dict pyval) :=
  match lens_violations l with
  | [] => snapshot l
  | vs => Err (RegulatoryValidationError vs)
  end.

(** [RegulatoryCassetteRegistry] *)
Definition register_lens (lenses : dict RegulatoryCassette) (l : RegulatoryCassette)
    : result lens_exn (string * dict RegulatoryCassette) :=
  _ ← validate_regulatory_cassette l;
  identity ← regulatory_cassette_version_of l;
  Ok (identity, dset lenses identity l).

Definition get_lens (lenses : dict RegulatoryCassette) (identity : string) : result pyexn RegulatoryCassette :=
  match dget lenses identity with Some l => Ok l | None => Err KeyError end.

Definition list_all (lenses : dict RegulatoryCassette)
    : result pyexn (list (string * option RegulatoryCassetteConfig)) :=
  mapM_r (fun il => c ← get_config (snd il); Ok (fst il, c)) lenses.
End Validation.

(* ------------------------------------------------------------------ *)
(** ** The CFPB lens *)

Definition CHECK_REASON_SPECIFICITY : string := "adverse_action_reason_specificity".
Definition CHECK_PROHIBITED_BASIS : string := "prohibited_basis_input_screen".
Definition CHECK_INPUT_AUTHORIZATION_TIER : string := "input_authorization_tier_screen".
Definition CHECK_NARRATIVE_LEGITIMACY : string := "narrative_legitimacy_screen".

Definition DEFAULT_PLACEHOLDER_PATTERNS : list string :=
  ["^[A-Za-z]{1,10}[-_ ]?\d{1,6}$"; "^(n/?a|none|tbd|pending|unknown|see\s+file|standard|policy)$";
   "^(denied|declined|rejected|adverse\s+action|not\s+approved)\.?$"; "^reason(\s*\d+)?$"].
Definition DEFAULT_VALUE_REFERENCE_PATTERN : string := "\d".

Definition CFPB_REGULATION : string :=
  "ECOA / Regulation B, 12 CFR Part 1002 (adverse action notification, 1002.9)".

Definition CFPB_REG_B_PROFILE : RegulationCheckProfile := {|
  p_regulation := CFPB_REGULATION;
  p_generic_phrases :=
    ["does not meet"; "did not meet"; "minimum standards"; "credit standards"; "internal policy";
     "internal criteria"; "policy reasons"; "proprietary"; "creditworthiness"; "credit score"; "risk score";
     "risk model"; "model output"; "algorithm"; "algorithmic"; "automated decision"; "unable to approve";
     "at this time"; "general standards"; "score threshold"; "overall profile"];
  p_placeholder_patterns := DEFAULT_PLACEHOLDER_PATTERNS;
  p_value_reference_pattern := DEFAULT_VALUE_REFERENCE_PATTERN;
  p_extra_case_fields := [];
  p_specific_score_threshold := half;
  p_proxy_variables :=
    [("zip", "race / national origin (geographic proxy)"); ("postal", "race / national origin (geographic proxy)");
     ("census", "race / national origin (geographic proxy)");
     ("neighborhood", "race / national origin (geographic proxy)");
     ("geo", "race / national origin (geographic proxy)");
     ("latitude|longitude", "race / national origin (geographic proxy)");
     ("surname|last[_ ]?name", "race / national origin (BISG-style name proxy)");
     ("first[_ ]?name", "race / national origin / sex (name proxy)");
     ("language", "national origin (language-preference proxy)")];
  p_direct_protected_terms :=
    [("\brace\b", "race (ECOA prohibited basis)"); ("\bcolor\b", "color (ECOA prohibited basis)");
     ("religio", "religion (ECOA prohibited basis)");
     ("national[_ ]?origin", "national origin (ECOA prohibited basis)");
     ("\bsex\b", "sex (ECOA prohibited basis)"); ("\bgender\b", "sex (ECOA prohibited basis)");
     ("marital", "marital status (ECOA prohibited basis)");
     ("\bage\b", "age (ECOA prohibited basis; limited permitted uses -- review required)");
     ("public[_ ]?assistance", "receipt of public assistance income (ECOA prohibited basis)")];
  p_authorized_inputs := [];
  p_tier_floor := T2_PERMITTED;
  p_prohibited_inputs := [];
  p_narrative_field := None;
  p_narrative_flag_phrases := [];
  p_consent_model := CONSENT_OPT_IN_REQUIRED;
|}.

Section Cfpb.
Context `{FloatRepr} `{!Regex}.
(** The arguments of the constructor, and the text of the module. *)
Variables (block_on_placeholder enable_tier_screen enable_narrative_screen : bool) (version : string).
Variable source : string.

Definition cfpb_config : RegulatoryCassetteConfig :=
  mkConfig (VStr "cfpb-ecoa-reg-b") (VStr version)
    (VStr "Screens adverse-action reason specificity and prohibited-basis / proxy input variables for lending-shaped decisions. Screening for human review; not a compliance determination.")
    (VStr CFPB_REGULATION) (VStr "Consumer Financial Protection Bureau (CFPB)").

Definition cfpb_checks : list string :=
  ([CHECK_REASON_SPECIFICITY; CHECK_PROHIBITED_BASIS] ++
   (if enable_tier_screen then [CHECK_INPUT_AUTHORIZATION_TIER] else []) ++
   (if enable_narrative_screen then [CHECK_NARRATIVE_LEGITIMACY] else []))%list.

Definition cfpb_profile : dict pyval :=
  (profile_dict CFPB_REG_B_PROFILE ++
   [("block_on_placeholder", VBool block_on_placeholder);
    ("enable_input_authorization_tier_screen", VBool enable_tier_screen);
    ("enable_narrative_legitimacy_screen", VBool enable_narrative_screen)])%list.

Definition escalated (f : RegulatoryFinding) : RegulatoryFinding :=
  if block_on_placeholder && String.eqb (f_classification f) "placeholder"
  then mkFinding (f_check f) (f_subject_id f) (f_regulation f) ACTION_BLOCK (f_classification f) (f_score f)
         (dset (f_evidence f) "escalated" (VStr "placeholder reasons block under this lens configuration"))
  else f.

Definition cfpb_review (material : DecisionMaterial) : list RegulatoryFinding :=
  (map escalated (check_reason_specificity CFPB_REG_B_PROFILE CHECK_REASON_SPECIFICITY material) ++
   check_proxy_variables CFPB_REG_B_PROFILE CHECK_PROHIBITED_BASIS material ++
   (if enable_tier_screen
    then check_input_authorization_tier CFPB_REG_B_PROFILE CHECK_INPUT_AUTHORIZATION_TIER material else []) ++
   (if enable_narrative_screen
    then check_narrative_legitimacy CFPB_REG_B_PROFILE CHECK_NARRATIVE_LEGITIMACY material else []))%list.

(** None: not evaluated. *)
Definition cfpb_c2_rollup (material : DecisionMaterial)
    (statistical_outcome_equity correlation_proxy geographic_outcome_equity : option (list RegulatoryFinding)) : C2Rollup :=
  rollup_c2_bias_identification
    ([(DIMENSION_KNOWN_BAD_VARIABLE_NAMES,
       Some (check_proxy_variables CFPB_REG_B_PROFILE CHECK_PROHIBITED_BASIS material))] ++
     (if enable_tier_screen
      then [(DIMENSION_INPUT_AUTHORIZATION_TIER,
             Some (check_input_authorization_tier CFPB_REG_B_PROFILE CHECK_INPUT_AUTHORIZATION_TIER material))] else []) ++
     (if enable_narrative_screen
      then [(DIMENSION_NARRATIVE_LEGITIMACY,
             Some (check_narrative_legitimacy CFPB_REG_B_PROFILE CHECK_NARRATIVE_LEGITIMACY material))] else []) ++
     [(DIMENSION_STATISTICAL_OUTCOME_EQUITY, statistical_outcome_equity);
      (DIMENSION_CORRELATION_PROXY_SIGNAL, correlation_proxy);
      (DIMENSION_GEOGRAPHIC_OUTCOME_EQUITY, geographic_outcome_equity)])%list.

Definition nonempty {A} (l : list A) : bool := match l with [] => false | _ => true end.

Definition cfpb_validate : bool :=
  nonempty (p_generic_phrases CFPB_REG_B_PROFILE) && nonempty (p_proxy_variables CFPB_REG_B_PROFILE) &&
  nonempty (p_direct_protected_terms CFPB_REG_B_PROFILE) &&
  (length cfpb_checks =? 2 + (if enable_tier_screen then 1 else 0) + (if enable_narrative_screen then 1 else 0))%nat.

Definition CFPBRegBLens : RegulatoryCassette := {|
  get_config := Ok (Some cfpb_config);
  MODES := strs [MODE_OBSERVER; MODE_LIVE];
  IDENTITY_DOMAIN := REGULATORY_DOMAIN;
  get_checks := Ok (strs cfpb_checks);
  get_profile := Ok (VDict cfpb_profile);
  review := Some (fun material => Ok (cfpb_review material));
  lens_validate := Ok (VBool cfpb_validate);
  c2_rollup := Some (fun material d4 d5 d6 => Ok (cfpb_c2_rollup material (Some d4) (Some d5) (Some d6)));
  code_text := source;
|}.
End Cfpb.
