(* ===== verification/Deck.v ===== *)
(** * Deck: where review lenses are inserted and run

    Models src/sentinel_os/regulatory_deck.py over the ledger of Ledger and the
    lenses of Lens.  A deck is its active lenses and the ledger; [conditions]
    gives the environment, the clock and the anchor storage each of its writes
    meets.  The twin is reached through an optional read of the latest cohort
    review.  The explanatory sentences of an evidence dict are left out. *)

From S2P Require Import Prelude PyFloat PyValue Episode Event Outcome Json Canonical Attestation HeadAnchor LedgerDb Ledger LedgerVerify Regulatory Lens.
Local Open Scope string_scope.

Record InsertedLens := mkInserted {
  il_identity : string;
  il_lens : RegulatoryCassette;
  il_mode : string;
  il_regulation : string;
  il_cassette_hash : string;
  il_cassette_code_hash : string;
  il_inserted_by : string;
}.

Record GovernedJudgment (Q : Type) := mkJudgment { gj_quality : Q; gj_findings : list RegulatoryFinding }.
Arguments mkJudgment {Q}.
Arguments gj_quality {Q}.
Arguments gj_findings {Q}.

Record deck := mkDeck {
  dk_active : dict InsertedLens;
  dk_ledger : ledger;
  dk_writes : nat;      (* the calls it made on the ledger *)
}.

Inductive deck_exn :=
| DPy (e : pyexn)
| DLens (e : lens_exn)
| DLedger (e : ledger_exn)
| DEpisode (e : episode_exn)
| RegulatoryBlock (lens_identity regulation : string) (findings : list RegulatoryFinding).

(** An operation of the deck: what it changed stays when it raises. *)
Definition dop (A : Type) : Type := deck -> result deck_exn A * deck.

#[export] Instance dop_ret : MRet dop := fun A a dk => (Ok a, dk).
#[export] Instance dop_bind : MBind dop := fun A B f m dk =>
  match m dk with (Ok a, dk') => f a dk' | (Err e, dk') => (Err e, dk') end.

Definition raising {A} (r : result deck_exn A) : dop A := fun dk => (r, dk).
Definition deck_refuse (cond : bool) (e : pyexn) : dop unit := raising (if cond then Err (DPy e) else Ok tt).
Definition active_lenses : dop (dict InsertedLens) := fun dk => (Ok (dk_active dk), dk).
Definition set_active (active : dict InsertedLens) : dop unit :=
  fun dk => (Ok tt, mkDeck active (dk_ledger dk) (dk_writes dk)).

(** A finding, with the lens that raised it. *)
Abbreviation noted := (InsertedLens * RegulatoryFinding)%type.

Section Deck.
Context `{FloatRepr} `{!Postgres} `{!Hashes} `{!Cns}.
Variable loads : string -> result pyexn pyval.
Variable conditions : nat -> os_view * string * bool.
Variable default_authorized_by : option string.

(** A call of a writer of the ledger. *)
Definition on_ledger {A} (plan : os_view -> list row -> result ledger_exn (list stmt * A)) : dop A := fun dk =>
  let '(os, now, anchor_io) := conditions (dk_writes dk) in
  let '(r, l) := transact os now anchor_io (plan os) (dk_ledger dk) in
  (map_err DLedger r, mkDeck (dk_active dk) l (S (dk_writes dk))).

(* ------------------------------------------------------------------ *)
(** ** Insertion and removal *)

(** [who = x or default]; refused when there is nobody. *)
Definition who_of (by_ : option string) : string := or_empty (if opt_true by_ then by_ else default_authorized_by).

Definition insert (l : RegulatoryCassette) (mode : string) (inserted_by : option string) : dop InsertedLens :=
  _ ← deck_refuse (negb (str_mem mode REGULATORY_MODES)) ValueError;
  snap ← raising (map_err DLens (validate_regulatory_cassette l));
  declared ← raising (map_err DLens (modes l));
  _ ← deck_refuse (negb (str_mem mode declared)) ValueError;
  identity ← raising (map_err DLens (regulatory_cassette_version_of l));
  active ← active_lenses;
  _ ← deck_refuse (dmem active identity) ValueError;
  let who := who_of inserted_by in
  _ ← deck_refuse (blank who) ValueError;
  let cassette_hash := compute_cassette_hash (VDict snap) in
  let cassette_code_hash := sha256 (code_text l) in
  let regulation := py_str (vget snap "regulation") in
  _ ← on_ledger (fun os => bind_cassette_version os identity cassette_hash (Some cassette_code_hash) (Some who));
  _ ← on_ledger (fun os => record_regulatory_cassette_event os "regulatory_cassette_inserted" identity cassette_hash
        (Some cassette_code_hash) mode regulation who);
  let e := mkInserted identity l mode regulation cassette_hash cassette_code_hash who in
  active ← active_lenses;
  _ ← set_active (dset active identity e);
  mret e.

Definition remove (identity : string) (removed_by : option string) : dop unit :=
  active ← active_lenses;
  match dget active identity with
  | None => raising (Err (DPy KeyError))
  | Some e =>
      let who := who_of removed_by in
      _ ← deck_refuse (blank who) ValueError;
      _ ← on_ledger (fun os => record_regulatory_cassette_event os "regulatory_cassette_removed" identity
            (il_cassette_hash e) (Some (il_cassette_code_hash e)) (il_mode e) (il_regulation e) who);
      set_active (ddel active identity)
  end.

(* ------------------------------------------------------------------ *)
(** ** Observer mode *)

(** One item of [get_decisions], newest first. *)
Definition decision_item (r : row) : result pyexn (dict pyval) :=
  input_data ← as_json loads (vget r "input_data");
  policy ← as_json loads (vget r "policy_parameters");
  output ← as_json loads (vget r "decision_output");
  snap ← as_json loads (vget r "cassette_snapshot");
  cost ← as_json loads (vget r "ai_cost");
  Ok [("id", vget r "id"); ("timestamp", vget r "timestamp"); ("action_type", vget r "action_type");
      ("node", vget r "node"); ("previous_value", vget r "previous_value"); ("applied_value", vget r "applied_value");
      ("reasoning", vget r "reason"); ("previous_hash", vget r "previous_hash"); ("current_hash", vget r "current_hash");
      ("cassette_version", vget r "cassette_version"); ("input_data", input_data); ("policy_parameters", policy);
      ("output", output); ("cassette_snapshot", snap); ("cassette_hash", vget r "cassette_hash"); ("ai_cost", cost)].

Definition get_decisions (cassette_version : option string) (limit : nat) (rows : list row)
    : result pyexn (list (dict pyval)) :=
  let wanted r := col_is "record_kind" (VStr "governance_decision") r &&
                  match cassette_version with Some v => col_is "cassette_version" (VStr v) r | None => true end in
  mapM_r decision_item (take limit (rev (List.filter wanted rows))).

Definition run_review (l : RegulatoryCassette) (m : DecisionMaterial) : result pyexn (list RegulatoryFinding) :=
  match review l with Some f => f m | None => Err AttributeError end.

Record lens_report := mkLensReport {
  lr_lens : InsertedLens;
  decisions_reviewed : nat;
  decisions_flagged : nat;
  lr_findings : list RegulatoryFinding;
}.

Definition review_decisions (decisions : list (dict pyval)) (e : InsertedLens) : result pyexn lens_report :=
  found ← mapM_r (fun r => run_review (il_lens e) (material_from_ledger_row r)) decisions;
  let findings := concat found in
  Ok (mkLensReport e (length decisions) (length (remove_dups (map f_subject_id findings))) findings).

Definition observer_review (limit : nat) (decision_cassette_version : option string) (dk : deck)
    : result pyexn (list lens_report) :=
  decisions ← get_decisions decision_cassette_version limit (l_rows (dk_ledger dk));
  mapM_r (review_decisions decisions) (map snd (dk_active dk)).

(* ------------------------------------------------------------------ *)
(** ** Live mode *)

Definition live_entries (active : dict InsertedLens) : list InsertedLens :=
  List.filter (fun e => String.eqb (il_mode e) MODE_LIVE) (map snd active).

Definition disclose (ef : noted) : dop unit :=
  let '(e, f) := ef in
  _ ← on_ledger (fun os => record_regulatory_disclosure os (il_identity e) (il_regulation e) (f_check f) (f_action f)
        (f_subject_id f) (VDict (finding_dict f)) (Some (il_cassette_hash e)) (Some (il_inserted_by e)));
  mret tt.

(** Cross-lens tier conflicts: a finding with a variable and a tier in its
    evidence is a claim; both are texts. *)
Definition claim_of (f : RegulatoryFinding) : option (string * string) :=
  match vget (f_evidence f) "variable", vget (f_evidence f) "tier" with
  | VStr v, VStr t => Some (v, t)
  | _, _ => None
  end.

(** [by_variable.setdefault(variable, {})[entry.identity] = (entry, finding)] *)
Definition add_claim (by_variable : dict (dict noted)) (ef : noted) : dict (dict noted) :=
  match claim_of (snd ef) with
  | None => by_variable
  | Some (v, _) =>
      let claims := match dget by_variable v with Some c => c | None => [] end in
      dset by_variable v (dset claims (il_identity (fst ef)) ef)
  end.

Definition tier_of (ef : noted) : string := match claim_of (snd ef) with Some (_, t) => t | None => "" end.

(** One more claim: the tier resolved so far, and who holds it. *)
Definition fold_claim (acc : string * noted) (ef : noted) : string * noted :=
  let '(resolved, winner) := acc in
  let new_resolved := resolve_tier_conflict resolved (tier_of ef) in
  (new_resolved, if String.eqb new_resolved resolved then winner else ef).

Definition conflict_of (vc : string * dict noted) : option noted :=
  let '(variable, claims) := vc in
  match map snd (sort key_leb claims) with
  | first :: rest =>
      let '(resolved, winner) := fold_left fold_claim rest (tier_of first, first) in
      if (length (remove_dups (map tier_of (first :: rest))) <? 2)%nat then None else
      let e := fst winner in
      Some (e, mkFinding "cross_lens_tier_conflict" (f_subject_id (snd winner)) (il_regulation e) ACTION_FLAG
                 "cross_lens_tier_conflict" one
                 [("variable", VStr variable); ("resolved_tier", VStr resolved);
                  ("conflicting_claims",
                   VList (map (fun ef => VDict [("lens", VStr (il_identity (fst ef)));
                                                ("regulation", VStr (il_regulation (fst ef)));
                                                ("tier", VStr (tier_of ef))]) (first :: rest)))])
  | [] => None
  end.

Definition cross_lens_tier_conflicts (found : list noted) : list noted :=
  omap conflict_of (sort key_leb (fold_left add_claim found [])).

(* ------------------------------------------------------------------ *)
(** ** Cohort equity escalation *)

Definition CAPABILITY_OUTCOME_OBLIGATION : string := "outcome_obligation".

(** What the deck reads of a domain cassette besides its judgment. *)
Record domain_manifest := mkManifest {
  CAPABILITIES : list string;
  get_maturation_rule : option (result pyexn MaturationRule);
}.

Definition FINDING_FIELDS : list string :=
  ["check"; "subject_id"; "regulation"; "action"; "classification"; "score"; "evidence"].

(** A finding from the items of a mapping as keyword arguments: an unknown or a
    missing field raises; the texts and the score are those a sweep writes. *)
Definition finding_of (v : pyval) : result pyexn RegulatoryFinding :=
  match v with
  | VDict d =>
      if forallb (fun k => str_mem k FINDING_FIELDS) (dkeys d) &&
         forallb (dmem d) ["check"; "subject_id"; "regulation"; "action"; "classification"; "score"]
      then
        score ← to_float (vget d "score");
        Ok (mkFinding (py_str (vget d "check")) (py_str (vget d "subject_id")) (py_str (vget d "regulation"))
              (py_str (vget d "action")) (py_str (vget d "classification")) score (dict_of (vget d "evidence")))
      else Err TypeError
  | _ => Err TypeError
  end.

(** [review.get(key, [])], read as findings. *)
Definition findings_in (r : row) (key : string) : result pyexn (list RegulatoryFinding) :=
  match dget r key with
  | None => Ok []
  | Some (VList l) => mapM_r finding_of l
  | Some _ => Err TypeError
  end.

(** [fetch_latest_cohort_review] on the twin, for a domain and a kind; [None]
    where it raises. *)
Variable latest_review : option (string -> string -> option (option row)).

Definition escalation (m : DecisionMaterial) (obligation_kind : string) (d4 d5 d6 : list RegulatoryFinding)
    (e : InsertedLens) : result pyexn (list noted) :=
  match c2_rollup (il_lens e) with
  | None => Ok []
  | Some rollup =>
      r ← rollup m d4 d5 d6;
      Ok (if negb (bool_decide (c2_status_of r = C2_FLAG)) then [] else
          [(e, mkFinding "c2_cohort_equity_rollup" (m_subject_id m) (il_regulation e) ACTION_FLAG "cohort_equity_flag" one
                 [("domain", VStr (m_domain m)); ("obligation_kind", VStr obligation_kind);
                  ("flagged_dimensions", strs (flagged_dimensions r))])])
  end.

Definition cohort_equity_escalations (cassette : domain_manifest) (m : DecisionMaterial) (active : dict InsertedLens)
    : result pyexn (list noted) :=
  match latest_review with
  | None => Ok []
  | Some latest =>
      if negb (str_mem CAPABILITY_OUTCOME_OBLIGATION (CAPABILITIES cassette)) then Ok [] else
      match get_maturation_rule cassette with
      | None => Ok []
      | Some rule =>
          rule ← rule;
          match latest (m_domain m) (kind rule) with
          | Some (Some r) =>
              d4 ← findings_in r "dimension_4_findings";
              d5 ← findings_in r "dimension_5_findings";
              d6 ← findings_in r "dimension_6_findings";
              found ← mapM_r (escalation m (kind rule) d4 d5 d6) (live_entries active);
              Ok (concat found)
          | _ => Ok []      (* fails open *)
          end
      end
  end.

(* ------------------------------------------------------------------ *)
(** ** Judgment and explanation *)

Section Judge.
Context {C Q F : Type} `{!Cassette C Q F}.
Variable manifest_of : C -> domain_manifest.

Definition lift_deck {A} (r : result pyexn A) : dop A := raising (map_err DPy r).

(** The findings are disclosed one by one, before anything acts on them. *)
Fixpoint disclose_all (found : list noted) : dop unit :=
  match found with [] => mret tt | ef :: found => _ ← disclose ef; disclose_all found end.

(** One live lens: its review, then its disclosures. *)
Definition review_entry (ep : Episode) (e : InsertedLens) : dop (list noted) :=
  m ← lift_deck (material_from_episode ep);
  found ← lift_deck (run_review (il_lens e) m);
  let found := map (pair e) found in
  _ ← disclose_all found;
  mret found.

Fixpoint review_entries (ep : Episode) (es : list InsertedLens) : dop (list noted) :=
  match es with
  | [] => mret []
  | e :: es => found ← review_entry ep e; rest ← review_entries ep es; mret (found ++ rest)%list
  end.

Definition is_block (ef : noted) : bool := String.eqb (f_action (snd ef)) ACTION_BLOCK.

Definition deck_judge (cassette : C) (ep : Episode) : dop (GovernedJudgment Q) :=
  quality ← raising (map_err DEpisode (judge_episode cassette ep));
  active ← active_lenses;
  found ← review_entries ep (live_entries active);
  let conflicts := cross_lens_tier_conflicts found in
  _ ← disclose_all conflicts;
  m ← lift_deck (material_from_episode ep);
  escalations ← lift_deck (cohort_equity_escalations (manifest_of cassette) m active);
  _ ← disclose_all escalations;
  let all_findings := map snd (found ++ conflicts ++ escalations)%list in
  match find is_block found with
  | Some (e, _) => raising (Err (RegulatoryBlock (il_identity e) (il_regulation e) all_findings))
  | None => mret (mkJudgment quality all_findings)
  end.

(** A factor of an explanation: the kernel's, or a finding of a lens. *)
Inductive deck_factor := kernel_factor (f : factor F) | regulatory_factor (lens : string) (f : RegulatoryFinding).

Definition noted_factor (ef : noted) : deck_factor := regulatory_factor (il_identity (fst ef)) (snd ef).

(** [explain]: nothing is disclosed. *)
Definition deck_explain (cassette : C) (ep : Episode) (dk : deck) : result deck_exn (list deck_factor) :=
  factors ← map_err DEpisode (explain_episode cassette ep);
  m ← map_err DPy (material_from_episode ep);
  let live := live_entries (dk_active dk) in
  found ← map_err DPy (mapM_r (fun e => fs ← run_review (il_lens e) m; Ok (map (pair e) fs)) live);
  let found := concat found in
  escalations ← map_err DPy (cohort_equity_escalations (manifest_of cassette) m (dk_active dk));
  Ok (map kernel_factor factors ++ map noted_factor (found ++ cross_lens_tier_conflicts found ++ escalations))%list.
End Judge.
End Deck.
