(* ===== verification/DeckFacts.v ===== *)
(** * DeckFacts: nothing acts before it is on the record

    Every call of a deck decides, makes exactly the calls of the ledger's
    writers its script lists, and then acts; a judgment, or a refusal to judge,
    comes after the disclosure of every finding behind it; an
    active lens has its insertion and its content binding on the ledger; a lens
    whose content changed is refused; and an explanation reports what a
    judgment would disclose. *)

From S2P Require Import Prelude PyFloat PyValue Episode Event Outcome Json Canonical Attestation HeadAnchor LedgerDb Ledger LedgerVerify LedgerSound LedgerWrites LedgerHistory Regulatory Lens Deck.
Local Open Scope string_scope.

Section Facts.
Context `{FloatRepr} `{!Postgres} `{!Hashes} `{!Cns}.
Variable loads : string -> result pyexn pyval.
Variable verify_governed_decision : Episode -> GovernanceDecisionRecord -> list EventV1 -> boundary_verdict.
Variable conditions : nat -> os_view * string * bool.
Variable default_authorized_by : option string.

Notation run_write := (LedgerHistory.run loads verify_governed_decision).

(** The writer a disclosure calls. *)
Definition disclosure_of (ef : noted) : write :=
  let '(e, f) := ef in
  w_disclosure (il_identity e) (il_regulation e) (f_check f) (f_action f) (f_subject_id f) (VDict (finding_dict f))
    (Some (il_cassette_hash e)) (Some (il_inserted_by e)).

Section Judging.
Context {C Q F : Type} `{!Cassette C Q F}.
Variable manifest_of : C -> domain_manifest.
Variable latest_review : option (string -> string -> option (option row)).

Notation judge_with := (deck_judge conditions latest_review manifest_of).
Notation explain_with := (deck_explain latest_review manifest_of).

(* ------------------------------------------------------------------ *)
(** ** A disclosure that succeeded is on the ledger *)

(** The row of a disclosed finding. *)
Record disclosed (ef : noted) (r : row) : Prop := {
  d_kind : vget r "record_kind" = VStr "regulatory_disclosure";
  d_lens : vget r "cassette_version" = VStr (il_identity (fst ef));
  d_hash : vget r "cassette_hash" = VStr (il_cassette_hash (fst ef));
  d_by : vget r "authorized_by" = VStr (il_inserted_by (fst ef));
  d_check : vget r "node" = VStr (str_take 100 (f_check (snd ef)));
  d_finding : pg_store C_JSONB (norm (VDict (finding_dict (snd ef)))) = Some (vget r "decision_output");
}.

Lemma on_ledger_ok {A} (plan : os_view -> list row -> result ledger_exn (list stmt * A)) dk a dk' :
  on_ledger conditions plan dk = (Ok a, dk') ->
  exists os now io l', transact os now io (plan os) (dk_ledger dk) = (Ok a, l') /\
    dk' = mkDeck (dk_active dk) l' (S (dk_writes dk)).
Proof.
  unfold on_ledger. destruct (conditions (dk_writes dk)) as [[os now] io]. destruct (transact _ _ _ _ _) as [r l'] eqn:E.
  intros [= Hr <-]. exists os, now, io, l'. destruct r; [|done]. by injection Hr as ->.
Qed.

Lemma disclose_ok ef dk u dk' : disclose conditions ef dk = (Ok u, dk') ->
  exists r, l_rows (dk_ledger dk') = (l_rows (dk_ledger dk) ++ [r])%list /\ disclosed ef r /\ dk_active dk' = dk_active dk.
Proof.
  destruct ef as [e f]. unfold disclose. intros E. unfold mbind, dop_bind in E.
  destruct (on_ledger _ _ dk) as [[a|] dk1] eqn:E1; [|done]. injection E as _ <-.
  destruct (on_ledger_ok _ _ _ _ E1) as (os & now & io & l' & Ht & ->). cbn [dk_ledger dk_active].
  destruct (transact_cases _ _ _ _ _ _ _ Ht) as [[_ Hr]|(stmts & ret & Hp & Hne & _ & _)].
  { specialize (Hr a eq_refl). unfold record_regulatory_disclosure in Hr. do 6 apply refuse_if_ok in Hr as [_ Hr].
    bind_ok Hr sh Es. by destruct sh. }
  pose proof Hp as Hp2. unfold record_regulatory_disclosure in Hp. do 6 apply refuse_if_ok in Hp as [_ Hp].
  bind_ok Hp sh Es. destruct sh as [s h]. injection Hp as <- <-.
  destruct (transact_one _ _ _ _ _ _ _ _ _ Hp2 Ht) as (id & r & Hs & Hrows). exists r. split_and!; [done| |done].
  unfold chain_row in Es. bind_ok Es sg Esig. injection Es as <- _.
  split; cbn [fst snd].
  - exact (stored_native _ _ _ "record_kind" (C_VARCHAR 40) Hs eq_refl eq_refl).
  - exact (stored_native _ _ _ "cassette_version" (C_VARCHAR 200) Hs eq_refl eq_refl).
  - exact (stored_native _ _ _ "cassette_hash" (C_VARCHAR 64) Hs eq_refl eq_refl).
  - exact (stored_native _ _ _ "authorized_by" (C_VARCHAR 120) Hs eq_refl eq_refl).
  - exact (stored_native _ _ _ "node" (C_VARCHAR 100) Hs eq_refl eq_refl).
  - exact (stored_cell _ _ _ "decision_output" C_JSONB Hs eq_refl).
Qed.

Lemma dop_bind_ok {A B} (m : dop A) (f : A -> dop B) dk r dk' : (m ≫= f) dk = (r, dk') ->
  (exists e, r = Err e /\ m dk = (Err e, dk')) \/ exists a dk1, m dk = (Ok a, dk1) /\ f a dk1 = (r, dk').
Proof. unfold mbind, dop_bind. destruct (m dk) as [[a|e] dk1]; [eauto|intros [= <- <-]; eauto]. Qed.

(** A deck that disclosed [found], in order, and changed nothing else. *)
Definition on_record (found : list noted) (dk dk' : deck) : Prop :=
  dk_active dk' = dk_active dk /\
  exists rows, l_rows (dk_ledger dk') = (l_rows (dk_ledger dk) ++ rows)%list /\ Forall2 disclosed found rows.

Lemma on_record_nil dk : on_record [] dk dk.
Proof. split; [done|]. exists []. by rewrite app_nil_r. Qed.

Lemma on_record_app f1 f2 dk dk1 dk2 : on_record f1 dk dk1 -> on_record f2 dk1 dk2 -> on_record (f1 ++ f2) dk dk2.
Proof.
  intros [A1 (r1 & H1' & F1)] [A2 (r2 & H2' & F2)]. split; [congruence|]. exists (r1 ++ r2)%list.
  rewrite H2', H1', <- app_assoc. split; [done|by apply Forall2_app].
Qed.

Lemma disclose_all_ok found dk u dk' : disclose_all conditions found dk = (Ok u, dk') -> on_record found dk dk'.
Proof.
  revert dk. induction found as [|ef found IH]; intros dk; [intros [= _ <-]; apply on_record_nil|]. cbn [disclose_all].
  intros [(e & [=] & _)|(u1 & dk1 & E1 & E2)]%dop_bind_ok. apply (on_record_app [ef] _ _ dk1); [|by apply IH].
  destruct (disclose_ok _ _ _ _ E1) as (r & Hr & Hd & Ha). split; [done|]. exists [r]. split; [done|]. constructor; [done|constructor].
Qed.

Lemma raising_ok {A} (r : result deck_exn A) dk x dk' : raising r dk = (x, dk') -> x = r /\ dk' = dk.
Proof. by intros [= -> ->]. Qed.

(** The findings of a judgment are those of the live lenses, each under the
    lens that raised it. *)
Lemma review_entry_ok ep e dk found dk' : review_entry conditions ep e dk = (Ok found, dk') ->
  on_record found dk dk' /\ exists m fs, material_from_episode ep = Ok m /\ run_review (il_lens e) m = Ok fs /\ found = map (pair e) fs.
Proof.
  unfold review_entry. intros [(? & [=] & _)|(m & dk1 & E1 & E)]%dop_bind_ok. apply raising_ok in E1 as [Em ->].
  apply dop_bind_ok in E as [(? & [=] & _)|(fs & dk2 & E2 & E)]. apply raising_ok in E2 as [Ef ->].
  apply dop_bind_ok in E as [(? & [=] & _)|(u & dk3 & E3 & E)]. injection E as <- <-. split; [by eapply disclose_all_ok|].
  exists m, fs. split_and!; [|by destruct (run_review (il_lens e) m); simplify_eq/=|done].
  by destruct (material_from_episode ep); simplify_eq/=.
Qed.

(** What the live lenses find, without disclosing it. *)
Definition found_by (ep : Episode) (es : list InsertedLens) : result pyexn (list (list noted)) :=
  mapM_r (fun e => m ← material_from_episode ep; fs ← run_review (il_lens e) m; Ok (map (pair e) fs)) es.

Lemma review_entries_ok ep es dk found dk' : review_entries conditions ep es dk = (Ok found, dk') ->
  on_record found dk dk' /\ exists parts, found_by ep es = Ok parts /\ found = concat parts.
Proof.
  revert dk found dk'. induction es as [|e es IH]; intros dk found dk'; cbn [review_entries].
  - intros [= <- <-]. split; [apply on_record_nil|]. by exists [].
  - intros [(? & [=] & _)|(f1 & dk1 & E1 & E)]%dop_bind_ok. apply dop_bind_ok in E as [(? & [=] & _)|(f2 & dk2 & E2 & E)].
    injection E as <- <-. apply review_entry_ok in E1 as [H1' (m & fs & Hm & Hf & ->)]. apply IH in E2 as [H2' (parts & Hp & ->)].
    split; [by eapply on_record_app|]. exists (map (pair e) fs :: parts). split; [|done]. unfold found_by in *. cbn [mapM_r].
    rewrite Hp, Hm. cbn [mbind result_bind]. by rewrite Hf.
Qed.

(** Only the last step of a judgment blocks. *)
Definition unblocking {A} (m : dop A) : Prop := forall dk e dk', m dk = (Err e, dk') ->
  match e with RegulatoryBlock _ _ _ => False | _ => True end.

Lemma unblocking_bind {A B} (m : dop A) (f : A -> dop B) : unblocking m -> (forall a, unblocking (f a)) -> unblocking (m ≫= f).
Proof. intros Hm Hf dk e dk' [(e' & [= ->] & E)|(a & dk1 & _ & E)]%dop_bind_ok; [by eapply Hm|by eapply Hf]. Qed.

Lemma unblocking_disclose_all found : unblocking (disclose_all conditions found).
Proof.
  induction found as [|[e f] found IH]; [done|]. apply unblocking_bind; [|done]. apply unblocking_bind; [|done].
  intros dk e' dk'. unfold on_ledger. destruct (conditions _) as [[os now] io]. destruct (transact _ _ _ _ _) as [[|]]; [done|].
  by intros [= <- _].
Qed.

Lemma unblocking_lift {A} (r : result pyexn A) : unblocking (lift_deck r).
Proof. intros dk e dk' E. destruct r; [done|]. by injection E as <- _. Qed.

Lemma unblocking_entries ep es : unblocking (review_entries conditions ep es).
Proof.
  induction es as [|e es IH]; [done|]. cbn [review_entries]. apply unblocking_bind; [|intros; by apply unblocking_bind].
  apply unblocking_bind; [apply unblocking_lift|]. intros m. apply unblocking_bind; [apply unblocking_lift|]. intros fs.
  by apply unblocking_bind; [apply unblocking_disclose_all|].
Qed.

(** The findings a judgment comes with, returned or blocked. *)
Definition findings_of (r : result deck_exn (GovernedJudgment Q)) : option (list RegulatoryFinding) :=
  match r with
  | Ok j => Some (gj_findings j)
  | Err (RegulatoryBlock _ _ fs) => Some fs
  | Err _ => None
  end.

(** A judgment in full: what the lenses found, the conflicts between them, the
    escalations. *)
Lemma judge_ok cassette ep dk r dk' fs : judge_with cassette ep dk = (r, dk') -> findings_of r = Some fs ->
  exists parts m escalations,
    let found := concat parts in
    let all := (found ++ cross_lens_tier_conflicts found ++ escalations)%list in
    found_by ep (live_entries (dk_active dk)) = Ok parts /\ material_from_episode ep = Ok m /\
    cohort_equity_escalations latest_review (manifest_of cassette) m (dk_active dk) = Ok escalations /\
    fs = map snd all /\ on_record all dk dk' /\ is_ok r = negb (existsb is_block found).
Proof.
  unfold deck_judge. intros [(e & -> & E)|(q & dk0 & E0 & E)]%dop_bind_ok Hfs.
  { apply raising_ok in E as [E ->]. by destruct (judge_episode cassette ep); simplify_eq/=. }
  apply raising_ok in E0 as [_ ->]. apply dop_bind_ok in E as [(? & _ & [=])|(active & dk0 & E0 & E)]. injection E0 as <- <-.
  apply dop_bind_ok in E as [(e & -> & E)|(found & dk1 & E1 & E)].
  { apply unblocking_entries in E. by destruct e. }
  apply review_entries_ok in E1 as [R1 (parts & Hparts & ->)]. set (found := concat parts) in *.
  apply dop_bind_ok in E as [(e & -> & E)|(u & dk2 & E2 & E)]. { apply unblocking_disclose_all in E. by destruct e. }
  apply disclose_all_ok in E2. apply dop_bind_ok in E as [(e & -> & E)|(m & dk3 & E3 & E)].
  { apply raising_ok in E as [E _]. by destruct (material_from_episode ep); simplify_eq/=. }
  apply raising_ok in E3 as [Em ->]. apply dop_bind_ok in E as [(e & -> & E)|(esc & dk4 & E4 & E)].
  { apply raising_ok in E as [E _]. by destruct (cohort_equity_escalations _ _ _ _); simplify_eq/=. }
  apply raising_ok in E4 as [Eesc ->]. apply dop_bind_ok in E as [(e & -> & E)|(u5 & dk5 & E5 & E)].
  { apply unblocking_disclose_all in E. by destruct e. }
  apply disclose_all_ok in E5. exists parts, m, esc. cbv zeta. fold found. split_and!.
  - done.
  - by destruct (material_from_episode ep); simplify_eq/=.
  - by destruct (cohort_equity_escalations _ _ _ _); simplify_eq/=.
  - destruct (find is_block found) as [[e f]|]; injection E as <- _; by injection Hfs as <-.
  - destruct (find is_block found) as [[e f]|]; injection E as _ <-; eauto using on_record_app.
  - destruct (find is_block found) as [[e f]|] eqn:Ef; injection E as <- _.
    + apply find_some in Ef as [Hin Hb]. symmetry. apply negb_false_iff, existsb_exists. eauto.
    + symmetry. apply negb_true_iff. destruct (existsb is_block found) eqn:Ex; [|done].
      apply existsb_exists in Ex as (x & Hin & Hb). by rewrite (find_none _ _ Ef x Hin) in Hb.
Qed.

(* ------------------------------------------------------------------ *)
(** ** Conflicts and escalations only flag *)

Lemma dset_elem {A} (d : dict A) k w k0 w0 : (k0, w0) ∈ dset d k w -> (k0, w0) ∈ d \/ w0 = w.
Proof.
  induction d as [|[k1 w1] d IH]; simpl; [rewrite list_elem_of_singleton; intros [= _ ->]; by right|].
  destruct (String.eqb k1 k); rewrite !elem_of_cons; intros [Heq|Hin]; try (injection Heq as -> ->); auto.
  destruct (IH Hin); auto.
Qed.

Lemma claims_from (found : list noted) (by_variable : dict (dict noted)) v claims ef :
  (forall v claims ef, (v, claims) ∈ by_variable -> ef ∈ map snd claims -> ef ∈ found) ->
  forall l, Forall (fun x => x ∈ found) l ->
  (v, claims) ∈ fold_left add_claim l by_variable -> ef ∈ map snd claims -> ef ∈ found.
Proof.
  intros Hb l. revert by_variable Hb. induction l as [|x l IH]; intros by_variable Hb Hl; [apply Hb|].
  apply Forall_cons in Hl as [Hx Hl]. cbn [fold_left]. apply IH; [|done]. clear IH v claims ef. intros v claims ef Hin He.
  unfold add_claim in Hin. destruct (claim_of (snd x)) as [[v' t]|]; [|by eapply Hb].
  destruct (dset_elem _ _ _ _ _ Hin) as [Hold| ->]; [by eapply Hb|].
  apply list_elem_of_fmap in He as ([i ef'] & -> & He). destruct (dset_elem _ _ _ _ _ He) as [He'| ->]; [|done].
  destruct (dget by_variable v') as [c|] eqn:Ed; [|by apply elem_of_nil in He'].
  apply (Hb v' c); [by apply dget_Some_elem|]. by apply (list_elem_of_fmap_2 snd) in He'.
Qed.

Lemma fold_claim_in rest acc : snd (fold_left fold_claim rest acc) ∈ snd acc :: rest.
Proof.
  revert acc. induction rest as [|ef rest IH]; intros [t w]; cbn [fold_left snd]; [apply list_elem_of_here|].
  specialize (IH (fold_claim (t, w) ef)). apply elem_of_cons in IH as [->|IH]; [|by do 2 apply list_elem_of_further].
  cbn. destruct (String.eqb _ t); [apply list_elem_of_here|apply list_elem_of_further, list_elem_of_here].
Qed.

Lemma conflict_flags found ef : ef ∈ cross_lens_tier_conflicts found ->
  f_action (snd ef) = ACTION_FLAG /\ fst ef ∈ map fst found.
Proof.
  unfold cross_lens_tier_conflicts. rewrite list_elem_of_omap. intros ([v claims] & Hin & Hc). rewrite elem_of_sort in Hin.
  unfold conflict_of in Hc. destruct (map snd (sort key_leb claims)) as [|first rest] eqn:El; [done|].
  pose proof (fold_claim_in rest (tier_of first, first)) as Hw. destruct (fold_left fold_claim rest _) as [t w]. cbn [snd] in Hw.
  destruct (_ <? 2)%nat; [done|]. injection Hc as <-. cbn [fst snd f_action]. split; [done|].
  apply (list_elem_of_fmap_2 fst _ w). apply (claims_from found [] v claims w) with (l := found); [| |done|].
  - intros ? ? ? Hn. by apply elem_of_nil in Hn.
  - by apply Forall_forall.
  - rewrite <- El in Hw. apply list_elem_of_fmap in Hw as (x & -> & Hx). apply elem_of_sort in Hx. by apply list_elem_of_fmap_2.
Qed.

Lemma escalation_flags cassette m active esc ef :
  cohort_equity_escalations latest_review cassette m active = Ok esc -> ef ∈ esc ->
  f_action (snd ef) = ACTION_FLAG /\ fst ef ∈ live_entries active.
Proof.
  unfold cohort_equity_escalations. destruct latest_review as [latest|]; [|by intros [= <-] ?%elem_of_nil].
  destruct (negb _); [by intros [= <-] ?%elem_of_nil|]. destruct (get_maturation_rule cassette) as [[rule|]|];
    [|done|by intros [= <-] ?%elem_of_nil]. cbn [mbind result_bind].
  destruct (latest _ _) as [[r|]|]; [|by intros [= <-] ?%elem_of_nil..].
  intros E Hin. bind_ok E d4 E4. bind_ok E d5 E5. bind_ok E d6 E6. bind_ok E parts Ep. injection E as <-.
  apply list_elem_of_In, in_concat in Hin as (part & Hpart & Hin). apply list_elem_of_In in Hpart, Hin.
  apply mapM_r_Ok in Ep. destruct (Forall2_elem_r _ _ _ _ Ep Hpart) as (e & He & Hesc). unfold escalation in Hesc.
  destruct (c2_rollup (il_lens e)); [|by injection Hesc as <-; apply elem_of_nil in Hin]. bind_ok Hesc ru Er.
  injection Hesc as <-. destruct (negb _); [by apply elem_of_nil in Hin|]. by apply list_elem_of_singleton in Hin as ->.
Qed.

Lemma found_by_live ep es parts ef : found_by ep es = Ok parts -> ef ∈ concat parts -> fst ef ∈ es.
Proof.
  intros Hp Hin. apply list_elem_of_In, in_concat in Hin as (part & Hpart & Hin). apply list_elem_of_In in Hpart, Hin.
  apply mapM_r_Ok in Hp. destruct (Forall2_elem_r _ _ _ _ Hp Hpart) as (e & He & Hf). bind_ok Hf m Em. bind_ok Hf fs Ef.
  injection Hf as <-. by apply list_elem_of_fmap in Hin as (f & -> & _).
Qed.

Lemma blocks_findings l : existsb is_block l =
  existsb (fun f => String.eqb (f_action f) ACTION_BLOCK) (map (@snd InsertedLens RegulatoryFinding) l).
Proof. induction l as [|ef l IH]; [done|]. cbn [map existsb]. rewrite IH. reflexivity. Qed.

(** C4 (nothing acts before it is disclosed): when a judgment is returned or
    blocked, the findings it comes with are exactly those of the new rows of
    the ledger, one disclosure each and in order, under a lens that is live;
    no active lens changed; and it is blocked exactly when one of the findings
    asks for a block. *)
Theorem judge_discloses_first cassette ep dk r dk' fs : judge_with cassette ep dk = (r, dk') -> findings_of r = Some fs ->
  exists found rows, fs = map snd found /\ Forall (fun ef => fst ef ∈ live_entries (dk_active dk)) found /\
    l_rows (dk_ledger dk') = (l_rows (dk_ledger dk) ++ rows)%list /\ Forall2 disclosed found rows /\
    dk_active dk' = dk_active dk /\ is_ok r = negb (existsb (fun f => String.eqb (f_action f) ACTION_BLOCK) fs).
Proof.
  intros Hj Hfs. destruct (judge_ok _ _ _ _ _ _ Hj Hfs) as (parts & m & esc & Hp & Hm & He & -> & [Ha (rows & Hr & Hd)] & Hok).
  eexists _, rows. split_and!; [done| |done|done|done|].
  - apply Forall_forall. intros ef Hin. rewrite !elem_of_app in Hin. destruct Hin as [Hin|[Hin|Hin]].
    + by eapply found_by_live.
    + apply conflict_flags in Hin as [_ Hin]. apply list_elem_of_fmap in Hin as (ef' & -> & Hin). by eapply found_by_live.
    + by apply (escalation_flags _ _ _ _ _ He Hin).
  - rewrite Hok. f_equal. rewrite !map_app, !existsb_app.
    assert (Hflag : forall l, Forall (fun ef => f_action (snd ef) = ACTION_FLAG) l ->
      existsb (fun f => String.eqb (f_action f) ACTION_BLOCK) (map (@snd InsertedLens RegulatoryFinding) l) = false).
    { induction 1 as [|ef l Hf _ IH]; [done|]. cbn [map existsb]. by rewrite Hf, IH. }
    rewrite <- blocks_findings, !Hflag, !orb_false_r; [done|..].
    + apply Forall_forall. intros ef Hin. by apply (escalation_flags _ _ _ _ _ He Hin).
    + apply Forall_forall. intros ef Hin. by apply (conflict_flags _ _ Hin).
Qed.

(** C34 (an explanation reports what a judgment discloses): whenever a judgment
    is returned or blocked, an explanation of the same episode by the same deck
    that the kernel can give adds to the kernel's factors exactly the findings
    of the judgment, in order. *)
Theorem explain_agrees_with_judge cassette ep dk r dk' fs factors :
  judge_with cassette ep dk = (r, dk') -> findings_of r = Some fs -> explain_episode cassette ep = Ok factors ->
  exists lenses, length lenses = length fs /\
    explain_with cassette ep dk =
      Ok (map kernel_factor factors ++ map (fun lf => regulatory_factor (fst lf) (snd lf)) (combine lenses fs))%list.
Proof.
  intros Hj Hfs Hx. destruct (judge_ok _ _ _ _ _ _ Hj Hfs) as (parts & m & esc & Hp & Hm & He & -> & _ & _).
  set (all := (concat parts ++ cross_lens_tier_conflicts (concat parts) ++ esc)%list) in *.
  exists (map (fun ef => il_identity (fst ef)) all). split; [by rewrite !length_map|].
  unfold deck_explain. rewrite Hx. cbn [map_err mbind result_bind]. rewrite Hm. cbn [map_err mbind result_bind].
  assert (Hparts : mapM_r (fun e => fs ← run_review (il_lens e) m; Ok (map (pair e) fs)) (live_entries (dk_active dk)) = Ok parts).
  { rewrite <- Hp. unfold found_by. rewrite Hm. done. }
  rewrite Hparts. cbn [map_err mbind result_bind]. rewrite He. cbn [map_err mbind result_bind]. fold all. do 2 f_equal.
  clear. induction all as [|[e f] all IH]; [done|]. cbn [map combine]. by rewrite <- IH.
Qed.

(* ------------------------------------------------------------------ *)
(** ** What is active is on record *)

(** The rows a lens leaves when it is inserted. *)
Definition bound_row (identity cassette_hash : string) (r : row) : Prop :=
  vget r "record_kind" = VStr "cassette_binding" /\ vget r "cassette_version" = VStr identity /\
  vget r "cassette_hash" = VStr cassette_hash.
Definition inserted_row (e : InsertedLens) (r : row) : Prop :=
  vget r "record_kind" = VStr "regulatory_cassette_inserted" /\ vget r "cassette_version" = VStr (il_identity e) /\
  vget r "cassette_hash" = VStr (il_cassette_hash e) /\
  vget r "cassette_code_hash" = VStr (il_cassette_code_hash e) /\ vget r "authorized_by" = VStr (il_inserted_by e) /\
  vget r "reason" = VStr ("regulatory lens inserted (" +:+ il_mode e +:+ " mode)").
Definition on_file (rows : list row) (e : InsertedLens) : Prop :=
  (exists r, r ∈ rows /\ bound_row (il_identity e) (il_cassette_hash e) r) /\ exists r, r ∈ rows /\ inserted_row e r.

Lemma on_file_extends rows new e : on_file rows e -> on_file (rows ++ new) e.
Proof. intros [(r & Hr & Hb) (r' & Hr' & Hi)]. split; [exists r|exists r']; split; try done; apply elem_of_app; by left. Qed.

Definition deck_sound (dk : deck) : Prop :=
  NoDup (dkeys (dk_active dk)) /\
  forall k e, (k, e) ∈ dk_active dk -> il_identity e = k /\ on_file (l_rows (dk_ledger dk)) e.

(** A transaction only adds rows. *)
Lemma transact_extends {A} os now io (plan : list row -> result ledger_exn (list stmt * A)) l :
  exists new, l_rows (snd (transact os now io plan l)) = (l_rows l ++ new)%list.
Proof.
  destruct (transact os now io plan l) as [r l'] eqn:E. cbn [snd]. destruct (transact_cases _ _ _ _ _ _ _ E) as [[-> _]|(ss & ret & _ & _ & Hi & _)].
  - exists []. by rewrite app_nil_r.
  - destruct (inserted_length _ _ _ _ Hi) as (new & -> & _). by exists new.
Qed.

Lemma transact_grows {A} os now io (plan : list row -> result ledger_exn (list stmt * A)) l r l' :
  transact os now io plan l = (r, l') -> exists new, l_rows l' = (l_rows l ++ new)%list.
Proof. intros E. pose proof (transact_extends os now io plan l) as Hx. by rewrite E in Hx. Qed.

(** Operations that only add rows, and change no active lens. *)
Definition adds_only {A} (m : dop A) : Prop := forall dk, dk_active (snd (m dk)) = dk_active dk /\
  exists new, l_rows (dk_ledger (snd (m dk))) = (l_rows (dk_ledger dk) ++ new)%list.

Lemma adds_bind {A B} (m : dop A) (f : A -> dop B) : adds_only m -> (forall a, adds_only (f a)) -> adds_only (m ≫= f).
Proof.
  intros Hm Hf dk. unfold mbind, dop_bind. specialize (Hm dk). destruct (m dk) as [[a|e] dk1]; [|exact Hm].
  destruct Hm as [Ha (new & Hn)]. destruct (Hf a dk1) as [Ha' (new' & Hn')]. cbn in *. split; [congruence|].
  exists (new ++ new')%list. by rewrite Hn', Hn, app_assoc.
Qed.

Lemma adds_same {A} (m : dop A) : (forall dk, snd (m dk) = dk) -> adds_only m.
Proof. intros Hm dk. rewrite Hm. split; [done|]. exists []. by rewrite app_nil_r. Qed.

Lemma adds_on_ledger {A} (plan : os_view -> list row -> result ledger_exn (list stmt * A)) : adds_only (on_ledger conditions plan).
Proof.
  intros dk. unfold on_ledger. destruct (conditions _) as [[os now] io].
  pose proof (transact_extends os now io (plan os) (dk_ledger dk)) as Hx. by destruct (transact _ _ _ _ _).
Qed.

Lemma adds_disclose_all found : adds_only (disclose_all conditions found).
Proof.
  induction found as [|[e f] found IH]; [by apply adds_same|]. apply adds_bind; [|done]. apply adds_bind; [apply adds_on_ledger|].
  intros. by apply adds_same.
Qed.

Lemma adds_entries ep es : adds_only (review_entries conditions ep es).
Proof.
  induction es as [|e es IH]; [by apply adds_same|]. cbn [review_entries]. apply adds_bind; [|intros; apply adds_bind; [done|]; intros; by apply adds_same].
  unfold review_entry. repeat (apply adds_bind; [first [by apply adds_same|apply adds_disclose_all]|intros]). by apply adds_same.
Qed.

Lemma adds_judge cassette ep : adds_only (judge_with cassette ep).
Proof.
  unfold deck_judge. repeat (apply adds_bind; [first [by apply adds_same|apply adds_disclose_all|apply adds_entries]|intros]).
  destruct (find is_block _) as [[e f]|]; by apply adds_same.
Qed.

Lemma sound_adds {A} (m : dop A) dk : adds_only m -> deck_sound dk -> deck_sound (snd (m dk)).
Proof.
  intros Hm [Hd Hf]. destruct (Hm dk) as [Ha (new & Hn)]. split; [by rewrite Ha|]. intros k e Hin. rewrite Ha in Hin.
  destruct (Hf k e Hin) as [Hk Ho]. split; [done|]. rewrite Hn. by apply on_file_extends.
Qed.

Lemma bind_ok' os now io identity h ch who l ret l' :
  transact os now io (bind_cassette_version os identity h (Some ch) (Some who)) l = (Ok ret, l') ->
  exists r, r ∈ l_rows l' /\ bound_row identity h r.
Proof.
  intros Ht. destruct (transact_cases _ _ _ _ _ _ _ Ht) as [[Hl Hr]|(stmts & ret' & Hp & Hne & _ & _)].
  - specialize (Hr ret eq_refl). unfold bind_cassette_version in Hr. do 2 apply refuse_if_ok in Hr as [_ Hr].
    destruct (select _ _) as [r|] eqn:Es; [|bind_ok Hr sh Esh; by destruct sh].
    destruct (negb (py_eq (vget r "cassette_hash") (VStr h)) || _) eqn:Eb; [done|]. apply orb_false_iff in Eb as [Eb _].
    apply negb_false_iff, py_eq_str_r in Eb. apply find_some in Es as [Hin Hc]. apply andb_true_iff in Hc as [H1' H2'].
    exists r. rewrite Hl. split; [by apply list_elem_of_In|]. split_and!; [by apply py_eq_str_r..|done].
  - pose proof Hp as Hp2. unfold bind_cassette_version in Hp. do 2 apply refuse_if_ok in Hp as [_ Hp].
    destruct (select _ _) as [r|]; [by destruct (_ || _); simplify_eq/=|].
    bind_ok Hp sh Es. destruct sh as [s sh]. injection Hp as <- <-.
    destruct (transact_one _ _ _ _ _ _ _ _ _ Hp2 Ht) as (id & r & Hs & Hrows).
    unfold chain_row in Es. bind_ok Es sg Esig. injection Es as <- _.
    exists r. split; [rewrite Hrows; set_solver|]. split_and!.
    + exact (stored_native _ _ _ "record_kind" (C_VARCHAR 40) Hs eq_refl eq_refl).
    + exact (stored_native _ _ _ "cassette_version" (C_VARCHAR 200) Hs eq_refl eq_refl).
    + exact (stored_native _ _ _ "cassette_hash" (C_VARCHAR 64) Hs eq_refl eq_refl).
Qed.

Lemma event_ok os now io e l ret l' :
  transact os now io (record_regulatory_cassette_event os "regulatory_cassette_inserted" (il_identity e)
    (il_cassette_hash e) (Some (il_cassette_code_hash e)) (il_mode e) (il_regulation e) (il_inserted_by e)) l = (Ok ret, l') ->
  exists r, l_rows l' = (l_rows l ++ [r])%list /\ inserted_row e r.
Proof.
  intros Ht. destruct (transact_cases _ _ _ _ _ _ _ Ht) as [[Hl Hr]|(stmts & ret' & Hp & Hne & _ & _)].
  { specialize (Hr ret eq_refl). unfold record_regulatory_cassette_event in Hr. do 6 apply refuse_if_ok in Hr as [_ Hr].
    bind_ok Hr sh Es. by destruct sh. }
  pose proof Hp as Hp2. unfold record_regulatory_cassette_event in Hp. do 6 apply refuse_if_ok in Hp as [_ Hp].
  bind_ok Hp sh Es. destruct sh as [s sh]. injection Hp as <- <-.
  destruct (transact_one _ _ _ _ _ _ _ _ _ Hp2 Ht) as (id & r & Hs & Hrows).
  unfold chain_row in Es. bind_ok Es sg Esig. injection Es as <- _.
  exists r. split; [done|]. split_and!.
  - exact (stored_native _ _ _ "record_kind" (C_VARCHAR 40) Hs eq_refl eq_refl).
  - exact (stored_native _ _ _ "cassette_version" (C_VARCHAR 200) Hs eq_refl eq_refl).
  - exact (stored_native _ _ _ "cassette_hash" (C_VARCHAR 64) Hs eq_refl eq_refl).
  - exact (stored_native _ _ _ "cassette_code_hash" (C_VARCHAR 64) Hs eq_refl eq_refl).
  - exact (stored_native _ _ _ "authorized_by" (C_VARCHAR 120) Hs eq_refl eq_refl).
  - exact (stored_native _ _ _ "reason" C_TEXT Hs eq_refl eq_refl).
Qed.

Lemma insert_ok l mode by_ dk e dk' : insert conditions default_authorized_by l mode by_ dk = (Ok e, dk') ->
  il_lens e = l /\ il_mode e = mode /\ il_identity e ∉ dkeys (dk_active dk) /\
  (exists snap, validate_regulatory_cassette l = Ok snap /\ il_cassette_hash e = compute_cassette_hash (VDict snap)) /\
  dk_active dk' = dset (dk_active dk) (il_identity e) e /\ on_file (l_rows (dk_ledger dk')) e /\
  exists new, l_rows (dk_ledger dk') = (l_rows (dk_ledger dk) ++ new)%list.
Proof.
  unfold insert. intros E.
  apply dop_bind_ok in E as [(? & [=] & _)|(u1 & d1 & E1 & E)]. apply raising_ok in E1 as [_ ->].
  apply dop_bind_ok in E as [(? & [=] & _)|(snap & d1 & E1 & E)]. apply raising_ok in E1 as [Esnap ->].
  apply dop_bind_ok in E as [(? & [=] & _)|(decl & d1 & E1 & E)]. apply raising_ok in E1 as [_ ->].
  apply dop_bind_ok in E as [(? & [=] & _)|(u2 & d1 & E1 & E)]. apply raising_ok in E1 as [_ ->].
  apply dop_bind_ok in E as [(? & [=] & _)|(identity & d1 & E1 & E)]. apply raising_ok in E1 as [_ ->].
  apply dop_bind_ok in E as [(? & [=] & _)|(active & d1 & E1 & E)]. injection E1 as <- <-.
  apply dop_bind_ok in E as [(? & [=] & _)|(u3 & d1 & E1 & E)]. apply raising_ok in E1 as [Emem ->].
  apply dop_bind_ok in E as [(? & [=] & _)|(u4 & d1 & E1 & E)]. apply raising_ok in E1 as [_ ->].
  apply dop_bind_ok in E as [(? & [=] & _)|(ret1 & d1 & E1 & E)].
  apply dop_bind_ok in E as [(? & [=] & _)|(ret2 & d2 & E2 & E)].
  apply dop_bind_ok in E as [(? & [=] & _)|(active & d3 & E3 & E)]. injection E3 as <- <-.
  injection E as <- <-. cbn [il_lens il_mode il_identity il_cassette_hash dk_active dk_ledger].
  destruct (on_ledger_ok _ _ _ _ E1) as (os1 & now1 & io1 & l1 & T1 & ->).
  destruct (on_ledger_ok _ _ _ _ E2) as (os2 & now2 & io2 & l2 & T2 & ->). cbn [dk_active dk_ledger] in *.
  destruct (transact_grows _ _ _ _ _ _ _ T1) as [n1 X1].
  destruct (bind_ok' _ _ _ _ _ _ _ _ _ _ T1) as (r1 & Hr1 & Hb).
  match goal with |- context [dset _ _ ?entry] => destruct (event_ok os2 now2 io2 entry l1 ret2 l2 T2) as (r2 & Hr2 & Hi) end.
  split_and!; [done|done| | |done| |].
  - rewrite <- dmem_keys. by destruct (dmem (dk_active dk) identity).
  - exists snap. split; [|done]. by destruct (validate_regulatory_cassette l); simplify_eq/=.
  - rewrite Hr2. split; [exists r1|exists r2]; (split; [set_solver|done]).
  - exists (n1 ++ [r2])%list. by rewrite Hr2, X1, app_assoc.
Qed.

(** An operation that raises has only added rows. *)
Definition fails_safe {A} (m : dop A) : Prop := forall dk e dk', m dk = (Err e, dk') ->
  dk_active dk' = dk_active dk /\ exists new, l_rows (dk_ledger dk') = (l_rows (dk_ledger dk) ++ new)%list.

Lemma fails_safe_bind {A B} (m : dop A) (f : A -> dop B) : adds_only m -> (forall a, fails_safe (f a)) -> fails_safe (m ≫= f).
Proof.
  intros Hm Hf dk e dk' E. specialize (Hm dk). apply dop_bind_ok in E as [(e' & [= ->] & E)|(a & dk1 & E1 & E)].
  - by rewrite E in Hm.
  - rewrite E1 in Hm. destruct Hm as [Ha (new & Hn)]. destruct (Hf a _ _ _ E) as [Ha' (new' & Hn')]. cbn in *.
    split; [congruence|]. exists (new ++ new')%list. by rewrite Hn', Hn, app_assoc.
Qed.

Lemma insert_fails_safe l mode by_ : fails_safe (insert conditions default_authorized_by l mode by_).
Proof.
  unfold insert.
  repeat (apply fails_safe_bind; [first [by apply adds_same|apply adds_on_ledger]|intros]). by intros dk e dk'.
Qed.

Lemma remove_fails_safe identity by_ : fails_safe (remove conditions default_authorized_by identity by_).
Proof.
  unfold remove. apply fails_safe_bind; [by apply adds_same|]. intros active. destruct (dget active identity) as [e|].
  - repeat (apply fails_safe_bind; [first [by apply adds_same|apply adds_on_ledger]|intros]). by intros dk e' dk'.
  - intros dk e' dk' [= <- <-]. split; [done|]. exists []. by rewrite app_nil_r.
Qed.

Lemma remove_ok identity by_ dk u dk' : remove conditions default_authorized_by identity by_ dk = (Ok u, dk') ->
  dk_active dk' = ddel (dk_active dk) identity /\ exists new, l_rows (dk_ledger dk') = (l_rows (dk_ledger dk) ++ new)%list.
Proof.
  unfold remove. intros E. apply dop_bind_ok in E as [(? & [=] & _)|(active & d1 & E1 & E)]. injection E1 as <- <-.
  destruct (dget (dk_active dk) identity) as [e|]; [|done].
  apply dop_bind_ok in E as [(? & [=] & _)|(u2 & d1 & E1 & E)]. apply raising_ok in E1 as [_ ->].
  apply dop_bind_ok in E as [(? & [=] & _)|(ret & d1 & E1 & E)]. injection E as _ <-.
  destruct (on_ledger_ok _ _ _ _ E1) as (os & now & io & l' & Ht & ->). split; [done|]. by eapply transact_grows.
Qed.

(** The life of a deck: its own calls, and rows other writers add. *)
Inductive deck_call :=
| call_insert (l : RegulatoryCassette) (mode : string) (inserted_by : option string)
| call_remove (identity : string) (removed_by : option string)
| call_judge (cassette : C) (ep : Episode).

Definition after (c : deck_call) (dk : deck) : deck :=
  match c with
  | call_insert l mode by_ => snd (insert conditions default_authorized_by l mode by_ dk)
  | call_remove identity by_ => snd (remove conditions default_authorized_by identity by_ dk)
  | call_judge cassette ep => snd (judge_with cassette ep dk)
  end.

Inductive reached : deck -> Prop :=
| reached_new l n : reached (mkDeck [] l n)
| reached_call c dk : reached dk -> reached (after c dk)
| reached_other os now io w dk : reached dk ->
    reached (mkDeck (dk_active dk) (run_write os now io w (dk_ledger dk)) (dk_writes dk)).

Lemma dset_new {A} (d : dict A) k v : k ∉ dkeys d -> dset d k v = (d ++ [(k, v)])%list.
Proof.
  induction d as [|[k' v'] d IH]; simpl; [done|]. intros Hn. destruct (String.eqb_spec k' k) as [->|_]; [set_solver|].
  rewrite IH; [done|set_solver].
Qed.

Lemma after_sound c dk : deck_sound dk -> deck_sound (after c dk).
Proof.
  intros Hs. destruct c as [l mode by_|identity by_|cassette ep]; cbn [after]; [| |by apply sound_adds, Hs; apply adds_judge].
  - destruct (insert _ _ _ _ _ _) as [[e|e] dk'] eqn:E; cbn [snd].
    + destruct (insert_ok _ _ _ _ _ _ E) as (_ & _ & Hn & _ & Ha & Hf & (new & Hg)). destruct Hs as [Hd Hs].
      split; [rewrite Ha; by apply NoDup_dset|]. intros k e' Hin. rewrite Ha in Hin.
      rewrite dset_new in Hin by done. apply elem_of_app in Hin as [Hold|Hin].
      * destruct (Hs k e' Hold) as [Hk Ho]. split; [done|]. rewrite Hg. by apply on_file_extends.
      * apply list_elem_of_singleton in Hin as [= -> ->]. done.
    + destruct (insert_fails_safe _ _ _ _ _ _ E) as [Ha (new & Hg)]. destruct Hs as [Hd Hs]. split; [by rewrite Ha|].
      intros k e' Hin. rewrite Ha in Hin. destruct (Hs k e' Hin) as [Hk Ho]. split; [done|]. rewrite Hg. by apply on_file_extends.
  - assert (Hg : (dk_active (snd (remove conditions default_authorized_by identity by_ dk)) = ddel (dk_active dk) identity \/
        dk_active (snd (remove conditions default_authorized_by identity by_ dk)) = dk_active dk) /\
      exists new, l_rows (dk_ledger (snd (remove conditions default_authorized_by identity by_ dk))) = (l_rows (dk_ledger dk) ++ new)%list).
    { destruct (remove _ _ _ _ _) as [[u|e] dk'] eqn:E; cbn [snd].
      - destruct (remove_ok _ _ _ _ _ E). auto.
      - destruct (remove_fails_safe _ _ _ _ _ E). auto. }
    destruct Hg as [Ha (new & Hg)]. destruct Hs as [Hd Hs]. split; [destruct Ha as [-> | ->]; [by apply ddel_nodup|done]|].
    intros k e' Hin. assert (Hold : (k, e') ∈ dk_active dk) by (destruct Ha as [Ha|Ha]; rewrite Ha in Hin; [by eapply ddel_elem|done]).
    destruct (Hs k e' Hold) as [Hk Ho]. split; [done|]. rewrite Hg. by apply on_file_extends.
Qed.

Lemma reached_sound dk : reached dk -> deck_sound dk.
Proof.
  induction 1 as [l n|c dk _ IH|os now io w dk _ [Hd Hs]]; [|by apply after_sound|].
  - split; [constructor|]. intros k e Hin. by apply elem_of_nil in Hin.
  - split; [done|]. intros k e Hin. destruct (Hs k e Hin) as [Hk Ho]. split; [done|]. unfold LedgerHistory.run. cbn [dk_ledger].
    destruct (transact_extends os now io (planned loads verify_governed_decision os now w) (dk_ledger dk)) as [new ->].
    by apply on_file_extends.
Qed.

(** C8 (what is active is on record): at every moment of a deck's life, whatever
    calls raised and whatever others wrote to the ledger in between, no
    identity is active twice, and every active lens has on the ledger the
    binding of its identity to its content hash and the row of its insertion,
    with its mode, its hashes and who inserted it. *)
Theorem active_lens_on_record dk k e : reached dk -> (k, e) ∈ dk_active dk ->
  NoDup (dkeys (dk_active dk)) /\ il_identity e = k /\ on_file (l_rows (dk_ledger dk)) e.
Proof. intros Hr Hin. destruct (reached_sound dk Hr) as [Hd Hs]. split; [done|]. by apply Hs. Qed.

(** C35 (a changed lens is refused): if the identity of a valid lens was bound to
    other content, or to other code, inserting it in any mode and by anyone
    raises, no lens becomes active and nothing is written. *)
Theorem changed_lens_refused l mode by_ dk identity snap r :
  validate_regulatory_cassette l = Ok snap -> regulatory_cassette_version_of l = Ok identity ->
  select (fun r => col_is "record_kind" (VStr "cassette_binding") r && col_is "cassette_version" (VStr identity) r)
    (l_rows (dk_ledger dk)) = Some r ->
  vget r "cassette_hash" <> VStr (compute_cassette_hash (VDict snap)) \/
    (exists c, vget r "cassette_code_hash" = VStr c /\ c <> sha256 (code_text l)) ->
  exists e dk', insert conditions default_authorized_by l mode by_ dk = (Err e, dk') /\
    dk_active dk' = dk_active dk /\ dk_ledger dk' = dk_ledger dk.
Proof.
  intros Hsnap Hid Hsel Hne. unfold insert, mbind, dop_bind, deck_refuse, raising. cbv beta.
  destruct (negb (str_mem mode REGULATORY_MODES)); [by do 2 eexists|]. rewrite Hsnap. cbn [map_err].
  destruct (modes l) as [decl|]; cbn [map_err]; [|by do 2 eexists].
  destruct (negb (str_mem mode decl)); [by do 2 eexists|]. rewrite Hid. cbn [map_err]. unfold active_lenses.
  destruct (dmem (dk_active dk) identity); [by do 2 eexists|].
  destruct (blank (who_of default_authorized_by by_)) eqn:Ew; [by do 2 eexists|].
  unfold on_ledger at 1. destruct (conditions (dk_writes dk)) as [[os now] io].
  assert (Hp : exists e, bind_cassette_version os identity (compute_cassette_hash (VDict snap)) (Some (sha256 (code_text l)))
    (Some (who_of default_authorized_by by_)) (l_rows (dk_ledger dk)) = Err e).
  { unfold bind_cassette_version, refuse_if. destruct (negb (str_true identity)); [by eexists|].
    cbn [mbind result_bind]. destruct (negb (str_true _)); [by eexists|]. cbn [mbind result_bind]. rewrite Hsel.
    destruct (_ || _) eqn:Eb; [by eexists|]. exfalso. apply orb_false_iff in Eb as [E1 E2].
    apply negb_false_iff, py_eq_str_r in E1. destruct Hne as [Hne|(c & Hc & Hne)]; [done|]. rewrite Hc in E2. cbn in E2.
    apply negb_false_iff, String.eqb_eq in E2. done. }
  destruct Hp as [e Hp]. unfold transact. rewrite Hp. by do 2 eexists.
Qed.

(* ------------------------------------------------------------------ *)
(** ** Decide, log, act *)

(** The specification of a call of the deck: what it decides from what is
    active, as the calls of the ledger's writers it makes, one after another;
    the answer when all of them succeed; and the change of the active lenses
    then. *)
Inductive deck_answer :=
| inserted (e : InsertedLens)
| removed
| judged (g : GovernedJudgment Q).

Record script := mkScript {
  sc_writes : list write;
  sc_answer : result deck_exn deck_answer;
  sc_active : dict InsertedLens;
}.

(** The calls in order, up to the first that raises. *)
Fixpoint attempt (n : nat) (ws : list write) (l : ledger) : result ledger_exn unit * ledger * nat :=
  match ws with
  | [] => (Ok tt, l, n)
  | w :: ws =>
      let '(os, now, anchor_io) := conditions n in
      match transact os now anchor_io (planned loads verify_governed_decision os now w) l with
      | (Ok _, l') => attempt (S n) ws l'
      | (Err e, l') => (Err e, l', S n)
      end
  end.

Definition carry_out (sc : script) (dk : deck) : result deck_exn deck_answer * deck :=
  match attempt (dk_writes dk) (sc_writes sc) (dk_ledger dk) with
  | (Ok _, l, n) => (sc_answer sc, mkDeck (sc_active sc) l n)
  | (Err e, l, n) => (Err (DLedger e), mkDeck (dk_active dk) l n)
  end.

(** Insertion: every check, then the binding, the event, the lens. *)
Definition inserts (l : RegulatoryCassette) (mode : string) (by_ : option string) (active : dict InsertedLens)
    : result deck_exn InsertedLens :=
  if negb (str_mem mode REGULATORY_MODES) then Err (DPy ValueError) else
  match validate_regulatory_cassette l, modes l with
  | Err e, _ => Err (DLens e)
  | _, Err e => Err (DLens e)
  | Ok snap, Ok declared =>
      if negb (str_mem mode declared) then Err (DPy ValueError) else
      match regulatory_cassette_version_of l with
      | Err e => Err (DLens e)
      | Ok identity =>
          if dmem active identity || blank (who_of default_authorized_by by_) then Err (DPy ValueError) else
          Ok (mkInserted identity l mode (py_str (vget snap "regulation")) (compute_cassette_hash (VDict snap))
                (sha256 (code_text l)) (who_of default_authorized_by by_))
      end
  end.

Definition event_of (event : string) (e : InsertedLens) (who : string) : write :=
  w_cassette_event event (il_identity e) (il_cassette_hash e) (Some (il_cassette_code_hash e)) (il_mode e)
    (il_regulation e) who.
Definition binding_of (e : InsertedLens) : write :=
  w_bind (il_identity e) (il_cassette_hash e) (Some (il_cassette_code_hash e)) (Some (il_inserted_by e)).

Definition refused_script (dk : deck) (e : deck_exn) : script := mkScript [] (Err e) (dk_active dk).

(** Judgment: the reviews of the live lenses, up to the first that raises. *)
Fixpoint reviewed (ep : Episode) (es : list InsertedLens) : list noted * option pyexn :=
  match es with
  | [] => ([], None)
  | e :: es =>
      match m ← material_from_episode ep; run_review (il_lens e) m with
      | Err x => ([], Some x)
      | Ok fs => let '(rest, x) := reviewed ep es in ((map (pair e) fs ++ rest)%list, x)
      end
  end.

Definition judgment (cassette : C) (ep : Episode) (active : dict InsertedLens)
    : list noted * result deck_exn (GovernedJudgment Q) :=
  match judge_episode cassette ep with
  | Err e => ([], Err (DEpisode e))
  | Ok quality =>
      match reviewed ep (live_entries active) with
      | (found, Some x) => (found, Err (DPy x))
      | (found, None) =>
          let conflicts := cross_lens_tier_conflicts found in
          match m ← material_from_episode ep; cohort_equity_escalations latest_review (manifest_of cassette) m active with
          | Err x => ((found ++ conflicts)%list, Err (DPy x))
          | Ok escalations =>
              let all := (found ++ conflicts ++ escalations)%list in
              (all, match find is_block found with
                    | Some (e, _) => Err (RegulatoryBlock (il_identity e) (il_regulation e) (map snd all))
                    | None => Ok (mkJudgment quality (map snd all))
                    end)
          end
      end
  end.

(** What a call of the deck is to do. *)
Definition script_of (c : deck_call) (dk : deck) : script :=
  match c with
  | call_insert l mode by_ =>
      match inserts l mode by_ (dk_active dk) with
      | Err e => refused_script dk e
      | Ok e => mkScript [binding_of e; event_of "regulatory_cassette_inserted" e (il_inserted_by e)] (Ok (inserted e))
                  (dset (dk_active dk) (il_identity e) e)
      end
  | call_remove identity by_ =>
      match dget (dk_active dk) identity with
      | None => refused_script dk (DPy KeyError)
      | Some e =>
          let who := who_of default_authorized_by by_ in
          if blank who then refused_script dk (DPy ValueError) else
          mkScript [w_cassette_event "regulatory_cassette_removed" identity (il_cassette_hash e)
                      (Some (il_cassette_code_hash e)) (il_mode e) (il_regulation e) who]
            (Ok removed) (ddel (dk_active dk) identity)
      end
  | call_judge cassette ep =>
      let '(found, r) := judgment cassette ep (dk_active dk) in
      mkScript (map disclosure_of found) (match r with Ok g => Ok (judged g) | Err e => Err e end) (dk_active dk)
  end.

Definition with_answer {A} (f : A -> deck_answer) (x : result deck_exn A * deck) : result deck_exn deck_answer * deck :=
  (match fst x with Ok a => Ok (f a) | Err e => Err e end, snd x).

(** A call of the code. *)
Definition run_call (c : deck_call) (dk : deck) : result deck_exn deck_answer * deck :=
  match c with
  | call_insert l mode by_ => with_answer inserted (insert conditions default_authorized_by l mode by_ dk)
  | call_remove identity by_ => with_answer (fun _ => removed) (remove conditions default_authorized_by identity by_ dk)
  | call_judge cassette ep => with_answer judged (judge_with cassette ep dk)
  end.

(** The calls as one operation. *)
Definition logs (ws : list write) : dop unit := fun dk =>
  let '(r, l, n) := attempt (dk_writes dk) ws (dk_ledger dk) in (map_err DLedger r, mkDeck (dk_active dk) l n).

Lemma attempt_app n ws ws' l : attempt n (ws ++ ws') l =
  match attempt n ws l with (Ok _, l', n') => attempt n' ws' l' | (Err e, l', n') => (Err e, l', n') end.
Proof.
  revert n l. induction ws as [|w ws IH]; intros n l; [done|]. cbn [app attempt]. destruct (conditions n) as [[os now] io].
  destruct (transact _ _ _ _ _) as [[u|e] l']; [apply IH|done].
Qed.

(** A writer of the deck is its call. *)
Lemma on_ledger_logs {A} (w : write) (plan : os_view -> list row -> result ledger_exn (list stmt * A)) {B} (f : dop B) dk :
  (forall os now rows, planned loads verify_governed_decision os now w rows = only_stmts (plan os rows)) ->
  (on_ledger conditions plan ≫= fun _ => f) dk = (logs [w] ≫= fun _ => f) dk.
Proof.
  intros Hp. unfold mbind, dop_bind, on_ledger, logs. cbn [attempt]. destruct (conditions (dk_writes dk)) as [[os now] io].
  unfold transact. rewrite Hp. unfold only_stmts. destruct (plan os (l_rows (dk_ledger dk))) as [[[|s ss] ret]|e];
    cbn [mbind result_bind map_err]; try done.
  destruct (insert_all _ _ _) as [[rows|] next]; [|done]. by destruct (anchor_head _ _ _ _).
Qed.

Lemma logs_nil {B} (f : dop B) dk : (logs [] ≫= fun _ => f) dk = f dk.
Proof. unfold mbind, dop_bind, logs. by destruct dk. Qed.

Lemma logs_app ws ws' {B} (f : dop B) dk :
  (logs ws ≫= fun _ => logs ws' ≫= fun _ => f) dk = (logs (ws ++ ws') ≫= fun _ => f) dk.
Proof.
  unfold mbind, dop_bind, logs. rewrite attempt_app. destruct (attempt (dk_writes dk) ws (dk_ledger dk)) as [[[u|e] l] n]; [|done].
  cbn [map_err dk_writes dk_ledger dk_active]. by destruct (attempt n ws' l) as [[[u'|e'] l'] n'].
Qed.

Lemma dop_assoc {A B D} (m : dop A) (f : A -> dop B) (g : B -> dop D) dk :
  ((m ≫= f) ≫= g) dk = (m ≫= fun a => f a ≫= g) dk.
Proof. unfold mbind, dop_bind. by destruct (m dk) as [[a|e] dk1]. Qed.

Lemma dop_ext {A B} (m : dop A) (f g : A -> dop B) dk : (forall a dk1, f a dk1 = g a dk1) -> (m ≫= f) dk = (m ≫= g) dk.
Proof. intros Hfg. unfold mbind, dop_bind. by destruct (m dk) as [[a|e] dk1]. Qed.

Lemma disclose_all_logs found {B} (f : dop B) dk :
  (disclose_all conditions found ≫= fun _ => f) dk = (logs (map disclosure_of found) ≫= fun _ => f) dk.
Proof.
  revert dk. induction found as [|[e x] found IH]; intros dk; [by rewrite logs_nil|]. cbn [disclose_all map].
  rewrite dop_assoc. unfold disclose. rewrite dop_assoc.
  rewrite (on_ledger_logs (disclosure_of (e, x)) _ (mret tt ≫= fun _ => disclose_all conditions found ≫= fun _ => f)) by done.
  rewrite (dop_ext _ _ (fun _ => logs (map disclosure_of found) ≫= fun _ => f)) by (intros; apply IH).
  apply logs_app.
Qed.

Lemma entries_log ep es {B} (f : list noted -> dop B) dk :
  (review_entries conditions ep es ≫= f) dk =
  (logs (map disclosure_of (fst (reviewed ep es))) ≫= fun _ =>
     match snd (reviewed ep es) with Some x => raising (Err (DPy x)) | None => f (fst (reviewed ep es)) end) dk.
Proof.
  revert f dk. induction es as [|e es IH]; intros f dk; cbn [review_entries reviewed]; [by rewrite logs_nil|].
  rewrite dop_assoc. unfold review_entry, lift_deck. rewrite dop_assoc.
  destruct (material_from_episode ep) as [m|x]; [|by rewrite logs_nil]. change ((raising (map_err DPy (Ok m)) ≫= ?g) dk) with (g m dk).
  cbv beta. cbn [mbind result_bind]. rewrite dop_assoc.
  destruct (run_review (il_lens e) m) as [fs|x]; [|by rewrite logs_nil].
  change ((raising (map_err DPy (Ok fs)) ≫= ?g) dk) with (g fs dk). cbv beta zeta. rewrite dop_assoc.
  etransitivity; [apply (dop_ext _ _ (fun _ => review_entries conditions ep es ≫= fun rest => f (map (pair e) fs ++ rest)%list));
    intros ? dk1; exact (dop_assoc _ _ _ dk1)|].
  etransitivity; [apply (disclose_all_logs (map (pair e) fs) (review_entries conditions ep es ≫= fun rest => f (map (pair e) fs ++ rest)%list))|].
  rewrite (dop_ext _ _ (fun _ => logs (map disclosure_of (fst (reviewed ep es))) ≫= fun _ =>
     match snd (reviewed ep es) with Some x => raising (Err (DPy x)) | None => f (map (pair e) fs ++ fst (reviewed ep es))%list end))
    by (intros; apply (IH (fun rest => f (map (pair e) fs ++ rest)%list))).
  rewrite logs_app. destruct (reviewed ep es) as [rest x]. cbn [fst snd]. by rewrite map_app.
Qed.

(** A script is its calls and then its answer. *)
Lemma carry_out_logs {A} (f : A -> deck_answer) ws (r : result deck_exn A) active dk : dk_active dk = active ->
  carry_out (mkScript ws (match r with Ok a => Ok (f a) | Err e => Err e end) active) dk =
  with_answer f ((logs ws ≫= fun _ => raising r) dk).
Proof.
  intros <-. unfold carry_out, logs, mbind, dop_bind, with_answer. cbn [sc_writes sc_answer sc_active].
  by destruct (attempt _ _ _) as [[[u|e] l] n].
Qed.

Lemma carry_out_refused dk e : carry_out (refused_script dk e) dk = (Err e, dk).
Proof. unfold carry_out. by destruct dk. Qed.

Lemma raise_bind {A B} (e : deck_exn) (f : A -> dop B) dk : (raising (Err e) ≫= f) dk = (Err e, dk).
Proof. done. Qed.
Lemma ok_bind {A B} (a : A) (f : A -> dop B) dk : (raising (Ok a) ≫= f) dk = f a dk.
Proof. done. Qed.
Lemma active_bind {B} (f : dict InsertedLens -> dop B) dk : (active_lenses ≫= f) dk = f (dk_active dk) dk.
Proof. done. Qed.

Lemma insert_refines l mode by_ dk :
  with_answer inserted (insert conditions default_authorized_by l mode by_ dk) =
  carry_out (script_of (call_insert l mode by_) dk) dk.
Proof.
  cbn [script_of]. unfold insert, inserts, deck_refuse.
  destruct (negb (str_mem mode REGULATORY_MODES)); [by rewrite raise_bind, carry_out_refused|]. rewrite ok_bind.
  destruct (validate_regulatory_cassette l) as [snap|e]; cbn [map_err]; [|by rewrite raise_bind, carry_out_refused]. rewrite ok_bind.
  destruct (modes l) as [declared|e]; cbn [map_err]; [|by rewrite raise_bind, carry_out_refused]. rewrite ok_bind.
  destruct (negb (str_mem mode declared)); [by rewrite raise_bind, carry_out_refused|]. rewrite ok_bind.
  destruct (regulatory_cassette_version_of l) as [identity|e]; cbn [map_err]; [|by rewrite raise_bind, carry_out_refused].
  rewrite ok_bind, active_bind.
  destruct (dmem (dk_active dk) identity); cbn [orb]; [by rewrite raise_bind, carry_out_refused|]. rewrite ok_bind.
  destruct (blank (who_of default_authorized_by by_)); [by rewrite raise_bind, carry_out_refused|]. rewrite ok_bind. cbv zeta.
  set (e := mkInserted _ _ _ _ _ _ _).
  erewrite (on_ledger_logs (binding_of e)) by done.
  erewrite dop_ext; [|intros ? ?; by apply (on_ledger_logs (event_of "regulatory_cassette_inserted" e (il_inserted_by e)))].
  rewrite logs_app. cbn [app]. unfold mbind, dop_bind, with_answer, carry_out, logs. cbn [sc_writes sc_answer sc_active].
  by destruct (attempt _ _ _) as [[[u|x] l'] n].
Qed.

Lemma remove_refines identity by_ dk :
  with_answer (fun _ => removed) (remove conditions default_authorized_by identity by_ dk) =
  carry_out (script_of (call_remove identity by_) dk) dk.
Proof.
  cbn [script_of]. unfold remove, deck_refuse. rewrite active_bind.
  destruct (dget (dk_active dk) identity) as [e|]; [|by rewrite carry_out_refused]. cbv zeta.
  destruct (blank (who_of default_authorized_by by_)); [by rewrite raise_bind, carry_out_refused|]. rewrite ok_bind.
  erewrite (on_ledger_logs (w_cassette_event "regulatory_cassette_removed" identity (il_cassette_hash e)
    (Some (il_cassette_code_hash e)) (il_mode e) (il_regulation e) (who_of default_authorized_by by_))) by done.
  unfold mbind, dop_bind, with_answer, carry_out, logs. cbn [sc_writes sc_answer sc_active].
  by destruct (attempt _ _ _) as [[[u|x] l'] n].
Qed.

(** A step that only hands over a value. *)
Ltac ok_step :=
  match goal with |- (?p ≫= fun _ => raising (Ok ?x) ≫= ?k) ?d = ?rhs =>
    change ((p ≫= fun _ => k x) d = rhs); cbv beta end.

(** A judgment is its disclosures, then its answer. *)
Lemma judge_logs cassette ep dk : judge_with cassette ep dk =
  (logs (map disclosure_of (fst (judgment cassette ep (dk_active dk)))) ≫= fun _ =>
     raising (snd (judgment cassette ep (dk_active dk)))) dk.
Proof.
  unfold deck_judge, judgment. destruct (judge_episode cassette ep) as [quality|e]; cbn [map_err]; [|by rewrite logs_nil].
  rewrite ok_bind, active_bind, entries_log.
  destruct (reviewed ep (live_entries (dk_active dk))) as [found [x|]]; cbn [fst snd]; [done|]. cbv zeta.
  erewrite dop_ext; [|intros ? ?; apply disclose_all_logs]. rewrite logs_app, <- map_app. unfold lift_deck.
  destruct (material_from_episode ep) as [m|x]; cbn [map_err mbind result_bind fst snd]; [|done].
  ok_step.
  destruct (cohort_equity_escalations latest_review (manifest_of cassette) m (dk_active dk)) as [esc|x];
    cbn [map_err fst snd]; [|done].
  ok_step.
  erewrite dop_ext; [|intros ? ?; apply disclose_all_logs]. rewrite logs_app, <- map_app, <- app_assoc.
  apply dop_ext. intros ? ?. by destruct (find is_block found) as [[e f]|].
Qed.

Lemma judge_refines cassette ep dk :
  with_answer judged (judge_with cassette ep dk) = carry_out (script_of (call_judge cassette ep) dk) dk.
Proof.
  rewrite judge_logs. cbn [script_of]. destruct (judgment cassette ep (dk_active dk)) as [found r]. cbn [fst snd].
  by rewrite (carry_out_logs judged).
Qed.

(** C33 (a deck decides, logs, then acts): every call of a deck, insertion,
    removal or judgment, whatever it returns or raises, is its script carried
    out on the ledger: a call that is refused calls no writer; an insertion makes
    exactly the content binding and then the insertion event, a removal
    exactly the removal event, a judgment exactly one disclosure per finding,
    of the lenses, of the conflicts between them and of the cohort escalations,
    in that order, or, when a review or the escalation raises, of the findings
    before it, and then that exception; the first write that raises ends the
    call with its error and leaves the active lenses as they were; and only
    after all of them do the active lenses change and does the answer, a block
    included, come. *)
Theorem deck_refines_script c dk : run_call c dk = carry_out (script_of c dk) dk.
Proof.
  destruct c as [l mode by_|identity by_|cassette ep]; cbn [run_call script_of].
  - apply insert_refines.
  - apply remove_refines.
  - apply judge_refines.
Qed.
End Judging.
End Facts.

(* ------------------------------------------------------------------ *)
(** ** A sample deck *)

#[local] Existing Instance sample_hashes.
#[local] Existing Instance sample_float_repr.
#[local] Existing Instance sample_cns.
#[local] Existing Instance sample_postgres.
#[local] Existing Instance quality_stub.

(** Patterns read as plain texts. *)
#[local] Instance sample_regex : Regex := {|
  re_search := fun p s => contains p s;
  re_search_case := fun _ _ => false;
  re_fullmatch := fun p s => (4 <? String.length s)%nat && contains s p;
|}.

Definition sample_conditions (n : nat) : os_view * string * bool := (os_after, "t" +:+ string_of_N (N.of_nat n), true).
Definition sample_lens (version : string) (block tiers : bool) : RegulatoryCassette :=
  CFPBRegBLens block tiers false version "class CFPBRegBLens: ...".
Definition no_manifest (_ : unit) : domain_manifest := mkManifest [] None.

Definition deck_0 : deck := mkDeck [] ledger_1 0.
Notation insert_sample := (insert sample_conditions (Some "auditor")).
Notation judge_sample := (deck_judge sample_conditions None no_manifest).
Definition deck_1 : deck := snd (insert_sample (sample_lens "1.0.0" true true) MODE_LIVE None deck_0).
Definition blocked_findings : list RegulatoryFinding :=
  match fst (judge_sample tt (downcoded ["denied"]) deck_1) with Err (RegulatoryBlock _ _ fs) => fs | _ => [] end.

Lemma blocked_by : fst (judge_sample tt (downcoded ["denied"]) deck_1) =
  Err (RegulatoryBlock "regulatory:cfpb-ecoa-reg-b:1.0.0" CFPB_REGULATION blocked_findings).
Proof. vm_compute. reflexivity. Qed.

Lemma blocked : exists dk, deck_judge sample_conditions None no_manifest tt (downcoded ["denied"]) deck_1 =
  (Err (RegulatoryBlock "regulatory:cfpb-ecoa-reg-b:1.0.0" CFPB_REGULATION blocked_findings), dk).
Proof.
  pose proof blocked_by as Hb. destruct (deck_judge _ _ _ _ _ _) as [r dk]. exists dk. cbn [fst] in Hb. by rewrite Hb.
Qed.

Lemma judge_discloses_first_witness :
  map f_action blocked_findings = [ACTION_BLOCK; ACTION_FLAG; ACTION_FLAG] /\
  exists dk found rows, deck_judge sample_conditions None no_manifest tt (downcoded ["denied"]) deck_1 =
      (Err (RegulatoryBlock "regulatory:cfpb-ecoa-reg-b:1.0.0" CFPB_REGULATION blocked_findings), dk) /\
    l_rows (dk_ledger dk) = (l_rows (dk_ledger deck_1) ++ rows)%list /\ Forall2 disclosed found rows /\
    blocked_findings = map snd found.
Proof.
  split; [vm_compute; reflexivity|]. destruct blocked as [dk Hdk].
  destruct (judge_discloses_first sample_conditions no_manifest None tt (downcoded ["denied"]) deck_1 _ dk blocked_findings Hdk eq_refl)
    as (found & rows & Hf & _ & Hr & Hd & _). exists dk, found, rows.
  split; [exact Hdk|]. split; [exact Hr|]. split; [exact Hd|exact Hf].
Defined.

Lemma explain_agrees_with_judge_witness :
  exists lenses, length lenses = 3 /\
    deck_explain None no_manifest tt (downcoded ["denied"]) deck_1 =
      Ok (map kernel_factor (match explain_episode tt (downcoded ["denied"]) with Ok l => l | Err _ => [] end) ++
          map (fun lf => regulatory_factor (fst lf) (snd lf)) (combine lenses blocked_findings))%list.
Proof.
  destruct blocked as [dk Hdk].
  assert (Hx : explain_episode tt (downcoded ["denied"]) =
    Ok (match explain_episode tt (downcoded ["denied"]) with Ok l => l | Err _ => [] end)) by (vm_compute; reflexivity).
  destruct (explain_agrees_with_judge sample_conditions no_manifest None tt (downcoded ["denied"]) deck_1 _ dk blocked_findings _ Hdk eq_refl Hx)
    as (lenses & Hl & He). exists lenses. split; [|exact He]. rewrite Hl. vm_compute. reflexivity.
Defined.

(** Insertion, a blocked judgment, removal, another mode; another writer in between. *)
Definition sample_calls : list (deck_call (C := unit)) :=
  [call_insert (sample_lens "1.0.0" true true) MODE_LIVE None; call_judge tt (downcoded ["denied"]);
   call_remove "regulatory:cfpb-ecoa-reg-b:1.0.0" None; call_insert (sample_lens "1.0.0" true true) MODE_OBSERVER (Some "second");
   call_insert (sample_lens "1.0.0" false true) MODE_LIVE None].
Definition after_all (dk : deck) : deck :=
  fold_left (fun dk c => after sample_conditions (Some "auditor") no_manifest None c dk) sample_calls dk.

Lemma after_all_reached dk :
  reached no_loads no_boundary sample_conditions (Some "auditor") no_manifest None dk ->
  reached no_loads no_boundary sample_conditions (Some "auditor") no_manifest None (after_all dk).
Proof. intros Hr. unfold after_all, sample_calls. cbn [fold_left]. by do 5 apply reached_call. Qed.

Lemma active_after : map (fun ke => (fst ke, il_mode (snd ke))) (dk_active (after_all deck_0)) =
  [("regulatory:cfpb-ecoa-reg-b:1.0.0", MODE_OBSERVER)].
Proof. vm_compute. reflexivity. Qed.

(** The last insertion has other content under the same version: refused. *)
Lemma active_lens_on_record_witness :
  exists k e, dk_active (after_all deck_0) = [(k, e)] /\ il_mode e = MODE_OBSERVER /\
    on_file (l_rows (dk_ledger (after_all deck_0))) e.
Proof.
  pose proof active_after as Ha. set (dk := after_all deck_0) in *.
  assert (Hr : reached no_loads no_boundary sample_conditions (Some "auditor") no_manifest None dk)
    by (apply after_all_reached, reached_new).
  clearbody dk. destruct (dk_active dk) as [|[k e] [|]] eqn:E; [discriminate Ha| |discriminate Ha].
  injection Ha as _ Hm. exists k, e. split; [reflexivity|]. split; [exact Hm|].
  destruct (active_lens_on_record no_loads no_boundary sample_conditions (Some "auditor") no_manifest None dk k e Hr) as (_ & _ & Hf).
  - rewrite E. apply list_elem_of_here.
  - exact Hf.
Defined.

Definition other_snapshot : dict pyval :=
  match validate_regulatory_cassette (sample_lens "1.0.0" false true) with Ok s => s | Err _ => [] end.
Definition first_binding : row := nth 1 (l_rows (dk_ledger deck_1)) [].

Lemma changed_lens_refused_witness :
  exists e dk', insert sample_conditions (Some "auditor") (sample_lens "1.0.0" false true) MODE_LIVE (Some "someone") deck_1 = (Err e, dk') /\
    dk_active dk' = dk_active deck_1 /\ dk_ledger dk' = dk_ledger deck_1.
Proof.
  assert (Hv : validate_regulatory_cassette (sample_lens "1.0.0" false true) = Ok other_snapshot) by (vm_compute; reflexivity).
  assert (Hi : regulatory_cassette_version_of (sample_lens "1.0.0" false true) = Ok "regulatory:cfpb-ecoa-reg-b:1.0.0")
    by (vm_compute; reflexivity).
  assert (Hb : select (fun r => col_is "record_kind" (VStr "cassette_binding") r &&
    col_is "cassette_version" (VStr "regulatory:cfpb-ecoa-reg-b:1.0.0") r) (l_rows (dk_ledger deck_1)) = Some first_binding)
    by (vm_compute; reflexivity).
  assert (Hne : vget first_binding "cassette_hash" <> VStr (compute_cassette_hash (VDict other_snapshot)))
    by (vm_compute; discriminate).
  exact (changed_lens_refused sample_conditions (Some "auditor") _ MODE_LIVE (Some "someone") deck_1 _ _ _ Hv Hi Hb (or_introl Hne)).
Defined.
