(* ===== verification/DeckRuns.v ===== *)
(** * DeckRuns: the deck, the sweep and the twin together

    A deck that reads the latest cohort review from the replica the sweep
    recorded it on: what an unreachable twin changes, and what a review of too
    small a cohort does to a live decision. *)

From S2P Require Import Prelude PyFloat PyValue Episode Event Outcome Json Canonical Attestation HeadAnchor LedgerDb Ledger LedgerVerify Witness LedgerHistory TwinReceiver TwinSafe Regulatory CohortChecks CohortSweep CohortSweepFacts Lens Deck DeckFacts.
Local Open Scope string_scope.

Section Twin.
Context `{FloatRepr} `{!Postgres} `{!Hashes} `{!Cns}.
Variable conditions : nat -> os_view * string * bool.
Context {C Q F : Type} `{!Cassette C Q F}.
Variable manifest_of : C -> domain_manifest.

(** The deck's read of the twin over HTTP: whatever it raises is no review. *)
Definition twin_client (replica_id : string) (auth : option string) (d : gmap string replica)
    (domain obligation_kind : string) : option (option row) :=
  match fetch_latest_cohort_review replica_id auth domain obligation_kind d with Ok r => Some r | Err _ => None end.

Lemma dop_bind_ext {A B} (m : dop A) (f g : A -> dop B) dk : (forall a dk, f a dk = g a dk) -> (m ≫= f) dk = (m ≫= g) dk.
Proof. intros Hfg. unfold mbind, dop_bind. destruct (m dk) as [[a|e] dk1]; [apply Hfg|done]. Qed.

(** An unreachable twin changes nothing: where the twin cannot be read, or
    has no review of the cohort, a judgment, its findings, its disclosures and
    its ledger are those of a deck without a twin, for every cassette whose
    maturation rule can be read. *)
Theorem twin_outage_changes_nothing latest cassette ep dk :
  (forall rule, get_maturation_rule (manifest_of cassette) = Some rule -> is_ok rule = true) ->
  (forall domain obligation_kind, latest domain obligation_kind = None \/ latest domain obligation_kind = Some None) ->
  deck_judge conditions (Some latest) manifest_of cassette ep dk = deck_judge conditions None manifest_of cassette ep dk.
Proof.
  intros Hrule Hlatest. assert (He : forall m active, cohort_equity_escalations (Some latest) (manifest_of cassette) m active =
    cohort_equity_escalations None (manifest_of cassette) m active).
  { intros m active. unfold cohort_equity_escalations. destruct (negb _); [done|].
    destruct (get_maturation_rule (manifest_of cassette)) as [rule|]; [|done]. specialize (Hrule rule eq_refl).
    destruct rule as [rule|]; [|done]. cbn [mbind result_bind]. by destruct (Hlatest (m_domain m) (kind rule)) as [-> | ->]. }
  unfold deck_judge. repeat (apply dop_bind_ext; intros ? ?). by rewrite He.
Qed.

(** Any review of a small cohort reads as a flag: a review says of a cohort
    of fewer than thirty decisions that it is too small to test, and it says it
    with a finding; the rollup of the reference lens counts any finding, so its
    status is a flag whatever the decision and whatever the cohort's rates. *)
Theorem small_cohort_reads_as_flag `{!Regex} correlation assembled profile r tiers narrative m :
  review_cohort correlation assembled profile = Ok r -> dimension_4_cohort_size r < MIN_COHORT_SIZE_FOR_STATISTICAL_TEST ->
  map f_classification (dimension_4_findings r) = ["indeterminate_insufficient_cohort"] /\
  c2_status_of (cfpb_c2_rollup tiers narrative m (Some (dimension_4_findings r)) (Some (dimension_5_findings r))
    (Some (dimension_6_findings r))) = C2_FLAG.
Proof.
  unfold review_cohort. intros Hr Hn. bind_ok Hr f5 E5. injection Hr as <-.
  cbn [dimension_4_findings dimension_5_findings dimension_6_findings dimension_4_cohort_size] in *.
  unfold check_statistical_outcome_equity. rewrite (proj2 (Nat.ltb_lt _ _) Hn). split; [done|].
  unfold cfpb_c2_rollup, rollup_c2_bias_identification. cbn [c2_status_of].
  destruct tiers, narrative; cbn.
  all: repeat match goal with |- context [match ?x with [] => None | _ :: _ => _ end] => destruct x end; done.
Qed.
End Twin.

(* ------------------------------------------------------------------ *)
(** ** Sample runs *)

#[local] Existing Instance sample_hashes.
#[local] Existing Instance sample_float_repr.
#[local] Existing Instance sample_cns.
#[local] Existing Instance sample_postgres.
#[local] Existing Instance sample_regex.
#[local] Existing Instance quality_stub.

Definition loans_manifest (_ : unit) : domain_manifest :=
  mkManifest [CAPABILITY_OUTCOME_OBLIGATION] (Some (Ok (mkRule "hold" (f_of_Z 60)))).

(** The replica after the reviews of the sample sweep were recorded. *)
Definition reviewed_db : gmap string replica :=
  snd (record_reviews violation_name "r1" sample_token (f_of_Z 3000) swept_reviews [] swept_db).

Definition bank_episode : Episode :=
  make_episode "ep-9" "bank" [("outcome", VStr "paid")] [("outcome", VStr "paid")] None [] [] None.

Definition plain_deck : deck :=
  snd (insert sample_conditions (Some "auditor") (sample_lens "1.0.0" false false) MODE_LIVE None deck_0).

Definition judged (latest : option (string -> string -> option (option row))) : result deck_exn (GovernedJudgment bool) :=
  fst (deck_judge sample_conditions latest loans_manifest tt bank_episode plain_deck).

(** Two resolved obligations are no sample of anything; a decision of their
    domain is flagged for its cohort all the same. *)
Theorem small_cohort_escalates :
  Forall (fun r => map f_classification (dimension_4_findings r) = ["indeterminate_insufficient_cohort"] /\
                   map f_classification (dimension_5_findings r) = ["indeterminate_insufficient_cohort"] /\
                   map f_classification (dimension_6_findings r) = ["indeterminate_insufficient_cohort"]) swept_reviews /\
  length swept_reviews = 1 /\
  (exists j, judged (Some (twin_client "r1" sample_token reviewed_db)) = Ok j /\
     map f_classification (gj_findings j) = ["cohort_equity_flag"]) /\
  (exists j, judged None = Ok j /\ gj_findings j = []).
Proof.
  split; [|split; [|split]].
  - vm_compute. repeat constructor.
  - vm_compute. reflexivity.
  - eexists. split; [vm_compute; reflexivity|reflexivity].
  - eexists. split; [vm_compute; reflexivity|reflexivity].
Qed.

Lemma twin_outage_changes_nothing_witness :
  deck_judge sample_conditions (Some (fun _ _ => None)) loans_manifest tt bank_episode plain_deck =
  deck_judge sample_conditions None loans_manifest tt bank_episode plain_deck.
Proof.
  apply (twin_outage_changes_nothing sample_conditions loans_manifest (fun _ _ => None) tt bank_episode plain_deck).
  - intros rule [= <-]. reflexivity.
  - intros. left. reflexivity.
Defined.

Definition small_assembled : AssembledCohort := mkAssembled "bank" "hold" [] [] [] [] 0.

Lemma small_cohort_reads_as_flag_witness :
  exists r, review_cohort no_correlation small_assembled bureau = Ok r /\
  c2_status_of (cfpb_c2_rollup false false (mkMaterial "s" "bank" [] [] [] [] "episode")
    (Some (dimension_4_findings r)) (Some (dimension_5_findings r)) (Some (dimension_6_findings r))) = C2_FLAG.
Proof.
  destruct (review_cohort no_correlation small_assembled bureau) as [r|] eqn:E; [|discriminate E].
  exists r. split; [reflexivity|].
  apply (small_cohort_reads_as_flag no_correlation small_assembled bureau r false false _ E).
  injection E as <-. unfold MIN_COHORT_SIZE_FOR_STATISTICAL_TEST. simpl. lia.
Defined.

(** The event of an insertion is committed before the anchor is written; when
    that fails the insertion raises, and the record says that a lens was
    inserted which is not active. *)
Theorem failed_insertion_on_record :
  let conditions := fun n => (os_after, "t", negb (n =? 1)%nat) in
  let '(r, dk) := insert conditions (Some "auditor") (sample_lens "1.0.0" false false) MODE_LIVE None deck_0 in
  is_ok r = false /\ dk_active dk = [] /\
  option_map (fun x => vget x "record_kind") (last (l_rows (dk_ledger dk))) = Some (VStr "regulatory_cassette_inserted").
Proof. vm_compute. auto. Qed.
