(* ===== verification/Contract.v ===== *)
(** * Contract: signed data-use terms as a lens

    Models src/sentinel_os/contract_cassette.py and the reference agreement of
    contract_cassettes/reference_dpa.py: the typed terms and their validation,
    the contract lens over the lens contract of Lens, the lookups over its
    terms, and the registry by counterparty.  A contract lens is given by what
    the methods its author writes return or raise.  The timestamps the contract
    checks compare (datetime.fromisoformat) are an interface. *)

From S2P Require Import Prelude PyFloat PyValue Episode Event Json Canonical Attestation HeadAnchor LedgerDb Ledger Regulatory Lens.
Local Open Scope string_scope.

(* ------------------------------------------------------------------ *)
(** ** Timestamps *)

(** A datetime: microseconds of its wall clock since year 1, and its offset
    from UTC when it has one. *)
Record datetime := mkDatetime { dt_wall : Z; dt_offset : option Z }.

(** [datetime.fromisoformat], [None] where it raises, and [isoformat]. *)
Class Iso := {
  fromisoformat : string -> option datetime;
  isoformat : datetime -> string;
}.

(** [datetime.max], in microseconds. *)
Definition DATETIME_END : Z := 3652059 * 86400000000.
Definition DAY_US : Z := 86400000000.

(** The instant of an aware datetime, which is what comparisons compare. *)
Definition instant (d : datetime) : Z := dt_wall d - match dt_offset d with Some o => o | None => 0 end.

(** [s.replace("Z", "+00:00")] *)
Fixpoint replace_z (s : string) : string :=
  match s with
  | EmptyString => EmptyString
  | String c s => if Ascii.eqb c "Z" then "+00:00" +:+ replace_z s else String c (replace_z s)
  end.

(** [_parse_ts]: a naive timestamp is read as UTC. *)
Definition parse_ts `{FloatRepr} `{!Iso} (value : pyval) : option datetime :=
  if negb (py_true value) || blank (py_str value) then None else
  match fromisoformat (replace_z (py_str value)) with
  | Some (mkDatetime w None) => Some (mkDatetime w (Some 0%Z))
  | o => o
  end.

(** [d + timedelta(days=n)] *)
Definition add_days (d : datetime) (n : Z) : result pyexn datetime :=
  let w := (dt_wall d + n * DAY_US)%Z in
  if ((Z.abs n <=? 999999999) && (0 <=? w) && (w <? DATETIME_END))%Z
  then Ok (mkDatetime w (dt_offset d)) else Err OverflowError.

(* ------------------------------------------------------------------ *)
(** ** Terms *)

Definition CONTRACT_DOMAIN : string := "contract".
Definition TERM_RETENTION_MAX_DAYS : string := "RETENTION_MAX_DAYS".
Definition TERM_EGRESS_PROHIBITED : string := "EGRESS_PROHIBITED".
Definition TERM_EGRESS_REQUIRES_APPROVAL : string := "EGRESS_REQUIRES_APPROVAL".
Definition TERM_PURPOSE_RESTRICTION : string := "PURPOSE_RESTRICTION".
Definition CONTRACT_TERM_TYPES : list string :=
  [TERM_RETENTION_MAX_DAYS; TERM_EGRESS_PROHIBITED; TERM_EGRESS_REQUIRES_APPROVAL; TERM_PURPOSE_RESTRICTION].

Definition RECIPIENT_CLASS_SUBCONTRACTOR : string := "subcontractor".
Definition RECIPIENT_CLASSES : list string :=
  [RECIPIENT_CLASS_SUBCONTRACTOR; "affiliate"; "counterparty"; "regulator"; "other"].

Inductive param_type := P_int | P_str | P_list.

Definition TERM_PARAMETERS : dict (dict param_type) :=
  [(TERM_RETENTION_MAX_DAYS, [("max_days", P_int)]); (TERM_EGRESS_PROHIBITED, [("purpose", P_str)]);
   (TERM_EGRESS_REQUIRES_APPROVAL, [("recipient_class", P_str)]);
   (TERM_PURPOSE_RESTRICTION, [("permitted_purposes", P_list)])].
Definition TERM_OPTIONAL_PARAMETERS : dict (dict param_type) :=
  [(TERM_RETENTION_MAX_DAYS, [("backup_max_days", P_int)])].

Record ContractTerm := mkTerm { term_type : string; params : pyval }.

Definition term_dict (t : ContractTerm) : dict pyval :=
  [("term_type", VStr (term_type t)); ("params", params t)].

Inductive term_violation :=
| TV_unknown_type
| TV_params_type
| TV_missing (name : string)
| TV_bool (name : string)
| TV_type (name : string)
| TV_negative (name : string)
| TV_blank (name : string)
| TV_undeclared (name : string)
| TV_recipient_class (rc : string)
| TV_no_purposes
| TV_purpose (i : nat)
| TV_backup_shorter.

(** [isinstance(value, expected)], booleans apart. *)
Definition has_type (t : param_type) (v : pyval) : bool :=
  match t, v with P_int, VInt _ | P_str, VStr _ | P_list, VList _ => true | _, _ => false end.

(** One parameter against its declared type; [blank_too]: a required text may
    not be blank. *)
Definition param_violation (blank_too : bool) (name : string) (expected : param_type) (v : pyval)
    : list term_violation :=
  match expected, v with
  | P_int, VBool _ => [TV_bool name]
  | P_int, VInt z => if (z <? 0)%Z then [TV_negative name] else []
  | P_str, VStr s => if blank_too && blank s then [TV_blank name] else []
  | _, _ => if has_type expected v then [] else [TV_type name]
  end.

Definition purpose_violations (purposes : list pyval) : list term_violation :=
  ((match purposes with [] => [TV_no_purposes] | _ => [] end) ++
   omap (fun '(i, p) => if filled p then None else Some (TV_purpose i)) (imap pair purposes))%list.

Definition declared_of (d : dict (dict param_type)) (t : string) : dict param_type :=
  match dget d t with Some ps => ps | None => [] end.

Definition validate_term (t : ContractTerm) : list term_violation :=
  if negb (str_mem (term_type t) CONTRACT_TERM_TYPES) then [TV_unknown_type] else
  match params t with
  | VDict ps =>
      let required := declared_of TERM_PARAMETERS (term_type t) in
      let optional := declared_of TERM_OPTIONAL_PARAMETERS (term_type t) in
      (flat_map (fun '(name, expected) =>
         match dget ps name with
         | None => [TV_missing name]
         | Some v => param_violation true name expected v
         end) required ++
       omap (fun '(name, _) => if dmem required name || dmem optional name then None else Some (TV_undeclared name)) ps ++
       flat_map (fun '(name, expected) =>
         match dget ps name with None => [] | Some v => param_violation false name expected v end) optional ++
       (if String.eqb (term_type t) TERM_EGRESS_REQUIRES_APPROVAL
        then match vget ps "recipient_class" with
             | VStr rc => if str_mem rc RECIPIENT_CLASSES then [] else [TV_recipient_class rc]
             | _ => []
             end else []) ++
       (if String.eqb (term_type t) TERM_PURPOSE_RESTRICTION
        then match vget ps "permitted_purposes" with VList purposes => purpose_violations purposes | _ => [] end
        else []) ++
       (if String.eqb (term_type t) TERM_RETENTION_MAX_DAYS
        then match vget ps "backup_max_days", vget ps "max_days" with
             | VInt backup, VInt max_days => if (backup <? max_days)%Z then [TV_backup_shorter] else []
             | _, _ => []
             end else []))%list
  | _ => [TV_params_type]
  end.

(** [ContractTerm(term_type, params)] *)
Definition make_term (type : string) (ps : pyval) : list term_violation + ContractTerm :=
  match validate_term (mkTerm type ps) with [] => inr (mkTerm type ps) | vs => inl vs end.

(* ------------------------------------------------------------------ *)
(** ** Contract lenses *)

(** What [get_terms] returns: a list or tuple, whose members may not be terms,
    or something else, with what going through it raises. *)
Inductive terms_value := Terms (l : list (option ContractTerm)) | NotTerms (e : pyexn).

Record ContractCassette := mkContract {
  get_counterparty_id : result pyexn pyval;
  get_contract_reference : result pyexn pyval;
  get_contract_version : result pyexn pyval;
  get_terms : result pyexn terms_value;
  contract_MODES : pyval;
  contract_code : string;
}.

Section Lookups.
Context `{FloatRepr}.

Definition all_terms (c : ContractCassette) : result pyexn (list ContractTerm) :=
  ts ← get_terms c;
  match ts with
  | Terms l => mapM_r (fun o => match o with Some t => Ok t | None => Err AttributeError end) l
  | NotTerms e => Err e
  end.

Definition terms_of_type (c : ContractCassette) (type : string) : result pyexn (list ContractTerm) :=
  ts ← all_terms c; Ok (List.filter (fun t => String.eqb (term_type t) type) ts).

(** [t.params[name]] *)
Definition param (name : string) (t : ContractTerm) : result pyexn pyval :=
  match params t with
  | VDict ps => match dget ps name with Some v => Ok v | None => Err KeyError end
  | _ => Err TypeError
  end.

Definition int_param (name : string) (t : ContractTerm) : result pyexn Z := v ← param name t; py_int v.
Definition str_param (name : string) (t : ContractTerm) : result pyexn string := v ← param name t; Ok (py_str v).

Definition retention_max_days (c : ContractCassette) : result pyexn (option Z) :=
  ts ← terms_of_type c TERM_RETENTION_MAX_DAYS;
  days ← mapM_r (int_param "max_days") ts;
  Ok match days with [] => None | d :: ds => Some (fold_left Z.min ds d) end.

(** The first retention term that declares one. *)
Fixpoint first_backup (ts : list ContractTerm) : result pyexn (option Z) :=
  match ts with
  | [] => Ok None
  | t :: ts =>
      match params t with
      | VDict ps => if dmem ps "backup_max_days" then z ← int_param "backup_max_days" t; Ok (Some z) else first_backup ts
      | _ => Err TypeError
      end
  end.

Definition backup_max_days (c : ContractCassette) : result pyexn (option Z) :=
  ts ← terms_of_type c TERM_RETENTION_MAX_DAYS; first_backup ts.

Definition prohibited_purposes (c : ContractCassette) : result pyexn (list string) :=
  ts ← terms_of_type c TERM_EGRESS_PROHIBITED; mapM_r (str_param "purpose") ts.

Definition approval_required_classes (c : ContractCassette) : result pyexn (list string) :=
  ts ← terms_of_type c TERM_EGRESS_REQUIRES_APPROVAL; mapM_r (str_param "recipient_class") ts.

Definition purposes_of (t : ContractTerm) : result pyexn (list string) :=
  v ← param "permitted_purposes" t;
  match v with VList ps => Ok (map py_str ps) | _ => Err TypeError end.

Definition permitted_purposes (c : ContractCassette) : result pyexn (option (list string)) :=
  ts ← terms_of_type c TERM_PURPOSE_RESTRICTION;
  lists ← mapM_r purposes_of ts;
  Ok match lists with
     | [] => None
     | first :: rest => Some (sorted_set (List.filter (fun p => forallb (str_mem p) rest) first))
     end.

(* ------------------------------------------------------------------ *)
(** ** The lens of a contract *)

Inductive contract_violation :=
| CV_raised (attr : string)
| CV_blank (label : string)
| CV_colon (label : string)
| CV_terms_raised
| CV_terms_type
| CV_no_terms
| CV_not_a_term (i : nat)
| CV_term (i : nat) (v : term_violation)
| CV_modes.

Definition component_violations (attr label : string) (r : result pyexn pyval) : list contract_violation :=
  match r with
  | Err _ => [CV_raised attr]
  | Ok v => if negb (filled v) then [CV_blank label]
            else if contains ":" (py_str v) then [CV_colon label] else []
  end.

(** [tuple(MODES or ()) == (MODE_OBSERVER,)]; a dict is gone through by its keys,
    and what cannot be gone through, which raises, counts as a violation. *)
Definition mode_is_observer (v : pyval) : bool :=
  match v with
  | VList [m] => py_eq m (VStr MODE_OBSERVER)
  | VDict [(m, _)] => String.eqb m MODE_OBSERVER
  | _ => false
  end.

Definition term_violations (l : list (option ContractTerm)) : list contract_violation :=
  concat (imap (fun i o => match o with
                           | None => [CV_not_a_term i]
                           | Some t => map (CV_term i) (validate_term t)
                           end) l).

(** A raising [get_terms], or one that gives no list, ends the list early. *)
Definition validate_contract_cassette_terms (c : ContractCassette) : list contract_violation :=
  (component_violations "get_counterparty_id" "counterparty_id" (get_counterparty_id c) ++
   component_violations "get_contract_reference" "contract_reference" (get_contract_reference c) ++
   component_violations "get_contract_version" "contract_version" (get_contract_version c) ++
   match get_terms c with
   | Err _ => [CV_terms_raised]
   | Ok (NotTerms _) => [CV_terms_type]
   | Ok (Terms l) =>
       (match l with [] => [CV_no_terms] | _ => [] end) ++ term_violations l ++
       (if mode_is_observer (contract_MODES c) then [] else [CV_modes])
   end)%list.

Definition contract_config (c : ContractCassette) : result pyexn (option RegulatoryCassetteConfig) :=
  name ← get_counterparty_id c;
  version ← get_contract_version c;
  described ← get_counterparty_id c;
  regulation ← get_contract_reference c;
  authority ← get_counterparty_id c;
  Ok (Some (mkConfig name version (VStr ("Data-use contract terms for counterparty " +:+ py_str described)) regulation authority)).

Definition contract_checks : list string :=
  ["contract_egress_permission"; "contract_retention_status"; "contract_subcontractor_approval"].

Definition contract_profile (c : ContractCassette) : result pyexn pyval :=
  cp ← get_counterparty_id c;
  reference ← get_contract_reference c;
  ts ← all_terms c;
  Ok (VDict [("counterparty_id", cp); ("contract_reference", reference);
             ("terms", VList (map (fun t => VDict (term_dict t)) ts))]).

(** The self-check of a contract raises its violations; the shared validation
    only asks whether it raised, so the kind of exception is of no account. *)
Definition contract_self_check (c : ContractCassette) : result pyexn pyval :=
  match validate_contract_cassette_terms c with [] => Ok (VBool true) | _ => Err ValueError end.

Definition contract_lens (c : ContractCassette) : RegulatoryCassette := {|
  get_config := contract_config c;
  MODES := contract_MODES c;
  IDENTITY_DOMAIN := CONTRACT_DOMAIN;
  get_checks := Ok (strs contract_checks);
  get_profile := contract_profile c;
  review := Some (fun _ => Ok []);
  lens_validate := contract_self_check c;
  c2_rollup := None;
  code_text := contract_code c;
|}.

Definition contract_cassette_version_of (c : ContractCassette) : result lens_exn string :=
  regulatory_cassette_version_of (contract_lens c).

(* ------------------------------------------------------------------ *)
(** ** The registry *)

Inductive registry_exn :=
| NotAContract
| Ambiguous (n : nat)
| RegistryLens (e : lens_exn)
| RegistryPy (e : pyexn).

(** A lens of either family offered to the registry. *)
Inductive offered := OfferedContract (c : ContractCassette) | OfferedLens (l : RegulatoryCassette).

Definition register_contract (lenses : dict ContractCassette) (o : offered)
    : result registry_exn (string * dict ContractCassette) :=
  match o with
  | OfferedLens _ => Err NotAContract
  | OfferedContract c =>
      _ ← map_err RegistryLens (validate_regulatory_cassette (contract_lens c));
      identity ← map_err RegistryLens (contract_cassette_version_of c);
      Ok (identity, dset lenses identity c)
  end.

Definition for_counterparty (lenses : dict ContractCassette) (counterparty_id : string)
    : result registry_exn ContractCassette :=
  named ← map_err RegistryPy (mapM_r (fun c => v ← get_counterparty_id c; Ok (v, c)) (map snd lenses));
  match List.filter (fun vc => py_eq (fst vc) (VStr counterparty_id)) named with
  | [] => Err (RegistryPy KeyError)
  | [vc] => Ok (snd vc)
  | vcs => Err (Ambiguous (length vcs))
  end.

Definition counterparties (lenses : dict ContractCassette) : result pyexn (list string) :=
  ids ← mapM_r (fun c => v ← get_counterparty_id c; Ok (py_str v)) (map snd lenses);
  Ok (sorted_set ids).
End Lookups.

(* ------------------------------------------------------------------ *)
(** ** The reference agreement *)

Definition ReferenceDPAContract (source : string) : ContractCassette := {|
  get_counterparty_id := Ok (VStr "example-counterparty");
  get_contract_reference := Ok (VStr "DPA-REFERENCE-0001 rev A (illustrative, unsigned)");
  get_contract_version := Ok (VStr "1.0.0");
  get_terms := Ok (Terms [
    Some (mkTerm TERM_RETENTION_MAX_DAYS (VDict [("max_days", VInt 90); ("backup_max_days", VInt 365)]));
    Some (mkTerm TERM_EGRESS_PROHIBITED (VDict [("purpose", VStr "model_training")]));
    Some (mkTerm TERM_EGRESS_REQUIRES_APPROVAL (VDict [("recipient_class", VStr RECIPIENT_CLASS_SUBCONTRACTOR)]));
    Some (mkTerm TERM_PURPOSE_RESTRICTION
      (VDict [("permitted_purposes", VList [VStr "fraud_screening"; VStr "statement_generation"])]))]);
  contract_MODES := VList [VStr MODE_OBSERVER];
  contract_code := source;
|}.
