(* ===== verification/ContractEgress.v ===== *)
(** * ContractEgress: the chokepoint before data leaves

    Models src/sentinel_os/contract_egress.py over the ledger of Ledger and the
    contracts of Contract, with the read it makes of a counterparty's contract
    rows (get_contract_rows of governance/ledger_postgres.py).  The clock is
    read where the code reads it, so it is an argument of each part. *)

From S2P Require Import Prelude PyFloat PyValue Episode Event Json Canonical Attestation HeadAnchor LedgerDb Ledger LedgerVerify Regulatory Lens Contract.
Local Open Scope string_scope.

(* ------------------------------------------------------------------ *)
(** ** Reading the contract rows *)

(** [CONTRACT_CANONICAL_FIELDS], its keys. *)
Definition CONTRACT_KINDS : list string := ["contract_ingest"; "contract_egress"; "contract_approval"; "contract_deletion"].

Definition CONTRACT_ROWS_LIMIT : nat := 5000.

Section Rows.
Context `{FloatRepr}.
Variable loads : string -> result pyexn pyval.

(** [WHERE record_kind = ANY(kinds) AND data->>'counterparty' = cp]; the
    counterparty of a contract row is a text. *)
Definition contract_row_of (kinds : list string) (counterparty : string) (r : row) : bool :=
  match vget r "record_kind" with VStr k => str_mem k kinds | _ => false end &&
  match vget r "data" with VDict d => py_eq (vget d "counterparty") (VStr counterparty) | _ => false end.

(** One item of the answer; the server's timestamp is left out, as in LedgerDb. *)
Definition contract_item (r : row) : result pyexn (dict pyval) :=
  data ← as_json loads (vget r "data");
  output ← as_json loads (vget r "decision_output");
  Ok [("id", vget r "id"); ("record_kind", vget r "record_kind"); ("cassette_version", vget r "cassette_version");
      ("data", data); ("decision_output", output); ("cassette_hash", vget r "cassette_hash");
      ("authorized_by", vget r "authorized_by"); ("previous_hash", vget r "previous_hash");
      ("current_hash", vget r "current_hash")].

Definition get_contract_rows (counterparty : string) (record_kinds : list string) (limit : nat) (table : list row)
    : result pyexn (list (dict pyval)) :=
  if blank counterparty then Err ValueError else
  let kinds := match record_kinds with [] => CONTRACT_KINDS | ks => ks end in
  if negb (forallb (fun k => str_mem k CONTRACT_KINDS) kinds) then Err ValueError else
  mapM_r contract_item (take limit (List.filter (contract_row_of kinds counterparty) table)).
End Rows.

(** [(row.get("data") or {})], on which [get] is called next. *)
Definition data_of (r : dict pyval) : result pyexn (dict pyval) :=
  let v := vget r "data" in
  if negb (py_true v) then Ok [] else match v with VDict d => Ok d | _ => Err AttributeError end.

(* ------------------------------------------------------------------ *)
(** ** Decisions *)

Definition EGRESS_AUTHORIZED : string := "authorized".
Definition EGRESS_REFUSED : string := "refused".
Definition REFUSAL_NO_CONTRACT : string := "no_contract_registered".
Definition REFUSAL_PURPOSE_PROHIBITED : string := "purpose_prohibited_by_term".
Definition REFUSAL_PURPOSE_NOT_PERMITTED : string := "purpose_outside_permitted_list".
Definition REFUSAL_APPROVAL_REQUIRED_MISSING : string := "approval_required_but_not_referenced".
Definition REFUSAL_APPROVAL_NOT_FOUND : string := "referenced_approval_not_found".
Definition REFUSAL_APPROVAL_NOT_LIVE : string := "referenced_approval_not_live_at_egress_time".

Inductive approval_verdict := APPROVAL_PASS | APPROVAL_FLAG | APPROVAL_INDETERMINATE.

#[export] Instance approval_verdict_eq_dec : EqDecision approval_verdict.
Proof. solve_decision. Defined.

Definition verdict_text (v : approval_verdict) : string :=
  match v with APPROVAL_PASS => "PASS" | APPROVAL_FLAG => "FLAG" | APPROVAL_INDETERMINATE => "INDETERMINATE" end.

Definition SCREENING_DISCLAIMER : string :=
  "Screening output for human review. Findings score how a recorded decision reads against this lens's configured checks; they are not a legal determination of compliance or non-compliance with any regulation, and the absence of findings is not a certification.".

Definition EGRESS_SCOPE_NOTE : string :=
  "This record proves the egress log is complete relative to the governed chokepoint. It cannot prove that no data left by a path that never called the chokepoint.".

Record EgressRequest := mkRequest {
  rq_counterparty_id : string;
  rq_data_scope : string;
  rq_recipient : string;
  rq_recipient_class : string;
  rq_purpose : string;
  rq_approval_reference : option string;
  rq_occurred_at : option string;
}.

Record EgressDecision := mkDecision {
  ed_decision : string;
  ed_counterparty_id : string;
  ed_reasons : list string;
  ed_evidence : dict pyval;
  ed_current_hash : pyval;
}.

Section Egress.
Context `{FloatRepr} `{!Iso}.

(** [when()], with the clock at the call. *)
Definition when (q : EgressRequest) (now : datetime) : string :=
  match rq_occurred_at q with
  | Some s => if str_true s then s else isoformat now
  | None => isoformat now
  end.

(* ------------------------------------------------------------------ *)
(** ** Approvals *)

(** [v not in (None, "")] *)
Definition said (kv : string * pyval) : bool :=
  match snd kv with VNone => false | VStr s => str_true s | _ => true end.

(** [str(d.get(k) or "")] *)
Definition text_of (d : dict pyval) (k : string) : string := let v := vget d k in if py_true v then py_str v else "".

Definition approval_step (states : dict (dict pyval)) (r : dict pyval) : result pyexn (dict (dict pyval)) :=
  data ← data_of r;
  let approval_id := text_of data "approval_id" in
  if negb (str_true approval_id) then Ok states else
  let current := match dget states approval_id with Some c => c | None => [] end in
  let current := dupdate current (List.filter said data) in
  let current := dset current "approval_id" (VStr approval_id) in
  let approver := if py_true (vget r "authorized_by") then vget r "authorized_by" else vget current "approver" in
  Ok (dset states approval_id (dset current "approver" approver)).

Definition latest_approval_states (approval_rows : list (dict pyval)) : result pyexn (dict (dict pyval)) :=
  foldM approval_step [] approval_rows.

Definition absent {A} (o : option A) : bool := match o with Some _ => false | None => true end.

Definition approval_live_at (approval : option (dict pyval)) (at_time : string) : approval_verdict * dict pyval :=
  match approval with
  | None => (APPROVAL_FLAG, [("reason", VStr REFUSAL_APPROVAL_NOT_FOUND)])
  | Some a =>
      match parse_ts (VStr at_time), parse_ts (vget a "granted_at") with
      | Some t, Some granted =>
          let evidence reason :=
            ([("approval_id", vget a "approval_id"); ("approver", vget a "approver"); ("granted_at", vget a "granted_at");
             ("expires_at", or_none (vget a "expires_at")); ("revoked_at", or_none (vget a "revoked_at"));
             ("egress_time", VStr at_time)] ++ match reason with Some s => [("reason", VStr s)] | None => [] end)%list in
          let expires := parse_ts (vget a "expires_at") in
          let revoked := parse_ts (vget a "revoked_at") in
          if (instant t <? instant granted)%Z then (APPROVAL_FLAG, evidence (Some "egress_preceded_the_grant")) else
          if py_true (vget a "expires_at") && absent expires
          then (APPROVAL_INDETERMINATE, evidence (Some "unparseable_expires_at")) else
          if match expires with Some x => (instant x <? instant t)%Z | None => false end
          then (APPROVAL_FLAG, evidence (Some "approval_had_expired")) else
          if py_true (vget a "revoked_at") && absent revoked
          then (APPROVAL_INDETERMINATE, evidence (Some "unparseable_revoked_at")) else
          if match revoked with Some x => (instant x <=? instant t)%Z | None => false end
          then (APPROVAL_FLAG, evidence (Some "approval_was_revoked_at_or_before_egress")) else
          if String.eqb (text_of a "state") "revoked" && absent revoked
          then (APPROVAL_INDETERMINATE, evidence (Some "revoked_without_a_revocation_time")) else
          (APPROVAL_PASS, evidence None)
      | _, _ => (APPROVAL_INDETERMINATE,
                 [("reason", VStr "unparseable_or_missing_timestamp"); ("egress_time", VStr at_time);
                  ("granted_at", vget a "granted_at")])
      end
  end.

(* ------------------------------------------------------------------ *)
(** ** The decision *)

(** The check of an approval the contract requires: the refusals it adds, and
    the evidence. *)
Definition check_approval (q : EgressRequest) (approvals : dict (dict pyval)) (now : datetime)
    : list string * dict pyval :=
  if negb (opt_true (rq_approval_reference q)) then ([REFUSAL_APPROVAL_REQUIRED_MISSING], []) else
  let approval := dget approvals (or_empty (rq_approval_reference q)) in
  let '(verdict, appr_evidence) := approval_live_at approval (when q now) in
  (match verdict with
   | APPROVAL_PASS => []
   | APPROVAL_FLAG => [if absent approval then REFUSAL_APPROVAL_NOT_FOUND else REFUSAL_APPROVAL_NOT_LIVE]
   | APPROVAL_INDETERMINATE => [REFUSAL_APPROVAL_NOT_LIVE]
   end, [("approval_check", VDict (("verdict", VStr (verdict_text verdict)) :: appr_evidence))]).

Definition evaluate_egress (contract : option ContractCassette) (q : EgressRequest)
    (approvals : dict (dict pyval)) (now : datetime) : result pyexn (string * list string * dict pyval) :=
  let evidence := [("recipient_class", VStr (rq_recipient_class q)); ("purpose", VStr (rq_purpose q));
                   ("disclaimer", VStr SCREENING_DISCLAIMER)] in
  match contract with
  | None => Ok (EGRESS_REFUSED, [REFUSAL_NO_CONTRACT], evidence)
  | Some c =>
      reference ← get_contract_reference c;
      prohibited ← prohibited_purposes c;
      permitted ← permitted_purposes c;
      classes ← approval_required_classes c;
      let r1 := if str_mem (rq_purpose q) prohibited then [REFUSAL_PURPOSE_PROHIBITED] else [] in
      let '(r2, e2) := match permitted with
                       | Some ps => if str_mem (rq_purpose q) ps then ([], [])
                                    else ([REFUSAL_PURPOSE_NOT_PERMITTED], [("permitted_purposes", strs ps)])
                       | None => ([], [])
                       end in
      let '(r3, e3) := if str_mem (rq_recipient_class q) classes
                       then let '(r, e) := check_approval q approvals now in (r, ("approval_required", VBool true) :: e)
                       else ([], []) in
      let reasons := (r1 ++ r2 ++ r3)%list in
      Ok (match reasons with [] => EGRESS_AUTHORIZED | _ => EGRESS_REFUSED end, reasons,
          (evidence ++ [("contract_reference", reference)] ++ e2 ++ e3)%list)
  end.

(* ------------------------------------------------------------------ *)
(** ** The chokepoint *)

Inductive egress_exn :=
| EgressPy (e : pyexn)
| EgressLens (e : lens_exn)
| EgressLedgerUnavailable (e : ledger_exn).

Context `{!Postgres} `{!Hashes} `{!Cns}.
Variable loads : string -> result pyexn pyval.
Variable lenses : dict ContractCassette.

(** Any exception of the lookup is "no contract". *)
Definition contract_of (counterparty_id : string) : option ContractCassette :=
  match for_counterparty lenses counterparty_id with Ok c => Some c | Err _ => None end.

(** What the chokepoint decides, on the rows it reads. *)
Definition decide_egress (q : EgressRequest) (now : datetime) (rows : list row)
    : result pyexn (string * list string * dict pyval) :=
  let contract := contract_of (rq_counterparty_id q) in
  approvals ← (match contract with
               | Some _ =>
                   if opt_true (rq_approval_reference q) then
                     approval_rows ← get_contract_rows loads (rq_counterparty_id q) ["contract_approval"] CONTRACT_ROWS_LIMIT rows;
                     latest_approval_states approval_rows
                   else Ok []
               | None => Ok []
               end);
  evaluate_egress contract q approvals now.

Definition contract_version_for (q : EgressRequest) : result lens_exn string :=
  match contract_of (rq_counterparty_id q) with
  | Some c => contract_cassette_version_of c
  | None => Ok ("contract:" +:+ rq_counterparty_id q +:+ ":UNREGISTERED")
  end.

Definition egress_finding (decision : string) (reasons : list string) (evidence : dict pyval) : pyval :=
  VDict [("decision", VStr decision); ("reasons", strs reasons); ("evidence", VDict evidence);
         ("scope_note", VStr EGRESS_SCOPE_NOTE)].

(** The part after the decision: the record, then the answer. *)
Definition record_egress (os : os_view) (stamp : string) (anchor_io : bool) (q : EgressRequest) (now : datetime)
    (authorized_by cassette_hash : option string) (decided : string * list string * dict pyval) (l : ledger)
    : result egress_exn EgressDecision * ledger :=
  let '(decision, reasons, evidence) := decided in
  match contract_version_for q with
  | Err e => (Err (EgressLens e), l)
  | Ok version =>
      match transact os stamp anchor_io
              (record_contract_egress os version (rq_counterparty_id q) decision (rq_data_scope q) (rq_recipient q)
                 (rq_recipient_class q) (rq_purpose q) (when q now) (egress_finding decision reasons evidence)
                 (rq_approval_reference q) cassette_hash authorized_by) l with
      | (Err e, l') => (Err (EgressLedgerUnavailable e), l')
      | (Ok written, l') =>
          (Ok (mkDecision decision (rq_counterparty_id q) reasons evidence (vget written "current_hash")), l')
      end
  end.

(** The reads run outside the writer's lock: [seen] are the rows at that
    moment, [l] the ledger when the decision is recorded, and the clock is read
    at both. *)
Definition request_egress_between (os : os_view) (stamp : string) (anchor_io : bool) (seen : list row)
    (now_decided now_recorded : datetime) (q : EgressRequest) (authorized_by cassette_hash : option string) (l : ledger)
    : result egress_exn EgressDecision * ledger :=
  match decide_egress q now_decided seen with
  | Err e => (Err (EgressPy e), l)
  | Ok decided => record_egress os stamp anchor_io q now_recorded authorized_by cassette_hash decided l
  end.

(** [request_egress], with nothing written in between. *)
Definition request_egress (os : os_view) (stamp : string) (anchor_io : bool) (now_decided now_recorded : datetime)
    (q : EgressRequest) (authorized_by cassette_hash : option string) (l : ledger)
    : result egress_exn EgressDecision * ledger :=
  request_egress_between os stamp anchor_io (l_rows l) now_decided now_recorded q authorized_by cassette_hash l.

(* ------------------------------------------------------------------ *)
(** ** The standing check *)

Record approval_finding := mkApprovalFinding {
  af_verdict : approval_verdict;
  af_egress_hash : pyval;
  af_recipient : pyval;
  af_purpose : pyval;
  af_occurred_at : option string;
  af_approval_reference : option string;
  af_evidence : dict pyval;
}.

Definition if_true (s : string) : option string := if str_true s then Some s else None.

Definition standing_verdict (approvals : dict (dict pyval)) (reference occurred_at : string)
    : approval_verdict * dict pyval :=
  if negb (str_true reference) then (APPROVAL_FLAG, [("reason", VStr REFUSAL_APPROVAL_REQUIRED_MISSING)])
  else if negb (str_true occurred_at) then (APPROVAL_INDETERMINATE, [("reason", VStr "egress_has_no_recorded_time")])
  else approval_live_at (dget approvals reference) occurred_at.

Definition check_egress_row (approvals : dict (dict pyval)) (r : dict pyval) : result pyexn (list approval_finding) :=
  data ← data_of r;
  if negb (py_eq (vget data "recipient_class") (VStr RECIPIENT_CLASS_SUBCONTRACTOR)) then Ok [] else
  if negb (py_eq (vget data "decision") (VStr EGRESS_AUTHORIZED)) then Ok [] else
  let reference := text_of data "approval_reference" in
  let occurred_at := text_of data "occurred_at" in
  let '(verdict, evidence) := standing_verdict approvals reference occurred_at in
  Ok [mkApprovalFinding verdict (vget r "current_hash") (vget data "recipient") (vget data "purpose")
        (if_true occurred_at) (if_true reference) evidence].

Definition check_subcontractor_approvals (egress_rows approval_rows : list (dict pyval))
    : result pyexn (list approval_finding) :=
  approvals ← latest_approval_states approval_rows;
  found ← mapM_r (check_egress_row approvals) egress_rows;
  Ok (concat found).

Definition approval_finding_dict (f : approval_finding) : dict pyval :=
  [("check", VStr "contract_subcontractor_approval"); ("verdict", VStr (verdict_text (af_verdict f)));
   ("egress_hash", af_egress_hash f); ("recipient", af_recipient f); ("purpose", af_purpose f);
   ("occurred_at", opt_str (af_occurred_at f)); ("approval_reference", opt_str (af_approval_reference f));
   ("evidence", VDict (af_evidence f)); ("disclaimer", VStr SCREENING_DISCLAIMER)].
End Egress.
