(* ===== verification/EgressFacts.v ===== *)
(** * EgressFacts: what an authorization to move data rests on

    A decision of the chokepoint is on the ledger before it is returned, and an
    authorization rests on a registered contract, its purposes and a live
    approval; a recorded revocation is final; and the standing check passes what
    the chokepoint authorized.  The rest shows where the two part. *)

From S2P Require Import Prelude PyFloat PyValue Episode Event Json Canonical Attestation HeadAnchor LedgerDb Ledger LedgerVerify LedgerSound LedgerWrites LedgerHistory Regulatory Lens Contract ContractEgress.
Local Open Scope string_scope.

Lemma foldM_app {E S A} (f : S -> A -> result E S) s l k :
  foldM f s (l ++ k) = match foldM f s l with Ok s' => foldM f s' k | Err e => Err e end.
Proof. revert s. induction l as [|a l IH]; intros s; simpl; [done|]. by destruct (f s a). Qed.

Section Approvals.
Context `{FloatRepr} `{!Iso}.

(* ------------------------------------------------------------------ *)
(** ** Revocation *)

Definition revoked_text (states : dict (dict pyval)) (id : string) : option pyval :=
  match dget states id with Some a => dget a "revoked_at" | None => None end.

(** A row of another approval. *)
Definition of_another (id : string) (r : dict pyval) : Prop :=
  forall d, data_of r = Ok d -> text_of d "approval_id" <> id.

Lemma approval_step_other states r states' d id : approval_step states r = Ok states' -> data_of r = Ok d ->
  text_of d "approval_id" <> id -> dget states' id = dget states id.
Proof.
  unfold approval_step. intros E Hd Hid. rewrite Hd in E. cbn [mbind result_bind] in E. cbv zeta in E.
  destruct (str_true _); [|by injection E as <-]. injection E as <-. by rewrite dget_dset_ne.
Qed.

Lemma approval_step_own states r states' d id : approval_step states r = Ok states' -> data_of r = Ok d ->
  text_of d "approval_id" = id -> str_true id = true -> revoked_text states' id =
    dget (dupdate (match dget states id with Some c => c | None => [] end) (List.filter said d)) "revoked_at".
Proof.
  unfold approval_step. intros E Hd Hid Ht. rewrite Hd in E. cbn [mbind result_bind] in E. cbv zeta in E.
  rewrite Hid, Ht in E. injection E as <-. unfold revoked_text. rewrite dget_dset_eq. by rewrite !dget_dset_ne.
Qed.

Lemma others_keep post states states' id : foldM approval_step states post = Ok states' ->
  Forall (of_another id) post -> dget states' id = dget states id.
Proof.
  intros E Hp. revert states E. induction Hp as [|r post Hr Hp IH]; intros states E; cbn [foldM] in E; [congruence|].
  destruct (approval_step states r) as [s|] eqn:Es; [|done]. rewrite (IH s E).
  destruct (data_of r) as [d|] eqn:Ed; [|unfold approval_step in Es; by rewrite Ed in Es].
  exact (approval_step_other _ _ _ _ _ Es Ed (Hr d Ed)).
Qed.

Lemma revoked_not_live a s at_time x t : vget a "revoked_at" = VStr s -> parse_ts (VStr s) = Some x ->
  parse_ts (VStr at_time) = Some t -> (instant x <= instant t)%Z -> fst (approval_live_at (Some a) at_time) <> APPROVAL_PASS.
Proof.
  intros Hs Hx Ht Hle. unfold approval_live_at. rewrite Ht. destruct (parse_ts (vget a "granted_at")) as [g|]; [|done].
  cbv zeta. rewrite Hs, Hx. apply Z.leb_le in Hle. rewrite Hle.
  repeat match goal with |- context [if ?b then _ else _] => destruct b end; done.
Qed.

(** C30 (a standing revocation holds): when the last row of an approval is a
    revocation with a readable time, the approval's revocation time is that
    one, and the approval is not live at that time or after, whatever its
    earlier rows say and whatever is on record for other approvals. *)
Theorem revocation_holds pre r post d id s x states at_time t :
  latest_approval_states (pre ++ r :: post) = Ok states ->
  vget r "data" = VDict d -> NoDup (dkeys d) -> text_of d "approval_id" = id -> str_true id = true ->
  vget d "revoked_at" = VStr s -> parse_ts (VStr s) = Some x -> Forall (of_another id) post ->
  parse_ts (VStr at_time) = Some t -> (instant x <= instant t)%Z ->
  revoked_text states id = Some (VStr s) /\
  fst (approval_live_at (dget states id) at_time) <> APPROVAL_PASS.
Proof.
  intros E Hd Hn Hid Ht Hs Hx Hp Hat Hle. unfold latest_approval_states in E. rewrite foldM_app in E.
  destruct (foldM approval_step [] pre) as [s0|]; [|done]. cbn [foldM] in E.
  destruct (approval_step s0 r) as [s1|] eqn:E1; [|done].
  assert (Hsd : str_true s = true). { destruct s; [|done]. unfold parse_ts in Hx. done. }
  assert (Hdata : data_of r = Ok d).
  { unfold data_of. rewrite Hd. destruct d; [by unfold vget in Hs|done]. }
  assert (Hin : ("revoked_at", VStr s) ∈ List.filter said d).
  { apply list_elem_of_In, filter_In. split; [|done]. apply list_elem_of_In, dget_Some_elem.
    unfold vget in Hs. destruct (dget d "revoked_at"); congruence. }
  assert (Hnf : NoDup (dkeys (List.filter said d))).
  { clear -Hn. induction d as [|[k v] d IH]; [done|]. cbn [List.filter]. apply NoDup_cons in Hn as [Hk Hn].
    destruct (said (k, v)); [|by apply IH]. constructor; [|by apply IH]. contradict Hk.
    apply list_elem_of_fmap in Hk as (kv & -> & Hk). apply list_elem_of_In, filter_In in Hk as [Hk _].
    by apply (list_elem_of_fmap_2 fst), list_elem_of_In. }
  pose proof (approval_step_own _ _ _ _ _ E1 Hdata Hid Ht) as Hr. rewrite (dget_dupdate_in _ _ _ _ Hnf Hin) in Hr.
  unfold revoked_text in Hr |- *. rewrite <- (others_keep _ _ _ _ E Hp) in Hr. split; [exact Hr|].
  destruct (dget states id) as [a|]; [|done]. apply (revoked_not_live a s at_time x t); [|done..]. unfold vget. by rewrite Hr.
Qed.
End Approvals.

(* ------------------------------------------------------------------ *)
(** ** The chokepoint *)

Section Chokepoint.
Context `{FloatRepr} `{!Iso} `{!Postgres} `{!Hashes} `{!Cns}.
Variable loads : string -> result pyexn pyval.
Variable lenses : dict ContractCassette.

(** What the approvals of a request are read as, from the rows at that moment. *)
Definition approvals_seen (q : EgressRequest) (rows : list row) : result pyexn (dict (dict pyval)) :=
  approval_rows ← get_contract_rows loads (rq_counterparty_id q) ["contract_approval"] CONTRACT_ROWS_LIMIT rows;
  latest_approval_states approval_rows.

(** What an authorization at [at_time] rests on. *)
Record permitted (c : ContractCassette) (q : EgressRequest) (at_time : string) (rows : list row) : Prop := {
  p_not_prohibited : exists ps, prohibited_purposes c = Ok ps /\ rq_purpose q ∉ ps;
  p_listed : exists o, permitted_purposes c = Ok o /\ match o with Some ps => rq_purpose q ∈ ps | None => True end;
  p_approved : exists cs, approval_required_classes c = Ok cs /\
    (rq_recipient_class q ∈ cs -> exists id approvals a, rq_approval_reference q = Some id /\ str_true id = true /\
       approvals_seen q rows = Ok approvals /\ dget approvals id = Some a /\
       fst (approval_live_at (Some a) at_time) = APPROVAL_PASS);
}.

Lemma str_mem_false x l : str_mem x l = false <-> x ∉ l.
Proof. rewrite <- str_mem_spec. by destruct (str_mem x l). Qed.

Lemma check_approval_none q approvals now e : check_approval q approvals now = ([], e) ->
  exists id a, rq_approval_reference q = Some id /\ opt_true (rq_approval_reference q) = true /\ dget approvals id = Some a /\
    fst (approval_live_at (Some a) (when q now)) = APPROVAL_PASS.
Proof.
  unfold check_approval. destruct (opt_true (rq_approval_reference q)) eqn:Et; [|done]. cbn [negb].
  destruct (rq_approval_reference q) as [id|]; [|done]. cbn [or_empty]. intros E. exists id.
  destruct (dget approvals id) as [a|]; [|done]. exists a. split_and!; [done..|].
  destruct (approval_live_at (Some a) (when q now)) as [v ev]. by destruct v.
Qed.

(** A decision, by its reasons. *)
Lemma decide_egress_ok q now rows decision reasons evidence :
  decide_egress loads lenses q now rows = Ok (decision, reasons, evidence) ->
  (decision = EGRESS_AUTHORIZED /\ reasons = [] \/ decision = EGRESS_REFUSED /\ reasons <> []) /\
  (reasons = [] -> exists c, for_counterparty lenses (rq_counterparty_id q) = Ok c /\ permitted c q (when q now) rows).
Proof.
  unfold decide_egress, contract_of. destruct (for_counterparty lenses _) as [c|] eqn:Ec.
  2:{ intros [= <- <- <-]. split; [by right|done]. }
  intros E. bind_ok E approvals Ea. unfold evaluate_egress in E. bind_ok E reference Er. bind_ok E prohibited Ep.
  bind_ok E listed El. bind_ok E classes Ecl.
  destruct (match listed with Some ps => _ | None => _ end) as [r2 e2] eqn:E2.
  destruct (if str_mem (rq_recipient_class q) classes then _ else _) as [r3 e3] eqn:E3.
  injection E as <- <- <-. set (r1 := if str_mem (rq_purpose q) prohibited then _ else _).
  split; [destruct (r1 ++ r2 ++ r3)%list; [by left|by right]|].
  intros Hr. apply app_eq_nil in Hr as [H1' Hr]. apply app_eq_nil in Hr as [-> ->]. exists c. split; [done|]. split.
  - exists prohibited. split; [done|]. apply str_mem_false. subst r1. by destruct (str_mem (rq_purpose q) prohibited).
  - exists listed. split; [done|]. destruct listed as [ps|]; [|done]. apply str_mem_spec.
    by destruct (str_mem (rq_purpose q) ps).
  - exists classes. split; [done|]. intros Hin%str_mem_spec. rewrite Hin in E3.
    destruct (check_approval q approvals now) as [r e] eqn:Eca. injection E3 as -> _.
    apply check_approval_none in Eca as (id & a & Hid & Ht & Ha & Hp). exists id, approvals, a.
    split_and!; [done|by rewrite Hid in Ht| |done..]. by rewrite Ht in Ea.
Qed.

Definition egress_fields (q : EgressRequest) (decision at_time : string) : dict pyval :=
  [("counterparty", VStr (rq_counterparty_id q)); ("decision", VStr decision); ("data_scope", VStr (rq_data_scope q));
   ("recipient", VStr (rq_recipient q)); ("recipient_class", VStr (rq_recipient_class q)); ("purpose", VStr (rq_purpose q));
   ("approval_reference", text_or_empty (rq_approval_reference q)); ("occurred_at", VStr at_time)].

Definition egress_data (q : EgressRequest) (decision at_time : string) : dict pyval :=
  (("record_kind", VStr "contract_egress") :: ("parameter_changed", VBool false) :: egress_fields q decision at_time).

(** The row of a decision. *)
Record egress_row (q : EgressRequest) (at_time : string) (d : EgressDecision) (r : row) : Prop := {
  er_kind : vget r "record_kind" = VStr "contract_egress";
  er_hash : vget r "current_hash" = ed_current_hash d;
  er_data : pg_store C_JSONB (VDict (egress_data q (ed_decision d) at_time)) = Some (vget r "data");
  er_finding : pg_store C_JSONB (norm (egress_finding (ed_decision d) (ed_reasons d) (ed_evidence d))) =
    Some (vget r "decision_output");
}.

Lemma record_egress_ok os stamp io q now by_ hash decided l d l' :
  record_egress lenses os stamp io q now by_ hash decided l = (Ok d, l') ->
  (ed_decision d, ed_reasons d, ed_evidence d) = decided /\ ed_counterparty_id d = rq_counterparty_id q /\
  exists r, l_rows l' = (l_rows l ++ [r])%list /\ egress_row q (when q now) d r.
Proof.
  destruct decided as [[decision reasons] evidence]. unfold record_egress.
  destruct (contract_version_for lenses q) as [version|]; [|done].
  destruct (transact _ _ _ _ _) as [[written|e] l1] eqn:Et; [|done]. intros [= <- <-]. split_and!; [done..|].
  destruct (transact_cases _ _ _ _ _ _ _ Et) as [[_ Hr]|(stmts & ret & Hp & _ & _ & Hret)].
  { specialize (Hr written eq_refl). unfold record_contract_egress, require_all in Hr. do 4 apply refuse_if_ok in Hr as [_ Hr].
    unfold append_contract_row in Hr. bind_ok Hr sh Es. by destruct sh. }
  destruct Hret as [[= <-]|(e & [=])].
  pose proof Hp as Hp2. unfold record_contract_egress, require_all in Hp. do 4 apply refuse_if_ok in Hp as [_ Hp].
  unfold append_contract_row in Hp. bind_ok Hp sh Es. destruct sh as [s h]. injection Hp as <- <-.
  destruct (transact_one _ _ _ _ _ _ _ _ _ Hp2 Et) as (id & r & Hs & Hrows). exists r. split; [done|].
  unfold chain_row in Es. bind_ok Es sg Esig. injection Es as <- <-.
  split; cbn [ed_decision ed_reasons ed_evidence ed_current_hash].
  - exact (stored_native _ _ _ "record_kind" (C_VARCHAR 40) Hs eq_refl eq_refl).
  - exact (stored_native _ _ _ "current_hash" (C_VARCHAR 64) Hs eq_refl eq_refl).
  - exact (stored_cell _ _ _ "data" C_JSONB Hs eq_refl).
  - exact (stored_cell _ _ _ "decision_output" C_JSONB Hs eq_refl).
Qed.

Lemma request_egress_ok os stamp io seen now_decided now_recorded q by_ hash l d l' :
  request_egress_between loads lenses os stamp io seen now_decided now_recorded q by_ hash l = (Ok d, l') ->
  (exists r, l_rows l' = (l_rows l ++ [r])%list /\ egress_row q (when q now_recorded) d r) /\
  (ed_decision d = EGRESS_AUTHORIZED /\ ed_reasons d = [] \/ ed_decision d = EGRESS_REFUSED /\ ed_reasons d <> []) /\
  (ed_decision d = EGRESS_AUTHORIZED -> exists c, for_counterparty lenses (rq_counterparty_id q) = Ok c /\
     permitted c q (when q now_decided) seen).
Proof.
  unfold request_egress_between. destruct (decide_egress _ _ _ _ _) as [decided|] eqn:Ed; [|done]. intros E.
  apply record_egress_ok in E as (<- & _ & Hr). apply decide_egress_ok in Ed as [Hd Ha]. split_and!; [done..|].
  intros He. apply Ha. destruct Hd as [[_ ?]|[Hd _]]; [done|]. by rewrite He in Hd.
Qed.

Lemma request_egress_now os stamp io now_decided now_recorded q by_ hash l :
  request_egress loads lenses os stamp io now_decided now_recorded q by_ hash l =
  request_egress_between loads lenses os stamp io (l_rows l) now_decided now_recorded q by_ hash l.
Proof. done. Qed.

(** C9 (nothing is authorized off the record): when the chokepoint returns, the
    ledger has one new row, of this very decision, with the same hash and
    reasons; and an authorization rests on the one registered contract of the
    counterparty, a purpose it permits, and, where the class of the recipient
    needs one, an approval that was live.  This holds whatever others wrote
    between the reads and the record. *)
Theorem egress_is_on_record os stamp io seen now_decided now_recorded q by_ hash l d l' :
  request_egress_between loads lenses os stamp io seen now_decided now_recorded q by_ hash l = (Ok d, l') ->
  (exists r, l_rows l' = (l_rows l ++ [r])%list /\ egress_row q (when q now_recorded) d r) /\
  (ed_decision d = EGRESS_AUTHORIZED /\ ed_reasons d = [] \/ ed_decision d = EGRESS_REFUSED /\ ed_reasons d <> []) /\
  (ed_decision d = EGRESS_AUTHORIZED -> exists c, for_counterparty lenses (rq_counterparty_id q) = Ok c /\
     permitted c q (when q now_decided) seen).
Proof. apply request_egress_ok. Qed.
End Chokepoint.

(* ------------------------------------------------------------------ *)
(** ** The standing check *)

Section Audit.
Context `{FloatRepr} `{!Iso} `{!Postgres} `{!Hashes} `{!Cns}.
Variable loads : string -> result pyexn pyval.
Variable lenses : dict ContractCassette.

Lemma mapM_r_snoc_inv {E A B} (f : A -> result E B) l x bs : mapM_r f (l ++ [x]) = Ok bs ->
  exists bs' b, bs = (bs' ++ [b])%list /\ mapM_r f l = Ok bs' /\ f x = Ok b.
Proof.
  revert bs. induction l as [|a l IH]; intros bs; simpl.
  - destruct (f x) as [b|]; [|done]. intros [= <-]. by exists [], b.
  - destruct (f a) as [b|]; [|done]. destruct (mapM_r f (l ++ [x])) as [k|] eqn:E1; [|done]. intros [= <-].
    destruct (IH k eq_refl) as (bs' & b' & -> & -> & Hx). by exists (b :: bs'), b'.
Qed.

Lemma filter_snoc {A} (f : A -> bool) l x : List.filter f (l ++ [x]) = (List.filter f l ++ (if f x then [x] else []))%list.
Proof. rewrite List.filter_app. simpl. by destruct (f x). Qed.

(** Rows of other kinds, or of others, are not read. *)
Lemma contract_rows_skip cp kinds limit rows r : contract_row_of (match kinds with [] => CONTRACT_KINDS | ks => ks end) cp r = false ->
  get_contract_rows loads cp kinds limit (rows ++ [r]) = get_contract_rows loads cp kinds limit rows.
Proof. intros Hr. unfold get_contract_rows. by rewrite filter_snoc, Hr, app_nil_r. Qed.

Lemma contract_rows_snoc cp k limit rows r es : contract_row_of [k] cp r = true ->
  (length (List.filter (contract_row_of [k] cp) rows) < limit)%nat ->
  get_contract_rows loads cp [k] limit (rows ++ [r]) = Ok es ->
  exists es' e, es = (es' ++ [e])%list /\ contract_item loads r = Ok e.
Proof.
  intros Hr Hl. unfold get_contract_rows. destruct (blank cp); [done|]. destruct (negb _); [done|].
  rewrite filter_snoc, Hr, take_ge by (rewrite length_app; simpl; lia). intros (es' & e & -> & _ & He)%mapM_r_snoc_inv. eauto.
Qed.

Lemma egress_keys q decision at_time : NoDup (dkeys (egress_data q decision at_time)).
Proof. apply (bool_decide_unpack _). vm_compute. done. Qed.

(** What a stored decision is read back as. *)
Lemma egress_read_back q at_time d r : egress_row q at_time d r ->
  jsonb_plain (VDict (egress_data q (ed_decision d) at_time)) = true ->
  exists data, vget r "data" = VDict data /\ py_true (VDict data) = true /\
    forall k s, dget (egress_data q (ed_decision d) at_time) k = Some (VStr s) -> dget data k = Some (VStr s).
Proof.
  intros Hr Hp. destruct (pg_store_ok C_JSONB (VDict (egress_data q (ed_decision d) at_time)) Hp) as (w & Hw & Hj).
  rewrite (er_data _ _ _ _ Hr) in Hw. injection Hw as <-.
  destruct (vget r "data") as [| | | | | |data] eqn:Ed; try discriminate Hj. exists data.
  pose proof (json_equiv_nodup _ _ Hj (egress_keys _ _ _)) as Hn.
  assert (Hk : forall k s, dget (egress_data q (ed_decision d) at_time) k = Some (VStr s) -> dget data k = Some (VStr s)).
  { intros k s Hs. pose proof (json_equiv_dget _ _ k (egress_keys _ _ _) Hn Hj) as Hg. rewrite Hs in Hg.
    destruct (dget data k) as [v|]; [|done]. injection Hg as Hg. f_equal. by apply json_equiv_str. }
  split_and!; [done| |done]. destruct data; [|done]. by specialize (Hk "record_kind" _ eq_refl).
Qed.

Lemma data_of_item r data : vget r "data" = VDict data -> py_true (VDict data) = true -> data_of r = Ok data.
Proof. unfold data_of. by intros -> ->. Qed.

(** C29 (the standing check passes what the chokepoint authorized): for a
    contract that asks for an approval of subcontractors, an authorization of
    an egress to one, whose request gives its time, is a PASS of the standing
    check over the ledger just after it, as long as its reads are below their
    limit. *)
Theorem audit_passes_authorized os stamp io now_decided now_recorded q by_ hash l d l' c classes at_time es approvals fs :
  request_egress loads lenses os stamp io now_decided now_recorded q by_ hash l = (Ok d, l') ->
  ed_decision d = EGRESS_AUTHORIZED -> rq_recipient_class q = RECIPIENT_CLASS_SUBCONTRACTOR ->
  for_counterparty lenses (rq_counterparty_id q) = Ok c -> approval_required_classes c = Ok classes ->
  RECIPIENT_CLASS_SUBCONTRACTOR ∈ classes -> rq_occurred_at q = Some at_time -> str_true at_time = true ->
  jsonb_plain (VDict (egress_data q EGRESS_AUTHORIZED at_time)) = true ->
  (length (List.filter (contract_row_of ["contract_egress"] (rq_counterparty_id q)) (l_rows l)) < CONTRACT_ROWS_LIMIT)%nat ->
  get_contract_rows loads (rq_counterparty_id q) ["contract_egress"] CONTRACT_ROWS_LIMIT (l_rows l') = Ok es ->
  get_contract_rows loads (rq_counterparty_id q) ["contract_approval"] CONTRACT_ROWS_LIMIT (l_rows l') = Ok approvals ->
  check_subcontractor_approvals es approvals = Ok fs ->
  exists f, last fs = Some f /\ af_verdict f = APPROVAL_PASS /\ af_egress_hash f = ed_current_hash d /\
    af_approval_reference f = rq_approval_reference q.
Proof.
  intros E Hd Hcl Hc Hcs Hin Hat Ht Hp Hlim Hes Has Hfs. unfold request_egress in E.
  apply request_egress_ok in E as ((r & Hrows & Hr) & _ & Ha). specialize (Ha Hd) as (c' & Hc' & Hperm).
  rewrite Hc in Hc'. injection Hc' as <-. destruct (p_approved _ _ _ _ _ Hperm) as (cs & Hcs' & Hap).
  rewrite Hcs in Hcs'. injection Hcs' as <-. rewrite Hcl in Hap. destruct (Hap Hin) as (id & states & a & Hid & Hidt & Hst & Hda & Hpass).
  assert (Hw : forall now, when q now = at_time) by (intros now; unfold when; by rewrite Hat, Ht).
  rewrite Hw in Hr, Hpass. rewrite Hrows in Hes, Has.
  destruct (egress_read_back q at_time d r) as (data & Edata & Htrue & Hk); [done|by rewrite Hd|]. rewrite Hd in Hk.
  assert (Hkind : forall k, contract_row_of [k] (rq_counterparty_id q) r = String.eqb "contract_egress" k).
  { intros k. unfold contract_row_of. rewrite (er_kind _ _ _ _ Hr), Edata. unfold vget. rewrite (Hk "counterparty" _ eq_refl).
    cbn [str_mem existsb py_eq]. by rewrite String.eqb_refl, orb_false_r, andb_true_r. }
  rewrite contract_rows_skip in Has by (rewrite Hkind; done).
  unfold approvals_seen in Hst. rewrite Has in Hst. cbn [mbind result_bind] in Hst.
  destruct (contract_rows_snoc _ _ _ _ _ _ (Hkind "contract_egress") Hlim Hes) as (es' & e & -> & He).
  unfold check_subcontractor_approvals in Hfs. rewrite Hst in Hfs. cbn [mbind result_bind] in Hfs.
  bind_ok Hfs found Ef. injection Hfs as <-. apply mapM_r_snoc_inv in Ef as (found' & f & -> & _ & Hf).
  rewrite concat_app. unfold contract_item in He. rewrite Edata in He. cbn [as_json mbind result_bind] in He.
  bind_ok He output Eo. injection He as <-.
  unfold check_egress_row in Hf. rewrite (data_of_item _ data) in Hf by done. cbn [mbind result_bind] in Hf.
  unfold text_of, vget in Hf.
  rewrite (Hk "recipient_class" _ eq_refl), (Hk "decision" _ eq_refl), (Hk "occurred_at" _ eq_refl) in Hf.
  rewrite (Hk "approval_reference" _ eq_refl), Hid, Hcl in Hf. cbn [py_eq py_str py_true or_empty] in Hf.
  rewrite !String.eqb_refl in Hf. cbn [negb] in Hf.
  rewrite Hidt, Ht in Hf. unfold standing_verdict in Hf. rewrite Hidt, Ht, Hda in Hf. cbn [negb] in Hf.
  destruct (approval_live_at (Some a) at_time) as [v ev]. cbn [fst] in Hpass. subst v. injection Hf as <-.
  eexists. cbn [concat]. rewrite app_nil_r, last_snoc. split; [done|]. cbn [af_verdict af_egress_hash af_approval_reference].
  split_and!; [done| |by rewrite Hid; unfold if_true; rewrite Hidt]. exact (er_hash _ _ _ _ Hr).
Qed.
End Audit.

(* ------------------------------------------------------------------ *)
(** ** Where the read and the record part *)

Section Limits.
Context `{FloatRepr} `{!Iso}.
Variable loads : string -> result pyexn pyval.
Variable lenses : dict ContractCassette.

Lemma rows_past_limit_unread cp kinds limit rows more :
  (limit <= length (List.filter (contract_row_of (match kinds with [] => CONTRACT_KINDS | ks => ks end) cp) rows))%nat ->
  get_contract_rows loads cp kinds limit (rows ++ more) = get_contract_rows loads cp kinds limit rows.
Proof. intros Hl. unfold get_contract_rows. by rewrite List.filter_app, take_app_le. Qed.

(** The read is oldest first and bounded: once a counterparty has five thousand
    approval rows, no later one, a revocation included, has any effect on what
    the chokepoint decides. *)
Theorem approvals_past_limit_unread q now rows more :
  (CONTRACT_ROWS_LIMIT <= length (List.filter (contract_row_of ["contract_approval"] (rq_counterparty_id q)) rows))%nat ->
  decide_egress loads lenses q now (rows ++ more) = decide_egress loads lenses q now rows.
Proof. intros Hl. unfold decide_egress. by rewrite (rows_past_limit_unread _ ["contract_approval"]) by done. Qed.
End Limits.

(* ------------------------------------------------------------------ *)
(** ** A sample counterparty *)

#[local] Existing Instance sample_hashes.
#[local] Existing Instance sample_float_repr.
#[local] Existing Instance sample_cns.
#[local] Existing Instance sample_postgres.

(** Days, as decimal text. *)
#[export] Instance sample_iso : Iso := {|
  fromisoformat := fun s =>
    match N_of_digits s with Some n => Some (mkDatetime (Z.of_N n * DAY_US) (Some 0%Z)) | None => None end;
  isoformat := fun d => string_of_N (Z.to_N (dt_wall d / DAY_US));
|}.

Definition day (n : Z) : datetime := mkDatetime (n * DAY_US) (Some 0%Z).
Definition dpa : ContractCassette := ReferenceDPAContract "class ReferenceDPAContract: ...".
Definition dpa_lenses : dict ContractCassette :=
  match register_contract [] (OfferedContract dpa) with Ok (_, ls) => ls | Err _ => [] end.

(** Grants and revocations of one approval. *)
Definition approve (state granted : string) (revoked : option string) (l : ledger) : ledger :=
  snd (transact os_after "t" true (record_contract_approval os_after "contract:example-counterparty:1.0.0" "example-counterparty"
    "A1" state "officer" "acme" "subcontractor" "statements" granted None revoked None) l).
Definition to_acme (day : string) : EgressRequest :=
  mkRequest "example-counterparty" "statements" "acme" RECIPIENT_CLASS_SUBCONTRACTOR "fraud_screening" (Some "A1") (Some day).
Definition ask (at_day : string) (l : ledger) : result egress_exn EgressDecision * ledger :=
  request_egress no_loads dpa_lenses os_after "t" true (day 0) (day 0) (to_acme at_day) (Some "ops") None l.
Definition decided (r : result egress_exn EgressDecision) : option (string * list string) :=
  match r with Ok d => Some (ed_decision d, ed_reasons d) | Err _ => None end.
Definition verdicts (l : ledger) : result pyexn (list approval_verdict) :=
  es ← get_contract_rows no_loads "example-counterparty" ["contract_egress"] CONTRACT_ROWS_LIMIT (l_rows l);
  approvals ← get_contract_rows no_loads "example-counterparty" ["contract_approval"] CONTRACT_ROWS_LIMIT (l_rows l);
  fs ← check_subcontractor_approvals es approvals;
  Ok (map af_verdict fs).

Definition granted_on_1 : ledger := approve "granted" "1" None empty_ledger.

(** Granted, revoked on day 10, granted again on day 15: never live again. *)
Theorem regrant_never_live :
  decided (fst (ask "20" (approve "granted" "15" None (approve "revoked" "1" (Some "10") granted_on_1)))) =
    Some (EGRESS_REFUSED, [REFUSAL_APPROVAL_NOT_LIVE]).
Proof. vm_compute. reflexivity. Qed.

(** Granted on day 1, used on day 5, granted again on day 10: the standing check,
    which passed the egress of day 5, now flags it. *)
Theorem renewal_flags_the_past :
  decided (fst (ask "5" granted_on_1)) = Some (EGRESS_AUTHORIZED, []) /\
  verdicts (snd (ask "5" granted_on_1)) = Ok [APPROVAL_PASS] /\
  verdicts (approve "granted" "10" None (snd (ask "5" granted_on_1))) = Ok [APPROVAL_FLAG].
Proof. vm_compute. split_and!; reflexivity. Qed.

(** A revocation recorded between the reads of the chokepoint and its record. *)
Theorem revocation_in_between :
  let r := request_egress_between no_loads dpa_lenses os_after "t" true (l_rows granted_on_1) (day 0) (day 0)
             (to_acme "5") (Some "ops") None (approve "revoked" "1" (Some "2") granted_on_1) in
  decided (fst r) = Some (EGRESS_AUTHORIZED, []) /\ verdicts (snd r) = Ok [APPROVAL_FLAG].
Proof. vm_compute. split; reflexivity. Qed.

(** The anchor cannot be written: the caller is told the ledger is unavailable,
    and the authorization is on it. *)
Theorem unavailable_yet_recorded :
  let r := request_egress no_loads dpa_lenses (mkOs (environ os_after) (read_file os_after)) "t" false (day 0) (day 0) (to_acme "5")
             (Some "ops") None granted_on_1 in
  decided (fst r) = None /\ length (l_rows (snd r)) = S (length (l_rows granted_on_1)) /\ verdicts (snd r) = Ok [APPROVAL_PASS].
Proof. vm_compute. split_and!; reflexivity. Qed.

(** Two versions of one counterparty's contract registered: the lookup names the
    ambiguity, and the chokepoint records that there is no contract. *)
Definition dpa_next : ContractCassette :=
  mkContract (get_counterparty_id dpa) (get_contract_reference dpa) (Ok (VStr "1.1.0")) (get_terms dpa) (contract_MODES dpa)
    (contract_code dpa).
Definition both_lenses : dict ContractCassette :=
  match register_contract dpa_lenses (OfferedContract dpa_next) with Ok (_, ls) => ls | Err _ => [] end.

Theorem ambiguity_reads_as_no_contract :
  for_counterparty both_lenses "example-counterparty" = Err (Ambiguous 2) /\
  decided (fst (request_egress no_loads both_lenses os_after "t" true (day 0) (day 0) (to_acme "5") (Some "ops") None granted_on_1)) =
    Some (EGRESS_REFUSED, [REFUSAL_NO_CONTRACT]).
Proof. vm_compute. split; reflexivity. Qed.

(* ------------------------------------------------------------------ *)
(** ** The theorems at the sample *)

Definition oks {A} (r : result pyexn (list A)) : list A := match r with Ok l => l | Err _ => [] end.

Notation asked_on_5 :=
  (request_egress no_loads dpa_lenses os_after "t" true (day 0) (day 0) (to_acme "5") (Some "ops") None granted_on_1).

Lemma asked_on_5_ok : exists d l', asked_on_5 = (Ok d, l') /\ ed_decision d = EGRESS_AUTHORIZED.
Proof.
  assert (Hd : decided (fst asked_on_5) = Some (EGRESS_AUTHORIZED, [])) by (vm_compute; reflexivity).
  destruct asked_on_5 as [[d|e] l']; [|done]. injection Hd as Hd _. by exists d, l'.
Qed.

Lemma egress_is_on_record_witness : exists d l', asked_on_5 = (Ok d, l') /\
  (exists r, l_rows l' = (l_rows granted_on_1 ++ [r])%list /\ egress_row (to_acme "5") "5" d r) /\
  (exists c, permitted no_loads c (to_acme "5") "5" (l_rows granted_on_1)).
Proof.
  destruct asked_on_5_ok as (d & l' & E & Hd). exists d, l'. split; [exact E|]. rewrite request_egress_now in E.
  destruct (egress_is_on_record no_loads dpa_lenses os_after "t" true (l_rows granted_on_1) (day 0) (day 0) (to_acme "5")
              (Some "ops") None granted_on_1 d l' E) as (Hr & _ & Ha).
  split; [exact Hr|]. destruct (Ha Hd) as (c & _ & Hc). exists c. exact Hc.
Defined.

(** What the standing check reads and finds after an ask. *)
Definition audited (l : ledger) (es approvals : list (dict pyval)) (fs : list approval_finding) : Prop :=
  get_contract_rows no_loads "example-counterparty" ["contract_egress"] CONTRACT_ROWS_LIMIT (l_rows l) = Ok es /\
  get_contract_rows no_loads "example-counterparty" ["contract_approval"] CONTRACT_ROWS_LIMIT (l_rows l) = Ok approvals /\
  check_subcontractor_approvals es approvals = Ok fs.

Lemma verdicts_checked l vs : verdicts l = Ok vs -> exists es approvals fs, audited l es approvals fs.
Proof.
  unfold verdicts. intros Hv. bind_ok Hv es Hes. bind_ok Hv approvals Has. bind_ok Hv fs Hfs.
  exists es, approvals, fs. exact (conj Hes (conj Has Hfs)).
Qed.

Lemma asked_on_5_verdicts : verdicts (snd asked_on_5) = Ok [APPROVAL_PASS].
Proof. vm_compute. reflexivity. Qed.

Lemma audit_passes_authorized_witness : exists d l' es approvals fs f,
  asked_on_5 = (Ok d, l') /\ audited l' es approvals fs /\ last fs = Some f /\ af_verdict f = APPROVAL_PASS /\
  af_egress_hash f = ed_current_hash d.
Proof.
  destruct asked_on_5_ok as (d & l' & E & Hd). pose proof asked_on_5_verdicts as Hv. rewrite E in Hv. cbn [snd] in Hv.
  destruct (verdicts_checked l' _ Hv) as (es & aps & fs & Hes & Has & Hfs). exists d, l', es, aps, fs.
  destruct (audit_passes_authorized no_loads dpa_lenses os_after "t" true (day 0) (day 0) (to_acme "5") (Some "ops") None
              granted_on_1 d l' dpa [RECIPIENT_CLASS_SUBCONTRACTOR] "5" es aps fs
              E Hd eq_refl ltac:(vm_compute; reflexivity) ltac:(vm_compute; reflexivity) ltac:(by left) eq_refl eq_refl
              ltac:(vm_compute; reflexivity) ltac:(apply (bool_decide_unpack _); vm_compute; exact I) Hes Has Hfs)
    as (f & Hf & Hp & Hh & _).
  exists f. exact (conj E (conj (conj Hes (conj Has Hfs)) (conj Hf (conj Hp Hh)))).
Defined.

(** A grant, its revocation on day 10, and the grant of another approval. *)
Definition grant_of (id : string) : dict pyval :=
  [("data", VDict [("approval_id", VStr id); ("state", VStr "granted"); ("granted_at", VStr "1")])].
Definition revocation_row : dict pyval :=
  [("data", VDict [("approval_id", VStr "A1"); ("state", VStr "revoked"); ("revoked_at", VStr "10")])].
Definition three_rows : list (dict pyval) := [grant_of "A1"; revocation_row; grant_of "A2"].

Lemma revocation_holds_witness :
  revoked_text (oks (latest_approval_states three_rows)) "A1" = Some (VStr "10") /\
  fst (approval_live_at (dget (oks (latest_approval_states three_rows)) "A1") "20") <> APPROVAL_PASS.
Proof.
  apply (revocation_holds [grant_of "A1"] revocation_row [grant_of "A2"]
           [("approval_id", VStr "A1"); ("state", VStr "revoked"); ("revoked_at", VStr "10")] "A1" "10" (day 10) _ "20" (day 20)).
  - vm_compute. reflexivity.
  - reflexivity.
  - apply (bool_decide_unpack _). vm_compute. exact I.
  - reflexivity.
  - reflexivity.
  - reflexivity.
  - vm_compute. reflexivity.
  - constructor; [|constructor]. intros d [= <-]. discriminate.
  - vm_compute. reflexivity.
  - vm_compute. discriminate.
Defined.
