(* ===== verification/ContractRetention.v ===== *)
(** * ContractRetention: age against the contract's own clock

    Models src/sentinel_os/contract_retention.py: the status of one ingested
    record in one scope, the assessment of a counterparty, the counts, and the
    sweep over the ledger's contract rows.  [now] is an aware datetime. *)

From S2P Require Import Prelude PyFloat PyValue Episode Event Json Canonical Attestation HeadAnchor LedgerDb Ledger Regulatory Lens Contract ContractEgress.
Local Open Scope string_scope.

Definition STATUS_WITHIN_TERM : string := "within_term".
Definition STATUS_DELETED_ON_TIME : string := "deleted_on_time".
Definition STATUS_OVERDUE : string := "overdue".
Definition STATUS_INDETERMINATE : string := "INDETERMINATE".
Definition RETENTION_STATUSES : list string :=
  [STATUS_WITHIN_TERM; STATUS_DELETED_ON_TIME; STATUS_OVERDUE; STATUS_INDETERMINATE].

Definition INDET_NO_INGEST_RECORD : string := "no_ingest_record".
Definition INDET_NO_RETENTION_TERM : string := "contract_declares_no_retention_term".
Definition INDET_UNPARSEABLE_INGEST_TIME : string := "unparseable_ingest_time".
Definition INDET_UNPARSEABLE_DELETION_TIME : string := "unparseable_deletion_time".

Definition SCOPE_ACTIVE : string := "active".
Definition SCOPE_BACKUP : string := "backup".
Definition DELETION_STAMP : string := "attested".

Record retention := mkRetention {
  rs_scope : string;
  rs_status : string;
  rs_max_days : option Z;
  rs_age_days : option Z;
  rs_due_at : option string;
  rs_deleted_at : option string;
  rs_stamp : pyval;
  rs_reason : option string;
  rs_evidence : dict pyval;
}.

Record RetentionFinding := mkRetentionFinding {
  rf_ingest_id : string;
  rf_counterparty_id : pyval;
  rf_result : retention;
}.

(** Integer true division: the nearest float to the quotient. *)
Definition raw_float (z : Z) : float64 :=
  match z with
  | Z0 => fzero
  | Zpos p => S754_finite false p 0
  | Zneg p => S754_finite true p 0
  end.
Definition int_truediv (a b : Z) : float64 := fdiv (raw_float a) (raw_float b).

Section Retention.
Context `{FloatRepr} `{!Iso}.

(** [int((now - received).total_seconds() // 86400)] *)
Definition age_days (now received : datetime) : result pyexn Z :=
  float_to_int (ffloordiv (int_truediv (instant now - instant received) 1000000) (f_of_Z 86400)).

(** A deletion row with its time, or the row whose time cannot be read. *)
Fixpoint deletion_times (rows : list (dict pyval)) : result pyexn (list (datetime * dict pyval * dict pyval) + dict pyval) :=
  match rows with
  | [] => Ok (inl [])
  | r :: rows =>
      data ← data_of r;
      match parse_ts (vget data "deleted_at") with
      | None => Ok (inr r)
      | Some t =>
          rest ← deletion_times rows;
          Ok match rest with inl l => inl ((t, data, r) :: l) | inr r' => inr r' end
      end
  end.

Definition in_scope (scope : string) (r : dict pyval) : result pyexn bool :=
  data ← data_of r; Ok (py_eq (vget data "scope") (VStr scope)).

(** [[r for r in rows if ...]] with a test that may raise. *)
Fixpoint filter_r (f : dict pyval -> result pyexn bool) (l : list (dict pyval)) : result pyexn (list (dict pyval)) :=
  match l with
  | [] => Ok []
  | x :: l => b ← f x; rest ← filter_r f l; Ok (if b : bool then x :: rest else rest)
  end.

Definition earlier (a b : datetime * dict pyval * dict pyval) : bool := (instant (fst (fst a)) <=? instant (fst (fst b)))%Z.

Definition retention_status (ingest_row : option (dict pyval)) (deletion_rows : list (dict pyval))
    (max_days backup_max : option Z) (now : datetime) (scope : string) : result pyexn retention :=
  let indeterminate m a d reason evidence :=
    mkRetention scope STATUS_INDETERMINATE m a d None VNone (Some reason) evidence in
  match ingest_row with
  | None => Ok (indeterminate None None None INDET_NO_INGEST_RECORD [])
  | Some row =>
      let effective_max := match backup_max with
                           | Some b => if String.eqb scope SCOPE_BACKUP then Some b else max_days
                           | None => max_days
                           end in
      match effective_max with
      | None => Ok (indeterminate None None None INDET_NO_RETENTION_TERM [])
      | Some days =>
          data ← data_of row;
          match parse_ts (vget data "received_at") with
          | None => Ok (indeterminate (Some days) None None INDET_UNPARSEABLE_INGEST_TIME [])
          | Some received =>
              due ← add_days received days;
              age ← age_days now received;
              let due_at := Some (isoformat due) in
              let make status deleted_at stamp reason evidence :=
                mkRetention scope status (Some days) (Some age) due_at deleted_at stamp reason evidence in
              relevant ← filter_r (in_scope scope) deletion_rows;
              match relevant with
              | [] =>
                  if (instant due <? instant now)%Z
                  then Ok (make STATUS_OVERDUE None VNone (Some "horizon_passed_with_no_deletion_attested") [])
                  else Ok (make STATUS_WITHIN_TERM None VNone None [])
              | _ =>
                  parsed ← deletion_times relevant;
                  match parsed with
                  | inr r => Ok (indeterminate (Some days) (Some age) due_at INDET_UNPARSEABLE_DELETION_TIME
                                   [("deletion_hash", vget r "current_hash")])
                  | inl parsed =>
                      match sort earlier parsed with
                      | [] => Err RuntimeError      (* [relevant] is not empty *)
                      | (t, data, r) :: _ =>
                          let on_time := (instant t <=? instant due)%Z in
                          Ok (make (if on_time then STATUS_DELETED_ON_TIME else STATUS_OVERDUE) (Some (isoformat t))
                                (if py_true (vget data "stamp") then vget data "stamp" else VStr DELETION_STAMP)
                                (if on_time then None else Some "deleted_after_the_contract_horizon")
                                [("method", vget data "method"); ("deletion_hash", vget r "current_hash")])
                      end
                  end
              end
          end
      end
  end.

(* ------------------------------------------------------------------ *)
(** ** One counterparty *)

Definition add_ingest (acc : dict (dict pyval)) (r : dict pyval) : result pyexn (dict (dict pyval)) :=
  data ← data_of r;
  let ingest_id := text_of data "ingest_id" in
  Ok (if str_true ingest_id then dset acc ingest_id r else acc).

Definition add_deletion (acc : dict (list (dict pyval))) (r : dict pyval) : result pyexn (dict (list (dict pyval))) :=
  data ← data_of r;
  let ingest_id := text_of data "ingest_id" in
  Ok (if str_true ingest_id
      then dset acc ingest_id (match dget acc ingest_id with Some l => l | None => [] end ++ [r])%list else acc).

Definition assess_one (by_ingest : dict (dict pyval)) (deletions : dict (list (dict pyval))) (max_days backup_max : option Z)
    (counterparty_id : pyval) (now : datetime) (key : string * string) : result pyexn RetentionFinding :=
  let '(ingest_id, scope) := key in
  computed ← retention_status (dget by_ingest ingest_id)
               (match dget deletions ingest_id with Some l => l | None => [] end) max_days backup_max now scope;
  Ok (mkRetentionFinding ingest_id counterparty_id computed).

Definition scopes (backup_max : option Z) : list string :=
  SCOPE_ACTIVE :: match backup_max with Some _ => [SCOPE_BACKUP] | None => [] end.

Definition assess_counterparty (contract : ContractCassette) (ingest_rows deletion_rows : list (dict pyval)) (now : datetime)
    : result pyexn (list RetentionFinding) :=
  max_days ← retention_max_days contract;
  backup_max ← backup_max_days contract;
  counterparty_id ← get_counterparty_id contract;
  by_ingest ← foldM add_ingest [] ingest_rows;
  deletions ← foldM add_deletion [] deletion_rows;
  let ids := sorted_set (dkeys by_ingest ++ dkeys deletions) in
  mapM_r (assess_one by_ingest deletions max_days backup_max counterparty_id now)
    (flat_map (fun i => map (pair i) (scopes backup_max)) ids).

(** Counts per status, zeros included. *)
Definition count_status (counts : dict Z) (f : RetentionFinding) : dict Z :=
  let s := rs_status (rf_result f) in
  dset counts s (match dget counts s with Some n => n | None => 0 end + 1)%Z.

Definition summarize (findings : list RetentionFinding) : dict Z :=
  fold_left count_status findings (map (fun s => (s, 0%Z)) RETENTION_STATUSES).

Definition opt_int (o : option Z) : pyval := match o with Some z => VInt z | None => VNone end.

Definition retention_finding_dict (f : RetentionFinding) : dict pyval :=
  let r := rf_result f in
  [("check", VStr "contract_retention_status"); ("ingest_id", VStr (rf_ingest_id f));
   ("counterparty_id", rf_counterparty_id f); ("status", VStr (rs_status r)); ("scope", VStr (rs_scope r));
   ("max_days", opt_int (rs_max_days r)); ("age_days", opt_int (rs_age_days r)); ("due_at", opt_str (rs_due_at r));
   ("deleted_at", opt_str (rs_deleted_at r)); ("stamp", rs_stamp r); ("reason", opt_str (rs_reason r));
   ("evidence", VDict (rs_evidence r)); ("disclaimer", VStr SCREENING_DISCLAIMER)].

(** [sweep], over the rows of the ledger. *)
Variable loads : string -> result pyexn pyval.

Definition counterparty_rows (counterparty_id : pyval) (kinds : list string) (table : list row)
    : result pyexn (list (dict pyval)) :=
  get_contract_rows loads (if py_true counterparty_id then py_str counterparty_id else "") kinds CONTRACT_ROWS_LIMIT table.

Definition retention_sweep (contract : ContractCassette) (table : list row) (now : datetime)
    : result pyexn (list RetentionFinding) :=
  counterparty_id ← get_counterparty_id contract;
  ingests ← counterparty_rows counterparty_id ["contract_ingest"] table;
  deletions ← counterparty_rows counterparty_id ["contract_deletion"] table;
  assess_counterparty contract ingests deletions now.
End Retention.
