(* ===== verification/RetentionFacts.v ===== *)
(** * RetentionFacts: silence is never compliance

    What each status of a record rests on, that every record on file gets one
    in every scope of its contract, and that the counts account for all of
    them. *)

From Stdlib Require Import Sorted.
From S2P Require Import Prelude PyFloat PyValue Episode Event Json Canonical Attestation HeadAnchor LedgerDb Ledger Regulatory Lens Contract ContractEgress ContractRetention EgressFacts.
Local Open Scope string_scope.

Section Retention.
Context `{FloatRepr} `{!Iso}.

(* ------------------------------------------------------------------ *)
(** ** One record *)

(** The days the contract gives a scope. *)
Definition days_for (max_days backup_max : option Z) (scope : string) : option Z :=
  match backup_max with
  | Some b => if String.eqb scope SCOPE_BACKUP then Some b else max_days
  | None => max_days
  end.

(** A deletion attested in the scope, and its time. *)
Definition attested (scope : string) (rows : list (dict pyval)) (r : dict pyval) : Prop :=
  r ∈ rows /\ in_scope scope r = Ok true.
Definition attested_at (scope : string) (rows : list (dict pyval)) (t : datetime) : Prop :=
  exists r d, attested scope rows r /\ data_of r = Ok d /\ parse_ts (vget d "deleted_at") = Some t.

Definition silent (scope : string) (rows : list (dict pyval)) : Prop := forall r, ~ attested scope rows r.

(** When the record's days run out. *)
Definition horizon (row : dict pyval) (days : Z) (due : datetime) : Prop :=
  exists d received, data_of row = Ok d /\ parse_ts (vget d "received_at") = Some received /\ add_days received days = Ok due.

(** What a status rests on. *)
Inductive rests_on (ingest : option (dict pyval)) (rows : list (dict pyval)) (days : option Z) (now : datetime)
    (scope : string) : string -> option string -> Prop :=
| R_no_ingest : ingest = None ->
    rests_on ingest rows days now scope STATUS_INDETERMINATE (Some INDET_NO_INGEST_RECORD)
| R_no_term row : ingest = Some row -> days = None ->
    rests_on ingest rows days now scope STATUS_INDETERMINATE (Some INDET_NO_RETENTION_TERM)
| R_no_time row n d : ingest = Some row -> days = Some n -> data_of row = Ok d -> parse_ts (vget d "received_at") = None ->
    rests_on ingest rows days now scope STATUS_INDETERMINATE (Some INDET_UNPARSEABLE_INGEST_TIME)
| R_no_deletion_time row n due r d : ingest = Some row -> days = Some n -> horizon row n due -> attested scope rows r ->
    data_of r = Ok d -> parse_ts (vget d "deleted_at") = None ->
    rests_on ingest rows days now scope STATUS_INDETERMINATE (Some INDET_UNPARSEABLE_DELETION_TIME)
| R_within row n due : ingest = Some row -> days = Some n -> horizon row n due -> silent scope rows ->
    (instant now <= instant due)%Z -> rests_on ingest rows days now scope STATUS_WITHIN_TERM None
| R_overdue row n due : ingest = Some row -> days = Some n -> horizon row n due -> silent scope rows ->
    (instant due < instant now)%Z ->
    rests_on ingest rows days now scope STATUS_OVERDUE (Some "horizon_passed_with_no_deletion_attested")
| R_late row n due t : ingest = Some row -> days = Some n -> horizon row n due -> attested_at scope rows t ->
    (forall t', attested_at scope rows t' -> (instant due < instant t')%Z) ->
    rests_on ingest rows days now scope STATUS_OVERDUE (Some "deleted_after_the_contract_horizon")
| R_deleted row n due t : ingest = Some row -> days = Some n -> horizon row n due -> attested_at scope rows t ->
    (instant t <= instant due)%Z -> rests_on ingest rows days now scope STATUS_DELETED_ON_TIME None.

Lemma filter_r_elem f l k x : filter_r f l = Ok k -> x ∈ k <-> x ∈ l /\ f x = Ok true.
Proof.
  revert k. induction l as [|a l IH]; intros k E; cbn [filter_r] in E.
  - injection E as <-. set_solver.
  - bind_ok E b Eb. bind_ok E rest Er. injection E as <-. destruct b; rewrite ?elem_of_cons, (IH rest eq_refl); naive_solver congruence.
Qed.

(** The rows with their times, when every one has one. *)
Lemma deletion_times_ok rows l : deletion_times rows = Ok (inl l) ->
  map snd l = rows /\ forall t d r, (t, d, r) ∈ l -> data_of r = Ok d /\ parse_ts (vget d "deleted_at") = Some t.
Proof.
  revert l. induction rows as [|r rows IH]; intros l E; cbn [deletion_times] in E.
  - injection E as <-. set_solver.
  - bind_ok E d Ed. destruct (parse_ts _) as [t|] eqn:Et; [|done]. bind_ok E rest Er. destruct rest as [k|]; [|done].
    injection E as <-. destruct (IH k eq_refl) as [Hm Hk]. cbn [map snd]. split; [by rewrite Hm|].
    intros t' d' r' [[= -> -> ->]|Hin]%elem_of_cons; [done|by apply Hk].
Qed.

Lemma deletion_times_bad rows r : deletion_times rows = Ok (inr r) ->
  exists d, r ∈ rows /\ data_of r = Ok d /\ parse_ts (vget d "deleted_at") = None.
Proof.
  induction rows as [|a rows IH]; intros E; cbn [deletion_times] in E; [done|].
  bind_ok E d Ed. destruct (parse_ts _) as [t|] eqn:Et; [|injection E as <-; exists d; set_solver].
  bind_ok E rest Er. destruct rest as [k|r']; [done|]. injection E as ->. destruct (IH eq_refl) as (d' & ? & ?). exists d'. set_solver.
Qed.

Lemma earlier_total a b : earlier a b = false -> earlier b a = true.
Proof. unfold earlier. lia. Qed.

(** The first of the sorted list is the earliest. *)
Lemma sort_earlier_head l a k : sort earlier l = a :: k -> a ∈ l /\ forall b, b ∈ l -> earlier a b = true.
Proof.
  intros E. split; [rewrite <- (elem_of_sort earlier), E; set_solver|].
  assert (Hs : Sorted (fun a b => earlier a b = true) (sort earlier l)).
  { apply (sort_Sorted earlier (fun _ => True)); [intros x y _ _; apply earlier_total|by apply Forall_forall]. }
  rewrite E in Hs. apply Sorted_extends in Hs; [|intros x y z; unfold earlier; lia].
  intros b Hb. rewrite <- (elem_of_sort earlier), E in Hb. apply elem_of_cons in Hb as [->|Hb]; [unfold earlier; lia|].
  rewrite Forall_forall in Hs. by apply Hs.
Qed.

(** Silence is never compliance: a record reads as deleted on time only on a
    deletion attested in that scope at or before its horizon, and as within its
    term only before the horizon; past it, with nothing attested or only later
    deletions, it is overdue; what cannot be compared is indeterminate. *)
Lemma status_rests_on ingest rows max_days backup_max now scope r :
  retention_status ingest rows max_days backup_max now scope = Ok r ->
  rs_scope r = scope /\ rests_on ingest rows (days_for max_days backup_max scope) now scope (rs_status r) (rs_reason r).
Proof.
  unfold retention_status. fold (days_for max_days backup_max scope).
  destruct ingest as [row|]; [|intros [= <-]; split; [done|by constructor]].
  destruct (days_for max_days backup_max scope) as [days|]; [|intros [= <-]; split; [done|by econstructor]].
  intros E. bind_ok E data Ed. destruct (parse_ts (vget data "received_at")) as [received|] eqn:Er;
    [|injection E as <-; split; [done|by eapply R_no_time]].
  bind_ok E due Edue. bind_ok E age Eage. bind_ok E relevant Erel.
  assert (Hh : horizon row days due) by (by exists data, received).
  pose proof (fun x => filter_r_elem _ _ _ x Erel) as Hin. destruct relevant as [|r0 relevant].
  { assert (Hsil : silent scope rows) by (intros x Hx%Hin; set_solver).
    destruct (Z.ltb_spec (instant due) (instant now)); injection E as <-; (split; [done|]);
      [by eapply R_overdue|by eapply R_within]. }
  bind_ok E parsed Ep. destruct parsed as [parsed|bad].
  2:{ injection E as <-. split; [done|]. apply deletion_times_bad in Ep as (d & Hb%Hin & Hd & Hn). by eapply R_no_deletion_time. }
  destruct (sort earlier parsed) as [|[[t d] x] k] eqn:Es; [done|]. apply sort_earlier_head in Es as [Ht Hmin].
  apply deletion_times_ok in Ep as [Hm Hp].
  assert (Hat : attested_at scope rows t).
  { destruct (Hp _ _ _ Ht). exists x, d. split_and!; [|done..]. apply Hin. rewrite <- Hm. by apply (list_elem_of_fmap_2 snd) in Ht. }
  injection E as <-. split; [done|]. cbn [rs_status rs_reason]. destruct (Z.leb_spec (instant t) (instant due)); [by eapply R_deleted|].
  eapply R_late; [done..|]. intros t' (x' & d' & Hx'%Hin & Hd' & Ht'). rewrite <- Hm in Hx'.
  apply list_elem_of_fmap in Hx' as ([[t1 d1] x1] & -> & Hx1). destruct (Hp _ _ _ Hx1) as [Hd1 Ht1]. cbn [snd] in *.
  specialize (Hmin _ Hx1). unfold earlier in Hmin. cbn [fst] in Hmin. assert (t1 = t') as -> by congruence. lia.
Qed.

(* ------------------------------------------------------------------ *)
(** ** Every record, in every scope *)

(** A row that names an ingest. *)
Definition names (id : string) (r : dict pyval) : Prop :=
  exists d, data_of r = Ok d /\ text_of d "ingest_id" = id /\ str_true id = true.

Lemma named_keys {A} (acc : dict A) r d v id : data_of r = Ok d ->
  id ∈ dkeys (if str_true (text_of d "ingest_id") then dset acc (text_of d "ingest_id") v else acc) <-> id ∈ dkeys acc \/ names id r.
Proof.
  intros Hd. unfold names. rewrite Hd.
  assert (Hn : (exists d', @Ok pyexn _ d = Ok d' /\ text_of d' "ingest_id" = id /\ str_true id = true) <->
    text_of d "ingest_id" = id /\ str_true id = true) by (split; [intros (? & [= <-] & ?)|intros ?; exists d]; done).
  rewrite Hn. destruct (str_true (text_of d "ingest_id")) eqn:Et; rewrite ?dkeys_dset; split.
  - intros [->|?]; auto.
  - intros [?|[<- _]]; auto.
  - auto.
  - intros [?|[<- ?]]; congruence.
Qed.

Lemma add_ingest_keys acc r acc' id : add_ingest acc r = Ok acc' -> id ∈ dkeys acc' <-> id ∈ dkeys acc \/ names id r.
Proof.
  unfold add_ingest. intros E. bind_ok E d Ed. injection E as <-.
  by apply named_keys.
Qed.

Lemma add_deletion_keys acc r acc' id : add_deletion acc r = Ok acc' -> id ∈ dkeys acc' <-> id ∈ dkeys acc \/ names id r.
Proof.
  unfold add_deletion. intros E. bind_ok E d Ed. injection E as <-.
  by apply named_keys.
Qed.

Lemma foldM_keys {A} (f : dict A -> dict pyval -> result pyexn (dict A)) rows id :
  (forall acc r acc', f acc r = Ok acc' -> id ∈ dkeys acc' <-> id ∈ dkeys acc \/ names id r) ->
  forall acc acc', foldM f acc rows = Ok acc' -> id ∈ dkeys acc' <-> id ∈ dkeys acc \/ exists r, r ∈ rows /\ names id r.
Proof.
  intros Hf. induction rows as [|r rows IH]; intros acc acc' E; cbn [foldM] in E; [injection E as <-; set_solver|].
  destruct (f acc r) as [s|] eqn:Es; [|done]. rewrite (IH _ _ E), (Hf _ _ _ Es). set_solver.
Qed.

Lemma foldM_keys_nil {A} (f : dict A -> dict pyval -> result pyexn (dict A)) rows id acc' :
  (forall acc r acc', f acc r = Ok acc' -> id ∈ dkeys acc' <-> id ∈ dkeys acc \/ names id r) ->
  foldM f [] rows = Ok acc' -> id ∈ dkeys acc' <-> exists r, r ∈ rows /\ names id r.
Proof.
  intros Hf E. rewrite (foldM_keys f rows id Hf _ _ E). split; [intros [Hn|?]; [by apply not_elem_of_nil in Hn|done]|by right].
Qed.

(** The deletions of an id are those that name it, in order. *)
Definition names_b (id : string) (r : dict pyval) : bool :=
  match data_of r with Ok d => String.eqb (text_of d "ingest_id") id && str_true id | Err _ => false end.
Definition deletions_of (acc : dict (list (dict pyval))) (id : string) : list (dict pyval) :=
  match dget acc id with Some l => l | None => [] end.

Lemma deletions_collected rows acc acc' id : foldM add_deletion acc rows = Ok acc' ->
  deletions_of acc' id = (deletions_of acc id ++ List.filter (names_b id) rows)%list.
Proof.
  revert acc. induction rows as [|r rows IH]; intros acc E; cbn [foldM] in E; [injection E as <-; by rewrite app_nil_r|].
  destruct (add_deletion acc r) as [s|] eqn:Es; [|done]. rewrite (IH _ E). cbn [List.filter].
  unfold add_deletion in Es. bind_ok Es d Ed. injection Es as <-. unfold names_b at 2. rewrite Ed.
  destruct (String.eqb_spec (text_of d "ingest_id") id) as [<-|Hne]; cbn [andb].
  - destruct (str_true _); [|done]. unfold deletions_of. rewrite dget_dset_eq. by rewrite <- app_assoc.
  - destruct (str_true (text_of d "ingest_id")); [|done]. unfold deletions_of. by rewrite dget_dset_ne.
Qed.

(** The ingest of an id is the last row that names it. *)
Lemma ingest_collected rows acc acc' id : foldM add_ingest acc rows = Ok acc' ->
  dget acc' id = match last (List.filter (names_b id) rows) with Some r => Some r | None => dget acc id end.
Proof.
  revert acc. induction rows as [|r rows IH]; intros acc E; cbn [foldM] in E; [by injection E as <-|].
  destruct (add_ingest acc r) as [s|] eqn:Es; [|done]. rewrite (IH _ E). cbn [List.filter]. unfold add_ingest in Es.
  bind_ok Es d Ed. injection Es as <-. unfold names_b at 2. rewrite Ed.
  destruct (String.eqb_spec (text_of d "ingest_id") id) as [<-|Hne]; cbn [andb].
  - destruct (str_true _); [|done]. rewrite last_cons, dget_dset_eq. by destruct (last _).
  - destruct (str_true (text_of d "ingest_id")); [|done]. by rewrite dget_dset_ne.
Qed.

Definition finding_key (f : RetentionFinding) : string * string := (rf_ingest_id f, rs_scope (rf_result f)).

Lemma sorted_set_elem x l : x ∈ sorted_set l <-> x ∈ l.
Proof. unfold sorted_set. by rewrite elem_of_sort, elem_of_remove_dups. Qed.
Lemma sorted_set_nodup l : NoDup (sorted_set l).
Proof. unfold sorted_set. rewrite sort_perm. apply NoDup_remove_dups. Qed.

Lemma keys_nodup backup_max (ids : list string) : NoDup ids -> NoDup (flat_map (fun i => map (pair i) (scopes backup_max)) ids).
Proof.
  induction 1 as [|i ids Hi _ IH]; cbn [flat_map]; [constructor|]. apply NoDup_app. split_and!; [| |done].
  - apply NoDup_fmap; [intros ? ? [= ->]; done|]. unfold scopes. destruct backup_max; repeat constructor; set_solver.
  - intros [i' s] Hs Hin. apply list_elem_of_fmap in Hs as (? & [= -> ->] & _).
    apply list_elem_of_In, in_flat_map in Hin as (j & Hj & Hin). apply in_map_iff in Hin as (? & [= <- <-] & _).
    by apply list_elem_of_In in Hj.
Qed.

Lemma mapM_r_keys {A B K} (f : A -> result pyexn B) (key : B -> K) (src : A -> K) l bs :
  (forall a b, f a = Ok b -> key b = src a) -> mapM_r f l = Ok bs -> map key bs = map src l.
Proof. intros Hf Hl%mapM_r_Ok. induction Hl as [|a b l bs E _ IH]; cbn [map]; [done|]. by rewrite (Hf _ _ E), IH. Qed.

Lemma assess_one_ok bi dels max_days backup_max cp now id scope f :
  assess_one bi dels max_days backup_max cp now (id, scope) = Ok f -> finding_key f = (id, scope) /\
  rests_on (dget bi id) (deletions_of dels id) (days_for max_days backup_max scope) now scope
    (rs_status (rf_result f)) (rs_reason (rf_result f)).
Proof. unfold assess_one. intros E. bind_ok E r Er. injection E as <-. apply status_rests_on in Er as [<- Hr]. by split. Qed.

(* ------------------------------------------------------------------ *)
(** ** The counts *)

Definition with_status (st : string) (f : RetentionFinding) : bool := String.eqb (rs_status (rf_result f)) st.
Definition counted (st : string) (fs : list RetentionFinding) : Z := Z.of_nat (length (List.filter (with_status st) fs)).

Lemma rests_on_status ingest rows days now scope st reason : rests_on ingest rows days now scope st reason -> st ∈ RETENTION_STATUSES.
Proof. destruct 1; apply str_mem_spec; reflexivity. Qed.

Lemma dkeys_dset_in {A} (d : dict A) k v : k ∈ dkeys d -> dkeys (dset d k v) = dkeys d.
Proof.
  induction d as [|[k' v'] d IH]; intros Hk; [by apply not_elem_of_nil in Hk|]. cbn [dset].
  destruct (String.eqb_spec k' k) as [->|Hne]; [done|]. apply elem_of_cons in Hk as [->|Hk]; [done|].
  unfold dkeys in *. cbn [map]. by rewrite IH.
Qed.

Lemma counts_step counts fs : Forall (fun f => rs_status (rf_result f) ∈ dkeys counts) fs ->
  dkeys (fold_left count_status fs counts) = dkeys counts /\
  forall st n, dget counts st = Some n -> dget (fold_left count_status fs counts) st = Some (n + counted st fs)%Z.
Proof.
  intros Hf. revert counts Hf. induction fs as [|f fs IH]; intros counts Hf; cbn [fold_left].
  { split; [done|]. intros st n ->. f_equal. unfold counted. cbn. lia. }
  apply Forall_cons in Hf as [Hk Hf]. set (next := count_status counts f).
  assert (Hkeys : dkeys next = dkeys counts) by (apply dkeys_dset_in; done).
  destruct (IH next) as [Hd Hg]; [by rewrite Hkeys|]. split; [by rewrite Hd|]. intros st n Hn.
  unfold counted. cbn [List.filter]. unfold with_status at 1.
  destruct (String.eqb_spec (rs_status (rf_result f)) st) as [Hst|Hst].
  - rewrite (Hg st (n + 1)%Z); [cbn [length]; unfold counted; f_equal; lia|]. subst next. unfold count_status.
    by rewrite Hst, Hn, dget_dset_eq.
  - apply Hg. subst next. unfold count_status. by rewrite dget_dset_ne.
Qed.

Lemma summary_counts fs : Forall (fun f => rs_status (rf_result f) ∈ RETENTION_STATUSES) fs ->
  dkeys (summarize fs) = RETENTION_STATUSES /\
  forall st, st ∈ RETENTION_STATUSES -> dget (summarize fs) st = Some (counted st fs).
Proof.
  intros Hf. unfold summarize. set (zeros := map _ RETENTION_STATUSES).
  destruct (counts_step zeros fs Hf) as [Hd Hg]. split; [exact Hd|]. intros st Hst. rewrite (Hg st 0%Z); [done|].
  clear -Hst. repeat (apply elem_of_cons in Hst as [->|Hst]; [reflexivity|]). by apply not_elem_of_nil in Hst.
Qed.

(** No id is ingested twice. *)
Definition ingested_once (ingests : list (dict pyval)) : Prop :=
  forall id, (length (List.filter (names_b id) ingests) <= 1)%nat.

(** The ingest an id names. *)
Definition ingest_of (ingests : list (dict pyval)) (id : string) : option (dict pyval) :=
  find (names_b id) ingests.

Lemma find_filter {A} (f : A -> bool) l : (length (List.filter f l) <= 1)%nat ->
  last (List.filter f l) = find f l.
Proof.
  induction l as [|x l IH]; intros Hl; [done|]. cbn [List.filter find] in *. destruct (f x); [|by apply IH].
  cbn [length] in Hl. by destruct (List.filter f l); [|simpl in Hl; lia].
Qed.

(** C12 (every record is assessed): under a contract that declares a term for
    backup copies too, an assessment of records each ingested once has exactly
    one finding for each id an ingest or a deletion names, in each of the two
    scopes; each rests on the ingest that names that id and the deletions that
    do: deleted on time only on a deletion attested in that scope by the
    horizon, within its term only before it, overdue past it with nothing
    attested or only later deletions, indeterminate when they cannot be
    compared; the backup scope is measured against the backup days and the
    active one against the plain ones; and the summary counts each of the four
    statuses, zeros too. *)
Theorem every_record_assessed c ingests deletions now fs backup max_days :
  assess_counterparty c ingests deletions now = Ok fs -> retention_max_days c = Ok max_days ->
  backup_max_days c = Ok (Some backup) -> ingested_once ingests ->
  NoDup (map finding_key fs) /\
  (forall id scope, (id, scope) ∈ map finding_key fs <->
     (exists r, r ∈ (ingests ++ deletions)%list /\ names id r) /\ (scope = SCOPE_ACTIVE \/ scope = SCOPE_BACKUP)) /\
  (forall f, f ∈ fs -> rests_on (ingest_of ingests (rf_ingest_id f))
     (List.filter (names_b (rf_ingest_id f)) deletions)
     (if String.eqb (rs_scope (rf_result f)) SCOPE_BACKUP then Some backup else max_days)
     now (rs_scope (rf_result f)) (rs_status (rf_result f)) (rs_reason (rf_result f))) /\
  dkeys (summarize fs) = RETENTION_STATUSES /\
  (forall st, st ∈ RETENTION_STATUSES -> dget (summarize fs) st = Some (counted st fs)).
Proof.
  unfold assess_counterparty. intros E Hmax Hback Honce. rewrite Hmax, Hback in E. cbn [mbind result_bind] in E.
  bind_ok E cp Ecp. bind_ok E bi Ei. bind_ok E dels Ed.
  set (ids := sorted_set _) in E. set (ks := flat_map _ _) in E.
  assert (Hks : map finding_key fs = ks).
  { rewrite <- (map_id ks). refine (mapM_r_keys _ finding_key (fun k => k) _ _ _ E).
    intros [i scope] f Hf. apply assess_one_ok in Hf as [Hf _]. exact Hf. }
  assert (Hki : forall id, id ∈ dkeys bi <-> exists r, r ∈ ingests /\ names id r).
  { intros id. exact (foldM_keys_nil _ _ id _ (fun acc r acc' => add_ingest_keys acc r acc' id) Ei). }
  assert (Hst : forall f, f ∈ fs -> exists id scope, finding_key f = (id, scope) /\
     rests_on (ingest_of ingests id) (List.filter (names_b id) deletions) (days_for max_days (Some backup) scope)
       now scope (rs_status (rf_result f)) (rs_reason (rf_result f))).
  { intros f Hf. apply mapM_r_Ok in E. apply list_elem_of_lookup in Hf as (i & Hf).
    apply (Forall2_lookup_r _ _ _ _ _ E) in Hf as ([id scope] & _ & Hf). exists id, scope.
    apply assess_one_ok in Hf as [Hk Hr]. rewrite (deletions_collected _ _ _ id Ed), (ingest_collected _ _ _ id Ei) in Hr.
    split; [exact Hk|]. rewrite (find_filter (names_b id) ingests (Honce id)) in Hr. unfold ingest_of.
    by destruct (find _ ingests). }
  rewrite Hks. split_and!.
  - apply keys_nodup, sorted_set_nodup.
  - intros id scope. transitivity (id ∈ ids /\ scope ∈ scopes (Some backup)).
    { unfold ks. rewrite list_elem_of_In, in_flat_map. setoid_rewrite in_map_iff. setoid_rewrite <- list_elem_of_In. naive_solver. }
    unfold ids. rewrite sorted_set_elem, elem_of_app, Hki, (foldM_keys_nil _ _ id _ (fun acc r acc' => add_deletion_keys acc r acc' id) Ed).
    setoid_rewrite elem_of_app. unfold scopes. rewrite !elem_of_cons, elem_of_nil. naive_solver.
  - intros f Hf. destruct (Hst f Hf) as (id & scope & [= -> ->] & Hr). exact Hr.
  - apply summary_counts, Forall_forall. intros f Hf. destruct (Hst f Hf) as (? & ? & _ & Hr). by apply rests_on_status in Hr.
  - apply summary_counts, Forall_forall. intros f Hf. destruct (Hst f Hf) as (? & ? & _ & Hr). by apply rests_on_status in Hr.
Qed.
End Retention.

(* ------------------------------------------------------------------ *)
(** ** At a sample counterparty *)

#[local] Existing Instance sample_float_repr.

Definition ingested (id received : string) : dict pyval :=
  [("data", VDict [("ingest_id", VStr id); ("received_at", VStr received)])].
Definition deleted (id scope at_time : string) : dict pyval :=
  [("data", VDict [("ingest_id", VStr id); ("scope", VStr scope); ("deleted_at", VStr at_time)])].

Definition statuses (r : result pyexn (list RetentionFinding)) : result pyexn (list (string * string * string)) :=
  fs ← r; Ok (map (fun f => (finding_key f, rs_status (rf_result f))) fs).

(** Under the reference agreement: 90 days, 365 for backups. *)
Definition sample_ingests : list (dict pyval) := [ingested "R1" "0"; ingested "R2" "100"; ingested "R3" "10"].
Definition sample_deletions : list (dict pyval) :=
  [deleted "R1" SCOPE_ACTIVE "95"; deleted "R1" SCOPE_BACKUP "300"; deleted "R1" SCOPE_ACTIVE "80"; deleted "R9" SCOPE_ACTIVE "1"].
Definition sample_findings : list RetentionFinding :=
  oks (assess_counterparty dpa sample_ingests sample_deletions (day 120)).

Example sample_statuses : statuses (assess_counterparty dpa sample_ingests sample_deletions (day 120)) =
  Ok [("R1", SCOPE_ACTIVE, STATUS_DELETED_ON_TIME); ("R1", SCOPE_BACKUP, STATUS_DELETED_ON_TIME);
      ("R2", SCOPE_ACTIVE, STATUS_WITHIN_TERM); ("R2", SCOPE_BACKUP, STATUS_WITHIN_TERM);
      ("R3", SCOPE_ACTIVE, STATUS_OVERDUE); ("R3", SCOPE_BACKUP, STATUS_WITHIN_TERM);
      ("R9", SCOPE_ACTIVE, STATUS_INDETERMINATE); ("R9", SCOPE_BACKUP, STATUS_INDETERMINATE)].
Proof. vm_compute. reflexivity. Qed.

Lemma every_record_assessed_witness : NoDup (map finding_key sample_findings) /\
  ("R9", SCOPE_BACKUP) ∈ map finding_key sample_findings /\
  dget (summarize sample_findings) STATUS_INDETERMINATE = Some (counted STATUS_INDETERMINATE sample_findings).
Proof.
  assert (E : assess_counterparty dpa sample_ingests sample_deletions (day 120) = Ok sample_findings) by (vm_compute; reflexivity).
  assert (Hm : retention_max_days dpa = Ok (Some 90%Z)) by (vm_compute; reflexivity).
  assert (Hb : backup_max_days dpa = Ok (Some 365%Z)) by (vm_compute; reflexivity).
  assert (Ho : ingested_once sample_ingests).
  { intros id. unfold sample_ingests. cbn [List.filter].
    change (names_b id (ingested "R1" "0")) with (String.eqb "R1" id && str_true id).
    change (names_b id (ingested "R2" "100")) with (String.eqb "R2" id && str_true id).
    change (names_b id (ingested "R3" "10")) with (String.eqb "R3" id && str_true id).
    destruct (str_true id); rewrite ?andb_false_r; [|cbn; lia].
    destruct (String.eqb_spec "R1" id) as [<-|]; [cbn; lia|].
    destruct (String.eqb_spec "R2" id) as [<-|]; [cbn; lia|].
    destruct (String.eqb_spec "R3" id) as [<-|]; cbn; lia. }
  destruct (every_record_assessed dpa sample_ingests sample_deletions (day 120) sample_findings _ _ E Hm Hb Ho)
    as (Hn & Hk & _ & _ & Hc).
  split_and!; [exact Hn| |apply Hc; apply str_mem_spec; reflexivity].
  apply Hk. split; [|by right]. exists (deleted "R9" SCOPE_ACTIVE "1").
  split; [apply elem_of_app; right; do 3 apply list_elem_of_further; apply list_elem_of_here|]. eexists. split_and!; reflexivity.
Defined.

(* ------------------------------------------------------------------ *)
(** ** What the assessment leaves out *)

Definition short_contract (ps : dict pyval) : ContractCassette :=
  mkContract (Ok (VStr "acme")) (Ok (VStr "DPA-1")) (Ok (VStr "1.0.0"))
    (Ok (Terms [Some (mkTerm TERM_RETENTION_MAX_DAYS (VDict ps))])) (VList [VStr MODE_OBSERVER]) "class C: ...".

(** A contract silent on backups: the copy in backup, deleted seventy days past
    the only clock, is in no finding. *)
Theorem silent_contract_skips_backups :
  statuses (assess_counterparty (short_contract [("max_days", VInt 30)]) [ingested "R1" "0"]
              [deleted "R1" SCOPE_ACTIVE "10"; deleted "R1" SCOPE_BACKUP "100"] (day 120)) =
    Ok [("R1", SCOPE_ACTIVE, STATUS_DELETED_ON_TIME)].
Proof. vm_compute. reflexivity. Qed.

(** A record overdue on day 120 is within its term again once an ingest of the
    same id is recorded: the last one sets the clock. *)
Theorem reingest_restarts_the_clock :
  statuses (assess_counterparty (short_contract [("max_days", VInt 30)]) [ingested "R1" "0"] [] (day 120)) =
    Ok [("R1", SCOPE_ACTIVE, STATUS_OVERDUE)] /\
  statuses (assess_counterparty (short_contract [("max_days", VInt 30)]) [ingested "R1" "0"; ingested "R1" "110"] [] (day 120)) =
    Ok [("R1", SCOPE_ACTIVE, STATUS_WITHIN_TERM)].
Proof. vm_compute. split; reflexivity. Qed.

(** A term of more days than a date can hold passes validation, and every
    assessment of the counterparty's records stops. *)
Theorem endless_term_stops_assessment :
  let c := short_contract [("max_days", VInt 10000000000)] in
  validate_contract_cassette_terms c = [] /\
  statuses (assess_counterparty c [ingested "R1" "0"] [] (day 120)) = Err OverflowError.
Proof. vm_compute. split; reflexivity. Qed.
