(* ===== verification/ContractAttestation.v ===== *)
(** * ContractAttestation: what one counterparty may see, and prove

    Models src/sentinel_os/contract_attestation.py: the partition chain of one
    counterparty's rows, the signed receipt over its head, the continuity check
    against a receipt the counterparty holds, and the scoped report. *)

From S2P Require Import Prelude PyFloat PyValue Episode Event Json Canonical Attestation HeadAnchor LedgerDb Ledger TwinReceiver Base64 Custody Regulatory Lens Contract ContractEgress ContractRetention.
Local Open Scope string_scope.

Definition ATTESTATION_SCHEMA_VERSION : string := "1.0.0".
Definition REDACTED_ROW_FIELDS : list string := ["id"].
Definition COMPLETENESS_MECHANISM : string := "per_counterparty_partition_chain_plus_icc".

Definition DISCLOSED_LIMITATIONS : list string :=
  [EGRESS_SCOPE_NOTE;
   "Deletion events are attested by the operator, not verified by Sentinel. Sentinel does not delete data and does not observe deletion; it records what the operator states and, more importantly, refuses to treat silence as compliance -- a record past its retention horizon with no deletion attested is reported overdue, never within term.";
   "This report cannot show whether data was used to train a model after it left the boundary. That is not provable from inside this boundary. The egress log states what left and to whom, and nothing about downstream use.";
   "This report cannot show whether a recipient resold or re-shared data beyond what the egress log records.";
   "The partition chain proves your slice has not been altered or reordered since a receipt you hold. Proving that a record about you was never chained in the first place requires the Independent Completeness Cross-check, which compares against your own submission record. That log is yours to keep; Sentinel cannot supply it, and that is the point of it.";
   "Findings are mechanical screening for human review, not a legal determination of contract compliance."].

Definition MECHANISM_NOTE : string :=
  "Your rows are folded into a partition chain of their own: each step hashes the previous step together with that row's ledger hash. Removing, altering or reordering any row in your slice changes the head. Compare the head below against the anchor receipt you already hold. Records dropped before ever being chained are outside what this can show; that is what the Independent Completeness Cross-check against your own submission record is for.".

Definition redact_row (r : dict pyval) : dict pyval :=
  List.filter (fun kv => negb (str_mem (fst kv) REDACTED_ROW_FIELDS)) r.

(* ------------------------------------------------------------------ *)
(** ** The partition chain *)

Record chain_step := mkStep { st_seq : nat; st_record_kind : pyval; st_row_hash : string; st_partition_hash : string }.

Section Partition.
Context `{FloatRepr} `{!Hashes}.

Definition row_hash (r : dict pyval) : string := text_of r "current_hash".

Definition next_hash (running h : string) : string := sha256 (utf8 (running +:+ h)).

Fixpoint chain_from (seq : nat) (running : string) (rows : list (dict pyval)) : list chain_step :=
  match rows with
  | [] => []
  | r :: rows =>
      let running := next_hash running (row_hash r) in
      mkStep seq (vget r "record_kind") (row_hash r) running :: chain_from (S seq) running rows
  end.

Definition partition_chain (rows : list (dict pyval)) : list chain_step := chain_from 0 "genesis" rows.

(** [chain[-1]["partition_hash"] if chain else "genesis"] *)
Definition partition_head (rows : list (dict pyval)) : string :=
  match last (partition_chain rows) with Some s => st_partition_hash s | None => "genesis" end.
End Partition.

(* ------------------------------------------------------------------ *)
(** ** Receipts *)

Record AnchorReceipt := mkReceipt {
  ar_counterparty_id : pyval;
  ar_partition_head : string;
  ar_row_count : Z;
  ar_issued_at : string;
  ar_signer_fingerprint : string;
  ar_signature : string;
  ar_schema_version : string;
}.

Definition receipt_payload (counterparty_id : pyval) (head : string) (row_count : Z) (issued_at schema_version : string)
    : dict pyval :=
  [("schema_version", VStr schema_version); ("kind", VStr "contract_anchor_receipt"); ("counterparty_id", counterparty_id);
   ("partition_head", VStr head); ("row_count", VInt row_count); ("issued_at", VStr issued_at)].

Definition payload_of (r : AnchorReceipt) : dict pyval :=
  receipt_payload (ar_counterparty_id r) (ar_partition_head r) (ar_row_count r) (ar_issued_at r) (ar_schema_version r).

Definition receipt_dict (r : AnchorReceipt) : dict pyval :=
  (payload_of r ++ [("signer_fingerprint", VStr (ar_signer_fingerprint r)); ("signature", VStr (ar_signature r))])%list.

Inductive continuity :=
| INVALID_RECEIPT
| DIVERGED_removed (rows_now : nat) (rows_at_receipt : Z)
| DIVERGED_head (expected recomputed : string)
| CONTINUOUS (rows_at_receipt : Z) (rows_now : nat) (current_head : string).

(** [rows[:n]] *)
Definition slice_to {A} (rows : list A) (n : Z) : list A :=
  take (Z.to_nat (if (n <? 0)%Z then Z.of_nat (length rows) + n else n)) rows.

Section Receipts.
Context `{FloatRepr} `{!Hashes} `{!Crypto} `{!Iso}.

Definition stamp_or_now (issued_at : option string) (clock : datetime) : string :=
  if opt_true issued_at then or_empty issued_at else isoformat clock.

Definition issue_anchor_receipt (counterparty_id : pyval) (rows : list (dict pyval))
    (signing_priv_b64 signer_pub_b64 : string) (issued_at : option string) (clock : datetime)
    : result pyexn AnchorReceipt :=
  let issued_at := stamp_or_now issued_at clock in
  let head := partition_head rows in
  let count := Z.of_nat (length rows) in
  fp ← fingerprint signer_pub_b64;
  signature ← sign (receipt_payload counterparty_id head count issued_at ATTESTATION_SCHEMA_VERSION) signing_priv_b64;
  Ok (mkReceipt counterparty_id head count issued_at fp signature ATTESTATION_SCHEMA_VERSION).

(** [verify_signature]: only a wrong signature is caught. *)
Definition verify_receipt_signature (r : AnchorReceipt) (signer_pub_b64 : string) : result pyexn bool :=
  match verify_b64 signer_pub_b64 (ar_signature r) (canonical_json (VDict (payload_of r))) with
  | Some b => Ok b
  | None => Err ValueError
  end.

Definition verify_continuity (r : AnchorReceipt) (rows : list (dict pyval)) (signer_pub_b64 : string)
    : result pyexn continuity :=
  good ← verify_receipt_signature r signer_pub_b64;
  if negb good then Ok INVALID_RECEIPT else
  if (Z.of_nat (length rows) <? ar_row_count r)%Z then Ok (DIVERGED_removed (length rows) (ar_row_count r)) else
  let recomputed := partition_head (slice_to rows (ar_row_count r)) in
  if negb (String.eqb recomputed (ar_partition_head r)) then Ok (DIVERGED_head (ar_partition_head r) recomputed)
  else Ok (CONTINUOUS (ar_row_count r) (length rows) (partition_head rows)).

(* ------------------------------------------------------------------ *)
(** ** The report *)

Record ContractReport := mkReport {
  rp_counterparty_id : pyval;
  rp_contract_reference : pyval;
  rp_contract_version : string;
  rp_contract_hash : string;
  rp_generated_at : string;
  rp_terms : list ContractTerm;
  rp_egress : list (dict pyval);
  rp_retention : list RetentionFinding;
  rp_retention_summary : dict Z;
  rp_approval_findings : list approval_finding;
  rp_row_count : nat;
  rp_head : string;
  rp_chain : list chain_step;
  rp_receipt : option AnchorReceipt;
}.

Definition step_dict (s : chain_step) : dict pyval :=
  [("seq", VInt (Z.of_nat (st_seq s))); ("record_kind", st_record_kind s); ("row_hash", VStr (st_row_hash s));
   ("partition_hash", VStr (st_partition_hash s))].

Definition dicts {A} (f : A -> dict pyval) (l : list A) : pyval := VList (map (fun a => VDict (f a)) l).

(** [Attestation.as_dict] *)
Definition report_dict (a : ContractReport) : dict pyval :=
  [("schema_version", VStr ATTESTATION_SCHEMA_VERSION); ("counterparty_id", rp_counterparty_id a);
   ("contract", VDict [("reference", rp_contract_reference a); ("version", VStr (rp_contract_version a));
                       ("content_hash", VStr (rp_contract_hash a)); ("terms", dicts term_dict (rp_terms a))]);
   ("generated_at", VStr (rp_generated_at a)); ("egress", dicts id (rp_egress a));
   ("retention", VDict [("summary", VDict (map (fun '(k, n) => (k, VInt n)) (rp_retention_summary a)));
                        ("findings", dicts retention_finding_dict (rp_retention a))]);
   ("subcontractor_approvals", dicts approval_finding_dict (rp_approval_findings a));
   ("slice_completeness",
    VDict [("mechanism", VStr COMPLETENESS_MECHANISM); ("mechanism_note", VStr MECHANISM_NOTE);
           ("row_count", VInt (Z.of_nat (rp_row_count a))); ("head", VStr (rp_head a)); ("chain", dicts step_dict (rp_chain a))]);
   ("anchor_receipt", match rp_receipt a with Some r => VDict (receipt_dict r) | None => VNone end);
   ("disclaimer", VStr SCREENING_DISCLAIMER); ("disclosed_limitations", strs DISCLOSED_LIMITATIONS)].

Definition attestation_bytes (a : ContractReport) : string := canonical_json (VDict (report_dict a)).

Variable loads : string -> result pyexn pyval.

(** [by_kind.get(kind, [])] *)
Definition of_kind (kind : string) (rows : list (dict pyval)) : list (dict pyval) :=
  List.filter (fun r => String.eqb (py_str (vget r "record_kind")) kind) rows.

Definition signed_receipt (counterparty_id : pyval) (rows : list (dict pyval)) (priv pub issued_at : option string)
    (clock : datetime) : result pyexn (option AnchorReceipt) :=
  if opt_true priv && opt_true pub
  then r ← issue_anchor_receipt counterparty_id rows (or_empty priv) (or_empty pub) issued_at clock; Ok (Some r)
  else Ok None.

(** The report over the counterparty's rows, as [get_contract_rows] gives them. *)
Definition build_report (contract : ContractCassette) (counterparty_id : pyval) (rows : list (dict pyval)) (now : datetime)
    (priv pub issued_at : option string) (clock : datetime) : result lens_exn ContractReport :=
  retention_findings ← lift_lens (assess_counterparty contract (of_kind "contract_ingest" rows)
                                    (of_kind "contract_deletion" rows) now);
  approval_findings ← lift_lens (check_subcontractor_approvals (of_kind "contract_egress" rows)
                                   (of_kind "contract_approval" rows));
  receipt ← lift_lens (signed_receipt counterparty_id rows priv pub issued_at clock);
  reference ← lift_lens (get_contract_reference contract);
  version ← contract_cassette_version_of contract;
  snap ← snapshot (contract_lens contract);
  terms ← lift_lens (all_terms contract);
  Ok (mkReport counterparty_id reference version (compute_cassette_hash (VDict snap)) (isoformat now) terms
        (map redact_row (of_kind "contract_egress" rows)) retention_findings (summarize retention_findings)
        approval_findings (length rows) (partition_head rows) (partition_chain rows) receipt).

Definition build_attestation (contract : ContractCassette) (now : datetime) (priv pub issued_at : option string)
    (clock : datetime) (table : list row) : result lens_exn ContractReport :=
  counterparty_id ← lift_lens (get_counterparty_id contract);
  rows ← lift_lens (counterparty_rows loads counterparty_id [] table);
  build_report contract counterparty_id rows now priv pub issued_at clock.
End Receipts.
