(* ===== verification/AttestationFacts.v ===== *)
(** * AttestationFacts: what the counterparty can check, and what it learns

    A receipt the counterparty holds pins its rows: they verify as long as they
    are only extended, and any other change is told or exhibits a SHA-256 collision of two
    of the texts hashed.
    The report is a function of the counterparty's own rows, their place in the
    global sequence left out; what one of their columns still shows is at the
    end. *)

From S2P Require Import Prelude PyFloat PyValue Episode Event Json Canonical Attestation HeadAnchor LedgerDb Ledger LedgerVerify LedgerSound LedgerWrites LedgerHistory LedgerTamper TwinReceiver Base64 Custody Regulatory Lens Contract ContractEgress ContractRetention ContractAttestation EgressFacts RetentionFacts.
Local Open Scope string_scope.

(* ------------------------------------------------------------------ *)
(** ** Texts and digests *)

Lemma utf8_char_head c s : exists b t, utf8_char c +:+ s = String b t /\ ((N_of_ascii b < 128)%N <-> (N_of_ascii c < 128)%N).
Proof.
  unfold utf8_char. pose proof (N_ascii_bounded c) as Hb. destruct (N.ltb_spec (N_of_ascii c) 128) as [Hl|Hl].
  - exists c, s. done.
  - eexists _, _. split; [reflexivity|]. assert (Hq : (N_of_ascii c / 64 < 4)%N) by (apply N.Div0.div_lt_upper_bound; lia).
    generalize dependent (N_of_ascii c / 64)%N. intros q Hq. rewrite N_ascii_embedding; [split; lia|lia].
Qed.

Lemma utf8_char_split a b s t : utf8_char a +:+ s = utf8_char b +:+ t -> a = b /\ s = t.
Proof.
  intros E. destruct (utf8_char_head a s) as (x & u & Ha & Hxa). destruct (utf8_char_head b t) as (y & w & Hb & Hyb).
  rewrite Ha, Hb in E. injection E as -> ->. rewrite <- Hb in Ha. unfold utf8_char in Ha.
  pose proof (N_ascii_bounded a) as Hba. pose proof (N_ascii_bounded b) as Hbb.
  assert (Hq : forall n, (n < 256)%N -> (n / 64 < 4)%N) by (intros; apply N.Div0.div_lt_upper_bound; lia).
  assert (Hm : forall n, (n mod 64 < 64)%N) by (intros; apply N.mod_upper_bound; lia).
  destruct (N.ltb_spec (N_of_ascii a) 128), (N.ltb_spec (N_of_ascii b) 128); try lia; injection Ha as H1 H2.
  - done.
  - intros.
    apply (f_equal N_of_ascii) in H1. apply (f_equal N_of_ascii) in H2.
    rewrite !N_ascii_embedding in H1, H2 by (pose proof (Hq _ Hba); pose proof (Hq _ Hbb); pose proof (Hm (N_of_ascii a)); pose proof (Hm (N_of_ascii b)); lia).
    assert (Hab : N_of_ascii a = N_of_ascii b).
    { rewrite (N.div_mod (N_of_ascii a) 64), (N.div_mod (N_of_ascii b) 64) by lia. lia. }
    apply (f_equal ascii_of_N) in Hab. by rewrite !ascii_N_embedding in Hab.
Qed.

Lemma utf8_inj s t : utf8 s = utf8 t -> s = t.
Proof.
  revert t. induction s as [|a s IH]; intros [|b t] E; cbn [utf8] in E; [done| | |].
  - destruct (utf8_char_head b (utf8 t)) as (? & ? & Hb & _). by rewrite Hb in E.
  - destruct (utf8_char_head a (utf8 s)) as (? & ? & Ha & _). by rewrite Ha in E.
  - apply utf8_char_split in E as [-> E]. by rewrite (IH _ E).
Qed.

Lemma app_split_s (a b s t : string) : String.length a = String.length b -> a +:+ s = b +:+ t -> a = b /\ s = t.
Proof.
  revert b. induction a as [|c a IH]; intros [|d b] Hl E; try done. injection Hl as Hl. injection E as -> E.
  by destruct (IH b Hl E) as [-> ->].
Qed.

(* ------------------------------------------------------------------ *)
(** ** The partition chain *)

Section Partition.
Context `{FloatRepr} `{!Hashes}.

Definition head_from (running : string) (hashes : list string) : string := fold_left next_hash hashes running.

Lemma chain_from_head seq running rows :
  match last (chain_from seq running rows) with Some s => st_partition_hash s | None => running end =
  head_from running (map row_hash rows).
Proof.
  revert seq running. induction rows as [|r rows IH]; intros seq running; [done|]. cbn [chain_from map]. unfold head_from in *.
  cbn [fold_left]. rewrite <- (IH (S seq)). rewrite last_cons. by destruct (last (chain_from _ _ rows)).
Qed.

Lemma partition_head_eq rows : partition_head rows = head_from "genesis" (map row_hash rows).
Proof. apply chain_from_head. Qed.

(** The texts hashed along the chain, in order. *)
Fixpoint hashed_from (running : string) (hashes : list string) : list string :=
  match hashes with
  | [] => []
  | h :: hashes => utf8 (running +:+ h) :: hashed_from (next_hash running h) hashes
  end.
Definition hashed_along (rows : list (dict pyval)) : list string := hashed_from "genesis" (map row_hash rows).

(** Two different texts, one of each list, of one digest. *)
Definition texts_collide (xs ys : list string) : Prop := exists x y, x ∈ xs /\ y ∈ ys /\ x <> y /\ sha256 x = sha256 y.

(** The head of as many rows fixes their hashes. *)
Lemma head_from_commits a b run run' : length a = length b -> String.length run = String.length run' ->
  head_from run a = head_from run' b -> texts_collide (hashed_from run a) (hashed_from run' b) \/ run = run' /\ a = b.
Proof.
  revert b run run'. induction a as [|x a IH]; intros [|y b] run run' Hl Hr E; try done; [by right|].
  injection Hl as Hl. cbn [hashed_from].
  destruct (IH b (next_hash run x) (next_hash run' y) Hl) as [(s & t & Hs & Ht & Hd)|[Hn ->]]; [|exact E| |].
  { unfold next_hash. by rewrite !(proj2 (sha256_hex _)). }
  { left. exists s, t. split_and!; [by right|by right|apply Hd..]. }
  unfold next_hash in Hn. destruct (decide (utf8 (run +:+ x) = utf8 (run' +:+ y))) as [Hu|Hu].
  - right. apply utf8_inj, app_split_s in Hu as [-> ->]; done.
  - left. exists (utf8 (run +:+ x)), (utf8 (run' +:+ y)). split_and!; [by left|by left|done..].
Qed.

Lemma partition_head_commits rows rows' : length rows = length rows' -> partition_head rows = partition_head rows' ->
  texts_collide (hashed_along rows) (hashed_along rows') \/ map row_hash rows = map row_hash rows'.
Proof.
  rewrite !partition_head_eq. intros Hl E. apply head_from_commits in E as [?|[_ ?]]; [by left|by right| |done].
  by rewrite !length_map.
Qed.
End Partition.

(* ------------------------------------------------------------------ *)
(** ** Continuity *)

Section Continuity.
Context `{FloatRepr} `{!Hashes} `{!Crypto} `{!Iso}.

Lemma verify_own_signature k p sig : String.length k = 32%nat -> sign p (b64e k) = Ok sig ->
  verify_b64 (b64e (ed25519_public k)) sig (canonical_json (VDict p)) = Some true.
Proof.
  intros Hk. unfold sign. rewrite b64d_b64e. cbn [mbind result_bind]. unfold raw_key. rewrite Hk. cbn [Nat.eqb mbind result_bind].
  intros [= <-]. unfold verify_b64. rewrite !b64d_b64e. cbn [mbind result_bind]. unfold raw_key.
  rewrite ed25519_public_len. cbn [Nat.eqb mbind result_bind]. by rewrite ed25519_verify.
Qed.

(** C10 (a receipt pins the rows): a receipt issued over some rows verifies
    against any extension of them; and whatever rows it verifies against, under
    whatever key, begin with as many rows of the same ledger hashes in the same
    order, or two texts hashed along the two chains differ and have one SHA-256
    digest: nothing was removed, altered or reordered. *)
Theorem receipt_pins_the_rows cp rows k issued clock r :
  String.length k = 32%nat -> issue_anchor_receipt cp rows (b64e k) (b64e (ed25519_public k)) issued clock = Ok r ->
  (forall later, verify_continuity r (rows ++ later) (b64e (ed25519_public k)) =
     Ok (CONTINUOUS (Z.of_nat (length rows)) (length (rows ++ later)) (partition_head (rows ++ later)))) /\
  (forall rows' pub n now_n head, verify_continuity r rows' pub = Ok (CONTINUOUS n now_n head) ->
     exists kept later, rows' = (kept ++ later)%list /\ length kept = length rows /\
       (map row_hash kept = map row_hash rows \/ texts_collide (hashed_along kept) (hashed_along rows))).
Proof.
  intros Hk. unfold issue_anchor_receipt. set (at_time := stamp_or_now issued clock). intros E.
  bind_ok E fp Efp. bind_ok E signature Esig. injection E as <-. split.
  - intros later. unfold verify_continuity, verify_receipt_signature. cbn [ar_signature ar_row_count ar_partition_head].
    unfold payload_of. cbn [ar_counterparty_id ar_partition_head ar_row_count ar_issued_at ar_schema_version].
    rewrite (verify_own_signature k _ _ Hk Esig). cbn [mbind result_bind negb].
    destruct (Z.ltb_spec (Z.of_nat (length (rows ++ later))) (Z.of_nat (length rows))) as [Hl|_]; [rewrite length_app in Hl; lia|].
    unfold slice_to. destruct (Z.ltb_spec (Z.of_nat (length rows)) 0) as [|_]; [lia|].
    by rewrite Nat2Z.id, take_app_length, String.eqb_refl.
  - intros rows' pub n now_n head. unfold verify_continuity. cbn [ar_row_count ar_partition_head]. intros E.
    bind_ok E good Eg. destruct good; [cbn [negb] in E|done].
    destruct (Z.ltb_spec (Z.of_nat (length rows')) (Z.of_nat (length rows))) as [|Hl]; [done|].
    destruct (String.eqb_spec (partition_head (slice_to rows' (Z.of_nat (length rows)))) (partition_head rows)) as [Hh|]; [|done].
    unfold slice_to in Hh. destruct (Z.ltb_spec (Z.of_nat (length rows)) 0) as [|_]; [lia|]. rewrite Nat2Z.id in Hh.
    exists (take (length rows) rows'), (drop (length rows) rows'). rewrite take_drop.
    assert (Hk' : length (take (length rows) rows') = length rows) by (rewrite length_take; lia).
    split_and!; [done|done|]. apply partition_head_commits in Hh as [?|?]; auto.
Qed.
End Continuity.

(* ------------------------------------------------------------------ *)
(** ** What the report depends on *)

Definition fmap_r {E A B} (f : A -> B) (r : result E A) : result E B := match r with Ok a => Ok (f a) | Err e => Err e end.

Section Scope.
Context `{FloatRepr} `{!Hashes} `{!Crypto} `{!Iso}.

Lemma vget_redact k r : k <> "id" -> vget (redact_row r) k = vget r k.
Proof.
  intros Hk. assert (Hd : dget (redact_row r) k = dget r k); [|unfold vget; by rewrite Hd].
  unfold redact_row. induction r as [|[k' v] r IH]; [done|]. cbn [List.filter fst].
  destruct (str_mem k' REDACTED_ROW_FIELDS) eqn:Em; cbn [negb dget].
  - apply str_mem_spec, list_elem_of_singleton in Em. subst k'. destruct (String.eqb_spec "id" k) as [<-|_]; done.
  - by rewrite IH.
Qed.

Lemma redact_redact r : redact_row (redact_row r) = redact_row r.
Proof.
  unfold redact_row. induction r as [|x r IH]; [done|]. cbn [List.filter]. destruct (negb _) eqn:E; [|done].
  cbn [List.filter]. by rewrite E, IH.
Qed.

Lemma data_of_redact r : data_of (redact_row r) = data_of r.
Proof. unfold data_of. by rewrite vget_redact. Qed.

Lemma filter_r_redact scope l : filter_r (in_scope scope) (map redact_row l) = fmap_r (map redact_row) (filter_r (in_scope scope) l).
Proof.
  assert (Hs : forall r, in_scope scope (redact_row r) = in_scope scope r) by (intros r; unfold in_scope; by rewrite data_of_redact).
  induction l as [|r l IH]; [done|]. cbn [map filter_r]. rewrite IH, Hs. destruct (in_scope scope r) as [b|]; [|done].
  cbn [mbind result_bind]. destruct (filter_r _ l); [|done]. by destruct b.
Qed.

Definition redact_dated (x : datetime * dict pyval * dict pyval) : datetime * dict pyval * dict pyval := (fst x, redact_row (snd x)).

Lemma deletion_times_redact l : deletion_times (map redact_row l) = fmap_r (sum_map (map redact_dated) redact_row) (deletion_times l).
Proof.
  induction l as [|r l IH]; [done|]. cbn [map deletion_times]. rewrite IH, data_of_redact.
  destruct (data_of r) as [d|]; [|done]. cbn [mbind result_bind]. destruct (parse_ts _); [|done].
  destruct (deletion_times l) as [[k|b]|]; done.
Qed.

Lemma sort_redact l : sort earlier (map redact_dated l) = map redact_dated (sort earlier l).
Proof.
  induction l as [|x l IH]; [done|]. cbn [map sort foldr]. fold (sort earlier (map redact_dated l)). rewrite IH. fold (sort earlier l). clear IH.
  induction (sort earlier l) as [|y k IHk]; [done|]. cbn [map insert_sorted].
  change (earlier (redact_dated x) (redact_dated y)) with (earlier x y). destruct (earlier x y); [done|]. cbn [map]. by rewrite IHk.
Qed.

Lemma retention_status_redact ingest l max_days backup_max now scope :
  retention_status (redact_row <$> ingest) (map redact_row l) max_days backup_max now scope =
  retention_status ingest l max_days backup_max now scope.
Proof.
  unfold retention_status. destruct ingest as [row|]; [|done]. cbn [fmap option_fmap option_map].
  destruct (match backup_max with Some _ => _ | None => _ end); [|done]. rewrite data_of_redact.
  destruct (data_of row) as [d|]; [|done]. cbn [mbind result_bind]. destruct (parse_ts _) as [received|]; [|done].
  destruct (add_days _ _) as [due|]; [|done]. cbn [mbind result_bind]. destruct (age_days _ _) as [age|]; [|done].
  cbn [mbind result_bind]. rewrite filter_r_redact. destruct (filter_r _ l) as [[|r relevant]|]; [done| |done].
  cbn [fmap_r mbind result_bind]. change (map redact_row (r :: relevant)) with (redact_row r :: map redact_row relevant).
  cbv iota. rewrite <- (map_cons redact_row), deletion_times_redact.
  destruct (deletion_times (r :: relevant)) as [[k|bad]|]; [|by cbn; rewrite vget_redact|done].
  cbn [fmap_r sum_map mbind result_bind]. rewrite sort_redact. destruct (sort earlier k) as [|[[t d'] x] k']; [done|].
  cbn. by rewrite vget_redact.
Qed.

Lemma foldM_map {E S A} (f : S -> A -> result E S) (g : S -> S) (h : A -> A) s l :
  (forall s a, f (g s) (h a) = fmap_r g (f s a)) -> foldM f (g s) (map h l) = fmap_r g (foldM f s l).
Proof.
  intros Hf. revert s. induction l as [|a l IH]; intros s; [done|]. cbn [map foldM]. rewrite Hf. destruct (f s a); [apply IH|done].
Qed.

Lemma mapM_r_map {E A B C} (f : B -> result E C) (h : A -> B) l : mapM_r f (map h l) = mapM_r (fun a => f (h a)) l.
Proof. induction l as [|a l IH]; [done|]. cbn [map mapM_r]. by rewrite IH. Qed.

Lemma mapM_r_ext {E A B} (f g : A -> result E B) l : (forall a, f a = g a) -> mapM_r f l = mapM_r g l.
Proof. intros Hf. induction l as [|a l IH]; [done|]. cbn [mapM_r]. by rewrite Hf, IH. Qed.

(** A function on the values of a dict. *)
Definition over {A B} (f : A -> B) (d : dict A) : dict B := map (fun kv => (fst kv, f (snd kv))) d.

Lemma dget_over {A B} (f : A -> B) d k : dget (over f d) k = f <$> dget d k.
Proof. unfold over. induction d as [|[k' v] d IH]; [done|]. cbn. by destruct (String.eqb k' k). Qed.
Lemma dset_over {A B} (f : A -> B) d k v : dset (over f d) k (f v) = over f (dset d k v).
Proof. unfold over. induction d as [|[k' v'] d IH]; [done|]. cbn. destruct (String.eqb k' k); cbn; by rewrite ?IH. Qed.
Lemma dkeys_over {A B} (f : A -> B) d : dkeys (over f d) = dkeys d.
Proof. unfold dkeys, over. by rewrite map_map. Qed.

Lemma add_ingest_redact acc r : add_ingest (over redact_row acc) (redact_row r) = fmap_r (over redact_row) (add_ingest acc r).
Proof.
  unfold add_ingest. rewrite data_of_redact. destruct (data_of r) as [d|]; [|done]. cbn [mbind result_bind fmap_r].
  f_equal. destruct (str_true _); [apply dset_over|done].
Qed.

Lemma add_deletion_redact acc r :
  add_deletion (over (map redact_row) acc) (redact_row r) = fmap_r (over (map redact_row)) (add_deletion acc r).
Proof.
  unfold add_deletion. rewrite data_of_redact. destruct (data_of r) as [d|]; [|done]. cbn [mbind result_bind fmap_r].
  f_equal. destruct (str_true _); [|done]. rewrite <- dset_over, map_app, dget_over. by destruct (dget acc _).
Qed.

Lemma assess_redact c ingests deletions now :
  assess_counterparty c (map redact_row ingests) (map redact_row deletions) now = assess_counterparty c ingests deletions now.
Proof.
  unfold assess_counterparty. destruct (retention_max_days c) as [m|]; [|done]. cbn [mbind result_bind].
  destruct (backup_max_days c) as [b|]; [|done]. cbn [mbind result_bind]. destruct (get_counterparty_id c) as [cp|]; [|done].
  cbn [mbind result_bind].
  pose proof (foldM_map add_ingest (over redact_row) redact_row [] ingests add_ingest_redact) as Hi.
  pose proof (foldM_map add_deletion (over (map redact_row)) redact_row [] deletions add_deletion_redact) as Hd.
  cbn [over map] in Hi, Hd. rewrite Hi, Hd. clear Hi Hd.
  destruct (foldM add_ingest [] ingests) as [bi|]; [|done]. cbn [fmap_r mbind result_bind].
  destruct (foldM add_deletion [] deletions) as [dels|]; [|done]. cbn [fmap_r mbind result_bind]. rewrite !dkeys_over.
  apply mapM_r_ext. intros [i scope]. unfold assess_one. rewrite !dget_over.
  rewrite <- (retention_status_redact (dget bi i) (match dget dels i with Some l => l | None => [] end)).
  by destruct (dget dels i).
Qed.

Lemma approvals_redact egress approvals :
  check_subcontractor_approvals (map redact_row egress) (map redact_row approvals) = check_subcontractor_approvals egress approvals.
Proof.
  unfold check_subcontractor_approvals, latest_approval_states.
  assert (Hl : foldM approval_step [] (map redact_row approvals) = foldM approval_step [] approvals).
  { generalize (@nil (string * dict pyval)). induction approvals as [|r approvals IH]; intros st; [done|]. cbn [map foldM].
    assert (Hs : approval_step st (redact_row r) = approval_step st r)
      by (unfold approval_step; rewrite data_of_redact; rewrite vget_redact by done; reflexivity).
    rewrite Hs. destruct (approval_step st r); [apply IH|done]. }
  rewrite Hl. clear Hl. destruct (foldM approval_step [] approvals) as [states|]; cbn [mbind result_bind]; [|reflexivity]. rewrite mapM_r_map.
  rewrite (mapM_r_ext _ (check_egress_row states)); [done|]. intros r. unfold check_egress_row. by rewrite data_of_redact, vget_redact.
Qed.

Lemma of_kind_redact k rows : of_kind k (map redact_row rows) = map redact_row (of_kind k rows).
Proof.
  unfold of_kind. induction rows as [|r rows IH]; [done|]. cbn [map List.filter]. rewrite vget_redact, IH by done.
  by destruct (String.eqb _ _).
Qed.

Lemma chain_redact rows : partition_chain (map redact_row rows) = partition_chain rows.
Proof.
  unfold partition_chain. generalize 0%nat, "genesis". induction rows as [|r rows IH]; intros n run; [done|].
  cbn [map chain_from]. assert (Hh : row_hash (redact_row r) = row_hash r) by (unfold row_hash, text_of; by rewrite vget_redact).
  by rewrite Hh, IH, vget_redact.
Qed.

Lemma head_redact rows : partition_head (map redact_row rows) = partition_head rows.
Proof. unfold partition_head. by rewrite chain_redact. Qed.

(** The report, from the rows it shows alone. *)
Lemma report_redact c cp rows now priv pub issued clock :
  build_report c cp (map redact_row rows) now priv pub issued clock = build_report c cp rows now priv pub issued clock.
Proof.
  unfold build_report. rewrite !of_kind_redact, assess_redact, approvals_redact.
  assert (Hs : signed_receipt cp (map redact_row rows) priv pub issued clock = signed_receipt cp rows priv pub issued clock)
    by (unfold signed_receipt, issue_anchor_receipt; by rewrite head_redact, length_map).
  rewrite Hs, head_redact, chain_redact, length_map, map_map.
  by rewrite (map_ext (fun r => redact_row (redact_row r)) redact_row redact_redact).
Qed.

(** Two rows of one content, wherever they are in the global sequence. *)
Definition same_but_id (r r' : row) : Prop := forall k, k <> "id" -> vget r k = vget r' k.

Variable loads : string -> result pyexn pyval.

Lemma items_redact rows rows' limit : Forall2 same_but_id rows rows' ->
  fmap_r (map redact_row) (mapM_r (contract_item loads) (take limit rows)) =
  fmap_r (map redact_row) (mapM_r (contract_item loads) (take limit rows')).
Proof.
  intros Hf. revert limit. induction Hf as [|r r' rows rows' Hr _ IH]; intros [|limit]; [done..|]. cbn [take mapM_r].
  specialize (IH limit). unfold contract_item at 1 3. 
  rewrite (Hr "record_kind"), (Hr "cassette_version"), (Hr "data"), (Hr "decision_output"), (Hr "cassette_hash"),
    (Hr "authorized_by"), (Hr "previous_hash"), (Hr "current_hash") by done.
  destruct (as_json loads (vget r' "data")) as [d|]; [|done]. cbn [mbind result_bind].
  destruct (as_json loads (vget r' "decision_output")) as [o|]; [|done]. cbn [mbind result_bind].
  destruct (mapM_r _ (take limit rows)), (mapM_r _ (take limit rows')); cbn [fmap_r] in *; try congruence.
  injection IH as IH. cbn [map]. by rewrite IH.
Qed.

(** C11 (the report is the counterparty's own): two ledgers that hold the same
    contract rows of a counterparty, up to where they stand in the global
    sequence, give it the same report, or the same exception; no row of another
    counterparty enters it. *)
Theorem report_is_scoped c now priv pub issued clock table table' :
  (forall cp, get_counterparty_id c = Ok cp ->
     Forall2 same_but_id (List.filter (contract_row_of CONTRACT_KINDS (py_str cp)) table)
                         (List.filter (contract_row_of CONTRACT_KINDS (py_str cp)) table')) ->
  build_attestation loads c now priv pub issued clock table = build_attestation loads c now priv pub issued clock table'.
Proof.
  intros Hf. unfold build_attestation. destruct (get_counterparty_id c) as [cp|]; [|done]. specialize (Hf cp eq_refl).
  cbn [lift_lens map_err mbind result_bind]. unfold counterparty_rows, get_contract_rows. destruct (py_true cp); [|done].
  destruct (blank _); [done|]. destruct (negb _); [done|]. pose proof (items_redact _ _ CONTRACT_ROWS_LIMIT Hf) as Hi.
  destruct (mapM_r _ _) as [rows|], (mapM_r _ _) as [rows'|]; cbn [fmap_r] in Hi; try congruence.
  injection Hi as Hi. cbn [lift_lens map_err mbind result_bind]. rewrite <- (report_redact c cp rows), <- (report_redact c cp rows'). by rewrite Hi.
Qed.
End Scope.

(* ------------------------------------------------------------------ *)
(** ** At the sample counterparty *)

#[local] Existing Instance sample_hashes.
#[local] Existing Instance sample_float_repr.
#[local] Existing Instance sample_cns.
#[local] Existing Instance sample_postgres.
#[local] Existing Instance sample_crypto.

(** A row of a counterparty, at a place in the global sequence. *)
Definition contract_row (id : Z) (cp ingest_id hash : string) : row :=
  [("id", VInt id); ("record_kind", VStr "contract_ingest"); ("cassette_version", VStr "contract:example:1.0.0");
   ("data", VDict [("counterparty", VStr cp); ("ingest_id", VStr ingest_id); ("received_at", VStr "1")]);
   ("decision_output", VNone); ("current_hash", VStr hash)].
Notation own := (fun id => contract_row id "example-counterparty").

Definition table_1 : list row := [own 1%Z "R1" "h1"; own 2%Z "R2" "h2"].
Definition table_2 : list row := [own 41%Z "R1" "h1"; contract_row 42 "umbrella" "R1" "h3"; own 87%Z "R2" "h2"].
Notation report_on := (build_attestation no_loads dpa (day 120) None None None (day 120)).

Lemma report_is_scoped_witness :
  report_on table_1 = report_on table_2 /\ match report_on table_1 with Ok rp => rp_row_count rp = 2%nat | Err _ => False end.
Proof.
  split; [|vm_compute; reflexivity]. apply (report_is_scoped no_loads dpa (day 120) None None None (day 120) table_1 table_2).
  intros cp [= <-].
  change (List.filter _ table_1) with table_1. change (List.filter _ table_2) with [own 41%Z "R1" "h1"; own 87%Z "R2" "h2"].
  repeat constructor; intros k Hk; unfold vget; cbn [contract_row dget];
    (destruct (String.eqb_spec "id" k) as [<-|_]; [by destruct Hk|reflexivity]).
Defined.

Definition no_receipt : AnchorReceipt := mkReceipt VNone "" 0 "" "" "" "".
Definition sample_receipt : AnchorReceipt :=
  match issue_anchor_receipt (VStr "example-counterparty") table_1 (b64e sample_priv) (b64e (ed25519_public sample_priv)) (Some "1") (day 1) with
  | Ok r => r
  | Err _ => no_receipt
  end.

Lemma receipt_pins_the_rows_witness :
  verify_continuity sample_receipt (table_1 ++ [own 99%Z "R3" "h9"]) (b64e (ed25519_public sample_priv)) =
    Ok (CONTINUOUS 2 3 (partition_head (table_1 ++ [own 99%Z "R3" "h9"]))).
Proof.
  assert (E : issue_anchor_receipt (VStr "example-counterparty") table_1 (b64e sample_priv) (b64e (ed25519_public sample_priv))
                (Some "1") (day 1) = Ok sample_receipt) by (vm_compute; reflexivity).
  exact (proj1 (receipt_pins_the_rows (VStr "example-counterparty") table_1 sample_priv (Some "1") (day 1) sample_receipt
                  eq_refl E) [own 99%Z "R3" "h9"]).
Defined.

(** Two egresses of one counterparty, and a row of another between them. *)
Definition of_another (l : ledger) : ledger :=
  snd (transact os_after "t" true (record_contract_approval os_after "contract:umbrella:1.0.0" "umbrella" "B1" "granted" "officer"
    "acme" "subcontractor" "statements" "1" None None None) l).
Definition together : ledger := snd (ask "6" (snd (ask "5" granted_on_1))).
Definition parted : ledger := snd (ask "6" (of_another (snd (ask "5" granted_on_1)))).

(** Whether each row shown follows the one before it in the global chain. *)
Fixpoint follows (rows : list (dict pyval)) : list bool :=
  match rows with
  | r :: (r' :: _) as rest => py_eq (vget r' "previous_hash") (vget r "current_hash") :: follows rest
  | _ => []
  end.

(** The report says whether anyone else wrote between two rows of the
    counterparty: the previous hash it shows is the hash of the row before it
    exactly when nothing came between. *)
Theorem previous_hash_shows_others :
  match report_on (l_rows together), report_on (l_rows parted) with
  | Ok rp, Ok rp' => follows (rp_egress rp) = [true] /\ follows (rp_egress rp') = [false]
  | _, _ => False
  end.
Proof. vm_compute. split; reflexivity. Qed.
